(** * Motion-Rendering-React: frame-driven overlay components

    Every component of the repository is a function of the current frame
    (useCurrentFrame), the composition's video configuration
    (useVideoConfig) and its props, returning a React element tree.  This
    development embeds the components of the repository, together with
    the parts of the rendering framework they call (interpolate, Easing,
    spring, useMemo, random, Math.random).

    Numbers.  A JavaScript number is modelled by an exact number type:
    the rationals [Q] (executable) or the reals [R] (for Math.sin,
    Math.cos, Math.PI and the Bezier easing).  The component code is
    written once, over the interface [JsNum]; in the exact models IEEE
    rounding, NaN and the infinities do not exist, and an operation whose
    JavaScript result would be NaN or infinite (a zero divisor) is reported
    as the error [NonFinite].  A third instance, IEEE 754 binary64 [float],
    runs the same code with JavaScript's own arithmetic on concrete
    frames, with Math.sin, Math.cos and Math.exp as fdlibm computes them
    ([Fdlibm]).  What the exact models prove of a range, of an integer
    result or of an equality in the code's own order of evaluation is
    read the same on binary64; that a sine comes back to the same value
    one period later holds in exact arithmetic only, and on binary64 up
    to rounding. *)

From Stdlib Require Import ZArith QArith Qround Reals Zfloor Psatz.
From Stdlib Require Import Floats Uint63.
From Stdlib Require Import List String Bool.
Import ListNotations.

Set Implicit Arguments.
Set Warnings "-register-all".
Local Open Scope string_scope.
Local Open Scope list_scope.

(* ================================================================== *)
(** ** Numbers *)

Class JsNum (N : Type) : Type := {
  ofZ : Z -> N;
  add : N -> N -> N;
  sub : N -> N -> N;
  mul : N -> N -> N;
  quo : N -> N -> N;
  ltb : N -> N -> bool;
  eqb : N -> N -> bool;
  floorZ : N -> Z;
  ceilZ : N -> Z
}.

(** Math.sin, Math.cos, Math.exp and Math.PI. *)
Class JsMath (N : Type) : Type := {
  Math_sin : N -> N;
  Math_cos : N -> N;
  Math_exp : N -> N;
  Math_PI : N
}.

(** Modelled from the spec: the solver inside Remotion's Easing.bezier.
    [getTForX mX1 mX2 aX] is the curve parameter at which the x coordinate
    of the cubic Bezier curve with control abscissae [mX1], [mX2] equals
    [aX]; the library approximates it numerically. *)
Class BezierSolver (N : Type) : Type := {
  getTForX : N -> N -> N -> N
}.

(** Modelled from the spec: Remotion's seeded random(seed), a fixed
    function of its seed ("seeded pseudo-random particle layout"). *)
Class SeededRandom (N : Type) : Type := {
  random : N -> N
}.

(** Modelled from the spec: Remotion's interpolateColors, taken as a
    function from the input and the two ranges to a CSS colour. *)
Class ColorMix (N : Type) : Type := {
  interpolateColors : N -> list N -> list string -> string
}.

Declare Scope js_scope.
Delimit Scope js_scope with js.
Bind Scope js_scope with JsNum.

Notation "x + y" := (add x y) : js_scope.
Notation "x - y" := (sub x y) : js_scope.
Notation "x * y" := (mul x y) : js_scope.
Notation "x <? y" := (ltb x y) : js_scope.
Notation "x >? y" := (ltb y x) : js_scope.
Notation "x <=? y" := (negb (ltb y x)) : js_scope.
Notation "x >=? y" := (negb (ltb x y)) : js_scope.
Notation "x =? y" := (eqb x y) : js_scope.
Notation "' z" := (ofZ z%Z) (at level 1, format "' z") : js_scope.

(** JavaScript's numbers themselves: binary64 floats.  [float_ofZ] is
    exact for the integers of magnitude below 2^53 the code uses. *)
Definition float_ofZ (z : Z) : float :=
  match z with
  | Z0 => PrimFloat.zero
  | Zpos _ => PrimFloat.of_uint63 (Uint63.of_Z z)
  | Zneg p => PrimFloat.opp (PrimFloat.of_uint63 (Uint63.of_Z (Zpos p)))
  end.

Definition float_floorZ (f : float) : Z :=
  match Prim2SF f with
  | S754_finite negative m e =>
      if (0 <=? e)%Z then
        if negative then (- (Zpos m * 2 ^ e))%Z else (Zpos m * 2 ^ e)%Z
      else if negative then ((- Zpos m) / 2 ^ (- e))%Z
      else (Zpos m / 2 ^ (- e))%Z
  | _ => 0%Z
  end.

Definition float_ceilZ (f : float) : Z := (- float_floorZ (PrimFloat.opp f))%Z.

#[export] Instance JsNum_float : JsNum float := {|
  ofZ := float_ofZ;
  add := PrimFloat.add;
  sub := PrimFloat.sub;
  mul := PrimFloat.mul;
  quo := PrimFloat.div;
  ltb := PrimFloat.ltb;
  eqb := PrimFloat.eqb;
  floorZ := float_floorZ;
  ceilZ := float_ceilZ
|}.

#[export] Instance JsNum_Q : JsNum Q := {|
  ofZ := inject_Z;
  add := Qplus;
  sub := Qminus;
  mul := Qmult;
  quo := Qdiv;
  ltb := fun a b => if Qlt_le_dec a b then true else false;
  eqb := Qeq_bool;
  floorZ := Qfloor;
  ceilZ := Qceiling
|}.

#[export] Instance JsNum_R : JsNum R := {|
  ofZ := IZR;
  add := Rplus;
  sub := Rminus;
  mul := Rmult;
  quo := Rdiv;
  ltb := fun a b => if Rlt_dec a b then true else false;
  eqb := fun a b => if Req_dec_T a b then true else false;
  floorZ := Zfloor;
  ceilZ := Zceil
|}.

#[export] Instance JsMath_R : JsMath R := {|
  Math_sin := sin;
  Math_cos := cos;
  Math_exp := exp;
  Math_PI := PI
|}.

(* ================================================================== *)
(** ** Exceptions *)

Inductive Error : Type :=
| RangeError (msg : string)
| TypeError (msg : string)
| GenericError (msg : string)
| NonFinite (operation : string).

Inductive Result (A : Type) : Type :=
| Ok (a : A)
| Throw (e : Error).
Arguments Throw {A} e.

Definition Result_bind {A B} (r : Result A) (k : A -> Result B) : Result B :=
  match r with
  | Ok a => k a
  | Throw e => Throw e
  end.

Definition Result_map {A B} (f : A -> B) (r : Result A) : Result B :=
  Result_bind r (fun a => Ok (f a)).

Definition succeeded {A} (r : Result A) : bool :=
  match r with Ok _ => true | Throw _ => false end.

Declare Scope result_scope.
Delimit Scope result_scope with result.
Notation "x <- e ;; k" := (Result_bind e (fun x => k))
  (at level 61, e at next level, right associativity) : result_scope.

Section Arithmetic.
Context {N : Type} `{JsNum N}.
Local Open Scope js_scope.

(** A decimal literal such as 0.1 ([dec 1 10]) or 1.02 ([dec 102 100]). *)
Definition dec (n d : Z) : N := quo ('n) ('d).

Definition neg (x : N) : N := '0 - x.

(** Math.floor and Math.ceil return numbers. *)
Definition Math_floor (x : N) : N := ' (floorZ x).
Definition Math_ceil (x : N) : N := ' (ceilZ x).

(** Rounding towards zero, as the remainder operator does. *)
Definition truncZ (x : N) : Z := if x <? '0 then ceilZ x else floorZ x.

(** [a / b]: JavaScript yields NaN or an infinity for [b = 0]. *)
Definition div (a b : N) : Result N :=
  if b =? '0 then Throw (NonFinite "/") else Ok (quo a b).

(** [a % b]: the remainder has the sign of the dividend; NaN for [b = 0]. *)
Definition rem (a b : N) : Result N :=
  if b =? '0 then Throw (NonFinite "%")
  else Ok (a - b * ' (truncZ (quo a b))).
End Arithmetic.

Notation "x / y" := (div x y) : js_scope.
Notation "x % y" := (rem x y) (at level 40, left associativity) : js_scope.

(* ================================================================== *)
(** ** Rendering: hook state and the global generator

    A render may touch two pieces of state: the memo cells React keeps
    for the component instance ([hooks]) and the engine's generator behind
    Math.random, modelled as a sequence [entropy] and the number of values
    already [drawn] from it. *)

Record World (H N : Type) : Type := mkWorld {
  hooks : H;
  entropy : nat -> N;
  drawn : nat
}.

Definition Render (H N A : Type) : Type := World H N -> Result (A * World H N).

Definition Render_ret {H N A} (a : A) : Render H N A := fun w => Ok (a, w).

Definition Render_bind {H N A B} (m : Render H N A) (k : A -> Render H N B)
  : Render H N B :=
  fun w => match m w with
           | Ok (a, w') => k a w'
           | Throw e => Throw e
           end.

Definition lift {H N A} (r : Result A) : Render H N A :=
  fun w => match r with
           | Ok a => Ok (a, w)
           | Throw e => Throw e
           end.

(** What the caller of a render sees: the returned value. *)
Definition output {H N A} (r : Result (A * World H N)) : Result A :=
  Result_map fst r.

Declare Scope render_scope.
Delimit Scope render_scope with render.
Notation "x <- e ;; k" := (Render_bind e (fun x => k))
  (at level 61, e at next level, right associativity) : render_scope.
Notation "x <~ e ;; k" := (Render_bind (lift e) (fun x => k))
  (at level 61, e at next level, right associativity) : render_scope.

(** Math.random(): the next value of the generator, which advances. *)
Definition Math_random {H N} : Render H N N :=
  fun w => Ok (entropy w (drawn w),
               mkWorld (hooks w) (entropy w) (S (drawn w))).

(** A memo cell: the dependency values of the last computation and its
    result. *)
Definition Memo (D V : Type) : Type := option (D * V).

(** Modelled from the spec: React's useMemo, which is not part of the
    repository.  The factory runs on the first render and whenever the
    dependencies differ from the stored ones; otherwise the stored value is
    returned.  [get] and [set] select the cell of this call among the
    component's hooks. *)
Definition useMemo {H N D V}
    (get : H -> Memo D V) (set : Memo D V -> H -> H)
    (same : D -> D -> bool)
    (factory : Render H N V) (deps : D) : Render H N V :=
  fun w =>
    let compute :=
      match factory w with
      | Ok (v, w') =>
          Ok (v, mkWorld (set (Some (deps, v)) (hooks w')) (entropy w') (drawn w'))
      | Throw e => Throw e
      end in
    match get (hooks w) with
    | Some (d, v) => if same d deps then Ok (v, w) else compute
    | None => compute
    end.

(** The frame and the composition's configuration, as useCurrentFrame and
    useVideoConfig return them. *)
Record VideoConfig : Type := mkVideoConfig {
  fps : Z;
  durationInFrames : Z;
  width : Z;
  height : Z
}.

(* ================================================================== *)
(** ** The framework's interpolate and Easing *)

Inductive ExtrapolateType : Type := extend | identity | clamp.

Record InterpolateOptions (N : Type) : Type := mkOptions {
  easing : N -> N;
  extrapolateLeft : ExtrapolateType;
  extrapolateRight : ExtrapolateType
}.

Section Interpolation.
Context {N : Type} `{JsNum N}.
Local Open Scope js_scope.

Definition Easing_linear (t : N) : N := t.
Definition Easing_quad (t : N) : N := t * t.
Definition Easing_out (easing : N -> N) (t : N) : N := '1 - easing ('1 - t).

(** The polynomial of a cubic Bezier coordinate with inner control values
    [aA1] and [aA2] (the outer ones are 0 and 1). *)
Definition calcBezier (aT aA1 aA2 : N) : N :=
  let a := '1 - '3 * aA2 + '3 * aA1 in
  let b := '3 * aA2 - '6 * aA1 in
  let c := '3 * aA1 in
  ((a * aT + b) * aT + c) * aT.

(** Modelled from the spec: Remotion's Easing.bezier.  It throws unless
    both control abscissae lie in [0, 1]; the easing maps x to the curve's y
    at the parameter where the curve's x is reached, with the two ends
    fixed. *)
Definition Easing_bezier `{BezierSolver N} (mX1 mY1 mX2 mY2 : N)
  : Result (N -> N) :=
  if negb ((mX1 >=? '0) && (mX1 <=? '1) && (mX2 >=? '0) && (mX2 <=? '1)) then
    Throw (GenericError "bezier x values must be in [0, 1] range")
  else
    Ok (fun x =>
          if (mX1 =? mY1) && (mX2 =? mY2) then x
          else if x =? '0 then '0
          else if x =? '1 then '1
          else calcBezier (getTForX mX1 mX2 x) mY1 mY2).

(** The options an omitted argument stands for. *)
Definition default_options : InterpolateOptions N :=
  mkOptions Easing_linear extend extend.

Definition clamped : InterpolateOptions N :=
  mkOptions Easing_linear clamp clamp.

(** Modelled from the spec: one segment of Remotion's interpolate, "linear
    (or eased) mapping from an input range to an output range", with the
    extrapolation applied on each side first. *)
Definition interpolateFunction (input inputMin inputMax outputMin outputMax : N)
    (options : InterpolateOptions N) : N :=
  let scale (result : N) : N :=
    if outputMin =? outputMax then outputMin
    else
      let result := quo (result - inputMin) (inputMax - inputMin) in
      let result := easing options result in
      result * (outputMax - outputMin) + outputMin in
  let right (result : N) : N :=
    if result >? inputMax then
      match extrapolateRight options with
      | identity => result
      | clamp => scale inputMax
      | extend => scale result
      end
    else scale result in
  if input <? inputMin then
    match extrapolateLeft options with
    | identity => input
    | clamp => right inputMin
    | extend => right input
    end
  else right input.

(** The segment of [inputRange] that [input] falls into. *)
Fixpoint findRange_from (i : nat) (input : N) (rest : list N) : nat :=
  match rest with
  | x :: ((_ :: _) as tl) =>
      if x >=? input then i else findRange_from (S i) input tl
  | _ => i
  end.

Definition findRange (input : N) (inputRange : list N) : nat :=
  Nat.pred (findRange_from 1 input (tl inputRange)).

Fixpoint strictly_increasing (arr : list N) : bool :=
  match arr with
  | a :: ((b :: _) as tl) => (b >? a) && strictly_increasing tl
  | _ => true
  end.

(** Modelled from the spec: Remotion's interpolate.  It throws when the
    ranges differ in length, have fewer than two elements, or the input
    range is not strictly increasing. *)
Definition interpolate (input : N) (inputRange outputRange : list N)
    (options : InterpolateOptions N) : Result N :=
  if negb (Nat.eqb (List.length inputRange) (List.length outputRange)) then
    Throw (GenericError "inputRange and outputRange must have the same length")
  else if Nat.ltb (List.length inputRange) 2 then
    Throw (GenericError "inputRange must have at least 2 elements")
  else if negb (strictly_increasing inputRange) then
    Throw (GenericError "inputRange must be strictly monotonically increasing")
  else
    let range := findRange input inputRange in
    match nth_error inputRange range, nth_error inputRange (S range),
          nth_error outputRange range, nth_error outputRange (S range) with
    | Some inputMin, Some inputMax, Some outputMin, Some outputMax =>
        Ok (interpolateFunction input inputMin inputMax outputMin outputMax
              options)
    | _, _, _, _ => Throw (TypeError "range element is not a number")
    end.
End Interpolation.

(* ================================================================== *)
(** ** Element trees

    A string built by a template literal keeps the numbers it was built
    from and every character of its text, line breaks and indentation
    included; a prop or style value is a number, a string, a boolean, an
    object or an array.  The children of an element are what JSX makes
    of them: text that shares a line with a tag or an expression stays,
    white space that holds a line break goes. *)

Inductive Piece (N : Type) : Type :=
| Lit (s : string)
| Num (x : N).
Arguments Lit {N} s.

Definition Str (N : Type) : Type := list (Piece N).

Inductive Val (N : Type) : Type :=
| VNum (x : N)
| VStr (s : Str N)
| VBool (b : bool)
| VObj (fields : list (string * Val N))
| VArr (items : list (Val N)).
Arguments VBool {N} b.

Inductive Element (N : Type) : Type :=
| Node (tag : string) (props : list (string * Val N)) (children : list (Element N))
| Items (elements : list (Element N))
| Text (s : Str N).

Definition str {N} (s : string) : Val N := VStr [Lit s].

(** Array combinators in the two monads. *)
Fixpoint mapM {A B} (f : A -> Result B) (l : list A) : Result (list B) :=
  match l with
  | [] => Ok []
  | a :: tl =>
      Result_bind (f a) (fun b =>
      Result_bind (mapM f tl) (fun bs => Ok (b :: bs)))
  end.

Fixpoint mapR {H N A B} (f : A -> Render H N B) (l : list A)
  : Render H N (list B) :=
  match l with
  | [] => Render_ret []
  | a :: tl =>
      Render_bind (f a) (fun b =>
      Render_bind (mapR f tl) (fun bs => Render_ret (b :: bs)))
  end.

(** The indices [0 .. n-1] of an array of length [n]. *)
Definition indices (n : nat) : list Z := List.map Z.of_nat (seq 0 n).

(** [arr.map((x, i) => ...)]: the elements with their indices. *)
Definition with_index {A} (l : list A) : list (A * Z) :=
  combine l (indices (List.length l)).

(** [new Array(n).fill(0)]: a RangeError unless [n] is a valid length. *)
Definition new_Array (n : Z) : Result (list Z) :=
  if (n <? 0)%Z || (2 ^ 32 <=? n)%Z then Throw (RangeError "Invalid array length")
  else Ok (indices (Z.to_nat n)).

(* ================================================================== *)
(** ** Child elements, arrays as objects, spring

    An element of a function component is kept as written, with what the
    component renders for it as its only child. *)

Definition rendered_as {N} (name : string) (props : list (string * Val N))
    (rendered : Element N) : Element N :=
  Node name props [rendered].

(** The hooks of a child element are a part of the hooks of the tree it
    is rendered in. *)
Definition child {H Hc N A} (get : H -> Hc) (set : Hc -> H -> H)
    (m : Render Hc N A) : Render H N A :=
  fun w =>
    match m (mkWorld (get (hooks w)) (entropy w) (drawn w)) with
    | Ok (a, wc) =>
        Ok (a, mkWorld (set (hooks wc) (hooks w)) (entropy wc) (drawn wc))
    | Throw e => Throw e
    end.

(** The line feed character, for the template literals that span lines. *)
Definition line_feed : string :=
  String (Ascii.Ascii false true false true false false false false) EmptyString.

(** The double quote character, for the strings that contain it. *)
Definition double_quote : string :=
  String (Ascii.Ascii false true false false false true false false) EmptyString.

(** A JavaScript array is an object: a variable and a memo cell hold a
    reference to it, and a method that works in place, such as reverse(),
    changes the array for every holder of the reference. *)
Definition Ref : Type := nat.
Definition Heap (A : Type) : Type := list (list A).

Definition allocate {A} (arr : list A) (heap : Heap A) : Ref * Heap A :=
  (List.length heap, heap ++ [arr]).

Definition dereference {A} (heap : Heap A) (r : Ref) : option (list A) :=
  nth_error heap r.

Fixpoint assign {A} (r : Ref) (arr : list A) (heap : Heap A) : Heap A :=
  match heap, r with
  | [], _ => []
  | _ :: rest, O => arr :: rest
  | a :: rest, S r' => a :: assign r' arr rest
  end.

(** [Array.from({length: n})]: the indices of an array of length [n]. *)
Definition Array_from (n : Z) : list Z := indices (Z.to_nat n).

Record SpringConfig (N : Type) : Type := mkSpringConfig {
  mass : N;
  damping : N;
  stiffness : N
}.

(** The argument of spring(); an omitted [delay] is 0. *)
Record SpringArgs (N : Type) : Type := mkSpring {
  spring_frame : N;
  spring_fps : N;
  spring_config : SpringConfig N;
  spring_durationInFrames : option N;
  spring_delay : N
}.

(** Modelled from the spec: the position at [spring_frame] of Remotion's
    damped spring from 0 to 1, a fixed function of the arguments. *)
Class SpringCurve (N : Type) : Type := {
  springCalculation : SpringArgs N -> N
}.

Section Spring.
Context {N : Type} `{JsNum N} `{SpringCurve N}.
Local Open Scope js_scope.

(** Modelled from the spec: Remotion's spring.  It throws unless the
    duration, when given, and the frame rate are positive. *)
Definition spring (args : SpringArgs N) : Result N :=
  let positive_duration :=
    match spring_durationInFrames args with
    | Some d => d >? '0
    | None => true
    end in
  if negb positive_duration then
    Throw (TypeError "A duration of a spring must be positive")
  else if spring_fps args <=? '0 then
    Throw (TypeError "fps must be positive")
  else Ok (springCalculation args).
End Spring.

(* ================================================================== *)
(** ** segmentedCountdown30.tsx: SegmentedCountdown *)

Module SegmentedCountdown.

Record CountdownProps : Type := mkProps {
  ticksCount : Z;
  radius : Z;
  tickLength : Z;
  tickWidth : Z;
  activeColor : string;
  trackColor : string;
  fontFamily : string
}.

Definition defaultProps : CountdownProps := {|
  ticksCount := 100;
  radius := 450;
  tickLength := 60;
  tickWidth := 12;
  activeColor := "#00F0FF";
  trackColor := "#1a1a1a04";
  fontFamily := "Roboto, Inter, Helvetica, Arial, sans-serif"
|}.

(** durationInSeconds: 30 at 30 frames per second, 3840 x 2160. *)
Definition compositionConfig : VideoConfig := mkVideoConfig 30 (30 * 30) 3840 2160.

(** The single memo cell of the component: the tick angles, keyed by
    [ticksCount]. *)
Definition Hooks (N : Type) : Type := Memo Z (list N).

Section Tick.
Context {N : Type} `{JsNum N} `{JsMath N}.
Local Open Scope js_scope.

(** Trigonometry to place ticks in a circle; 0 starts at the top. *)
Definition Tick (angle opacity : N) (radius length width : N)
    (color : string) (glow : bool) : Element N :=
  let rad := (angle - '90) * quo Math_PI ('180) in
  let x := Math_cos rad * radius in
  let y := Math_sin rad * radius in
  Node "div"
    [("style", VObj [("position", str "absolute");
                     ("left", str "50%");
                     ("top", str "50%");
                     ("width", VNum length);
                     ("height", VNum width);
                     ("backgroundColor", str color);
                     ("borderRadius", VNum (quo width ('2)));
                     ("transform",
                       VStr [Lit "translate(-50%, -50%) translate(";
                             Num x; Lit "px, "; Num y; Lit "px) rotate(";
                             Num angle; Lit "deg)"]);
                     ("opacity", VNum opacity);
                     ("boxShadow",
                       if glow then VStr [Lit "0 0 15px "; Lit color]
                       else str "none");
                     ("transition", str "opacity 0.1s linear")])]
    [].
End Tick.

Section Component.
Context {N : Type} `{JsNum N} `{JsMath N}.
Local Open Scope js_scope.

(** Counts down from 30 to 0. *)
Definition remainingSeconds (frame : Z) (cfg : VideoConfig) : Result N :=
  (r <- interpolate ('frame) ['0; '(durationInFrames cfg)] ['30; '0] clamped ;;
   Ok (Math_ceil r))%result.

(** Subtle pulse every second on the text. *)
Definition textScale (frame : Z) (cfg : VideoConfig) : Result N :=
  (m <- 'frame % '(fps cfg) ;;
   beat <- m / '(fps cfg) ;;
   interpolate beat ['0; dec 1 10; '1] ['1; dec 102 100; '1]
     (mkOptions (Easing_out Easing_quad) extend extend))%result.

Definition progress (frame : Z) (cfg : VideoConfig) : Result N :=
  interpolate ('frame) ['0; '(durationInFrames cfg)] ['1; '0] clamped.

(** The exact index of the "current" tick that is fading out. *)
Definition currentTickThreshold (props : CountdownProps) (frame : Z)
    (cfg : VideoConfig) : Result N :=
  (p <- progress frame cfg ;; Ok (p * '(ticksCount props)))%result.

(** Pre-calculated angles. *)
Definition ticks (props : CountdownProps) : Render (Hooks N) N (list N) :=
  useMemo (fun h => h) (fun c _ => c) Z.eqb
    (idx <~ new_Array (ticksCount props) ;;
     lift (mapM (fun i => (step <- '360 / '(ticksCount props) ;;
                           Ok (step * 'i))%result) idx))%render
    (ticksCount props).

(** The opacity of active tick [i]. *)
Definition tickOpacity (currentTickThreshold : N) (i : Z) : N :=
  let diff := currentTickThreshold - 'i in
  if diff >? '1 then '1
  else if diff <? '0 then '0
  else diff.

(** The element [<Tick key={...} ... />]. *)
Definition Tick_element (key : string) (i : Z) (angle opacity : N)
    (props : CountdownProps) (color : string) (glow : bool) : Element N :=
  rendered_as "Tick"
    [("key", VStr [Lit key; Num ('i)]);
     ("angle", VNum angle);
     ("opacity", VNum opacity);
     ("radius", VNum ('(radius props)));
     ("length", VNum ('(tickLength props)));
     ("width", VNum ('(tickWidth props)));
     ("color", str color);
     ("glow", VBool glow)]
    (Tick angle opacity ('(radius props)) ('(tickLength props))
       ('(tickWidth props)) color glow).

Definition SegmentedCountdown (props : CountdownProps) (frame : Z)
    (cfg : VideoConfig) : Render (Hooks N) N (Element N) :=
  (remainingSeconds <~ remainingSeconds frame cfg ;;
   textScale <~ textScale frame cfg ;;
   currentTickThreshold <~ currentTickThreshold props frame cfg ;;
   ticks <- ticks props ;;
   Render_ret
     (Node "AbsoluteFill"
        [("style", VObj [("backgroundColor", str "#000000");
                         ("fontFamily", str (fontFamily props));
                         ("display", str "flex");
                         ("justifyContent", str "center");
                         ("alignItems", str "center")])]
        [Node "div"
           [("style", VObj [("position", str "relative");
                            ("width", VNum ('(radius props) * '2 + '200));
                            ("height", VNum ('(radius props) * '2 + '200))])]
           [Items (List.map (fun '(angle, i) =>
                     Tick_element "track-" i angle ('1) props
                       (trackColor props) false) (with_index ticks));
            Items (List.map (fun '(angle, i) =>
                     Tick_element "active-" i angle
                       (tickOpacity currentTickThreshold i) props
                       (activeColor props) true) (with_index ticks));
            Node "div"
              [("style", VObj [("position", str "absolute");
                               ("top", str "50%");
                               ("left", str "50%");
                               ("transform",
                                 VStr [Lit "translate(-50%, -50%) scale(";
                                       Num textScale; Lit ")"]);
                               ("display", str "flex");
                               ("flexDirection", str "column");
                               ("alignItems", str "center");
                               ("justifyContent", str "center");
                               ("textAlign", str "center")])]
              [Node "div"
                 [("style", VObj [("fontSize", VNum ('320));
                                  ("fontWeight", VNum ('700));
                                  ("color", str "white");
                                  ("fontVariantNumeric", str "tabular-nums");
                                  ("lineHeight", VNum (dec 8 10));
                                  ("letterSpacing", VNum (neg ('10)));
                                  ("textShadow",
                                    VStr [Lit "0 0 40px ";
                                          Lit (activeColor props);
                                          Lit "60"])])]
                 [Text [Num remainingSeconds]];
               Node "div"
                 [("style", VObj [("fontSize", VNum ('40));
                                  ("fontWeight", VNum ('400));
                                  ("color", str (activeColor props));
                                  ("letterSpacing", VNum ('12));
                                  ("opacity", VNum (dec 8 10));
                                  ("marginTop", VNum ('20))])]
                 [Text [Lit "SECONDS"]]]]]))%render.
End Component.


End SegmentedCountdown.


(* ================================================================== *)
(** ** cyberPunkLoadinRing.tsx: CleanProgressBar *)

Module CleanProgressBar.

(** durationInFrames: 300 (10 seconds at 30 fps). *)
Definition compositionConfig : VideoConfig := mkVideoConfig 30 300 3840 2160.

Section Component.
Context {N : Type} `{JsNum N}.
Local Open Scope js_scope.

Definition backgroundColor : string := "#000000".
Definition primaryColor : string := "#4CAF50".
Definition trackColor : string := "#222222".
Definition textColor : string := "#FFFFFF".
Definition fontFamily : string :=
  ("-apple-system, BlinkMacSystemFont, " ++ double_quote ++ "Segoe UI"
   ++ double_quote ++ ", Roboto, Helvetica, Arial, sans-serif")%string.

Definition containerStyle : list (string * Val N) :=
  [("display", str "flex");
   ("flexDirection", str "column");
   ("justifyContent", str "center");
   ("alignItems", str "center");
   ("backgroundColor", str backgroundColor);
   ("fontFamily", str fontFamily);
   ("color", str textColor)].

Definition contentWrapperStyle : list (string * Val N) :=
  [("width", VNum ('1600));
   ("display", str "flex");
   ("flexDirection", str "column");
   ("gap", VNum ('20))].

Definition labelStyle : list (string * Val N) :=
  [("fontSize", VNum ('48));
   ("fontWeight", VNum ('500));
   ("letterSpacing", str "1px");
   ("opacity", VNum (dec 9 10))].

Definition trackStyle : list (string * Val N) :=
  [("width", str "100%");
   ("height", VNum ('40));
   ("backgroundColor", str trackColor);
   ("borderRadius", VNum ('4));
   ("overflow", str "hidden")].

Definition fillStyle : list (string * Val N) :=
  [("height", str "100%");
   ("backgroundColor", str primaryColor)].

Definition percentageStyle : list (string * Val N) :=
  [("fontSize", VNum ('64));
   ("fontWeight", VNum ('700));
   ("textAlign", str "right");
   ("fontVariantNumeric", str "tabular-nums")].

(** The last frame maps to exactly 1.0: the input range ends at
    durationInFrames - 1. *)
Definition progress (frame : Z) (cfg : VideoConfig) : Result N :=
  interpolate ('frame) ['0; '(durationInFrames cfg) - '1] ['0; '1]
    (mkOptions Easing_linear extend clamp).

Definition percentage (progress : N) : N := Math_floor (progress * '100).

Definition view (progress : N) : Element N :=
  Node "AbsoluteFill" [("style", VObj containerStyle)]
    [Node "div" [("style", VObj contentWrapperStyle)]
       [Node "div" [("style", VObj labelStyle)] [Text [Lit "Loading..."]];
        Node "div" [("style", VObj trackStyle)]
          [Node "div"
             [("style", VObj (fillStyle ++
                 [("width", VStr [Num (progress * '100); Lit "%"])]))]
             []];
        Node "div" [("style", VObj percentageStyle)]
          [Text [Num (percentage progress); Lit "%"]]]].

Definition CleanProgressBar (frame : Z) (cfg : VideoConfig)
  : Result (Element N) :=
  (progress <- progress frame cfg ;; Ok (view progress))%result.
End Component.

End CleanProgressBar.

(* ================================================================== *)
(** ** cyberPunkLoadinRing.tsx: NeonSaberCountdown *)

Module NeonSaberCountdown.

Record NeonSaberCountdownProps : Type := mkProps {
  startNumber : Z;
  color : string;
  coreColor : string;
  fontSize : Z
}.

Definition defaultProps : NeonSaberCountdownProps := {|
  startNumber := 10;
  color := "#00FFFF";
  coreColor := "#FFFFFF";
  fontSize := 800
|}.

(** durationInSeconds: 11 (10 down to 0). *)
Definition compositionConfig : VideoConfig := mkVideoConfig 30 (11 * 30) 3840 2160.

Section Component.
Context {N : Type} `{JsNum N}.
Local Open Scope js_scope.

(** The sequencer: the number on screen and the frame within its
    second. *)
Definition sequencer (props : NeonSaberCountdownProps) (frame : Z)
    (cfg : VideoConfig) : Result (N * N) :=
  (seconds <- 'frame / '(fps cfg) ;;
   let currentSecondIndex := Math_floor seconds in
   let displayNumber := '(startNumber props) - currentSecondIndex in
   localFrame <- 'frame % '(fps cfg) ;;
   Ok (displayNumber, localFrame))%result.

Definition black : list (string * Val N) :=
  [("style", VObj [("backgroundColor", str "#000000")])].

Definition config_object (props : NeonSaberCountdownProps) : Val N :=
  VObj [("startNumber", VNum ('(startNumber props)));
        ("color", str (color props));
        ("coreColor", str (coreColor props));
        ("fontSize", VNum ('(fontSize props)))].

End Component.

Section SaberNumber.
Context {N : Type} `{JsNum N} `{SpringCurve N}.
Local Open Scope js_scope.

Definition pathLength : Z := 3500.

(** The source quotes Kanit and Arial Black with double quotes. *)
Definition fontStyle (config : NeonSaberCountdownProps)
  : list (string * Val N) :=
  [("fontFamily",
     VStr [Lit double_quote; Lit "Kanit"; Lit double_quote; Lit ", ";
           Lit double_quote; Lit "Arial Black"; Lit double_quote;
           Lit ", sans-serif"]);
   ("fontWeight", VNum ('900));
   ("fontSize", VNum ('(fontSize config)));
   ("textAnchor", str "middle");
   ("dominantBaseline", str "central")].

(** The style of a layered stroke: the base blur of the glow combined with
    the motion blur of the animation. *)
Definition stroke_style (baseBlur opacityMultiplier totalBlur exitOpacity : N)
  : list (string * Val N) :=
  [("filter", VStr [Lit "blur("; Num (baseBlur + totalBlur); Lit "px)"]);
   ("opacity", VNum (opacityMultiplier * exitOpacity));
   ("willChange", str "transform, opacity, filter")].

(** [getStrokeProps], with the [style] it computes passed in. *)
Definition getStrokeProps (strokeOffset : N) (col : string) (w : N)
    (style : list (string * Val N)) : list (string * Val N) :=
  [("fill", str "none");
   ("stroke", str col);
   ("strokeWidth", VNum w);
   ("strokeDasharray", VNum ('pathLength));
   ("strokeDashoffset", VNum strokeOffset);
   ("strokeLinecap", str "round");
   ("strokeLinejoin", str "round");
   ("style", VObj style)].

Definition SaberNumber (number localFrame : N)
    (config : NeonSaberCountdownProps) (fps : N) : Result (Element N) :=
  (entryDriver <- spring (mkSpring localFrame fps
                            (mkSpringConfig (dec 6 10) ('12) ('100))
                            (Some ('20)) ('0)) ;;
   strokeOffset <- interpolate entryDriver ['0; '1] ['pathLength; '0]
                     default_options ;;
   entryScale <- interpolate entryDriver ['0; '1] [dec 15 10; '1]
                   default_options ;;
   entryBlur <- interpolate entryDriver ['0; dec 6 10] ['20; '0]
                  (mkOptions Easing_linear extend clamp) ;;
   exitProgress <- interpolate localFrame [fps - '8; fps] ['0; '1] clamped ;;
   exitScale <- interpolate exitProgress ['0; '1] ['1; dec 11 10]
                  default_options ;;
   exitBlur <- interpolate exitProgress ['0; '1] ['0; '30] default_options ;;
   flash <- interpolate exitProgress ['0; dec 4 10; '1] ['1; dec 25 10; '0]
              default_options ;;
   exitOpacity <- interpolate exitProgress [dec 5 10; '1] ['1; '0]
                    default_options ;;
   let totalScale := entryScale * exitScale in
   let totalBlur := entryBlur + exitBlur in
   let layer (col : string) (w : N) (style : list (string * Val N)) :=
     Node "text"
       ([("x", str "1000"); ("y", str "600")] ++ fontStyle config
        ++ getStrokeProps strokeOffset col w style)
       [Text [Num number]] in
   Ok (Node "div"
         [("style",
            VObj [("position", str "absolute");
                  ("inset", VNum ('0));
                  ("display", str "flex");
                  ("justifyContent", str "center");
                  ("alignItems", str "center");
                  ("transform", VStr [Lit "scale("; Num totalScale; Lit ")"]);
                  ("filter", VStr [Lit "brightness("; Num flash; Lit ")"])])]
         [Node "svg"
            [("width", str "100%");
             ("height", str "100%");
             ("viewBox", str "0 0 2000 1200");
             ("style", VObj [("overflow", str "visible")])]
            [layer (color config) ('60)
               (stroke_style ('40) (dec 5 10) totalBlur exitOpacity);
             (* the explicit style replaces the filter of the spread one *)
             layer (color config) ('25)
               [("filter",
                  VStr [Lit "drop-shadow(0 0 30px "; Lit (color config);
                        Lit ") blur("; Num totalBlur; Lit "px)"]);
                ("opacity", VNum ('1 * exitOpacity));
                ("willChange", str "transform, opacity, filter")];
             layer (coreColor config) ('8)
               (stroke_style ('0) ('1) totalBlur exitOpacity)]]))%result.

Definition NeonSaberCountdown (props : NeonSaberCountdownProps) (frame : Z)
    (cfg : VideoConfig) : Result (Element N) :=
  (sequenced <- sequencer props frame cfg ;;
   let '(displayNumber, localFrame) := sequenced in
   if displayNumber <? '0 then Ok (Node "AbsoluteFill" black [])
   else
     digit <- SaberNumber displayNumber localFrame props ('(fps cfg)) ;;
     Ok (Node "AbsoluteFill" black
           [rendered_as "SaberNumber"
              [("key", VNum displayNumber);
               ("number", VNum displayNumber);
               ("localFrame", VNum localFrame);
               ("config", config_object props);
               ("fps", VNum ('(fps cfg)))]
              digit]))%result.
End SaberNumber.

End NeonSaberCountdown.

(* ================================================================== *)
(** ** NeonRecIndicator (REC pill) *)

Module NeonRecIndicator.

Definition compositionConfig : VideoConfig := mkVideoConfig 30 (10 * 30) 3840 2160.

Section Component.
Context {N : Type} `{JsNum N} `{JsMath N}.
Local Open Scope js_scope.

Definition TARGET_WIDTH : Z := 1800.
Definition COLOR_RED : string := "#FF0000".
Definition GLOW_COLOR : string := "rgba(255, 0, 0, 0.8)".

(** Pulse every 2 seconds (60 frames). *)
Definition cycleDurationFrames : Z := 60.

Definition opacity (frame : Z) : Result N :=
  (cycles <- 'frame / 'cycleDurationFrames ;;
   let t := cycles * Math_PI * '2 in
   interpolate (Math_sin t) ['(-1); '1] [dec 3 10; '1] default_options)%result.

Definition containerStyle : list (string * Val N) :=
  [("backgroundColor", str "#000000");
   ("display", str "flex");
   ("justifyContent", str "center");
   ("alignItems", str "center")].

Definition pillStyle (opacity : N) : list (string * Val N) :=
  [("display", str "flex");
   ("flexDirection", str "row");
   ("alignItems", str "center");
   ("justifyContent", str "center");
   ("width", VStr [Num ('TARGET_WIDTH); Lit "px"]);
   ("padding", str "80px 0");
   ("border", VStr [Lit "25px solid "; Lit COLOR_RED]);
   ("borderRadius", str "500px");
   ("backgroundColor", str "transparent");
   ("opacity", VNum opacity);
   ("boxShadow", VStr [Lit (line_feed ++ "      0 0 40px ")%string;
                       Lit GLOW_COLOR;
                       Lit (", " ++ line_feed ++ "      0 0 100px ")%string;
                       Lit GLOW_COLOR;
                       Lit (", " ++ line_feed ++ "      inset 0 0 40px ")%string;
                       Lit GLOW_COLOR; Lit (line_feed ++ "    ")%string])].

Definition dotStyle : list (string * Val N) :=
  [("width", str "200px");
   ("height", str "200px");
   ("backgroundColor", str COLOR_RED);
   ("borderRadius", str "50%");
   ("marginRight", str "100px");
   ("boxShadow", VStr [Lit "0 0 50px "; Lit GLOW_COLOR])].

Definition textStyle : list (string * Val N) :=
  [("fontFamily", str "Arial, Helvetica, sans-serif");
   ("fontWeight", str "bold");
   ("fontSize", str "400px");
   ("color", str COLOR_RED);
   ("letterSpacing", str "20px");
   ("lineHeight", str "0.8");
   ("textShadow", VStr [Lit (line_feed ++ "      0 0 20px ")%string;
                        Lit GLOW_COLOR;
                        Lit (", " ++ line_feed ++ "      0 0 80px ")%string;
                        Lit GLOW_COLOR; Lit (line_feed ++ "    ")%string])].

Definition NeonRecIndicator (frame : Z) : Result (Element N) :=
  (opacity <- opacity frame ;;
   Ok (Node "AbsoluteFill" [("style", VObj containerStyle)]
         [Node "div" [("style", VObj (pillStyle opacity))]
            [Node "div" [("style", VObj dotStyle)] [];
             Node "span" [("style", VObj textStyle)] [Text [Lit "REC"]]]]))%result.
End Component.

End NeonRecIndicator.

(* ================================================================== *)
(** ** LIVEind.tsx: NeonLiveIndicator *)

Module NeonLiveIndicator.

Definition compositionConfig : VideoConfig := mkVideoConfig 30 (10 * 30) 3840 2160.

Section Component.
Context {N : Type} `{JsNum N} `{JsMath N}.
Local Open Scope js_scope.

Definition TARGET_WIDTH : Z := 2000.
Definition COLOR_RED : string := "#FF0000".
Definition GLOW_COLOR : string := "rgba(255, 0, 0, 0.8)".

(** Pulse every 2 seconds (60 frames). *)
Definition cycleDurationFrames : Z := 60.

Definition opacity (frame : Z) : Result N :=
  (cycles <- 'frame / 'cycleDurationFrames ;;
   let t := cycles * Math_PI * '2 in
   interpolate (Math_sin t) ['(-1); '1] [dec 3 10; '1] default_options)%result.

Definition containerStyle : list (string * Val N) :=
  [("backgroundColor", str "#3cff00ff");
   ("display", str "flex");
   ("justifyContent", str "center");
   ("alignItems", str "center")].

Definition pillStyle (opacity : N) : list (string * Val N) :=
  [("display", str "flex");
   ("flexDirection", str "row");
   ("alignItems", str "center");
   ("justifyContent", str "center");
   ("width", VStr [Num ('TARGET_WIDTH); Lit "px"]);
   ("padding", str "80px 0");
   ("border", VStr [Lit "25px solid "; Lit COLOR_RED]);
   ("borderRadius", str "500px");
   ("backgroundColor", str "transparent");
   ("opacity", VNum opacity);
   ("boxShadow", VStr [Lit (line_feed ++ "      0 0 40px ")%string;
                       Lit GLOW_COLOR;
                       Lit (", " ++ line_feed ++ "      0 0 100px ")%string;
                       Lit GLOW_COLOR;
                       Lit (", " ++ line_feed ++ "      inset 0 0 40px ")%string;
                       Lit GLOW_COLOR; Lit (line_feed ++ "    ")%string])].

Definition dotStyle : list (string * Val N) :=
  [("width", str "200px");
   ("height", str "200px");
   ("backgroundColor", str COLOR_RED);
   ("borderRadius", str "50%");
   ("marginRight", str "80px");
   ("boxShadow", VStr [Lit "0 0 50px "; Lit GLOW_COLOR])].

Definition textStyle : list (string * Val N) :=
  [("fontFamily", str "Arial, Helvetica, sans-serif");
   ("fontWeight", str "bold");
   ("fontSize", str "400px");
   ("color", str COLOR_RED);
   ("letterSpacing", str "20px");
   ("lineHeight", str "0.8");
   ("textShadow", VStr [Lit (line_feed ++ "      0 0 20px ")%string;
                        Lit GLOW_COLOR;
                        Lit (", " ++ line_feed ++ "      0 0 80px ")%string;
                        Lit GLOW_COLOR; Lit (line_feed ++ "    ")%string])].

Definition NeonLiveIndicator (frame : Z) : Result (Element N) :=
  (opacity <- opacity frame ;;
   Ok (Node "AbsoluteFill" [("style", VObj containerStyle)]
         [Node "div" [("style", VObj (pillStyle opacity))]
            [Node "div" [("style", VObj dotStyle)] [];
             Node "span" [("style", VObj textStyle)] [Text [Lit "LIVE"]]]]))%result.
End Component.

End NeonLiveIndicator.

(* ================================================================== *)
(** ** zenProgressbar.tsx: ZenProgressBar *)

Module ZenProgressBar.

Record ZenProgressProps : Type := mkProps {
  containerWidth : Z;
  barHeight : Z;
  colorStart : string;
  colorEnd : string;
  text : string
}.

Definition defaultProps : ZenProgressProps := {|
  containerWidth := 2000;
  barHeight := 90;
  colorStart := "#89CFF0";
  colorEnd := "#9FE2BF";
  text := "Please wait..."
|}.

(** durationInSeconds: 12. *)
Definition compositionConfig : VideoConfig := mkVideoConfig 30 (12 * 30) 3840 2160.

Section Component.
Context {N : Type} `{JsNum N} `{JsMath N} `{BezierSolver N}.
Local Open Scope js_scope.

(** A very gentle bezier curve: starts slow, picks up gently, slows down
    smoothly at the end. *)
Definition progressEase : Result (N -> N) :=
  Easing_bezier (dec 25 100) (dec 1 10) (dec 25 100) ('1).

Definition progressPercent (frame : Z) (cfg : VideoConfig) : Result N :=
  (progressEase <- progressEase ;;
   interpolate ('frame) ['0; '(durationInFrames cfg)] ['0; '100]
     (mkOptions progressEase extend clamp))%result.

(** A slow sine wave oscillation. *)
Definition breathWave (frame : Z) : N := Math_sin (quo ('frame) ('30)).

(** Map the sine wave (-1 to 1) to an opacity (0.7 to 1.0). *)
Definition textOpacity (frame : Z) : Result N :=
  interpolate (breathWave frame) ['(-1); '1] [dec 7 10; '1] default_options.

Definition gradientStyle (props : ZenProgressProps) : Str N :=
  [Lit "linear-gradient(90deg, "; Lit (colorStart props); Lit ", ";
   Lit (colorEnd props); Lit ")"].

Definition trackStyle (props : ZenProgressProps) : list (string * Val N) :=
  [("width", str "100%");
   ("height", VNum ('(barHeight props)));
   ("backgroundColor", str "#1a1a1a");
   ("borderRadius", VNum ('999));
   ("overflow", str "hidden");
   ("boxShadow", str "inset 0 2px 5px rgba(0,0,0,0.5)");
   ("position", str "relative")].

Definition fillStyle (props : ZenProgressProps) (progressPercent : N)
  : list (string * Val N) :=
  [("height", str "100%");
   ("width", VStr [Num progressPercent; Lit "%"]);
   ("background", VStr (gradientStyle props));
   ("borderRadius", VNum ('999));
   ("boxShadow", VStr [Lit (line_feed ++ "      0 0 20px 5px ")%string;
                       Lit (colorStart props);
                       Lit ("40, /* Soft, wide dispersion (low opacity) */" ++ line_feed ++ "      0 0 10px 2px ")%string;
                       Lit (colorStart props);
                       Lit ("60  /* Tighter, slightly brighter core */" ++ line_feed ++ "    ")%string]);
   ("willChange", str "width");
   ("transition", str "width 0.1s linear")].

Definition textStyle (textOpacity : N) : list (string * Val N) :=
  [("fontFamily",
     str (double_quote ++ "Helvetica Neue" ++ double_quote
          ++ ", Helvetica, Arial, sans-serif")%string);
   ("color", str "#ffffff");
   ("fontSize", VNum ('40));
   ("fontWeight", VNum ('300));
   ("letterSpacing", str "1px");
   ("marginTop", VNum ('40));
   ("textAlign", str "center");
   ("opacity", VNum textOpacity)].

Definition ZenProgressBar (props : ZenProgressProps) (frame : Z)
    (cfg : VideoConfig) : Result (Element N) :=
  (progressPercent <- progressPercent frame cfg ;;
   textOpacity <- textOpacity frame ;;
   Ok (Node "AbsoluteFill"
         [("style", VObj [("backgroundColor", str "#000000");
                          ("display", str "flex");
                          ("justifyContent", str "center");
                          ("alignItems", str "center")])]
         [Node "div"
            [("style", VObj [("width", VNum ('(containerWidth props)));
                             ("display", str "flex");
                             ("flexDirection", str "column")])]
            [Node "div" [("style", VObj (trackStyle props))]
               [Node "div" [("style", VObj (fillStyle props progressPercent))] []];
             Node "div" [("style", VObj (textStyle textOpacity))]
               [Text [Lit (text props)]]]]))%result.
End Component.

End ZenProgressBar.

(* ================================================================== *)
(** ** Loops, joins and array access *)

(** What one pass of a loop body asks for next. *)
Inductive Step (S : Type) : Type :=
| Continue (s : S)
| Break (s : S).

(** [for (let i = start; cond(i); i += step) body]: at most [fuel] passes. *)
Fixpoint for_loop {H N S} (fuel : nat) (i step : Z) (cond : Z -> bool)
    (body : Z -> S -> Render H N (Step S)) (s : S) : Render H N S :=
  match fuel with
  | O => Render_ret s
  | Datatypes.S fuel' =>
      if cond i then
        Render_bind (body i s) (fun r =>
          match r with
          | Continue s' => for_loop fuel' (i + step) step cond body s'
          | Break s' => Render_ret s'
          end)
      else Render_ret s
  end.

(** The passes a counting loop from [start] up to [stop] can make. *)
Definition passes (start stop step : Z) : nat :=
  Z.to_nat ((stop - start) / step + 1).

(** [arr.join(sep)] on strings built by template literals. *)
Fixpoint join {N} (sep : string) (arr : list (Str N)) : Str N :=
  match arr with
  | [] => []
  | [s] => s
  | s :: tl => s ++ Lit sep :: join sep tl
  end.

(** [arr[k]]: JavaScript yields undefined outside the array, reported here
    as an error. *)
Definition at_index {A} (arr : list A) (k : Z) : Result A :=
  if (k <? 0)%Z then Throw (RangeError "index out of bounds")
  else match nth_error arr (Z.to_nat k) with
       | Some a => Ok a
       | None => Throw (RangeError "index out of bounds")
       end.

(* ================================================================== *)
(** ** progressTrackingLoadingBar.tsx: NeonEqualizer *)

Module NeonEqualizer.

Definition compositionConfig : VideoConfig := mkVideoConfig 30 (10 * 30) 3840 2160.

(** The memo cells of [bars] and [reflectionBars], both keyed by the
    frame. *)
Record Hooks (N : Type) : Type := mkHooks {
  bars_memo : Memo Z (list (Element N));
  reflectionBars_memo : Memo Z (list (Element N))
}.

Section Component.
Context {N : Type} `{JsNum N} `{JsMath N} `{ColorMix N}.
Local Open Scope js_scope.

Definition BAR_COUNT : Z := 30.
Definition SEGMENT_COUNT : Z := 15.
Definition BAR_WIDTH : Z := 60.
Definition BAR_GAP : Z := 30.
Definition SEGMENT_HEIGHT : Z := 40.
Definition SEGMENT_GAP : Z := 10.
Definition COLOR_START : string := "#00FFFF".
Definition COLOR_END : string := "#AA00FF".

Definition totalBarWidth : N := 'BAR_WIDTH + 'BAR_GAP.
Definition totalWidth : N := 'BAR_COUNT * totalBarWidth - 'BAR_GAP.
Definition startX (cfg : VideoConfig) : N := quo ('(width cfg) - totalWidth) ('2).
Definition centerY (cfg : VideoConfig) : N := quo ('(height cfg)) ('2).

(** Sum of sines with integer frequencies, mapped to the 0.1 .. 1.0 range. *)
Definition getBarHeight (frame : Z) (cfg : VideoConfig) (index : Z) : Result N :=
  (turns <- 'frame / '(durationInFrames cfg) ;;
   let t := turns * Math_PI * '2 in
   let offset := 'index * dec 5 10 in
   let w1 := Math_sin (t * '2 + offset) in
   let w2 := Math_sin (t * '4 + offset * dec 15 10) in
   let w3 := Math_cos (t * '6 + 'index) in
   let raw := w1 + w2 * dec 5 10 + w3 * dec 3 10 in
   interpolate raw ['(-2); '2] [dec 1 10; '1] clamped)%result.

Definition activeSegments (intensity : N) : N :=
  Math_ceil (intensity * 'SEGMENT_COUNT).

(** Whether segment [i] of a bar is "on". *)
Definition isOn (i : Z) (activeSegments : N) : bool := 'i <? activeSegments.

Definition segment (index : Z) (opacityMultiplier : N) (activeSegments : N)
    (barColor : string) (i : Z) : Element N :=
  let segmentOpacity := if isOn i activeSegments then '1 else dec 1 10 in
  let yPos := neg ('i * ('SEGMENT_HEIGHT + 'SEGMENT_GAP)) - 'SEGMENT_HEIGHT in
  Node "rect"
    [("key", VStr [Lit "seg-"; Num ('index); Lit "-"; Num ('i)]);
     ("x", VNum ('0));
     ("y", VNum yPos);
     ("width", VNum ('BAR_WIDTH));
     ("height", VNum ('SEGMENT_HEIGHT));
     ("fill", str barColor);
     ("rx", VNum ('4));
     ("ry", VNum ('4));
     ("style", VObj [("opacity", VNum (segmentOpacity * opacityMultiplier))])]
    [].

Definition renderBar (frame : Z) (cfg : VideoConfig) (index : Z)
    (opacityMultiplier : N) : Result (Element N) :=
  (intensity <- getBarHeight frame cfg index ;;
   let activeSegments := activeSegments intensity in
   let barColor :=
     interpolateColors ('index) ['0; 'BAR_COUNT - '1] [COLOR_START; COLOR_END] in
   let segments :=
     List.map (segment index opacityMultiplier activeSegments barColor)
       (indices (Z.to_nat SEGMENT_COUNT)) in
   Ok (Node "g"
         [("key", VStr [Lit "bar-"; Num ('index)]);
          ("transform", VStr [Lit "translate(";
                              Num (startX cfg + 'index * totalBarWidth);
                              Lit ", "; Num (centerY cfg); Lit ")"])]
         [Items segments]))%result.

Definition all_bars (frame : Z) (cfg : VideoConfig) (opacityMultiplier : N)
  : Result (list (Element N)) :=
  (idx <- new_Array BAR_COUNT ;;
   mapM (fun i => renderBar frame cfg i opacityMultiplier) idx)%result.

Definition bars (frame : Z) (cfg : VideoConfig)
  : Render (Hooks N) N (list (Element N)) :=
  useMemo (@bars_memo N)
    (fun c h => mkHooks c (reflectionBars_memo h)) Z.eqb
    (lift (all_bars frame cfg ('1))) frame.

Definition reflectionBars (frame : Z) (cfg : VideoConfig)
  : Render (Hooks N) N (list (Element N)) :=
  useMemo (@reflectionBars_memo N)
    (fun c h => mkHooks (bars_memo h) c) Z.eqb
    (lift (all_bars frame cfg (dec 3 10))) frame.

Definition containerStyle : list (string * Val N) :=
  [("backgroundColor", str "#000000");
   ("display", str "flex");
   ("justifyContent", str "center");
   ("alignItems", str "center")].

Definition filterId : string := "neon-glow".

Definition NeonEqualizer (frame : Z) (cfg : VideoConfig)
  : Render (Hooks N) N (Element N) :=
  (bars <- bars frame cfg ;;
   reflectionBars <- reflectionBars frame cfg ;;
   Render_ret
     (Node "AbsoluteFill" [("style", VObj containerStyle)]
        [Node "svg"
           [("width", VNum ('(width cfg)));
            ("height", VNum ('(height cfg)));
            ("viewBox", VStr [Lit "0 0 "; Num ('(width cfg)); Lit " ";
                              Num ('(height cfg))]);
            ("style", VObj [("position", str "absolute")])]
           [Node "defs" []
              [Node "filter"
                 [("id", str filterId); ("x", str "-50%"); ("y", str "-50%");
                  ("width", str "200%"); ("height", str "200%")]
                 [Node "feGaussianBlur"
                    [("in", str "SourceGraphic"); ("stdDeviation", str "8");
                     ("result", str "blur")] [];
                  Node "feColorMatrix"
                    [("in", str "blur"); ("type", str "matrix");
                     ("values",
                       str "1 0 0 0 0  0 1 0 0 0  0 0 1 0 0  0 0 0 18 -7");
                     ("result", str "goo")] [];
                  Node "feMerge" []
                    [Node "feMergeNode" [("in", str "blur")] [];
                     Node "feMergeNode" [("in", str "SourceGraphic")] []]]];
            Node "g"
              [("style", VObj [("filter",
                                 VStr [Lit "url(#"; Lit filterId; Lit ")"])])]
              [Items bars;
               Node "g"
                 [("transform",
                    VStr [Lit "translate(0, "; Num (centerY cfg * '2);
                          Lit ") scale(1, -1) translate(0, -";
                          Num (centerY cfg * '2); Lit ")"])]
                 [Node "g" [("transform", str "translate(0, 20)")]
                    [Items reflectionBars]]];
            Node "line"
              [("x1", VNum (startX cfg));
               ("y1", VNum (centerY cfg + '10));
               ("x2", VNum (startX cfg + totalWidth));
               ("y2", VNum (centerY cfg + '10));
               ("stroke", str "rgba(255,255,255,0.2)");
               ("strokeWidth", str "2")]
              []]]))%render.
End Component.

End NeonEqualizer.

(* ================================================================== *)
(** ** HeartsFallingOverlay.tsx: FallingHeartsEmoji *)

Module FallingHeartsEmoji.

Definition compositionConfig : VideoConfig := mkVideoConfig 30 (10 * 30) 3840 2160.

Record HeartParticle (N : Type) : Type := mkHeart {
  id : Z;
  x : N;
  size : N;
  color : string;
  speedMultiplier : N;
  swayAmplitude : N;
  swayPhase : N;
  rotationSpeed : N;
  rotationPhase : N;
  startYOffset : N
}.

(** The memo cell of [hearts]; its dependency list is empty. *)
Definition Hooks (N : Type) : Type := Memo unit (list (HeartParticle N)).

Section Component.
Context {N : Type} `{JsNum N} `{JsMath N} `{SeededRandom N}.
Local Open Scope js_scope.

Definition HEART_COUNT : Z := 50.
Definition COLORS : list string := ["#FF2400"; "#FF1493"; "#FFB6C1"].

(** The vertical space a particle traverses before wrapping. *)
Definition LOOP_HEIGHT (cfg : VideoConfig) : N := '(height cfg) + '400.

Definition particle (cfg : VideoConfig) (i : Z) : Result (HeartParticle N) :=
  (let seed := 'i in
   let x := random seed * dec 12 10 - dec 1 10 in
   let size := '40 + random (seed + '1) * '80 in
   color <- at_index COLORS
              (floorZ (random (seed + '2) * '(Z.of_nat (List.length COLORS)))) ;;
   let speedMultiplier := '1 in
   let swayAmplitude := '50 + random (seed + '3) * '100 in
   let swayPhase := random (seed + '4) * Math_PI * '2 in
   let rotationSpeed := (random (seed + '5) - dec 5 10) * '60 in
   let rotationPhase := random (seed + '6) * Math_PI * '2 in
   let startYOffset := random (seed + '7) * LOOP_HEIGHT cfg in
   Ok (mkHeart i x size color speedMultiplier swayAmplitude swayPhase
         rotationSpeed rotationPhase startYOffset))%result.

Definition generate (cfg : VideoConfig) : Result (list (HeartParticle N)) :=
  (idx <- new_Array HEART_COUNT ;; mapM (particle cfg) idx)%result.

(** Memoized so random values stay consistent across frames. *)
Definition hearts (cfg : VideoConfig)
  : Render (Hooks N) N (list (HeartParticle N)) :=
  useMemo (fun h => h) (fun c _ => c) (fun _ _ => true)
    (lift (generate cfg)) tt.

Definition heart_element (cfg : VideoConfig) (progress : N)
    (heart : HeartParticle N) : Result (Element N) :=
  (let totalDistance := LOOP_HEIGHT cfg * speedMultiplier heart in
   let rawY := startYOffset heart + progress * totalDistance in
   wrappedY <- rawY % (LOOP_HEIGHT cfg) ;;
   let finalY := wrappedY - '200 in
   let sway :=
     Math_sin (progress * Math_PI * '2 + swayPhase heart) * swayAmplitude heart in
   let finalX := x heart * '(width cfg) + sway in
   let rot :=
     Math_sin (progress * Math_PI * '2 + rotationPhase heart)
     * rotationSpeed heart in
   Ok (Node "div"
         [("key", VNum ('(id heart)));
          ("style",
            VObj [("position", str "absolute");
                  ("left", VNum ('0));
                  ("top", VNum ('0));
                  ("transform",
                    VStr [Lit "translate("; Num finalX; Lit "px, "; Num finalY;
                          Lit "px) rotate("; Num rot; Lit "deg)"]);
                  ("color", str (color heart));
                  ("fontSize", VStr [Num (size heart); Lit "px"]);
                  ("opacity", VNum (dec 85 100))])]
         [Node "FaHeart" [] []]))%result.

Definition FallingHeartsEmoji (frame : Z) (cfg : VideoConfig)
  : Render (Hooks N) N (Element N) :=
  (hearts <- hearts cfg ;;
   progress <~ 'frame / '(durationInFrames cfg) ;;
   elements <~ mapM (heart_element cfg progress) hearts ;;
   Render_ret
     (Node "AbsoluteFill"
        [("style", VObj [("backgroundColor", str "#15ff00ff")])]
        [Items elements]))%render.
End Component.

End FallingHeartsEmoji.

(* ================================================================== *)
(** ** NeonEKG *)

Module NeonEKG.

Record EKGProps : Type := mkProps {
  gridSize : Z;
  lineColor : string;
  gridColor : string;
  beatFrequency : Z;
  flatlineStart : Z
}.

Definition defaultProps : EKGProps := {|
  gridSize := 100;
  lineColor := "#00FF00";
  gridColor := "#003300";
  beatFrequency := 30;
  flatlineStart := 210
|}.

(** durationInSeconds: 15. *)
Definition compositionConfig : VideoConfig := mkVideoConfig 30 (15 * 30) 3840 2160.

Record Point (N : Type) : Type := mkPoint { x : N; y : N }.

(** The memo cells of [points], keyed by
    [frame, beatFrequency, flatlineStart, width], and of [polylinePoints],
    keyed by [frame, width, height, beatFrequency, flatlineStart]. *)
Record Hooks (N : Type) : Type := mkHooks {
  points_memo : Memo (Z * Z * Z * Z) (list (Point N));
  polylinePoints_memo : Memo (Z * Z * Z * Z * Z) (Str N)
}.

Definition same4 (a b : Z * Z * Z * Z) : bool :=
  let '(a1, a2, a3, a4) := a in
  let '(b1, b2, b3, b4) := b in
  (a1 =? b1)%Z && (a2 =? b2)%Z && (a3 =? b3)%Z && (a4 =? b4)%Z.

Definition same5 (a b : Z * Z * Z * Z * Z) : bool :=
  let '(a1, a2, a3, a4, a5) := a in
  let '(b1, b2, b3, b4, b5) := b in
  (a1 =? b1)%Z && (a2 =? b2)%Z && (a3 =? b3)%Z && (a4 =? b4)%Z && (a5 =? b5)%Z.

Section Component.
Context {N : Type} `{JsNum N} `{JsMath N}.
Local Open Scope js_scope.

Definition Grid (size : N) (color : string) : Element N :=
  Node "div"
    [("style",
       VObj [("position", str "absolute");
             ("width", str "100%");
             ("height", str "100%");
             ("backgroundImage",
               VStr [Lit (line_feed ++ "          linear-gradient(")%string;
                     Lit color;
                     Lit (" 2px, transparent 2px)," ++ line_feed ++ "          linear-gradient(90deg, ")%string;
                     Lit color;
                     Lit (" 2px, transparent 2px)" ++ line_feed ++ "        ")%string]);
             ("backgroundSize", VStr [Num size; Lit "px "; Num size; Lit "px"]);
             ("opacity", VNum (dec 5 10))])]
    [].

(** The "PQRST" wave of the trail. *)
Definition trail_wave (beatProgress : N) : N :=
  if (beatProgress >? dec 1 10) && (beatProgress <? dec 2 10) then
    '(-30) * Math_sin ((beatProgress - dec 1 10) * Math_PI * '10)
  else if (beatProgress >? dec 4 10) && (beatProgress <? dec 45 100) then '50
  else if (beatProgress >=? dec 45 100) && (beatProgress <? dec 5 10) then '(-350)
  else if (beatProgress >=? dec 5 10) && (beatProgress <? dec 55 100) then '80
  else if (beatProgress >? dec 7 10) && (beatProgress <? dec 85 100) then
    '(-50) * Math_sin ((beatProgress - dec 7 10) * Math_PI * '6)
  else '0.

(** One pass of the loop that builds [points]. *)
Definition points_body (props : EKGProps) (frame : Z) (cfg : VideoConfig)
    (i : Z) (pts : list (Point N))
  : Render (Hooks N) N (Step (list (Point N))) :=
  (let speed := 15%Z in
   let currentHeadX := 'frame * 'speed in
   let x := currentHeadX - 'i in
   if x <? '0 then Render_ret (Break pts)
   else
     tFrame <~ x / 'speed ;;
     amplitude <-
       (if tFrame <? '(flatlineStart props) then
          lift (m <- tFrame % '(beatFrequency props) ;;
                beatProgress <- m / '(beatFrequency props) ;;
                Ok (trail_wave beatProgress))%result
        else
          noise <- Math_random ;;
          Render_ret ((noise - dec 5 10) * '5)) ;;
     screenX <~ x % '(width cfg) ;;
     Render_ret (Continue (pts ++ [mkPoint x amplitude])))%render.

Definition points (props : EKGProps) (frame : Z) (cfg : VideoConfig)
  : Render (Hooks N) N (list (Point N)) :=
  let tailLength := 2000%Z in
  useMemo (@points_memo N)
    (fun c h => mkHooks c (polylinePoints_memo h)) same4
    (for_loop (passes 0 tailLength 5) 0 5 (fun i => (i <? tailLength)%Z)
       (points_body props frame cfg) [])
    (frame, beatFrequency props, flatlineStart props, width cfg).

(** The wave of the scrolling view. *)
Definition scroll_wave (beatProgress : N) : N :=
  if (beatProgress >? dec 1 10) && (beatProgress <? dec 2 10) then
    '(-30) * Math_sin ((beatProgress - dec 1 10) * Math_PI * '10)
  else if (beatProgress >? dec 4 10) && (beatProgress <? dec 43 100) then '50
  else if (beatProgress >=? dec 43 100) && (beatProgress <? dec 47 100) then '(-400)
  else if (beatProgress >=? dec 47 100) && (beatProgress <? dec 5 10) then '80
  else if (beatProgress >? dec 6 10) && (beatProgress <? dec 75 100) then
    '(-60) * Math_sin ((beatProgress - dec 6 10) * Math_PI * '6)
  else '0.

(** One pass of the loop that builds [polylinePoints]. *)
Definition polyline_body (props : EKGProps) (frame : Z) (cfg : VideoConfig)
    (x : Z) (p : list (Str N)) : Result (Step (list (Str N))) :=
  (let speed := 20%Z in
   let timeOffset := '(width cfg) - 'x in
   let visualTime := 'frame * 'speed - timeOffset in
   tFrame <- visualTime / 'speed ;;
   if tFrame <? '0 then Ok (Continue p)
   else
     y <- (if tFrame <? '(flatlineStart props) then
             m <- tFrame % '(beatFrequency props) ;;
             beatProgress <- m / '(beatFrequency props) ;;
             Ok (scroll_wave beatProgress)
           else Ok (Math_sin tFrame * '2)) ;;
     Ok (Continue (p ++ [[Num ('x); Lit ",";
                          Num (quo ('(height cfg)) ('2) + y)]])))%result.

Definition polylinePoints (props : EKGProps) (frame : Z) (cfg : VideoConfig)
  : Render (Hooks N) N (Str N) :=
  useMemo (@polylinePoints_memo N)
    (fun c h => mkHooks (points_memo h) c) same5
    (p <- for_loop (passes 0 (width cfg) 10) 0 10
            (fun x => (x <=? width cfg)%Z)
            (fun x p => lift (polyline_body props frame cfg x p)) [] ;;
     Render_ret (join " " p))%render
    (frame, width cfg, height cfg, beatFrequency props, flatlineStart props).

Definition NeonEKG (props : EKGProps) (frame : Z) (cfg : VideoConfig)
  : Render (Hooks N) N (Element N) :=
  (points <- points props frame cfg ;;
   polylinePoints <- polylinePoints props frame cfg ;;
   Render_ret
     (Node "AbsoluteFill" [("style", VObj [("backgroundColor", str "#000500")])]
        [(* the space between the opening tag and the comment on its line *)
         Text [Lit " "];
         rendered_as "Grid"
           [("size", VNum ('(gridSize props))); ("color", str (gridColor props))]
           (Grid ('(gridSize props)) (gridColor props));
         Node "svg"
           [("width", VNum ('(width cfg)));
            ("height", VNum ('(height cfg)));
            ("style", VObj [("overflow", str "visible")])]
           [Node "polyline"
              [("points", VStr polylinePoints);
               ("fill", str "none");
               ("stroke", str (lineColor props));
               ("strokeWidth", str "8");
               ("strokeLinecap", str "round");
               ("strokeLinejoin", str "round");
               ("style",
                 VObj [("filter",
                         VStr [Lit "drop-shadow(0 0 15px ";
                               Lit (lineColor props);
                               Lit ") drop-shadow(0 0 30px ";
                               Lit (lineColor props); Lit ")"])])]
              []];
         Node "AbsoluteFill"
           [("style",
              VObj [("background",
                      str "radial-gradient(circle, transparent 60%, black 100%)");
                    ("pointerEvents", str "none")])]
           []]))%render.
End Component.

End NeonEKG.

(* ================================================================== *)
(** ** radioSignalWaveCircle.tsx: NeonRadioWaves *)

Module NeonRadioWaves.

Record WaveProps : Type := mkProps {
  waveCount : Z;
  waveLifeTime : Z;
  maxRadius : Z;
  color : string;
  strokeWidth : Z
}.

Definition defaultProps : WaveProps := {|
  waveCount := 8;
  waveLifeTime := 120;
  maxRadius := 1000;
  color := "#ff1100ff";
  strokeWidth := 8
|}.

(** durationInSeconds: 10. *)
Definition compositionConfig : VideoConfig := mkVideoConfig 30 (10 * 30) 3840 2160.

Section Component.
Context {N : Type} `{JsNum N}.
Local Open Scope js_scope.

(** One expanding wave: a staggered start, then a progress from 0 to 1
    that loops. *)
Definition wave (props : WaveProps) (frame : Z) (index : Z)
  : Result (Element N) :=
  (stagger <- '(waveLifeTime props) / '(waveCount props) ;;
   let offset := 'index * stagger in
   m <- ('frame + offset) % '(waveLifeTime props) ;;
   progress <- m / '(waveLifeTime props) ;;
   radius <- interpolate progress ['0; '1] ['0; '(maxRadius props)]
               default_options ;;
   opacity <- interpolate progress ['0; dec 1 10; dec 8 10; '1]
                ['0; '1; '1; '0] default_options ;;
   currentStroke <- interpolate progress ['0; '1]
                      ['(strokeWidth props); '(strokeWidth props) * dec 5 10]
                      default_options ;;
   Ok (Node "div"
         [("key", VNum ('index));
          ("style",
            VObj [("position", str "absolute");
                  ("width", VNum (radius * '2));
                  ("height", VNum (radius * '2));
                  ("borderRadius", str "50%");
                  ("border", VStr [Num currentStroke; Lit "px solid ";
                                   Lit (color props)]);
                  ("opacity", VNum opacity);
                  ("boxShadow",
                    VStr [Lit (line_feed ++ "                0 0 10px ")%string;
                          Lit (color props);
                          Lit (", " ++ line_feed ++ "                inset 0 0 10px ")%string;
                          Lit (color props);
                          Lit ("," ++ line_feed ++ "                0 0 30px ")%string;
                          Lit (color props);
                          Lit (line_feed ++ "              ")%string]);
                  ("transform", str "translate(-50%, -50%)");
                  ("top", str "50%");
                  ("left", str "50%");
                  ("willChange", str "transform, opacity")])]
         []))%result.

Definition NeonRadioWaves (props : WaveProps) (frame : Z)
  : Result (Element N) :=
  (waves <- new_Array (waveCount props) ;;
   rings <- mapM (wave props frame) waves ;;
   Ok (Node "AbsoluteFill"
         [("style", VObj [("backgroundColor", str "#000000");
                          ("justifyContent", str "center");
                          ("alignItems", str "center")])]
         [Node "div"
            [("style", VObj [("position", str "absolute");
                             ("width", VNum ('20));
                             ("height", VNum ('20));
                             ("borderRadius", str "50%");
                             ("background", str (color props));
                             ("boxShadow", VStr [Lit "0 0 50px 20px ";
                                                 Lit (color props)]);
                             ("opacity", VNum (dec 5 10))])]
            [];
          Items rings]))%result.
End Component.

End NeonRadioWaves.

(* ================================================================== *)
(** ** gradientGlowingCircle.tsx: NeonCircleFrame *)

Module NeonCircleFrame.

Record Props : Type := mkProps {
  cyanColor : string;
  pinkColor : string;
  iconSize : Z;
  strokeThickness : Z
}.

Definition defaultProps : Props := {|
  cyanColor := "#00FFFF";
  pinkColor := "#FF00FF";
  iconSize := 1200;
  strokeThickness := 40
|}.

Definition compositionConfig : VideoConfig := mkVideoConfig 30 300 3840 2160.

Section Component.
Context {N : Type} `{JsNum N}.
Local Open Scope js_scope.

(** Constant rotation for a seamless loop. *)
Definition rotation (frame : Z) (cfg : VideoConfig) : Result N :=
  interpolate ('frame) ['0; '(durationInFrames cfg)] ['0; '360]
    (mkOptions Easing_linear extend extend).

Definition gradient (props : Props) (rotation : N) : Str N :=
  [Lit "conic-gradient(from "; Num rotation; Lit "deg, ";
   Lit (cyanColor props); Lit ", "; Lit (pinkColor props); Lit ", ";
   Lit (cyanColor props); Lit ")"].

(** The colourful disc. *)
Definition discStyle (props : Props) (rotation : N) : list (string * Val N) :=
  [("position", str "absolute");
   ("width", VNum ('(iconSize props)));
   ("height", VNum ('(iconSize props)));
   ("borderRadius", str "50%");
   ("background", VStr (gradient props rotation));
   ("top", VNum ('0));
   ("left", VNum ('0))].

Definition holeSize (props : Props) : N :=
  '(iconSize props) - '(strokeThickness props) * '2.

(** The black hole that turns the disc into a ring. *)
Definition holeStyle (props : Props) : list (string * Val N) :=
  [("position", str "absolute");
   ("width", VNum (holeSize props));
   ("height", VNum (holeSize props));
   ("borderRadius", str "50%");
   ("backgroundColor", str "#000000");
   ("top", VNum ('(strokeThickness props)));
   ("left", VNum ('(strokeThickness props)));
   ("zIndex", VNum ('10))].

Definition NeonCircleFrame (props : Props) (frame : Z) (cfg : VideoConfig)
  : Result (Element N) :=
  (rotation <- rotation frame cfg ;;
   let discStyle := discStyle props rotation in
   Ok (Node "AbsoluteFill"
         [("style", VObj [("backgroundColor", str "#000000");
                          ("display", str "flex");
                          ("justifyContent", str "center");
                          ("alignItems", str "center")])]
         [Node "div"
            [("style", VObj [("position", str "relative");
                             ("width", VNum ('(iconSize props)));
                             ("height", VNum ('(iconSize props)))])]
            [Node "div"
               [("style", VObj (discStyle ++
                                [("filter", str "blur(100px)");
                                 ("opacity", VNum (dec 6 10));
                                 ("transform", str "scale(1.1)")]))]
               [];
             Node "div"
               [("style", VObj (discStyle ++
                                [("filter", str "blur(40px)");
                                 ("opacity", VNum (dec 8 10))]))]
               [];
             Node "div" [("style", VObj discStyle)] [];
             Node "div" [("style", VObj (holeStyle props))] []]]))%result.
End Component.

End NeonCircleFrame.

(* ================================================================== *)
(** ** gyrospinner.tsx: GyroscopeV2 *)

Module GyroscopeV2.

Record Props : Type := mkProps {
  goldColor : string;
  ringSize : Z;
  thickness : Z
}.

Definition defaultProps : Props := {|
  goldColor := "#00FFFF";
  ringSize := 1000;
  thickness := 20
|}.

Definition compositionConfig : VideoConfig := mkVideoConfig 30 300 3840 2160.

(** The props of a GyroRing; [dashArray] creates the gaps that make the
    spin visible. *)
Record GyroRingProps (N : Type) : Type := mkRing {
  radius : N;
  ringThickness : N;
  rotation : N;
  wobbleX : N;
  wobbleY : N;
  dashArray : Str N;
  hasGem : bool
}.

Section Component.
Context {N : Type} `{JsNum N} `{JsMath N}.
Local Open Scope js_scope.

Definition GyroRing (p : GyroRingProps N) : Element N :=
  let size := radius p * '2 + ringThickness p * '4 in
  let center := quo size ('2) in
  let transform : Str N :=
    [Lit "rotateX("; Num (wobbleX p); Lit "deg) rotateY("; Num (wobbleY p);
     Lit "deg) rotateZ("; Num (rotation p); Lit "deg)"] in
  Node "div"
    [("style", VObj [("position", str "absolute");
                     ("width", VNum size);
                     ("height", VNum size);
                     ("left", VStr [Lit "calc(50% - "; Num center; Lit "px)"]);
                     ("top", VStr [Lit "calc(50% - "; Num center; Lit "px)"]);
                     ("transform", VStr transform);
                     ("transformStyle", str "preserve-3d")])]
    [Node "svg"
       [("width", VNum size);
        ("height", VNum size);
        ("viewBox", VStr [Lit "0 0 "; Num size; Lit " "; Num size]);
        ("style", VObj [("overflow", str "visible")])]
       ([Node "defs" []
           [Node "linearGradient"
              [("id", str "luxGold"); ("x1", str "0%"); ("y1", str "0%");
               ("x2", str "100%"); ("y2", str "100%")]
              [Node "stop" [("offset", str "0%"); ("stopColor", str "#BF953F")] [];
               Node "stop" [("offset", str "25%"); ("stopColor", str "#FCF6BA")] [];
               Node "stop" [("offset", str "50%"); ("stopColor", str "#B38728")] [];
               Node "stop" [("offset", str "75%"); ("stopColor", str "#FBF5B7")] [];
               Node "stop" [("offset", str "100%"); ("stopColor", str "#AA771C")] []];
            Node "filter" [("id", str "glow")]
              [Node "feDropShadow"
                 [("dx", str "0"); ("dy", str "0"); ("stdDeviation", str "5");
                  ("floodColor", str "#B38728"); ("floodOpacity", str "0.6")]
                 []]];
         Node "circle"
           [("cx", VNum center);
            ("cy", VNum center);
            ("r", VNum (radius p));
            ("fill", str "none");
            ("stroke", str "url(#luxGold)");
            ("strokeWidth", VNum (ringThickness p));
            ("strokeDasharray", VStr (dashArray p));
            ("strokeLinecap", str "round");
            ("style", VObj [("filter", str "url(#glow)")])]
           []]
        ++
        (if hasGem p then
           [Node "circle"
              [("cx", VNum (center + radius p));
               ("cy", VNum center);
               ("r", VNum (ringThickness p * dec 12 10));
               ("fill", str "#FCF6BA");
               ("style", VObj [("filter", str "drop-shadow(0 0 10px white)")])]
              []]
         else []))].

(** The element [<GyroRing ... />]. *)
Definition GyroRing_element (p : GyroRingProps N) : Element N :=
  rendered_as "GyroRing"
    [("radius", VNum (radius p));
     ("thickness", VNum (ringThickness p));
     ("rotation", VNum (rotation p));
     ("wobbleX", VNum (wobbleX p));
     ("wobbleY", VNum (wobbleY p));
     ("dashArray", VStr (dashArray p));
     ("hasGem", VBool (hasGem p))]
    (GyroRing p).

Definition GyroscopeV2 (props : Props) (frame : Z) (cfg : VideoConfig)
  : Result (Element N) :=
  (innerSpin <- interpolate ('frame) ['0; '(durationInFrames cfg)] ['0; '360]
                  default_options ;;
   outerSpin <- interpolate ('frame) ['0; '(durationInFrames cfg)] ['360; '0]
                  default_options ;;
   let wobbleSlow := Math_sin ('frame * dec 2 100) * '15 in
   let innerRadius := '(ringSize props) * dec 35 100 in
   let outerRadius := '(ringSize props) * dec 5 10 in
   let innerDash : Str N :=
     [Num (innerRadius * dec 15 10); Lit " "; Num (innerRadius * dec 5 10)] in
   let outerDash : Str N :=
     [Num (outerRadius * '4); Lit " "; Num (outerRadius * '1)] in
   Ok (Node "AbsoluteFill"
         [("style", VObj [("backgroundColor", str "#080808");
                          ("display", str "flex");
                          ("justifyContent", str "center");
                          ("alignItems", str "center");
                          ("perspective", str "1200px");
                          ("overflow", str "hidden")])]
         [Node "AbsoluteFill"
            [("style",
               VObj [("background",
                       str "radial-gradient(circle at center, #1a1a1a 0%, #000000 70%)");
                     ("zIndex", VNum ('(-1)))])]
            [];
          Node "div"
            [("style", VObj [("position", str "relative");
                             ("width", VNum ('(ringSize props)));
                             ("height", VNum ('(ringSize props)));
                             ("transformStyle", str "preserve-3d")])]
            [GyroRing_element
               (mkRing innerRadius ('(thickness props)) innerSpin
                  ('60 + wobbleSlow) ('10 - wobbleSlow) innerDash true);
             GyroRing_element
               (mkRing outerRadius ('(thickness props)) outerSpin
                  ('(-20) - wobbleSlow) ('45 + wobbleSlow) outerDash false);
             Node "div"
               [("style",
                  VObj [("position", str "absolute");
                        ("top", str "50%");
                        ("left", str "50%");
                        ("width", VNum ('(thickness props) * '4));
                        ("height", VNum ('(thickness props) * '4));
                        ("transform", str "translate(-50%, -50%)");
                        ("borderRadius", str "50%");
                        ("background",
                          str "radial-gradient(circle at 30% 30%, #fff, #D4AF37)");
                        ("boxShadow", str "0 0 30px #D4AF37");
                        ("zIndex", VNum ('10))])]
               []]]))%result.
End Component.

End GyroscopeV2.

(* ================================================================== *)
(** ** cyberPunkLoadinRing.tsx: CyberpunkDataRing *)

Module CyberpunkDataRing.

Record Props : Type := mkProps {
  primaryColor : string;
  iconSize : Z
}.

Definition defaultProps : Props := {|
  primaryColor := "#00ff00";
  iconSize := 1200
|}.

Definition compositionConfig : VideoConfig := mkVideoConfig 30 300 3840 2160.

(** [rotationDirection] is 1 for clockwise, -1 for counter-clockwise. *)
Record RingLayerProps (N : Type) : Type := mkLayer {
  radius : N;
  thickness : N;
  color : string;
  rotationSpeed : N;
  dashArray : Str N;
  rotationDirection : N
}.

(** The memo cell of a RingLayer: the glow filter, keyed by the colour. *)
Definition RingLayerHooks (N : Type) : Type := Memo string (Str N).

(** The hooks of the two RingLayer elements of the tree. *)
Record Hooks (N : Type) : Type := mkHooks {
  outer_ring : RingLayerHooks N;
  inner_ring : RingLayerHooks N
}.

Section Component.
Context {N : Type} `{JsNum N} `{JsMath N}.
Local Open Scope js_scope.

Definition RingLayer (p : RingLayerProps N) (frame : Z) (cfg : VideoConfig)
  : Render (RingLayerHooks N) N (Element N) :=
  (let totalRotation := '360 * rotationSpeed p * rotationDirection p in
   currentRotation <~ interpolate ('frame) ['0; '(durationInFrames cfg)]
                        ['0; totalRotation] default_options ;;
   let size := (radius p + thickness p) * '2 in
   let center := quo size ('2) in
   let circumference := '2 * Math_PI * radius p in
   glowFilter <- useMemo (fun h => h) (fun c _ => c) String.eqb
                   (Render_ret [Lit "drop-shadow(0 0 15px "; Lit (color p);
                                Lit ") drop-shadow(0 0 30px "; Lit (color p);
                                Lit ")"])
                   (color p) ;;
   Render_ret
     (Node "div"
        [("style",
           VObj [("position", str "absolute");
                 ("top", str "50%");
                 ("left", str "50%");
                 ("width", VNum size);
                 ("height", VNum size);
                 ("transform",
                   VStr [Lit "translate(-50%, -50%) rotate(";
                         Num currentRotation; Lit "deg)"])])]
        [Node "svg"
           [("width", VNum size);
            ("height", VNum size);
            ("viewBox", VStr [Lit "0 0 "; Num size; Lit " "; Num size])]
           [Node "circle"
              [("cx", VNum center);
               ("cy", VNum center);
               ("r", VNum (radius p));
               ("fill", str "none");
               ("stroke", str (color p));
               ("strokeWidth", VNum (thickness p));
               ("strokeLinecap", str "round");
               ("strokeDasharray", VStr (dashArray p));
               ("style", VObj [("filter", VStr glowFilter)])]
              []]]))%render.

(** The element [<RingLayer ... />] whose hooks are found by [get] and
    [set]. *)
Definition RingLayer_element (get : Hooks N -> RingLayerHooks N)
    (set : RingLayerHooks N -> Hooks N -> Hooks N)
    (p : RingLayerProps N) (frame : Z) (cfg : VideoConfig)
  : Render (Hooks N) N (Element N) :=
  (layer <- child get set (RingLayer p frame cfg) ;;
   Render_ret
     (rendered_as "RingLayer"
        [("radius", VNum (radius p));
         ("thickness", VNum (thickness p));
         ("color", str (color p));
         ("rotationSpeed", VNum (rotationSpeed p));
         ("dashArray", VStr (dashArray p));
         ("rotationDirection", VNum (rotationDirection p))]
        layer))%render.

Definition CyberpunkDataRing (props : Props) (frame : Z) (cfg : VideoConfig)
  : Render (Hooks N) N (Element N) :=
  (let outerRadius := '(iconSize props) * dec 45 100 in
   let outerThickness := '(iconSize props) * dec 3 100 in
   let innerRadius := '(iconSize props) * dec 3 10 in
   let innerThickness := '(iconSize props) * dec 2 100 in
   outer <- RingLayer_element (@outer_ring N)
              (fun c h => mkHooks c (inner_ring h))
              (mkLayer outerRadius outerThickness (primaryColor props) ('1)
                 [Num (outerRadius * dec 5 10); Lit " ";
                  Num (outerRadius * dec 2 10)]
                 ('1))
              frame cfg ;;
   inner <- RingLayer_element (@inner_ring N)
              (fun c h => mkHooks (outer_ring h) c)
              (mkLayer innerRadius innerThickness (primaryColor props) ('3)
                 [Num (innerRadius * dec 2 10); Lit " ";
                  Num (innerRadius * dec 2 10)]
                 ('(-1)))
              frame cfg ;;
   Render_ret
     (Node "AbsoluteFill"
        [("style", VObj [("backgroundColor", str "#000000");
                         ("display", str "flex");
                         ("justifyContent", str "center");
                         ("alignItems", str "center");
                         ("overflow", str "hidden")])]
        [Node "AbsoluteFill"
           [("style",
              VObj [("opacity", VNum (dec 15 100));
                    ("backgroundImage",
                      str "repeating-radial-gradient(circle at 50% 50%, transparent 0%, transparent 2px, rgba(0, 255, 0, 0.1) 3px, transparent 4px)");
                    ("backgroundSize", str "100% 100%")])]
           [];
         Node "div"
           [("style", VObj [("width", VNum ('(iconSize props)));
                            ("height", VNum ('(iconSize props)));
                            ("position", str "relative")])]
           [outer; inner]]))%render.
End Component.

End CyberpunkDataRing.

(* ================================================================== *)
(** ** SpeedDemonSpinner *)

Module SpeedDemonSpinner.

Record Props : Type := mkProps {
  cyanColor : string;
  iconSize : Z;
  strokeThickness : Z
}.

Definition defaultProps : Props := {|
  cyanColor := "#00FFFF";
  iconSize := 1200;
  strokeThickness := 40
|}.

Definition compositionConfig : VideoConfig := mkVideoConfig 30 300 3840 2160.

(** [tailLengthRatio]: 0 to 1, how much of the circle the tail covers. *)
Record CometSegmentProps (N : Type) : Type := mkSegment {
  center : N;
  radius : N;
  thickness : N;
  color : string;
  rotation : N;
  opacity : N;
  blur : N;
  perimeter : N;
  tailLengthRatio : N
}.

(** The dependencies of [tailStack]:
    [center, radius, strokeThickness, cyanColor, perimeter, totalRotation]. *)
Definition Deps (N : Type) : Type := (N * N * Z * string * N * N)%type.

(** The memo cell of [tailStack] holds a reference to the array the
    factory built; [arrays] is where the arrays live. *)
Record Hooks (N : Type) : Type := mkHooks {
  tailStack_memo : Memo (Deps N) Ref;
  arrays : Heap (Element N)
}.

Section Component.
Context {N : Type} `{JsNum N} `{JsMath N} `{BezierSolver N}.
Local Open Scope js_scope.

(** Steep at the start and the end, flat in the middle. *)
Definition heavyRushEasing : Result (N -> N) :=
  Easing_bezier (dec 8 10) ('0) (dec 2 10) ('1).

Definition CometSegment (p : CometSegmentProps N) : Element N :=
  let visibleLength := perimeter p * tailLengthRatio p in
  let dashOffset := neg visibleLength in
  let dashArray : Str N := [Num visibleLength; Lit " "; Num (perimeter p)] in
  Node "circle"
    [("cx", VNum (center p));
     ("cy", VNum (center p));
     ("r", VNum (radius p));
     ("fill", str "none");
     ("stroke", str (color p));
     ("strokeWidth", VNum (thickness p));
     ("strokeLinecap", str "round");
     ("strokeDasharray", VStr dashArray);
     ("strokeDashoffset", VNum dashOffset);
     ("style",
       VObj [("opacity", VNum (opacity p));
             ("filter", VStr [Lit "blur("; Num (blur p); Lit "px)"]);
             ("transformOrigin",
               VStr [Num (center p); Lit "px "; Num (center p); Lit "px"]);
             ("transform", VStr [Lit "rotate("; Num (rotation p); Lit "deg)"])])]
    [].

(** The element [<CometSegment key={i} ... />]. *)
Definition CometSegment_element (i : Z) (p : CometSegmentProps N) : Element N :=
  rendered_as "CometSegment"
    [("key", VNum ('i));
     ("center", VNum (center p));
     ("radius", VNum (radius p));
     ("thickness", VNum (thickness p));
     ("color", str (color p));
     ("perimeter", VNum (perimeter p));
     ("opacity", VNum (opacity p));
     ("blur", VNum (blur p));
     ("rotation", VNum (rotation p));
     ("tailLengthRatio", VNum (tailLengthRatio p))]
    (CometSegment p).

(** Two cycles of "rush, slow, rush" over the composition. *)
Definition cycles : Z := 2.

(** The cycle index times 360 plus the eased rotation within the cycle. *)
Definition totalRotation (frame : Z) (cfg : VideoConfig) : Result N :=
  (heavyRushEasing <- heavyRushEasing ;;
   framesPerCycle <- '(durationInFrames cfg) / 'cycles ;;
   elapsedCycles <- 'frame / framesPerCycle ;;
   let currentCycleIndex := Math_floor elapsedCycles in
   frameInCycle <- 'frame % (framesPerCycle) ;;
   cycleRotation <- interpolate frameInCycle ['0; framesPerCycle] ['0; '360]
                      (mkOptions heavyRushEasing extend extend) ;;
   Ok (currentCycleIndex * '360 + cycleRotation))%result.

Definition numTailSegments : Z := 20.

(** Segment [i] of the stack: 0 is the bright head, the others the tail,
    each lagging behind the one before. *)
Definition tail_segment (props : Props) (center radius perimeter totalRotation : N)
    (i : Z) : Result (Element N) :=
  (let isHead := 'i =? '0 in
   opacity <- interpolate ('i) ['0; 'numTailSegments - '1] ['1; '0]
                default_options ;;
   blur <- interpolate ('i) ['0; 'numTailSegments - '1] ['0; '20]
             default_options ;;
   let rotationLag := 'i * dec 25 10 in
   tailLengthRatio <- interpolate ('i) ['0; 'numTailSegments - '1]
                        [dec 1 10; dec 35 100] default_options ;;
   Ok (CometSegment_element i
         (mkSegment center radius ('(strokeThickness props)) (cyanColor props)
            (totalRotation - rotationLag) opacity blur perimeter
            tailLengthRatio)))%result.

(** An array literal or the result of map: a new array object. *)
Definition new_array (arr : list (Element N)) : Render (Hooks N) N Ref :=
  fun w =>
    let '(r, heap) := allocate arr (arrays (hooks w)) in
    Ok (r, mkWorld (mkHooks (tailStack_memo (hooks w)) heap)
             (entropy w) (drawn w)).

(** [arr.reverse()]: the array is reversed in place and the same reference
    is returned. *)
Definition Array_reverse (r : Ref) : Render (Hooks N) N Ref :=
  fun w =>
    match dereference (arrays (hooks w)) r with
    | Some arr =>
        Ok (r, mkWorld (mkHooks (tailStack_memo (hooks w))
                          (assign r (rev arr) (arrays (hooks w))))
                 (entropy w) (drawn w))
    | None => Throw (TypeError "not an array")
    end.

(** The elements of the array behind a reference, as React reads them when
    the array is a child of the returned tree. *)
Definition elements_of (r : Ref) : Render (Hooks N) N (list (Element N)) :=
  fun w =>
    match dereference (arrays (hooks w)) r with
    | Some arr => Ok (arr, w)
    | None => Throw (TypeError "not an array")
    end.

(** Object.is on the dependency list; on numbers it is [===] in the exact
    models, which have neither NaN nor a negative zero. *)
Definition same_deps (a b : Deps N) : bool :=
  let '(a1, a2, a3, a4, a5, a6) := a in
  let '(b1, b2, b3, b4, b5, b6) := b in
  (a1 =? b1) && (a2 =? b2) && (a3 =? b3)%Z && String.eqb a4 b4
  && (a5 =? b5) && (a6 =? b6).

(** The function passed to useMemo: [Array.from(...).map(...)], a new
    array. *)
Definition tailStack_factory (props : Props)
    (center radius perimeter totalRotation : N) : Render (Hooks N) N Ref :=
  (segments <~ mapM (tail_segment props center radius perimeter totalRotation)
                 (Array_from numTailSegments) ;;
   new_array segments)%render.

(** [useMemo(..., [...]).reverse()]: reversed so that the head (index 0)
    is rendered last, on top. *)
Definition tailStack (props : Props) (center radius perimeter totalRotation : N)
  : Render (Hooks N) N Ref :=
  (stack <- useMemo (@tailStack_memo N) (fun c h => mkHooks c (arrays h))
              same_deps
              (tailStack_factory props center radius perimeter totalRotation)
              (center, radius, strokeThickness props, cyanColor props,
               perimeter, totalRotation) ;;
   Array_reverse stack)%render.

Definition view (props : Props) (center radius : N)
    (tailStack : list (Element N)) : Element N :=
  Node "AbsoluteFill"
    [("style", VObj [("backgroundColor", str "#000000");
                     ("display", str "flex");
                     ("justifyContent", str "center");
                     ("alignItems", str "center")])]
    [Node "div"
       [("style", VObj [("width", VNum ('(iconSize props)));
                        ("height", VNum ('(iconSize props)));
                        ("position", str "relative")])]
       [Node "svg"
          [("width", VNum ('(iconSize props)));
           ("height", VNum ('(iconSize props)));
           ("style", VObj [("position", str "absolute");
                           ("opacity", VNum (dec 1 10))])]
          [Node "circle"
             [("cx", VNum center);
              ("cy", VNum center);
              ("r", VNum radius);
              ("fill", str "none");
              ("stroke", str (cyanColor props));
              ("strokeWidth", VNum (quo ('(strokeThickness props)) ('2)))]
             []];
        Node "svg"
          [("width", VNum ('(iconSize props)));
           ("height", VNum ('(iconSize props)));
           ("style", VObj [("position", str "absolute");
                           ("overflow", str "visible")])]
          [Node "defs" []
             [Node "filter" [("id", str "powerful-bloom")]
                [Node "feGaussianBlur"
                   [("in", str "SourceGraphic"); ("stdDeviation", str "10");
                    ("result", str "blur")] [];
                 Node "feColorMatrix"
                   [("in", str "blur"); ("type", str "matrix");
                    ("values",
                      str " 1 0 0 0 0 0 1 0 0 0 0 0 1 0 0 0 0 0 1 -0.2");
                    ("result", str "contrastBlur")] [];
                 Node "feMerge" []
                   [Node "feMergeNode" [("in", str "contrastBlur")] [];
                    Node "feMergeNode" [("in", str "SourceGraphic")] []]]];
           Node "g" [("filter", str "url(#powerful-bloom)")]
             [Items tailStack]]]].

Definition SpeedDemonSpinner (props : Props) (frame : Z) (cfg : VideoConfig)
  : Render (Hooks N) N (Element N) :=
  (let center := quo ('(iconSize props)) ('2) in
   let radius := quo ('(iconSize props)) ('2) - '(strokeThickness props) in
   let perimeter := '2 * Math_PI * radius in
   totalRotation <~ totalRotation frame cfg ;;
   tailStack <- tailStack props center radius perimeter totalRotation ;;
   segments <- elements_of tailStack ;;
   Render_ret (view props center radius segments))%render.
End Component.

End SpeedDemonSpinner.

(* ================================================================== *)
(** ** cyberPunkLoadinRing.tsx: ReededGlassPink *)

(** [arr[x]] for a number [x]: an element only when [x] is an integer
    inside the array (JavaScript yields undefined otherwise). *)
Definition at_number {N} `{JsNum N} {A} (arr : list A) (x : N) : Result A :=
  if eqb (ofZ (floorZ x)) x then at_index arr (floorZ x)
  else Throw (RangeError "index is not an integer").

Module ReededGlassPink.

Record ReededGlassProps : Type := mkProps {
  stripCount : Z;
  glassBlur : Z;
  colors : list string
}.

Definition defaultProps : ReededGlassProps := {|
  stripCount := 40;
  glassBlur := 25;
  colors := ["#ffcc33"; "#ffb347"; "#ffffff"; "#fdf5e6"]
|}.

(** durationInSeconds: 10. *)
Definition compositionConfig : VideoConfig := mkVideoConfig 30 (10 * 30) 3840 2160.

(** The memo cell of GradientBackground: [blobs], with no dependencies. *)
Definition GradientBackgroundHooks : Type := Memo unit (list Z).

(** The memo cell of [strips], keyed by [stripCount], and the hooks of the
    GradientBackground element. *)
Record Hooks : Type := mkHooks {
  strips_memo : Memo Z (list Z);
  background : GradientBackgroundHooks
}.

Section Component.
Context {N : Type} `{JsNum N} `{JsMath N}.
Local Open Scope js_scope.

(** One of the large moving blobs that simulate the light sources behind
    the glass. *)
Definition blob (colors : list string) (frame : Z) (cfg : VideoConfig)
    (blobs : list Z) (i : Z) : Result (Element N) :=
  (progress <- 'frame / '(durationInFrames cfg) ;;
   share <- (Math_PI * '2) / '(Z.of_nat (List.length blobs)) ;;
   let offset := 'i * share in
   let x := Math_sin (progress * Math_PI * '2 + offset)
            * ('(width cfg) * dec 3 10) + quo ('(width cfg)) ('2) in
   let y := Math_cos (progress * Math_PI * '2 * '2 + offset)
            * ('(height cfg) * dec 2 10) + quo ('(height cfg)) ('2) in
   scale <- interpolate (Math_sin (progress * Math_PI * '4 + offset))
              ['(-1); '1] ['1; dec 15 10] default_options ;;
   k <- 'i % '(Z.of_nat (List.length colors)) ;;
   color <- at_number colors k ;;
   Ok (Node "div"
         [("key", VNum ('i));
          ("style",
            VObj [("position", str "absolute");
                  ("left", VNum x);
                  ("top", VNum y);
                  ("width", VNum ('(width cfg) * dec 6 10));
                  ("height", VNum ('(width cfg) * dec 6 10));
                  ("transform", str "translate(-50%, -50%)");
                  ("borderRadius", str "50%");
                  ("background",
                    VStr [Lit "radial-gradient(circle, "; Lit color;
                          Lit " 0%, transparent 70%)"]);
                  ("opacity", VNum (dec 8 10));
                  ("filter", str "blur(100px)")])]
         []))%result.

Definition noise_texture : Str N :=
  [Lit "url("; Lit double_quote;
   Lit "data:image/svg+xml,%3Csvg viewBox='0 0 200 200' xmlns='http://www.w3.org/2000/svg'%3E%3Cfilter id='noiseFilter'%3E%3CfeTurbulence type='fractalNoise' baseFrequency='0.65' numOctaves='3' stitchTiles='stitch'/%3E%3C/filter%3E%3Crect width='100%25' height='100%25' filter='url(%23noiseFilter)' opacity='0.05'/%3E%3C/svg%3E";
   Lit double_quote; Lit ")"].

Definition GradientBackground (colors : list string) (frame : Z)
    (cfg : VideoConfig) : Render GradientBackgroundHooks N (Element N) :=
  (blobs <- useMemo (fun h => h) (fun c _ => c) (fun _ _ => true)
              (Render_ret [0; 1; 2]%Z) tt ;;
   lights <~ mapM (blob colors frame cfg blobs) blobs ;;
   Render_ret
     (Node "AbsoluteFill" [("style", VObj [("backgroundColor", str "#050005")])]
        [Items lights;
         Node "AbsoluteFill"
           [("style", VObj [("backgroundImage", VStr noise_texture);
                            ("opacity", VNum (dec 15 100));
                            ("mixBlendMode", str "overlay")])]
           []]))%render.

(** One glass reed. *)
Definition strip (props : ReededGlassProps) (i : Z) : Element N :=
  Node "div"
    [("key", VNum ('i));
     ("style",
       VObj [("flex", VNum ('1));
             ("height", str "100%");
             ("position", str "relative");
             ("backdropFilter",
               VStr [Lit "blur("; Num ('(glassBlur props)); Lit "px)"]);
             ("background",
               str "linear-gradient(90deg, rgba(255,255,255,0.05) 0%, rgba(255,255,255,0.2) 20%, rgba(255,255,255,0) 50%, rgba(0,0,0,0.2) 80%, rgba(0,0,0,0.4) 100%)");
             ("borderLeft", str "1px solid rgba(255,255,255,0.15)");
             ("borderRight", str "1px solid rgba(0,0,0,0.3)");
             ("boxShadow", str "inset 10px 0 20px rgba(255,255,255,0.05)")])]
    [].

Definition ReededGlassEffect (props : ReededGlassProps) (frame : Z)
    (cfg : VideoConfig) : Render Hooks N (Element N) :=
  (stripWidth <~ '(width cfg) / '(stripCount props) ;;
   strips <- useMemo strips_memo (fun c h => mkHooks c (background h)) Z.eqb
               (lift (new_Array (stripCount props))) (stripCount props) ;;
   lights <- child background (fun c h => mkHooks (strips_memo h) c)
               (GradientBackground (colors props) frame cfg) ;;
   Render_ret
     (Node "AbsoluteFill" []
        [rendered_as "GradientBackground"
           [("colors", VArr (List.map str (colors props)))]
           lights;
         Node "div"
           [("style", VObj [("display", str "flex");
                            ("width", str "100%");
                            ("height", str "100%")])]
           [Items (List.map (fun '(_, i) => strip props i) (with_index strips))];
         Node "AbsoluteFill"
           [("style",
              VObj [("background",
                      str "radial-gradient(circle, transparent 50%, rgba(0,0,0,0.6) 100%)");
                    ("pointerEvents", str "none")])]
           []]))%render.
End Component.

End ReededGlassPink.

(* ================================================================== *)
(** ** progressTrackingLoadingBar.tsx: FloatingSlider *)

Module FloatingSlider.

Record SliderProps : Type := mkProps {
  barWidth : Z;
  barHeight : Z;
  knobSize : Z;
  primaryColor : string;
  secondaryColor : string;
  trackColor : string;
  fontFamily : string
}.

Definition defaultProps : SliderProps := {|
  barWidth := 2400;
  barHeight := 80;
  knobSize := 130;
  primaryColor := "#ff0000";
  secondaryColor := "#ff4d4d";
  trackColor := "rgba(255, 255, 255, 0.15)";
  fontFamily := "Inter, Roboto, Helvetica, Arial, sans-serif"
|}.

(** durationInSeconds: 10. *)
Definition compositionConfig : VideoConfig := mkVideoConfig 30 (10 * 30) 3840 2160.

Section Component.
Context {N : Type} `{JsNum N} `{BezierSolver N}.
Local Open Scope js_scope.

(** Smooth ease-in-out movement from 0 to 100. *)
Definition progress (frame : Z) (cfg : VideoConfig) : Result N :=
  (ease <- Easing_bezier (dec 25 100) (dec 1 10) (dec 25 100) ('1) ;;
   interpolate ('frame) ['0; '(durationInFrames cfg) - '30] ['0; '100]
     (mkOptions ease extend clamp))%result.

Definition FloatingSlider (props : SliderProps) (frame : Z) (cfg : VideoConfig)
  : Result (Element N) :=
  (progress <- progress frame cfg ;;
   let percentDisplay := Math_floor progress in
   let currentX := quo progress ('100) * '(barWidth props) in
   Ok (Node "AbsoluteFill"
         [("style", VObj [("backgroundColor", str "#000000");
                          ("display", str "flex");
                          ("alignItems", str "center");
                          ("justifyContent", str "center")])]
         [Node "div"
            [("style", VObj [("position", str "relative");
                             ("width", VNum ('(barWidth props)));
                             ("height", VNum ('(knobSize props) * '2));
                             ("display", str "flex");
                             ("alignItems", str "center")])]
            [Node "div"
               [("style",
                  VObj [("position", str "absolute");
                        ("left", VNum ('0));
                        ("width", str "100%");
                        ("height", VNum ('(barHeight props)));
                        ("backgroundColor", str (trackColor props));
                        ("borderRadius", VNum (quo ('(barHeight props)) ('2)));
                        ("backdropFilter", str "blur(10px)");
                        ("border", str "2px solid rgba(255,255,255,0.1)")])]
               [];
             Node "div"
               [("style",
                  VObj [("position", str "absolute");
                        ("left", VNum ('0));
                        ("width", VNum currentX);
                        ("height", VNum ('(barHeight props)));
                        ("background",
                          VStr [Lit "linear-gradient(90deg, ";
                                Lit (primaryColor props); Lit ", ";
                                Lit (secondaryColor props); Lit ")"]);
                        ("borderRadius", VNum (quo ('(barHeight props)) ('2)));
                        ("boxShadow",
                          VStr [Lit "0 0 40px "; Lit (primaryColor props);
                                Lit "60"]);
                        ("overflow", str "hidden")])]
               [];
             Node "div"
               [("style",
                  VObj [("position", str "absolute");
                        ("left", VNum ('0));
                        ("top", str "50%");
                        ("transform",
                          VStr [Lit "translate("; Num currentX;
                                Lit "px, -50%)"]);
                        ("width", VNum ('0));
                        ("height", VNum ('0));
                        ("display", str "flex");
                        ("alignItems", str "center");
                        ("justifyContent", str "center");
                        ("willChange", str "transform")])]
               [Node "div"
                  [("style",
                     VObj [("position", str "absolute");
                           ("bottom", VNum (quo ('(knobSize props)) ('2) + '30));
                           ("fontFamily", str (fontFamily props));
                           ("fontSize", VNum ('90));
                           ("fontWeight", VNum ('900));
                           ("color", str "white");
                           ("whiteSpace", str "nowrap");
                           ("textShadow", str "0 4px 20px rgba(0,0,0,0.5)");
                           ("transform", str "translateX(-50%)")])]
                  [Text [Num percentDisplay; Lit "%"]];
                Node "div"
                  [("style",
                     VObj [("width", VNum ('(knobSize props)));
                           ("height", VNum ('(knobSize props)));
                           ("backgroundColor", str "#FFFFFF");
                           ("borderRadius", str "50%");
                           ("transform", str "translate(-50%, 0)");
                           ("boxShadow",
                             str (line_feed ++
                                  "                0 0 0 8px rgba(255,255,255,0.2), " ++
                                  line_feed ++
                                  "                0 10px 40px rgba(0,0,0,0.6)" ++
                                  line_feed ++ "              ")%string);
                           ("zIndex", VNum ('10))])]
                  [Node "div"
                     [("style",
                        VObj [("position", str "absolute");
                              ("top", str "50%");
                              ("left", str "50%");
                              ("width", str "20%");
                              ("height", str "20%");
                              ("backgroundColor", str (secondaryColor props));
                              ("borderRadius", str "50%");
                              ("transform", str "translate(-50%, -50%)");
                              ("opacity", VNum (dec 8 10))])]
                     []]]]]))%result.
End Component.

End FloatingSlider.

(* ================================================================== *)
(** ** progressTrackingLoadingBar.tsx: ShapeShifter *)

Section MoreEasing.
Context {N : Type} `{JsNum N} `{BezierSolver N}.
Local Open Scope js_scope.

(** Modelled from the spec: Remotion's Easing.ease, the Bezier easing with
    control points (0.42, 0) and (1, 1). *)
Definition Easing_ease : Result (N -> N) :=
  Easing_bezier (dec 42 100) ('0) ('1) ('1).

(** Modelled from the spec: Remotion's Easing.inOut, which runs an easing
    forwards for half of the duration and backwards for the rest. *)
Definition Easing_inOut (easing : N -> N) (t : N) : N :=
  if t <? dec 5 10 then quo (easing (t * '2)) ('2)
  else '1 - quo (easing (('1 - t) * '2)) ('2).
End MoreEasing.

Module ShapeShifter.

Record Props : Type := mkProps {
  color : string;
  size : Z;
  thickness : Z
}.

Definition defaultProps : Props := {|
  color := "#ffffff";
  size := 1200;
  thickness := 30
|}.

Definition compositionConfig : VideoConfig := mkVideoConfig 30 300 3840 2160.

Section Component.
Context {N : Type} `{JsNum N} `{BezierSolver N}.
Local Open Scope js_scope.

(** From square (0% radius) to circle (50% radius) and back to square. *)
Definition borderRadius (frame : Z) (cfg : VideoConfig) : Result N :=
  (let halfDuration := quo ('(durationInFrames cfg)) ('2) in
   ease <- Easing_ease ;;
   interpolate ('frame) ['0; halfDuration; '(durationInFrames cfg)]
     ['0; '50; '0] (mkOptions (Easing_inOut ease) clamp clamp))%result.

(** A constant, linear spin: one revolution per loop. *)
Definition rotation (frame : Z) (cfg : VideoConfig) : Result N :=
  interpolate ('frame) ['0; '(durationInFrames cfg)] ['0; '360] default_options.

Definition shapeStyle (props : Props) (borderRadius rotation : N)
  : list (string * Val N) :=
  [("width", VNum ('(size props)));
   ("height", VNum ('(size props)));
   ("border", VStr [Num ('(thickness props)); Lit "px solid "; Lit (color props)]);
   ("borderRadius", VStr [Num borderRadius; Lit "%"]);
   ("transform", VStr [Lit "rotate("; Num rotation; Lit "deg)"]);
   ("boxShadow",
     VStr [Lit (line_feed ++ "      0 0 20px ")%string; Lit (color props);
           Lit (",      /* Inner tight glow */" ++ line_feed ++ "      0 0 60px ")%string;
           Lit (color props);
           Lit (",      /* Middle soft glow */" ++ line_feed ++ "      0 0 150px ")%string;
           Lit (color props);
           Lit ("40,   /* Outer atmospheric bloom (lower opacity) */" ++ line_feed ++ "      inset 0 0 30px ")%string;
           Lit (color props);
           Lit (" /* Inward glow for dimensionality */" ++ line_feed ++ "    ")%string]);
   ("transformOrigin", str "center center");
   ("willChange", str "transform, border-radius")].

Definition ShapeShifter (props : Props) (frame : Z) (cfg : VideoConfig)
  : Result (Element N) :=
  (borderRadius <- borderRadius frame cfg ;;
   rotation <- rotation frame cfg ;;
   Ok (Node "AbsoluteFill"
         [("style", VObj [("backgroundColor", str "#000000");
                          ("display", str "flex");
                          ("justifyContent", str "center");
                          ("alignItems", str "center")])]
         [Node "div" [("style", VObj (shapeStyle props borderRadius rotation))]
            []]))%result.
End Component.

End ShapeShifter.

(* ================================================================== *)
(** ** AuroraMeshGradient *)

Section MoreMath.
Context {N : Type} `{JsNum N}.
Local Open Scope js_scope.

Definition Math_max (a b : N) : N := if a <? b then b else a.
Definition Math_abs (a : N) : N := if a <? '0 then neg a else a.
End MoreMath.

(** Equality of two string arrays, element by element. *)
Fixpoint same_strings (a b : list string) : bool :=
  match a, b with
  | [], [] => true
  | x :: a', y :: b' => String.eqb x y && same_strings a' b'
  | _, _ => false
  end.

Module AuroraMeshGradient.

Record AuroraMeshProps (N : Type) : Type := mkProps {
  colors : list string;
  bgColor : string;
  blurAmount : Z;
  noiseOpacity : N
}.

(** durationInSeconds: 8. *)
Definition compositionConfig : VideoConfig := mkVideoConfig 30 (8 * 30) 4096 2160.

Record Blob (N : Type) : Type := mkBlob {
  color : string;
  seed : N;
  baseSize : N
}.

(** The memo cell of [blobs], keyed by [colors, width, height].  React
    compares the [colors] arrays by reference; arrays that are the same
    object are equal element by element. *)
Definition Hooks (N : Type) : Type :=
  Memo (list string * Z * Z) (list (Blob N)).

Definition same_deps (a b : list string * Z * Z) : bool :=
  let '(a1, a2, a3) := a in
  let '(b1, b2, b3) := b in
  same_strings a1 b1 && (a2 =? b2)%Z && (a3 =? b3)%Z.

Section Component.
Context {N : Type} `{JsNum N} `{JsMath N}.
Local Open Scope js_scope.

Definition defaultProps : AuroraMeshProps N := {|
  colors := ["#00d2ff"; "#00ff9d"; "#006994"; "#004d40"; "#e0f7fa"];
  bgColor := "#00151a";
  blurAmount := 220;
  noiseOpacity := dec 2 100
|}.

Definition OrganicBlob (blob : Blob N) (frame : Z) (cfg : VideoConfig)
  : Result (Element N) :=
  (let seed := seed blob in
   progress <- 'frame / '(durationInFrames cfg) ;;
   let angle := progress * Math_PI * '2 in
   let xOffset := Math_sin (seed * '11) * ('(width cfg) * dec 2 10) in
   let yOffset := Math_cos (seed * '7) * ('(height cfg) * dec 1 10) in
   m3 <- seed % '3 ;;
   let orbitRadiusX := '(width cfg) * (dec 15 100 + m3 * dec 5 100) in
   n3 <- (seed + '1) % '3 ;;
   let orbitRadiusY := '(height cfg) * (dec 15 100 + n3 * dec 5 100) in
   m2 <- seed % '2 ;;
   let direction := if m2 =? '0 then '1 else '(-1) in
   let x := quo ('(width cfg)) ('2) + xOffset
            + Math_cos (angle * direction + seed) * orbitRadiusX in
   let y := quo ('(height cfg)) ('2) + yOffset
            + Math_sin (angle * direction + seed) * orbitRadiusY in
   let breathe := '1 + Math_sin (angle * '2 + seed) * dec 2 10 in
   let currentSize := baseSize blob * breathe in
   Ok (Node "div"
         [("style",
            VObj [("position", str "absolute");
                  ("left", VNum x);
                  ("top", VNum y);
                  ("width", VNum currentSize);
                  ("height", VNum currentSize);
                  ("transform", str "translate(-50%, -50%)");
                  ("borderRadius", str "50%");
                  ("background",
                    VStr [Lit "radial-gradient(circle at center, ";
                          Lit (color blob); Lit " 0%, transparent 70%)"]);
                  ("opacity", VNum (dec 7 10));
                  ("mixBlendMode", str "screen")])]
         []))%result.

(** The element [<OrganicBlob key={i} ... />]. *)
Definition OrganicBlob_element (frame : Z) (cfg : VideoConfig)
    (entry : Blob N * Z) : Result (Element N) :=
  (let '(blob, i) := entry in
   rendered <- OrganicBlob blob frame cfg ;;
   Ok (rendered_as "OrganicBlob"
         [("key", VNum ('i));
          ("color", str (color blob));
          ("seed", VNum (seed blob));
          ("baseSize", VNum (baseSize blob))]
         rendered))%result.

(** The function passed to useMemo: six blobs, recycling the first
    colour, each 60% of the screen. *)
Definition blobs_factory (props : AuroraMeshProps N) (cfg : VideoConfig)
  : Render (Hooks N) N (list (Blob N)) :=
  lift (mapM (fun '(colorIndex, i) =>
                (color <- at_index (colors props) colorIndex ;;
                 Ok (mkBlob color ('i * '45)
                       (Math_max ('(width cfg)) ('(height cfg)) * dec 6 10)))%result)
          (with_index [0; 1; 2; 3; 4; 0]%Z)).

Definition blobs (props : AuroraMeshProps N) (cfg : VideoConfig)
  : Render (Hooks N) N (list (Blob N)) :=
  useMemo (fun h => h) (fun c _ => c) same_deps (blobs_factory props cfg)
    (colors props, width cfg, height cfg).

Definition noise_texture : Str N :=
  [Lit "url("; Lit double_quote;
   Lit "data:image/svg+xml,%3Csvg viewBox='0 0 200 200' xmlns='http://www.w3.org/2000/svg'%3E%3Cfilter id='noiseFilter'%3E%3CfeTurbulence type='fractalNoise' baseFrequency='0.8' numOctaves='3' stitchTiles='stitch'/%3E%3C/filter%3E%3Crect width='100%25' height='100%25' filter='url(%23noiseFilter)' opacity='1'/%3E%3C/svg%3E";
   Lit double_quote; Lit ")"].

Definition AuroraMeshGradient (props : AuroraMeshProps N) (frame : Z)
    (cfg : VideoConfig) : Render (Hooks N) N (Element N) :=
  (blobs <- blobs props cfg ;;
   mesh <~ mapM (OrganicBlob_element frame cfg) (with_index blobs) ;;
   Render_ret
     (Node "AbsoluteFill"
        [("style", VObj [("backgroundColor", str (bgColor props));
                         ("overflow", str "hidden")])]
        [Node "AbsoluteFill"
           [("style",
              VObj [("filter",
                      VStr [Lit "blur("; Num ('(blurAmount props));
                            Lit "px) saturate(1.4)"])])]
           [Items mesh];
         Node "AbsoluteFill"
           [("style", VObj [("opacity", VNum (noiseOpacity props));
                            ("mixBlendMode", str "overlay");
                            ("pointerEvents", str "none");
                            ("backgroundImage", VStr noise_texture)])]
           []]))%render.
End Component.

End AuroraMeshGradient.

(* ================================================================== *)
(** ** successTick.tsx: SuccessCheckmark *)

Module SuccessCheckmark.

Record Props : Type := mkProps {
  color : string;
  strokeWidth : Z;
  iconSize : Z
}.

Definition defaultProps : Props := {|
  color := "#39FF14";
  strokeWidth := 30;
  iconSize := 800
|}.

Definition compositionConfig : VideoConfig := mkVideoConfig 30 150 3840 2160.

Section Component.
Context {N : Type} `{JsNum N} `{JsMath N} `{SpringCurve N}.
Local Open Scope js_scope.

(** [springConfig]; its fourth field, [dampingDrawing], is the damping of
    the drawing part. *)
Definition springConfig : SpringConfig N := mkSpringConfig ('1) ('12) ('150).
Definition dampingDrawing : N := '20.

Definition pulseStartFrame : Z := 50.

Definition commonPathProps (props : Props) : list (string * Val N) :=
  [("fill", str "none");
   ("stroke", str (color props));
   ("strokeWidth", VNum ('(strokeWidth props)));
   ("strokeLinecap", str "round");
   ("strokeLinejoin", str "round");
   ("filter", VStr [Lit "drop-shadow(0 0 20px "; Lit (color props); Lit ")"])].

Definition SuccessCheckmark (props : Props) (frame : Z) (cfg : VideoConfig)
  : Result (Element N) :=
  (let iconSize := '(iconSize props) in
   let center := quo iconSize ('2) in
   let radius := iconSize * dec 45 100 in
   let circlePerimeter := '2 * Math_PI * radius in
   circleDrawSpring <-
     spring (mkSpring ('frame) ('(fps cfg))
               (mkSpringConfig (mass springConfig) dampingDrawing
                  (stiffness springConfig))
               (Some ('30)) ('0)) ;;
   circleDashOffset <- interpolate circleDrawSpring ['0; '1]
                         [circlePerimeter; '0] default_options ;;
   checkmarkScaleSpring <-
     spring (mkSpring ('frame) ('(fps cfg)) springConfig None ('20)) ;;
   let pulseFrame := Math_max ('0) ('frame - 'pulseStartFrame) in
   seconds <- pulseFrame / '(fps cfg) ;;
   let pulseSine := Math_sin (seconds * Math_PI * '2) in
   pulseScale <- interpolate pulseSine ['(-1); '1] ['1; dec 105 100]
                   default_options ;;
   let finalScale :=
     checkmarkScaleSpring
     * (if 'frame >? 'pulseStartFrame then pulseScale else '1) in
   Ok (Node "AbsoluteFill"
         [("style", VObj [("backgroundColor", str "#000000");
                          ("display", str "flex");
                          ("justifyContent", str "center");
                          ("alignItems", str "center")])]
         [Node "svg"
            [("width", VNum iconSize);
             ("height", VNum iconSize);
             ("viewBox", VStr [Lit "0 0 "; Num iconSize; Lit " "; Num iconSize]);
             ("style", VObj [("overflow", str "visible")])]
            [Node "circle"
               ([("cx", VNum center); ("cy", VNum center); ("r", VNum radius)]
                ++ commonPathProps props ++
                [("strokeDasharray", VNum circlePerimeter);
                 ("strokeDashoffset", VNum circleDashOffset);
                 ("transform",
                   VStr [Lit "rotate(-90 "; Num center; Lit " "; Num center;
                         Lit ")"])])
               [];
             Node "path"
               ([("d", VStr [Lit "M "; Num (iconSize * dec 28 100); Lit " ";
                             Num (iconSize * dec 53 100);
                             Lit (" " ++ line_feed ++ "             L ")%string;
                             Num (iconSize * dec 45 100); Lit " ";
                             Num (iconSize * dec 7 10);
                             Lit (" " ++ line_feed ++ "             L ")%string;
                             Num (iconSize * dec 72 100); Lit " ";
                             Num (iconSize * dec 35 100)])]
                ++ commonPathProps props ++
                [("transform", VStr [Lit "scale("; Num finalScale; Lit ")"]);
                 ("style",
                   VObj [("transformOrigin",
                           VStr [Num center; Lit "px "; Num center;
                                 Lit "px"])])])
               []]]))%result.
End Component.

End SuccessCheckmark.

(* ================================================================== *)
(** ** cross.tsx: ErrorCross *)

Module ErrorCross.

Record Props : Type := mkProps {
  color : string;
  strokeWidth : Z;
  iconSize : Z
}.

Definition defaultProps : Props := {|
  color := "#FF0000";
  strokeWidth := 30;
  iconSize := 800
|}.

Definition compositionConfig : VideoConfig := mkVideoConfig 30 120 3840 2160.

Section Component.
Context {N : Type} `{JsNum N} `{JsMath N} `{SpringCurve N}.
Local Open Scope js_scope.

Definition springConfig : SpringConfig N := mkSpringConfig ('1) ('12) ('150).

Definition scaleStartFrame : Z := 20.

Definition commonPathProps (props : Props) : list (string * Val N) :=
  [("fill", str "none");
   ("stroke", str (color props));
   ("strokeWidth", VNum ('(strokeWidth props)));
   ("strokeLinecap", str "round");
   ("strokeLinejoin", str "round");
   ("filter", VStr [Lit "drop-shadow(0 0 30px "; Lit (color props);
                    Lit ") drop-shadow(0 0 10px "; Lit (color props);
                    Lit ")"])].

(** The rejection shake: a sine wave under an exponential decay, applied
    once the frame has passed [shakeStartFrame]. *)
Definition translateX (frame : Z) : N :=
  let shakeStartFrame := 'scaleStartFrame + '5 in
  let shakeFrame := Math_max ('0) ('frame - shakeStartFrame) in
  let shakeFrequency := dec 9 10 in
  let shakeAmplitude := '60 in
  let shakeDecayRate := dec 18 100 in
  let decayEnvelope := Math_exp (neg shakeFrame * shakeDecayRate) in
  let sineWave := Math_sin (shakeFrame * shakeFrequency) in
  if 'frame >? shakeStartFrame then sineWave * shakeAmplitude * decayEnvelope
  else '0.

Definition ErrorCross (props : Props) (frame : Z) (cfg : VideoConfig)
  : Result (Element N) :=
  (let iconSize := '(iconSize props) in
   let center := quo iconSize ('2) in
   let radius := iconSize * dec 45 100 in
   let circlePerimeter := '2 * Math_PI * radius in
   let xOffset := iconSize * dec 25 100 in
   let xPathData : Str N :=
     [Lit (line_feed ++ "    M ")%string; Num (center - xOffset); Lit " ";
      Num (center - xOffset); Lit (line_feed ++ "    L ")%string;
      Num (center + xOffset); Lit " "; Num (center + xOffset);
      Lit (line_feed ++ "    M ")%string; Num (center + xOffset); Lit " ";
      Num (center - xOffset); Lit (line_feed ++ "    L ")%string;
      Num (center - xOffset); Lit " "; Num (center + xOffset);
      Lit (line_feed ++ "  ")%string] in
   circleDrawSpring <-
     spring (mkSpring ('frame) ('(fps cfg))
               (mkSpringConfig (mass springConfig) ('20)
                  (stiffness springConfig))
               (Some ('30)) ('0)) ;;
   circleDashOffset <- interpolate circleDrawSpring ['0; '1]
                         [circlePerimeter; '0] default_options ;;
   xScaleSpring <-
     spring (mkSpring ('frame) ('(fps cfg)) springConfig None
               ('scaleStartFrame)) ;;
   let translateX := translateX frame in
   Ok (Node "AbsoluteFill"
         [("style", VObj [("backgroundColor", str "#000000");
                          ("display", str "flex");
                          ("justifyContent", str "center");
                          ("alignItems", str "center")])]
         [Node "svg"
            [("width", VNum iconSize);
             ("height", VNum iconSize);
             ("viewBox", VStr [Lit "0 0 "; Num iconSize; Lit " "; Num iconSize]);
             ("style",
               VObj [("overflow", str "visible");
                     ("transform",
                       VStr [Lit "translateX("; Num translateX; Lit "px)"])])]
            [Node "circle"
               ([("cx", VNum center); ("cy", VNum center); ("r", VNum radius)]
                ++ commonPathProps props ++
                [("strokeDasharray", VNum circlePerimeter);
                 ("strokeDashoffset", VNum circleDashOffset);
                 ("transform",
                   VStr [Lit "rotate(-90 "; Num center; Lit " "; Num center;
                         Lit ")"])])
               [];
             Node "path"
               ([("d", VStr xPathData)]
                ++ commonPathProps props ++
                [("transform", VStr [Lit "scale("; Num xScaleSpring; Lit ")"]);
                 ("style",
                   VObj [("transformOrigin",
                           VStr [Num center; Lit "px "; Num center;
                                 Lit "px"])])])
               []]]))%result.
End Component.

End ErrorCross.

(* ================================================================== *)
(** ** NeonGrowth *)

Module NeonGrowth.

Record GrowthProps (N : Type) : Type := mkProps {
  neonColor : string;
  baseScale : N
}.

(** durationInSeconds: 10. *)
Definition compositionConfig : VideoConfig := mkVideoConfig 30 (10 * 30) 3840 2160.

Record ArrowProps (N : Type) : Type := mkArrow {
  color : string;
  scale : N;
  blurIntensity : N;
  text : option string
}.

Section Component.
Context {N : Type} `{JsNum N} `{JsMath N}.
Local Open Scope js_scope.

Definition defaultProps : GrowthProps N := {|
  neonColor := "#ffffffff";
  baseScale := dec 25 10
|}.

(** A wide shaft to fit the text, on a 100 x 100 canvas. *)
Definition arrowPath : string :=
  "M 50 5 L 90 45 L 70 45 L 70 95 L 30 95 L 30 45 L 10 45 Z".

Definition NeonBlockArrow (p : ArrowProps N) : Element N :=
  Node "svg"
    [("width", VNum ('200 * scale p));
     ("height", VNum ('200 * scale p));
     ("viewBox", str "0 0 100 100");
     ("style", VObj [("overflow", str "visible")])]
    ([Node "path"
        [("d", str arrowPath);
         ("fill", str "none");
         ("stroke", str (color p));
         ("strokeWidth", str "4");
         ("strokeLinecap", str "round");
         ("strokeLinejoin", str "round");
         ("style",
           VObj [("filter", VStr [Lit "blur("; Num (blurIntensity p); Lit "px)"]);
                 ("opacity", VNum (dec 8 10))])]
        [];
      Node "path"
        [("d", str arrowPath);
         ("fill", str "none");
         ("stroke", str (color p));
         ("strokeWidth", str "2");
         ("strokeLinecap", str "round");
         ("strokeLinejoin", str "round")]
        []]
     ++
     (* [text && (<text ...>)]: nothing without a text, the empty string
        itself for an empty text *)
     match text p with
     | None => []
     | Some t =>
         if Nat.eqb (String.length t) 0 then [Text [Lit t]]
         else
           [Node "text"
              [("x", str "50");
               ("y", str "85");
               ("textAnchor", str "middle");
               ("fill", str (color p));
               ("fontSize", str "40");
               ("fontFamily", str "Arial, sans-serif");
               ("fontWeight", str "900");
               ("style",
                 VObj [("filter",
                         VStr [Lit "drop-shadow(0 0 ";
                               Num (quo (blurIntensity p) ('2)); Lit "px ";
                               Lit (color p); Lit ")"])])]
              [Text [Lit t]]]
     end).

(** The element [<NeonBlockArrow ... />]. *)
Definition NeonBlockArrow_element (p : ArrowProps N) : Element N :=
  rendered_as "NeonBlockArrow"
    ([("color", str (color p));
      ("scale", VNum (scale p));
      ("blurIntensity", VNum (blurIntensity p))]
     ++ match text p with
        | Some t => [("text", str t)]
        | None => []
        end)
    (NeonBlockArrow p).

Definition getFloat (frame : Z) (cfg : VideoConfig) (offset : N) : Result N :=
  (turns <- ('frame + offset) / '(durationInFrames cfg) ;;
   Ok (Math_sin (turns * Math_PI * '4) * '80))%result.

(** The glow breathes from 10px to 25px. *)
Definition glowPulse (frame : Z) : Result N :=
  interpolate (Math_sin (quo ('frame) ('10))) ['(-1); '1] ['10; '25]
    default_options.

Definition NeonGrowth (props : GrowthProps N) (frame : Z) (cfg : VideoConfig)
  : Result (Element N) :=
  (floatL <- getFloat frame cfg ('0) ;;
   floatC <- getFloat frame cfg ('20) ;;
   floatR <- getFloat frame cfg ('40) ;;
   glowPulse <- glowPulse frame ;;
   Ok (Node "AbsoluteFill"
         [("style", VObj [("backgroundColor", str "#000000");
                          ("justifyContent", str "center");
                          ("alignItems", str "center")])]
         [Node "div"
            [("style", VObj [("display", str "flex");
                             ("alignItems", str "flex-end");
                             ("justifyContent", str "center");
                             ("gap", VNum ('20 * baseScale props));
                             ("marginBottom", VNum ('100))])]
            [Node "div"
               [("style",
                  VObj [("transform",
                          VStr [Lit "translateY("; Num floatL; Lit "px)"])])]
               [NeonBlockArrow_element
                  (mkArrow (neonColor props) (baseScale props) glowPulse None)];
             Node "div"
               [("style",
                  VObj [("transform",
                          VStr [Lit "translateY("; Num (floatC - '80);
                                Lit "px)"]);
                        ("zIndex", VNum ('10))])]
               [NeonBlockArrow_element
                  (mkArrow (neonColor props) (baseScale props * dec 12 10)
                     glowPulse (Some "$"))];
             Node "div"
               [("style",
                  VObj [("transform",
                          VStr [Lit "translateY("; Num floatR; Lit "px)"])])]
               [NeonBlockArrow_element
                  (mkArrow (neonColor props) (baseScale props) glowPulse
                     None)]]]))%result.
End Component.

End NeonGrowth.

(* ================================================================== *)
(** ** DualNeonChase *)

Module DualNeonChase.

Record Props : Type := mkProps {
  color1 : string;
  color2 : string;
  thickness : Z;
  glowIntensity : Z
}.

Definition defaultProps : Props := {|
  color1 := "#39FF14";
  color2 := "#39FF14";
  thickness := 15;
  glowIntensity := 1
|}.

(** durationInSeconds: 10. *)
Definition compositionConfig : VideoConfig := mkVideoConfig 30 (10 * 30) 3840 2160.

(** The memo cells of [pathData], keyed by
    [startX, startY, rectW, rectH, cornerRadius], and of [perimeter], keyed
    by [rectW, rectH, cornerRadius]. *)
Record Hooks (N : Type) : Type := mkHooks {
  pathData_memo : Memo (N * N * Z * Z * Z) (Str N);
  perimeter_memo : Memo (Z * Z * Z) N
}.

Definition same3 (a b : Z * Z * Z) : bool :=
  let '(a1, a2, a3) := a in
  let '(b1, b2, b3) := b in
  (a1 =? b1)%Z && (a2 =? b2)%Z && (a3 =? b3)%Z.

Section Component.
Context {N : Type} `{JsNum N} `{JsMath N}.
Local Open Scope js_scope.

(** A rectangle slightly smaller than 4K, with rounded corners. *)
Definition rectW : Z := 3400.
Definition rectH : Z := 1900.
Definition cornerRadius : Z := 60.

Definition startX (cfg : VideoConfig) : N := quo ('(width cfg) - 'rectW) ('2).
Definition startY (cfg : VideoConfig) : N := quo ('(height cfg) - 'rectH) ('2).

(** Object.is on the dependency list of [pathData]; on numbers it is [===]
    in the exact models. *)
Definition same5 (a b : N * N * Z * Z * Z) : bool :=
  let '(a1, a2, a3, a4, a5) := a in
  let '(b1, b2, b3, b4, b5) := b in
  (a1 =? b1) && (a2 =? b2) && (a3 =? b3)%Z && (a4 =? b4)%Z && (a5 =? b5)%Z.

(** The function passed to useMemo: the SVG path of the rounded
    rectangle. *)
Definition pathData_factory (cfg : VideoConfig) : Render (Hooks N) N (Str N) :=
    (let l := startX cfg in
     let t := startY cfg in
     let r := startX cfg + 'rectW in
     let b := startY cfg + 'rectH in
     let rad := 'cornerRadius in
     Render_ret
       [Lit (line_feed ++ "      M ")%string; Num (l + rad); Lit " "; Num t;
        Lit (line_feed ++ "      L ")%string; Num (r - rad); Lit " "; Num t;
        Lit (line_feed ++ "      A ")%string; Num rad; Lit " "; Num rad;
        Lit " 0 0 1 "; Num r; Lit " "; Num (t + rad);
        Lit (line_feed ++ "      L ")%string; Num r; Lit " "; Num (b - rad);
        Lit (line_feed ++ "      A ")%string; Num rad; Lit " "; Num rad;
        Lit " 0 0 1 "; Num (r - rad); Lit " "; Num b;
        Lit (line_feed ++ "      L ")%string; Num (l + rad); Lit " "; Num b;
        Lit (line_feed ++ "      A ")%string; Num rad; Lit " "; Num rad;
        Lit " 0 0 1 "; Num l; Lit " "; Num (b - rad);
        Lit (line_feed ++ "      L ")%string; Num l; Lit " "; Num (t + rad);
        Lit (line_feed ++ "      A ")%string; Num rad; Lit " "; Num rad;
        Lit " 0 0 1 "; Num (l + rad); Lit " "; Num t;
        Lit (line_feed ++ "      Z" ++ line_feed ++ "    ")%string]).

Definition pathData (cfg : VideoConfig) : Render (Hooks N) N (Str N) :=
  useMemo (@pathData_memo N) (fun c h => mkHooks c (perimeter_memo h)) same5
    (pathData_factory cfg)
    (startX cfg, startY cfg, rectW, rectH, cornerRadius).

(** The function passed to useMemo:
    (Width - 2r) * 2 + (Height - 2r) * 2 + (2 * PI * r). *)
Definition perimeter_factory : Render (Hooks N) N N :=
  Render_ret (('rectW - '2 * 'cornerRadius) * '2
              + ('rectH - '2 * 'cornerRadius) * '2
              + '2 * Math_PI * 'cornerRadius).

Definition perimeter : Render (Hooks N) N N :=
  useMemo (@perimeter_memo N) (fun c h => mkHooks (pathData_memo h) c) same3
    perimeter_factory (rectW, rectH, cornerRadius).

Definition beam_path (pathData dashArray : Str N) (currentOffset : N)
    (stroke : string) (strokeWidth : N) (style : list (string * Val N))
  : Element N :=
  Node "path"
    [("d", VStr pathData);
     ("stroke", str stroke);
     ("strokeWidth", VNum strokeWidth);
     ("fill", str "none");
     ("strokeLinecap", str "round");
     ("strokeDasharray", VStr dashArray);
     ("strokeDashoffset", VNum currentOffset);
     ("style", VObj style)]
    [].

(** A beam: a wide soft glow, a tight glow, the core tube and a white hot
    centre, all on the same dash. *)
Definition renderBeam (props : Props) (pathData dashArray : Str N)
    (baseOffset : N) (color : string) (offsetModifier : N) : Element N :=
  let currentOffset := baseOffset - offsetModifier in
  Node "g" []
    [beam_path pathData dashArray currentOffset color
       ('(thickness props) * '3)
       [("filter", str "blur(30px)");
        ("opacity", VNum (dec 6 10 * '(glowIntensity props)))];
     beam_path pathData dashArray currentOffset color
       ('(thickness props) * dec 15 10)
       [("filter", str "blur(10px)");
        ("opacity", VNum (dec 8 10 * '(glowIntensity props)))];
     beam_path pathData dashArray currentOffset color
       ('(thickness props))
       [("opacity", VNum ('1))];
     beam_path pathData dashArray currentOffset "#ffffff"
       ('(thickness props) * dec 3 10)
       [("opacity", VNum (dec 9 10))]].

Definition DualNeonChase (props : Props) (frame : Z) (cfg : VideoConfig)
  : Render (Hooks N) N (Element N) :=
  (pathData <- pathData cfg ;;
   perimeter <- perimeter ;;
   baseOffset <~ interpolate ('frame) ['0; '(durationInFrames cfg)]
                   ['0; neg perimeter] default_options ;;
   let beamLength := perimeter * dec 40 100 in
   let gapLength := perimeter * dec 10 100 in
   let dashArray : Str N :=
     [Num beamLength; Lit " "; Num (perimeter - beamLength)] in
   Render_ret
     (Node "AbsoluteFill" [("style", VObj [("backgroundColor", str "#000000")])]
        [Node "svg"
           [("width", VNum ('(width cfg)));
            ("height", VNum ('(height cfg)));
            ("viewBox", VStr [Lit "0 0 "; Num ('(width cfg)); Lit " ";
                              Num ('(height cfg))])]
           [renderBeam props pathData dashArray baseOffset (color1 props) ('0);
            renderBeam props pathData dashArray baseOffset (color2 props)
              (quo perimeter ('2))];
         Node "AbsoluteFill"
           [("style",
              VObj [("background",
                      str "radial-gradient(circle, transparent 60%, black 100%)");
                    ("pointerEvents", str "none")])]
           []]))%render.
End Component.

End DualNeonChase.

(* ================================================================== *)
(** ** gameStyleLoadingwithstartEndtext.tsx: NeonYearLoad *)

Module NeonYearLoad.

Record NeonProps : Type := mkProps {
  yearStart : string;
  yearEnd : string;
  primaryColor : string;
  secondaryColor : string;
  glowIntensity : Z;
  gameFont : string
}.

Definition defaultProps : NeonProps := {|
  yearStart := "DECEMBER";
  yearEnd := "JANUARY";
  primaryColor := "#c123ffff";
  secondaryColor := "#f9daffff";
  glowIntensity := 20;
  gameFont := String.append double_quote
                (String.append "Press Start 2P"
                   (String.append double_quote
                      (String.append ", "
                         (String.append double_quote
                            (String.append "Courier New"
                               (String.append double_quote ", monospace"))))))
|}.

(** durationInSeconds: 5. *)
Definition compositionConfig : VideoConfig := mkVideoConfig 30 (5 * 30) 3840 2160.

Section Component.
Context {N : Type} `{JsNum N} `{JsMath N} `{SeededRandom N}.
Local Open Scope js_scope.

(** The bar fills up to 100% 20 frames before the end. *)
Definition progress (frame : Z) (cfg : VideoConfig) : Result N :=
  interpolate ('frame) ['0; '(durationInFrames cfg) - '20] ['0; '100]
    (mkOptions Easing_linear extend clamp).

Definition pulseOpacity (frame : Z) : Result N :=
  interpolate (Math_sin (quo ('frame) ('10))) ['(-1); '1] [dec 5 10; '1]
    default_options.

(** Neon flicker: a 0.9 to 1.1 multiplier. *)
Definition flicker (frame : Z) : N := random ('frame) * dec 2 10 + dec 9 10.

Definition NeonYearLoad (props : NeonProps) (frame : Z) (cfg : VideoConfig)
  : Result (Element N) :=
  (progress <- progress frame cfg ;;
   let percentDisplay := Math_floor progress in
   pulseOpacity <- pulseOpacity frame ;;
   let fillWidth : Str N := [Num progress; Lit "%"] in
   let flicker := flicker frame in
   Ok (Node "AbsoluteFill"
         [("style", VObj [("backgroundColor", str "#000000");
                          ("alignItems", str "center");
                          ("justifyContent", str "center")])]
         [Node "div"
            [("style", VObj [("position", str "absolute");
                             ("width", str "60%");
                             ("height", str "20%");
                             ("background", str (primaryColor props));
                             ("filter", str "blur(300px)");
                             ("opacity", VNum (dec 15 100));
                             ("zIndex", VNum ('0))])]
            [];
          Node "div"
            [("style", VObj [("position", str "relative");
                             ("width", VNum ('2000));
                             ("zIndex", VNum ('10))])]
            [Node "div"
               [("style", VObj [("display", str "flex");
                                ("justifyContent", str "space-between");
                                ("marginBottom", VNum ('20));
                                ("alignItems", str "flex-end")])]
               [Node "h2"
                  [("style",
                     VObj [("margin", VNum ('0));
                           ("color", str (secondaryColor props));
                           ("fontFamily", str (gameFont props));
                           ("fontSize", VNum ('40));
                           ("letterSpacing", VNum ('4));
                           ("textShadow",
                             VStr [Lit "0 0 10px "; Lit (primaryColor props)])])]
                  [Text [Lit "LOADING"]];
                Node "h2"
                  [("style",
                     VObj [("margin", VNum ('0));
                           ("color", str (secondaryColor props));
                           ("fontFamily", str (gameFont props));
                           ("fontSize", VNum ('50));
                           ("fontWeight", str "bold");
                           ("textShadow",
                             VStr [Lit "0 0 20px "; Lit (primaryColor props)])])]
                  [Text [Num percentDisplay; Lit "%"]]];
             Node "div"
               [("style",
                  VObj [("position", str "relative");
                        ("width", str "100%");
                        ("height", VNum ('100));
                        ("border", VStr [Lit "6px solid ";
                                         Lit (primaryColor props)]);
                        ("borderRadius", VNum ('10));
                        ("boxShadow",
                          VStr [Lit "0 0 ";
                                Num ('(glowIntensity props) * flicker);
                                Lit "px "; Lit (primaryColor props);
                                Lit ", inset 0 0 "; Num ('10 * flicker);
                                Lit "px "; Lit (primaryColor props)]);
                        ("padding", VNum ('8));
                        ("display", str "flex");
                        ("alignItems", str "center")])]
               [Node "div"
                  [("style",
                     VObj [("height", str "100%");
                           ("width", VStr fillWidth);
                           ("backgroundColor", str (secondaryColor props));
                           ("borderRadius", VNum ('4));
                           ("boxShadow",
                             VStr [Lit "0 0 40px "; Lit (secondaryColor props);
                                   Lit ", 0 0 80px "; Lit (primaryColor props)]);
                           ("transition", str "width 0.1s linear")])]
                  []];
             Node "div"
               [("style", VObj [("display", str "flex");
                                ("justifyContent", str "space-between");
                                ("marginTop", VNum ('30));
                                ("alignItems", str "center")])]
               [Node "h1"
                  [("style",
                     VObj [("margin", VNum ('0));
                           ("color", str (secondaryColor props));
                           ("fontFamily", str (gameFont props));
                           ("fontSize", VNum ('60));
                           ("fontWeight", VNum ('300));
                           ("textShadow",
                             VStr [Lit "0 0 15px "; Lit (primaryColor props)])])]
                  [Text [Lit (yearStart props)]];
                Node "h3"
                  [("style",
                     VObj [("margin", VNum ('0));
                           ("color", str (primaryColor props));
                           ("fontFamily", str (gameFont props));
                           ("fontSize", VNum ('30));
                           ("opacity", VNum pulseOpacity);
                           ("letterSpacing", VNum ('2));
                           ("textShadow",
                             VStr [Lit "0 0 10px "; Lit (primaryColor props)])])]
                  [Text [Lit ">>"]];
                Node "h1"
                  [("style",
                     VObj [("margin", VNum ('0));
                           ("color", str (secondaryColor props));
                           ("fontFamily", str (gameFont props));
                           ("fontSize", VNum ('70));
                           ("fontWeight", VNum ('700));
                           ("textShadow",
                             VStr [Lit "0 0 30px "; Lit (primaryColor props);
                                   Lit ", 0 0 60px ";
                                   Lit (primaryColor props)])])]
                  [Text [Lit (yearEnd props)]]]];
          Node "AbsoluteFill"
            [("style",
               VObj [("backgroundImage",
                       str "linear-gradient(rgba(18, 16, 16, 0) 50%, rgba(0, 0, 0, 0.25) 50%), linear-gradient(90deg, rgba(255, 0, 0, 0.06), rgba(0, 255, 0, 0.02), rgba(0, 0, 255, 0.06))");
                     ("backgroundSize", str "100% 4px, 6px 100%");
                     ("pointerEvents", str "none");
                     ("zIndex", VNum ('99));
                     ("mixBlendMode", str "overlay")])]
            []]))%result.
End Component.

End NeonYearLoad.

(* ================================================================== *)
(** ** glowingLights.tsx: GlowingLightsString *)

Module GlowingLightsString.

Record GlowingLightsProps : Type := mkProps {
  bulbCount : Z;
  wireColor : string;
  glowColor : string;
  baseColor : string;
  sagStrength : Z
}.

Definition defaultProps : GlowingLightsProps := {|
  bulbCount := 15;
  wireColor := "#4a3b2a";
  glowColor := "#ffdd55";
  baseColor := "#ffaa00";
  sagStrength := 240
|}.

(** durationInSeconds: 10. *)
Definition compositionConfig : VideoConfig := mkVideoConfig 30 (10 * 30) 3840 2160.

Record Point (N : Type) : Type := mkPoint { x : N; y : N }.

(** A string of lights: its two ends and its sag. *)
Record LightString (N : Type) : Type := mkString {
  start : Point N;
  finish : Point N;
  sag : N
}.

Record BulbProps (N : Type) : Type := mkBulb {
  bulb_x : N;
  bulb_y : N;
  scale : N;
  bulb_seed : N;
  color : string;
  bulb_glowColor : string;
  bulb_durationInFrames : N;
  currentFrame : N
}.

(** A bulb placed on a wire: [{ ...pos, id, seed }]. *)
Record Placed (N : Type) : Type := mkPlaced {
  pos : Point N;
  id : Z;
  seed : N
}.

(** The memo cell of [strings], keyed by [width, sagStrength]. *)
Definition Hooks (N : Type) : Type := Memo (Z * Z) (list (LightString N)).

Definition same2 (a b : Z * Z) : bool :=
  let '(a1, a2) := a in
  let '(b1, b2) := b in
  (a1 =? b1)%Z && (a2 =? b2)%Z.

Section Component.
Context {N : Type} `{JsNum N} `{JsMath N} `{SeededRandom N}.
Local Open Scope js_scope.

(** Quadratic Bezier: the point along the curve at [t] (0 to 1). *)
Definition getPointOnCurve (p0 p1 p2 : Point N) (t : N) : Point N :=
  let invT := '1 - t in
  mkPoint (invT * invT * x p0 + '2 * invT * t * x p1 + t * t * x p2)
          (invT * invT * y p0 + '2 * invT * t * y p1 + t * t * y p2).

Definition Bulb (p : BulbProps N) : Result (Element N) :=
  (progress <- currentFrame p / bulb_durationInFrames p ;;
   let flickerRaw :=
     Math_sin (progress * Math_PI * '2 * '15 + bulb_seed p * '10) * dec 1 10
     + Math_sin (progress * Math_PI * '2 * '7 + bulb_seed p * '20) * dec 5 100 in
   let flicker := flickerRaw + '1 in
   opacity <- interpolate flicker [dec 85 100; dec 115 100] [dec 7 10; '1]
                default_options ;;
   brightnessBoost <- interpolate flicker [dec 85 100; dec 115 100]
                        ['1; dec 18 10] default_options ;;
   let size := '24 * scale p in
   Ok (Node "div"
         [("style",
            VObj [("position", str "absolute");
                  ("left", VNum (bulb_x p));
                  ("top", VNum (bulb_y p));
                  ("width", VNum size);
                  ("height", VNum size);
                  ("borderRadius", str "50%");
                  ("backgroundColor", str (color p));
                  ("transform", str "translate(-50%, 0)");
                  ("opacity", VNum opacity);
                  ("boxShadow",
                    VStr [Lit (line_feed ++ "          0px 0px ")%string;
                          Num ('10 * scale p); Lit "px "; Num ('2 * scale p);
                          Lit "px "; Lit (color p);
                          Lit (", " ++ line_feed ++ "          0px 0px ")%string;
                          Num ('40 * scale p); Lit "px "; Num ('15 * scale p);
                          Lit "px "; Lit (bulb_glowColor p);
                          Lit ("," ++ line_feed ++ "          0px 0px ")%string;
                          Num ('100 * scale p); Lit "px ";
                          Num ('30 * scale p);
                          Lit ("px rgba(255, 160, 50, 0.6)," ++ line_feed ++ "          inset 0px 0px ")%string;
                          Num ('10 * scale p);
                          Lit ("px rgba(255,255,200, 0.8)" ++ line_feed ++ "        ")%string]);
                  ("filter",
                    VStr [Lit "brightness("; Num brightnessBoost;
                          Lit ") contrast(1.2)"])])]
         []))%result.

(** The element [<Bulb key={b.id} ... />]. *)
Definition Bulb_element (key : Z) (p : BulbProps N) : Result (Element N) :=
  (rendered <- Bulb p ;;
   Ok (rendered_as "Bulb"
         [("key", VNum ('key));
          ("x", VNum (bulb_x p));
          ("y", VNum (bulb_y p));
          ("scale", VNum (scale p));
          ("seed", VNum (bulb_seed p));
          ("color", str (color p));
          ("glowColor", str (bulb_glowColor p));
          ("durationInFrames", VNum (bulb_durationInFrames p));
          ("currentFrame", VNum (currentFrame p))]
         rendered))%result.

(** The function passed to useMemo: the scene layout. *)
Definition strings_factory (props : GlowingLightsProps) (cfg : VideoConfig)
  : Render (Hooks N) N (list (LightString N)) :=
    (let w := '(width cfg) in
     let s := '(sagStrength props) in
     Render_ret
       [mkString (mkPoint ('(-100)) ('100)) (mkPoint (w * dec 4 10) ('300)) s;
        mkString (mkPoint (w * dec 3 10) ('200))
          (mkPoint (w * dec 8 10) ('160)) (s + '40);
        mkString (mkPoint (w * dec 7 10) ('80)) (mkPoint (w + '100) ('360))
          (s + '20);
        mkString (mkPoint ('(-40)) ('500)) (mkPoint (w * dec 5 10) ('700))
          (s + '100);
        mkString (mkPoint (w * dec 4 10) ('640)) (mkPoint (w + '40) ('560))
          (s + '120)]).

Definition strings (props : GlowingLightsProps) (cfg : VideoConfig)
  : Render (Hooks N) N (list (LightString N)) :=
  useMemo (fun h => h) (fun c _ => c) same2 (strings_factory props cfg)
    (width cfg, sagStrength props).

(** The bulbs of string [index], evenly spread along its curve. *)
Definition place_bulbs (props : GlowingLightsProps) (wire : LightString N)
    (index : Z) (midX midY : N) : Result (list (Placed N)) :=
  (parity <- 'index % '2 ;;
   let extra : Z := if parity =? '0 then 5%Z else 0%Z in
   let currentBulbCount := (bulbCount props + extra)%Z in
   slots <- new_Array currentBulbCount ;;
   mapM (fun i =>
           (t <- ('i + '1) / ('currentBulbCount + '1) ;;
            let pos := getPointOnCurve (start wire)
                         (mkPoint midX (midY + sag wire)) (finish wire) t in
            Ok (mkPlaced pos i (random ('index * '100 + 'i))))%result)
     slots)%result.

(** One string: the wire and its bulbs. *)
Definition light_string (props : GlowingLightsProps) (frame : Z)
    (cfg : VideoConfig) (entry : LightString N * Z) : Result (Element N) :=
  (let '(wire, index) := entry in
   let midX := quo (x (start wire) + x (finish wire)) ('2) in
   let midY := quo (y (start wire) + y (finish wire)) ('2) + sag wire in
   let pathData : Str N :=
     [Lit "M "; Num (x (start wire)); Lit " "; Num (y (start wire));
      Lit " Q "; Num midX; Lit " "; Num (midY + sag wire); Lit " ";
      Num (x (finish wire)); Lit " "; Num (y (finish wire))] in
   bulbs <- place_bulbs props wire index midX midY ;;
   lit <- mapM (fun b =>
                  Bulb_element (id b)
                    (mkBulb (x (pos b)) (y (pos b) + '8)
                       (random (seed b) * dec 5 10 + dec 8 10) (seed b)
                       (baseColor props) (glowColor props)
                       ('(durationInFrames cfg)) ('frame)))
            bulbs ;;
   Ok (Node "React.Fragment" [("key", VNum ('index))]
         [Node "svg"
            [("style", VObj [("position", str "absolute");
                             ("width", str "100%");
                             ("height", str "100%");
                             ("overflow", str "visible")])]
            [Node "path"
               [("d", VStr pathData);
                ("fill", str "none");
                ("stroke", str (wireColor props));
                ("strokeWidth", VNum ('4));
                ("strokeLinecap", str "round");
                ("style",
                  VObj [("filter",
                          str "drop-shadow(0px 4px 4px rgba(0,0,0,0.5))")])]
               []];
          Items lit]))%result.

Definition GlowingLights (props : GlowingLightsProps) (frame : Z)
    (cfg : VideoConfig) : Render (Hooks N) N (Element N) :=
  (strings <- strings props cfg ;;
   lights <~ mapM (light_string props frame cfg) (with_index strings) ;;
   Render_ret
     (Node "AbsoluteFill"
        [("style", VObj [("backgroundColor", str "#050302");
                         ("overflow", str "hidden")])]
        [Node "div"
           [("style",
              VObj [("position", str "absolute");
                    ("top", VNum ('0));
                    ("left", VNum ('0));
                    ("right", VNum ('0));
                    ("height", str "1500px");
                    ("background",
                      str "radial-gradient(ellipse at center top, #3a2f1a 0%, transparent 80%)");
                    ("opacity", VNum (dec 6 10))])]
           [];
         Items lights;
         Node "AbsoluteFill" [("style", VObj [("pointerEvents", str "none")])]
           [Node "div"
              [("style",
                 VObj [("width", str "100%");
                       ("height", str "100%");
                       ("background",
                         str "radial-gradient(circle, transparent 40%, rgba(0,0,0,0.6) 100%)")])]
              []]]))%render.
End Component.

End GlowingLightsString.

(* ================================================================== *)
(** ** BreakingNews *)

Module BreakingNews.

Record Props : Type := mkProps {
  primaryColor : string;
  secondaryColor : string;
  tickerColor : string;
  accentColor : string;
  headlineText : string;
  tickerText : string;
  categoryText : string
}.

Definition defaultProps : Props := {|
  primaryColor := "#D00000";
  secondaryColor := "#FFFFFF";
  tickerColor := "#1a1a1a";
  accentColor := "#FFD700";
  headlineText := "MAJOR CYBER ATTACK REPORTED GLOBALLY";
  tickerText := " •  URGENT: INTERNET SERVICES DISRUPTED IN MULTIPLE REGIONS  •  EXPERTS ADVISE CAUTION  •  STAY TUNED FOR LIVE UPDATES  •  MARKETS REACT SHARPLY TO OUTAGE";
  categoryText := "BREAKING NEWS"
|}.

(** durationInSeconds: 10. *)
Definition newsConfig : VideoConfig := mkVideoConfig 30 (10 * 30) 3840 2160.

(** Modelled from the spec: the family name that loadFont() of
    @remotion/google-fonts/Oswald returns when the module is loaded. *)
Definition fontFamily : string := "Oswald".

Section Component.
Context {N : Type} `{JsNum N} `{SpringCurve N}.
Local Open Scope js_scope.

Definition RotatingGlobe (color : string) (frame : Z) : Result (Element N) :=
  (rotation <- interpolate ('frame) ['0; '300] ['0; '360] default_options ;;
   Ok (Node "div"
         [("style",
            VObj [("display", str "flex");
                  ("alignItems", str "center");
                  ("justifyContent", str "center");
                  ("transform",
                    VStr [Lit "rotate("; Num rotation; Lit "deg)"])])]
         [Node "BiWorld" [("size", VNum ('80)); ("color", str color)] []]))%result.

Definition LiveIndicator (frame : Z) : Result (Element N) :=
  (blink <- 'frame % '30 ;;
   opacity <- interpolate blink ['0; '15; '30] ['1; dec 4 10; '1]
                default_options ;;
   Ok (Node "div"
         [("style", VObj [("position", str "absolute");
                          ("top", VNum ('(-60)));
                          ("left", VNum ('0));
                          ("background", str "white");
                          ("color", str "#D00000");
                          ("padding", str "5px 15px");
                          ("fontWeight", VNum ('900));
                          ("fontSize", VNum ('24));
                          ("borderRadius", VNum ('4));
                          ("letterSpacing", VNum ('2));
                          ("opacity", VNum opacity);
                          ("boxShadow", str "0 0 10px rgba(0,0,0,0.5)")])]
         [Text [Lit "LIVE"]]))%result.

Definition containerStyle (cfg : VideoConfig) (slideIn : N)
  : list (string * Val N) :=
  [("position", str "absolute");
   ("bottom", VNum ('150));
   ("left", VNum ('100));
   ("width", VNum ('(width cfg) - '200));
   ("fontFamily", str fontFamily);
   ("transform", VStr [Lit "translateX("; Num slideIn; Lit "px)"])].

Definition mainBarStyle : list (string * Val N) :=
  [("display", str "flex");
   ("height", VNum ('220));
   ("boxShadow", str "0 10px 30px rgba(0,0,0,0.5)")].

Definition categoryBoxStyle (props : Props) : list (string * Val N) :=
  [("width", VNum ('650));
   ("background", VStr [Lit "linear-gradient(90deg, "; Lit (primaryColor props);
                        Lit " 0%, #a00000 100%)"]);
   ("color", str "white");
   ("display", str "flex");
   ("alignItems", str "center");
   ("justifyContent", str "center");
   ("fontSize", VNum ('80));
   ("fontWeight", VNum ('900));
   ("textTransform", str "uppercase");
   ("clipPath", str "polygon(0 0, 100% 0, 90% 100%, 0% 100%)");
   ("zIndex", VNum ('10));
   ("position", str "relative")].

Definition headlineBoxStyle : list (string * Val N) :=
  [("flex", VNum ('1));
   ("background", str "rgba(255, 255, 255, 0.95)");
   ("color", str "black");
   ("display", str "flex");
   ("alignItems", str "center");
   ("paddingLeft", VNum ('80));
   ("marginLeft", VNum ('(-50)));
   ("fontSize", VNum ('70));
   ("fontWeight", VNum ('700));
   ("textTransform", str "uppercase");
   ("clipPath", str "polygon(0 0, 100% 0, 95% 100%, 0% 100%)")].

Definition tickerBoxStyle (props : Props) : list (string * Val N) :=
  [("height", VNum ('80));
   ("width", str "94%");
   ("background", str (tickerColor props));
   ("marginTop", VNum ('0));
   ("marginLeft", VNum ('20));
   ("display", str "flex");
   ("alignItems", str "center");
   ("overflow", str "hidden");
   ("position", str "relative");
   ("color", str "#fff");
   ("fontSize", VNum ('35));
   ("fontWeight", VNum ('500));
   ("letterSpacing", VNum (dec 15 10));
   ("clipPath", str "polygon(0 0, 100% 0, 99% 100%, 1% 100%)")].

Definition BreakingNews (props : Props) (frame : Z) (cfg : VideoConfig)
  : Result (Element N) :=
  (entrySpr <- spring (mkSpring ('frame) ('(fps cfg))
                         (mkSpringConfig ('1) ('14) ('80)) None ('0)) ;;
   slideIn <- interpolate entrySpr ['0; '1] [neg ('(width cfg)); '0]
                default_options ;;
   tickerOffset <- ('frame * '6) % '2000 ;;
   textOpacity <- interpolate ('frame) ['15; '25] ['0; '1] default_options ;;
   live <- LiveIndicator frame ;;
   globe <- RotatingGlobe "rgba(255,255,255,0.4)" frame ;;
   Ok (Node "AbsoluteFill"
         [("style", VObj [("backgroundColor", str "transparent")])]
         [Node "div" [("style", VObj (containerStyle cfg slideIn))]
            [rendered_as "LiveIndicator" [] live;
             Node "div" [("style", VObj mainBarStyle)]
               [Node "div" [("style", VObj (categoryBoxStyle props))]
                  [Node "div" [("style", VObj [("marginRight", VNum ('20))])]
                     [rendered_as "RotatingGlobe"
                        [("color", str "rgba(255,255,255,0.4)")] globe];
                   Text [Lit (categoryText props)];
                   Node "div"
                     [("style",
                        VObj [("position", str "absolute");
                              ("top", VNum ('0));
                              ("left", VNum ('0));
                              ("width", str "100%");
                              ("height", str "50%");
                              ("background",
                                str "linear-gradient(180deg, rgba(255,255,255,0.3) 0%, transparent 100%)")])]
                     []];
                Node "div" [("style", VObj headlineBoxStyle)]
                  [Node "span" [("style", VObj [("opacity", VNum textOpacity)])]
                     [Text [Lit (headlineText props)]]]];
             Node "div" [("style", VObj (tickerBoxStyle props))]
               [Node "div"
                  [("style",
                     VObj [("background", str (accentColor props));
                           ("color", str "black");
                           ("height", str "100%");
                           ("padding", str "0 20px");
                           ("display", str "flex");
                           ("alignItems", str "center");
                           ("fontWeight", VNum ('900));
                           ("zIndex", VNum ('5));
                           ("boxShadow", str "5px 0 15px rgba(0,0,0,0.3)")])]
                  [Text [Lit "UPDATE"]];
                Node "div"
                  [("style",
                     VObj [("whiteSpace", str "nowrap");
                           ("transform",
                             VStr [Lit "translateX(-"; Num tickerOffset;
                                   Lit "px)"]);
                           ("paddingLeft", VNum ('20));
                           ("display", str "flex");
                           ("gap", VNum ('50))])]
                  [Node "span" [] [Text [Lit (tickerText props)]];
                   Node "span" [] [Text [Lit (tickerText props)]];
                   Node "span" [] [Text [Lit (tickerText props)]];
                   Node "span" [] [Text [Lit (tickerText props)]]]]]]))%result.
End Component.

End BreakingNews.

(* ================================================================== *)
(** ** glitchScanStartingSoon.tsx: StreamGlitch *)

(** [s.split('')]: the characters of [s], one string each. *)
Fixpoint split_chars (s : string) : list string :=
  match s with
  | EmptyString => []
  | String c rest => String c EmptyString :: split_chars rest
  end.

(** The no-break space U+00A0. *)
Definition no_break_space : string :=
  String (Ascii.ascii_of_nat 194) (String (Ascii.ascii_of_nat 160) EmptyString).

Module StreamGlitch.

Record GlitchProps : Type := mkProps {
  primaryText : string;
  secondaryText : string;
  accentColor : string;
  baseColor : string;
  scanDuration : Z
}.

Definition defaultProps : GlitchProps := {|
  primaryText := "STARTING SOON";
  secondaryText := EmptyString;
  accentColor := "#00FFFF";
  baseColor := "#FFFFFF";
  scanDuration := 90
|}.

(** durationInSeconds: 9, three cycles of the 3 s scan. *)
Definition compositionConfig : VideoConfig := mkVideoConfig 30 (9 * 30) 3840 2160.

Section Component.
Context {N : Type} `{JsNum N} `{SeededRandom N}.
Local Open Scope js_scope.

(** The 8px pattern scrolls 16px every scan cycle. *)
Definition Scanlines (scanDuration : N) (frame : Z) : Result (Element N) :=
  (cycleFrame <- 'frame % (scanDuration) ;;
   swept <- cycleFrame / scanDuration ;;
   let scrollOffset := swept * '16 in
   Ok (Node "AbsoluteFill"
         [("style",
            VObj [("background",
                    str "linear-gradient(to bottom, rgba(0,0,0,0) 50%, rgba(0,0,0,0.5) 50%)");
                  ("backgroundSize", str "100% 8px");
                  ("opacity", VNum (dec 3 10));
                  ("mixBlendMode", str "overlay");
                  ("transform",
                    VStr [Lit "translateY("; Num scrollOffset; Lit "px)"]);
                  ("pointerEvents", str "none")])]
         []))%result.

Definition config_object (config : GlitchProps) : Val N :=
  VObj [("primaryText", str (primaryText config));
        ("secondaryText", str (secondaryText config));
        ("accentColor", str (accentColor config));
        ("baseColor", str (baseColor config));
        ("scanDuration", VNum ('(scanDuration config)))].

Definition GlitchChar (char : string) (index : Z) (beamProgress totalChars : N)
    (config : GlitchProps) (frame : Z) : Result (Element N) :=
  (charPos <- 'index / totalChars ;;
   let dist := Math_abs (beamProgress - charPos) in
   let isHit := dist <? dec 15 100 in
   loopFrame <- 'frame % '(scanDuration config) ;;
   let seed := 'index * '123 + loopFrame in
   let jitterX := (random seed - dec 5 10) * (if isHit then '60 else '4) in
   let jitterY := (random (seed + '1) - dec 5 10) * (if isHit then '10 else '2) in
   let isFlicker := random (seed + '2) >? dec 95 100 in
   let color := if isHit || isFlicker then accentColor config
                else baseColor config in
   let opacity := if isHit then random (seed + '3) * dec 5 10 + dec 5 10
                  else '1 in
   let split := if isHit then '20 else '0 in
   let commonStyle : list (string * Val N) :=
     [("position", str "absolute");
      ("left", VNum ('0));
      ("top", VNum ('0));
      ("fontWeight", VNum ('900));
      ("transform", VStr [Lit "translate("; Num jitterX; Lit "px, ";
                          Num jitterY; Lit "px)"]);
      ("opacity", VNum opacity)] in
   let shown := if String.eqb char " " then no_break_space else char in
   Ok (Node "div"
         [("style", VObj [("position", str "relative");
                          ("display", str "inline-block");
                          ("width", str "auto")])]
         ([Node "span" [("style", VObj [("opacity", VNum ('0))])]
             [Text [Lit shown]];
           Node "span"
             [("style",
                VObj (commonStyle ++
                      [("color", str (if isHit then "#FF0000" else color));
                       ("transform",
                         VStr [Lit "translate("; Num (jitterX - split);
                               Lit "px, "; Num jitterY; Lit "px)"]);
                       ("mixBlendMode", str "screen")]))]
             [Text [Lit shown]];
           Node "span"
             [("style",
                VObj (commonStyle ++
                      [("color", str (if isHit then "#0000FF" else color));
                       ("transform",
                         VStr [Lit "translate("; Num (jitterX + split);
                               Lit "px, "; Num jitterY; Lit "px)"]);
                       ("mixBlendMode", str "screen")]))]
             [Text [Lit shown]];
           Node "span" [("style", VObj (commonStyle ++ [("color", str color)]))]
             [Text [Lit shown]]]
          ++
          (if isHit && (random (seed + '4) >? dec 7 10) then
             [Node "div"
                [("style",
                   VObj [("position", str "absolute");
                         ("top", VNum ('0));
                         ("left", VNum ('0));
                         ("width", str "100%");
                         ("height", str "50%");
                         ("backgroundColor", str "black");
                         ("transform",
                           VStr [Lit "translate(";
                                 Num (random (seed + '5) * '20);
                                 Lit "px, 0)"])])]
                []]
           else []))))%result.

(** The element [<GlitchChar key={i} ... />]. *)
Definition GlitchChar_element (props : GlitchProps) (frame : Z)
    (beamProgress : N) (totalChars : N) (entry : string * Z)
  : Result (Element N) :=
  (let '(char, i) := entry in
   rendered <- GlitchChar char i beamProgress totalChars props frame ;;
   Ok (rendered_as "GlitchChar"
         [("key", VNum ('i));
          ("index", VNum ('i));
          ("char", str char);
          ("beamProgress", VNum beamProgress);
          ("totalChars", VNum totalChars);
          ("config", config_object props)]
         rendered))%result.

Definition StreamGlitch (props : GlitchProps) (frame : Z) (cfg : VideoConfig)
  : Result (Element N) :=
  (beamCycle <- 'frame % '(scanDuration props) ;;
   beamProgress <- interpolate beamCycle ['0; '(scanDuration props)]
                     [neg (dec 2 10); dec 12 10] default_options ;;
   let chars := split_chars (primaryText props) in
   glyphs <- mapM (GlitchChar_element props frame beamProgress
                     ('(Z.of_nat (List.length chars))))
               (with_index chars) ;;
   scanlines <- Scanlines ('(scanDuration props)) frame ;;
   Ok (Node "AbsoluteFill"
         [("style", VObj [("backgroundColor", str "#000000");
                          ("overflow", str "hidden")])]
         [Node "div"
            [("style", VObj [("position", str "absolute");
                             ("top", str "15%");
                             ("width", str "100%");
                             ("textAlign", str "center");
                             ("fontFamily", str "Inter, sans-serif");
                             ("fontWeight", VNum ('700));
                             ("fontSize", VNum ('40));
                             ("letterSpacing", VNum ('800));
                             ("color", str (baseColor props));
                             ("opacity", VNum (dec 8 10))])]
            [Text [Lit (secondaryText props)]];
          Node "div"
            [("style", VObj [("position", str "absolute");
                             ("top", str "50%");
                             ("left", str "50%");
                             ("transform", str "translate(-50%, -50%)");
                             ("display", str "flex");
                             ("justifyContent", str "center");
                             ("fontFamily", str "Inter, sans-serif");
                             ("fontSize", VNum ('350));
                             ("whiteSpace", str "nowrap")])]
            [Items glyphs];
          Node "AbsoluteFill"
            [("style",
               VObj [("background",
                       str ("linear-gradient(90deg, " ++ line_feed ++
                            "            transparent 0%, " ++ line_feed ++
                            "            rgba(0, 255, 255, 0) 40%, " ++
                            line_feed ++
                            "            rgba(0, 255, 255, 0.1) 48%, " ++
                            line_feed ++
                            "            rgba(0, 255, 255, 0.4) 50%, " ++
                            line_feed ++
                            "            rgba(0, 255, 255, 0.1) 52%, " ++
                            line_feed ++
                            "            rgba(0, 255, 255, 0) 60%, " ++
                            line_feed ++ "            transparent 100%" ++
                            line_feed ++ "          )")%string);
                     ("left", VStr [Num (beamProgress * '100 - '50); Lit "%"]);
                     ("width", str "100%");
                     ("mixBlendMode", str "screen")])]
            [];
          rendered_as "Scanlines"
            [("scanDuration", VNum ('(scanDuration props)))] scanlines;
          Node "AbsoluteFill"
            [("style",
               VObj [("background",
                       str "radial-gradient(circle, transparent 40%, black 100%)")])]
            []]))%result.
End Component.

End StreamGlitch.

(* ================================================================== *)
(** ** lightStringsCombo.tsx: GlowingStringLights *)

(** The integers from [start] up to, not including, [stop]: the values a
    counting loop [for (let i = start; i < stop; i++)] goes through. *)
Definition range (start stop : Z) : list Z :=
  List.map (fun k => (start + Z.of_nat k)%Z) (seq 0 (Z.to_nat (stop - start))).

Module GlowingStringLights.

Record Colors : Type := mkColors {
  warmGold : string;
  filament : string;
  wire : string
}.

Record LightProps : Type := mkProps {
  bulbSpacing : Z;
  swayIntensity : Z;
  colors : Colors
}.

Definition defaultProps : LightProps := {|
  bulbSpacing := 80;
  swayIntensity := 20;
  colors := {| warmGold := "#FFB700"; filament := "#FFFDD0"; wire := "#444444" |}
|}.

(** durationInSeconds: 10. *)
Definition compositionConfig : VideoConfig := mkVideoConfig 30 (10 * 30) 3840 2160.

Inductive StringType : Type := curve | straight | wave.

Definition type_name (type : StringType) : string :=
  match type with
  | curve => "curve"
  | straight => "straight"
  | wave => "wave"
  end.

Definition same_type (a b : StringType) : bool :=
  match a, b with
  | curve, curve | straight, straight | wave, wave => true
  | _, _ => false
  end.

Record Point (N : Type) : Type := mkPoint { x : N; y : N }.

(** The dependencies of [points]: [width, yPos, type, sway]. *)
Definition Deps (N : Type) : Type := (Z * N * StringType * N)%type.

(** The memo cell of a LightString. *)
Definition LightStringHooks (N : Type) : Type := Memo (Deps N) (list (Point N)).

(** The hooks of the three LightString elements of the tree. *)
Record Hooks (N : Type) : Type := mkHooks {
  top_string : LightStringHooks N;
  middle_string : LightStringHooks N;
  bottom_string : LightStringHooks N
}.

Section Component.
Context {N : Type} `{JsNum N} `{JsMath N}.
Local Open Scope js_scope.

Definition config_object (config : LightProps) : Val N :=
  VObj [("bulbSpacing", VNum ('(bulbSpacing config)));
        ("swayIntensity", VNum ('(swayIntensity config)));
        ("colors", VObj [("warmGold", str (warmGold (colors config)));
                         ("filament", str (filament (colors config)));
                         ("wire", str (wire (colors config)))])].

Definition GlowingBulb (x y : N) (color : string) (index : Z)
    (config : LightProps) (frame : Z) (cfg : VideoConfig)
  : Result (Element N) :=
  (progress <- 'frame / '(durationInFrames cfg) ;;
   let rad := progress * Math_PI * '2 in
   let uniqueOffset := 'index * '1337 in
   third <- 'index % '3 ;;
   let flickerSpeed := third + '2 in
   flicker <- interpolate (Math_sin (rad * flickerSpeed + uniqueOffset))
                ['(-1); '1] [dec 7 10; '1] default_options ;;
   scale <- interpolate flicker [dec 7 10; '1] [dec 95 100; dec 105 100]
              default_options ;;
   Ok (Node "g"
         [("transform", VStr [Lit "translate("; Num x; Lit ", "; Num y;
                              Lit ") scale("; Num scale; Lit ")"])]
         [Node "circle"
            [("cx", str "0"); ("cy", str "10"); ("r", str "40");
             ("fill", str color);
             ("opacity", VNum (flicker * dec 4 10));
             ("style", VObj [("filter", str "blur(20px)")])]
            [];
          Node "circle"
            [("cx", str "0"); ("cy", str "10"); ("r", str "20");
             ("fill", str color);
             ("opacity", VNum (flicker * dec 6 10));
             ("style", VObj [("filter", str "blur(10px)")])]
            [];
          Node "rect"
            [("x", str "-4"); ("y", str "-8"); ("width", str "8");
             ("height", str "12"); ("fill", str "#222"); ("rx", str "2")]
            [];
          Node "circle"
            [("cx", str "0"); ("cy", str "12"); ("r", str "12");
             ("fill", str color);
             ("opacity", VNum (dec 9 10))]
            [];
          Node "circle"
            [("cx", str "0"); ("cy", str "12"); ("r", str "5");
             ("fill", str (filament (colors config)));
             ("opacity", VNum flicker);
             ("style", VObj [("filter", str "blur(1px)")])]
            []]))%result.

(** The element [<GlowingBulb key={i} index={i} ... />]. *)
Definition GlowingBulb_element (i : Z) (pos : Point N) (config : LightProps)
    (frame : Z) (cfg : VideoConfig) : Result (Element N) :=
  (rendered <- GlowingBulb (x pos) (y pos) (warmGold (colors config)) i config
                 frame cfg ;;
   Ok (rendered_as "GlowingBulb"
         [("key", VNum ('i));
          ("index", VNum ('i));
          ("x", VNum (x pos));
          ("y", VNum (y pos));
          ("color", str (warmGold (colors config)));
          ("config", config_object config)]
         rendered))%result.

(** One pass of the loop that builds [points]. *)
Definition point_at (type : StringType) (yPos sway : N) (cfg : VideoConfig)
    (steps : N) (i : Z) : Result (Point N) :=
  (fraction <- 'i / steps ;;
   let x := fraction * '(width cfg) in
   p <- x / '(width cfg) ;;
   let y :=
     match type with
     | curve =>
         let sag := '200 in
         let swayFactor := Math_sin (p * Math_PI) in
         yPos + swayFactor * sag + sway * swayFactor
     | straight => yPos + sway * dec 5 10
     | wave =>
         let frequency := '4 * Math_PI in
         let amplitude := '80 in
         yPos + Math_sin (p * frequency + quo sway ('50)) * amplitude
     end in
   Ok (mkPoint x y))%result.

Definition same_deps (a b : Deps N) : bool :=
  let '(a1, a2, a3, a4) := a in
  let '(b1, b2, b3, b4) := b in
  (a1 =? b1)%Z && (a2 =? b2) && same_type a3 b3 && (a4 =? b4).

(** The function passed to useMemo: the points of the wire,
    [for (let i = 0; i <= steps; i++)]. *)
Definition points_factory (type : StringType) (yPos sway : N)
    (cfg : VideoConfig) : Render (LightStringHooks N) N (list (Point N)) :=
  let steps := Math_ceil (quo ('(width cfg)) ('20)) in
  lift (mapM (point_at type yPos sway cfg steps)
          (range 0 (ceilZ (quo ('(width cfg)) ('20)) + 1))).

Definition points (type : StringType) (yPos sway : N) (cfg : VideoConfig)
  : Render (LightStringHooks N) N (list (Point N)) :=
  useMemo (fun h => h) (fun c _ => c) same_deps
    (points_factory type yPos sway cfg) (width cfg, yPos, type, sway).

(** One pass of the loop that places the bulbs: a bulb is pushed only when
    [points[index]] exists. *)
Definition place_bulb (config : LightProps) (frame : Z) (cfg : VideoConfig)
    (points : list (Point N)) (bulbCount : N) (i : Z)
  : Result (list (Element N)) :=
  (fraction <- 'i / bulbCount ;;
   let index := floorZ (fraction * '(Z.of_nat (List.length points))) in
   match (if (index <? 0)%Z then None else nth_error points (Z.to_nat index)) with
   | Some pos =>
       bulb <- GlowingBulb_element i pos config frame cfg ;;
       Ok [bulb]
   | None => Ok []
   end)%result.

Definition LightString (type : StringType) (yPos : N) (config : LightProps)
    (swayOffset : N) (frame : Z) (cfg : VideoConfig)
  : Render (LightStringHooks N) N (Element N) :=
  (progress <~ 'frame / '(durationInFrames cfg) ;;
   let loopRad := progress * Math_PI * '2 in
   let sway := Math_sin (loopRad + swayOffset) * '(swayIntensity config) in
   points <- points type yPos sway cfg ;;
   let pathData : Str N :=
     Lit "M " :: join " L "
                   (List.map (fun p => [Num (x p); Lit ","; Num (y p)]) points) in
   spaced <~ '(width cfg) / '(bulbSpacing config) ;;
   let bulbCount := Math_floor spaced in
   bulbs <~ mapM (place_bulb config frame cfg points bulbCount)
              (range 1 (floorZ spaced)) ;;
   Render_ret
     (Node "g" []
        [Node "path"
           [("d", VStr pathData);
            ("fill", str "none");
            ("stroke", str (wire (colors config)));
            ("strokeWidth", str "3");
            ("strokeLinecap", str "round")]
           [];
         Items (List.concat bulbs)]))%render.

(** The element [<LightString ... />] whose hooks are found by [get] and
    [set]. *)
Definition LightString_element (get : Hooks N -> LightStringHooks N)
    (set : LightStringHooks N -> Hooks N -> Hooks N)
    (type : StringType) (yPos : N) (config : LightProps) (swayOffset : N)
    (frame : Z) (cfg : VideoConfig) : Render (Hooks N) N (Element N) :=
  (rendered <- child get set
                 (LightString type yPos config swayOffset frame cfg) ;;
   Render_ret
     (rendered_as "LightString"
        [("type", str (type_name type));
         ("yPos", VNum yPos);
         ("config", config_object config);
         ("swayOffset", VNum swayOffset)]
        rendered))%render.

Definition noise_grain : Str N :=
  [Lit "url("; Lit double_quote;
   Lit "data:image/svg+xml,%3Csvg viewBox='0 0 200 200' xmlns='http://www.w3.org/2000/svg'%3E%3Cfilter id='noise'%3E%3CfeTurbulence type='fractalNoise' baseFrequency='0.6' numOctaves='3' stitchTiles='stitch'/%3E%3C/filter%3E%3Crect width='100%25' height='100%25' filter='url(%23noise)' opacity='1'/%3E%3C/svg%3E";
   Lit double_quote; Lit ")"].

Definition GlowingStringLights (props : LightProps) (frame : Z)
    (cfg : VideoConfig) : Render (Hooks N) N (Element N) :=
  (top <- LightString_element (@top_string N)
            (fun c h => mkHooks c (middle_string h) (bottom_string h))
            curve ('(height cfg) * dec 1 10) props ('0) frame cfg ;;
   middle <- LightString_element (@middle_string N)
               (fun c h => mkHooks (top_string h) c (bottom_string h))
               straight ('(height cfg) * dec 5 10) props ('2) frame cfg ;;
   bottom <- LightString_element (@bottom_string N)
               (fun c h => mkHooks (top_string h) (middle_string h) c)
               wave ('(height cfg) * dec 75 100) props ('4) frame cfg ;;
   Render_ret
     (Node "AbsoluteFill" [("style", VObj [("backgroundColor", str "#050300")])]
        [(* the space between the opening tag and the comment on its line *)
         Text [Lit " "];
         Node "svg"
           [("width", VNum ('(width cfg)));
            ("height", VNum ('(height cfg)));
            ("style", VObj [("overflow", str "visible")]);
            ("viewBox", VStr [Lit "0 0 "; Num ('(width cfg)); Lit " ";
                              Num ('(height cfg))])]
           [top; middle; bottom];
         Node "AbsoluteFill"
           [("style", VObj [("opacity", VNum (dec 5 100));
                            ("backgroundImage", VStr noise_grain);
                            ("mixBlendMode", str "overlay");
                            ("pointerEvents", str "none")])]
           []]))%render.
End Component.

End GlowingStringLights.
(* ================================================================== *)
(** ** The Bezier solver on the reals

    On the reals the solver is exact: the parameter is the least upper
    bound of the parameters of [0, 1] at which the curve's x coordinate has
    not passed [aX]. *)

Section BezierSolverR.
Local Open Scope R_scope.

Definition reaches (mX1 mX2 aX t : R) : Prop :=
  0 <= t <= 1 /\ (t = 0 \/ calcBezier t mX1 mX2 <= aX).

Lemma reaches_bound (mX1 mX2 aX : R) : bound (reaches mX1 mX2 aX).
Proof. exists 1. intros t [[_ Ht] _]. exact Ht. Qed.

Lemma reaches_inhabited (mX1 mX2 aX : R) : exists t, reaches mX1 mX2 aX t.
Proof. exists 0. split; [lra | left; reflexivity]. Qed.

Definition getTForX_R (mX1 mX2 aX : R) : R :=
  proj1_sig (completeness (reaches mX1 mX2 aX)
               (reaches_bound mX1 mX2 aX) (reaches_inhabited mX1 mX2 aX)).
End BezierSolverR.

#[export] Instance BezierSolver_R : BezierSolver R := {|
  getTForX := getTForX_R
|}.

(* ================================================================== *)
(** ** Compositions

    A composition bundles a component with its default props and video
    configuration; the elements of the components it uses are rendered
    inside it.  [unmounted] is the hook state before the first render;
    a component without hooks has none. *)

Record Composition (N : Type) : Type := mkComposition {
  id : string;
  Props : Type;
  HooksOf : Type;
  unmounted : HooksOf;
  defaultProps : Props;
  config : VideoConfig;
  component : Props -> Z -> VideoConfig -> Render HooksOf N (Element N)
}.

Section Compositions.
Context {N : Type} `{JsNum N} `{JsMath N} `{BezierSolver N} `{ColorMix N}
  `{SeededRandom N} `{SpringCurve N}.

Definition SegmentedCountdown_composition : Composition N :=
  mkComposition "SegmentedCountdown" (None : SegmentedCountdown.Hooks N)
    SegmentedCountdown.defaultProps SegmentedCountdown.compositionConfig
    SegmentedCountdown.SegmentedCountdown.

Definition CleanProgressBar_composition : Composition N :=
  mkComposition "CleanProgressBar" tt tt CleanProgressBar.compositionConfig
    (fun _ frame cfg => lift (CleanProgressBar.CleanProgressBar frame cfg)).

Definition NeonSaberCountdown_composition : Composition N :=
  mkComposition "NeonSaberCountdown" tt
    NeonSaberCountdown.defaultProps NeonSaberCountdown.compositionConfig
    (fun props frame cfg =>
       lift (NeonSaberCountdown.NeonSaberCountdown props frame cfg)).

Definition NeonRecIndicator_composition : Composition N :=
  mkComposition "NeonRecIndicator" tt tt NeonRecIndicator.compositionConfig
    (fun _ frame _ => lift (NeonRecIndicator.NeonRecIndicator frame)).

Definition NeonLiveIndicator_composition : Composition N :=
  mkComposition "NeonLiveIndicator" tt tt NeonLiveIndicator.compositionConfig
    (fun _ frame _ => lift (NeonLiveIndicator.NeonLiveIndicator frame)).

Definition ZenProgressBar_composition : Composition N :=
  mkComposition "ZenProgressBar" tt
    ZenProgressBar.defaultProps ZenProgressBar.compositionConfig
    (fun props frame cfg => lift (ZenProgressBar.ZenProgressBar props frame cfg)).

Definition NeonEqualizer_composition : Composition N :=
  mkComposition "NeonEqualizer" (NeonEqualizer.mkHooks None None : NeonEqualizer.Hooks N)
    tt NeonEqualizer.compositionConfig
    (fun _ frame cfg => NeonEqualizer.NeonEqualizer frame cfg).

Definition FallingHeartsEmoji_composition : Composition N :=
  mkComposition "FallingHeartsEmoji" (None : FallingHeartsEmoji.Hooks N)
    tt FallingHeartsEmoji.compositionConfig
    (fun _ frame cfg => FallingHeartsEmoji.FallingHeartsEmoji frame cfg).

Definition NeonEKG_composition : Composition N :=
  mkComposition "NeonEKG" (NeonEKG.mkHooks None None : NeonEKG.Hooks N)
    NeonEKG.defaultProps NeonEKG.compositionConfig NeonEKG.NeonEKG.

Definition NeonRadioWaves_composition : Composition N :=
  mkComposition "NeonRadioWaves" tt
    NeonRadioWaves.defaultProps NeonRadioWaves.compositionConfig
    (fun props frame _ => lift (NeonRadioWaves.NeonRadioWaves props frame)).

Definition NeonCircleFrame_composition : Composition N :=
  mkComposition "NeonCircleFrame" tt
    NeonCircleFrame.defaultProps NeonCircleFrame.compositionConfig
    (fun props frame cfg =>
       lift (NeonCircleFrame.NeonCircleFrame props frame cfg)).

Definition GyroscopeV2_composition : Composition N :=
  mkComposition "GyroscopeV2" tt
    GyroscopeV2.defaultProps GyroscopeV2.compositionConfig
    (fun props frame cfg => lift (GyroscopeV2.GyroscopeV2 props frame cfg)).

Definition CyberpunkDataRing_composition : Composition N :=
  mkComposition "CyberpunkDataRing"
    (CyberpunkDataRing.mkHooks None None : CyberpunkDataRing.Hooks N)
    CyberpunkDataRing.defaultProps CyberpunkDataRing.compositionConfig
    CyberpunkDataRing.CyberpunkDataRing.

Definition SpeedDemonSpinner_composition : Composition N :=
  mkComposition "SpeedDemonSpinner"
    (SpeedDemonSpinner.mkHooks None [] : SpeedDemonSpinner.Hooks N)
    SpeedDemonSpinner.defaultProps SpeedDemonSpinner.compositionConfig
    SpeedDemonSpinner.SpeedDemonSpinner.

Definition ReededGlassPink_composition : Composition N :=
  mkComposition "ReededGlassPink" (ReededGlassPink.mkHooks None None)
    ReededGlassPink.defaultProps ReededGlassPink.compositionConfig
    ReededGlassPink.ReededGlassEffect.

Definition FloatingSlider_composition : Composition N :=
  mkComposition "FloatingSlider" tt
    FloatingSlider.defaultProps FloatingSlider.compositionConfig
    (fun props frame cfg => lift (FloatingSlider.FloatingSlider props frame cfg)).

Definition ShapeShifter_composition : Composition N :=
  mkComposition "ShapeShifter" tt
    ShapeShifter.defaultProps ShapeShifter.compositionConfig
    (fun props frame cfg => lift (ShapeShifter.ShapeShifter props frame cfg)).

Definition AuroraMeshGradient_composition : Composition N :=
  mkComposition "AuroraMeshGradient" (None : AuroraMeshGradient.Hooks N)
    AuroraMeshGradient.defaultProps AuroraMeshGradient.compositionConfig
    AuroraMeshGradient.AuroraMeshGradient.

Definition SuccessCheckmark_composition : Composition N :=
  mkComposition "SuccessCheckmark" tt
    SuccessCheckmark.defaultProps SuccessCheckmark.compositionConfig
    (fun props frame cfg =>
       lift (SuccessCheckmark.SuccessCheckmark props frame cfg)).

Definition ErrorCross_composition : Composition N :=
  mkComposition "ErrorCross" tt
    ErrorCross.defaultProps ErrorCross.compositionConfig
    (fun props frame cfg => lift (ErrorCross.ErrorCross props frame cfg)).

Definition NeonGrowth_composition : Composition N :=
  mkComposition "NeonGrowth" tt
    NeonGrowth.defaultProps NeonGrowth.compositionConfig
    (fun props frame cfg => lift (NeonGrowth.NeonGrowth props frame cfg)).

Definition DualNeonChase_composition : Composition N :=
  mkComposition "DualNeonChase"
    (DualNeonChase.mkHooks None None : DualNeonChase.Hooks N)
    DualNeonChase.defaultProps DualNeonChase.compositionConfig
    DualNeonChase.DualNeonChase.

Definition NeonYearLoad_composition : Composition N :=
  mkComposition "NeonYearLoad" tt
    NeonYearLoad.defaultProps NeonYearLoad.compositionConfig
    (fun props frame cfg => lift (NeonYearLoad.NeonYearLoad props frame cfg)).

Definition GlowingLightsString_composition : Composition N :=
  mkComposition "GlowingLightsString" (None : GlowingLightsString.Hooks N)
    GlowingLightsString.defaultProps GlowingLightsString.compositionConfig
    GlowingLightsString.GlowingLights.

Definition BreakingNews_composition : Composition N :=
  mkComposition "BreakingNews" tt
    BreakingNews.defaultProps BreakingNews.newsConfig
    (fun props frame cfg => lift (BreakingNews.BreakingNews props frame cfg)).

Definition StreamGlitch_composition : Composition N :=
  mkComposition "StreamGlitch" tt
    StreamGlitch.defaultProps StreamGlitch.compositionConfig
    (fun props frame cfg => lift (StreamGlitch.StreamGlitch props frame cfg)).

Definition GlowingStringLights_composition : Composition N :=
  mkComposition "GlowingStringLights"
    (GlowingStringLights.mkHooks None None None : GlowingStringLights.Hooks N)
    GlowingStringLights.defaultProps GlowingStringLights.compositionConfig
    GlowingStringLights.GlowingStringLights.

(** The compositions whose render reads no state but its own memo cells,
    which it never changes in place. *)
Definition memoizing_compositions : list (Composition N) :=
  [SegmentedCountdown_composition; CleanProgressBar_composition;
   NeonSaberCountdown_composition; NeonRecIndicator_composition;
   NeonLiveIndicator_composition; ZenProgressBar_composition;
   NeonEqualizer_composition; FallingHeartsEmoji_composition;
   NeonEKG_composition; NeonRadioWaves_composition;
   NeonCircleFrame_composition; GyroscopeV2_composition;
   CyberpunkDataRing_composition; ReededGlassPink_composition;
   FloatingSlider_composition; ShapeShifter_composition;
   AuroraMeshGradient_composition; SuccessCheckmark_composition;
   ErrorCross_composition; NeonGrowth_composition; DualNeonChase_composition;
   NeonYearLoad_composition; GlowingLightsString_composition;
   BreakingNews_composition; StreamGlitch_composition;
   GlowingStringLights_composition].

(** Every composition of the repository. *)
Definition compositions : list (Composition N) :=
  memoizing_compositions ++ [SpeedDemonSpinner_composition].

(** The world of a freshly mounted component, with the generator in any
    state. *)
Definition mount (c : Composition N) (entropy : nat -> N) (drawn : nat)
  : World (HooksOf c) N :=
  mkWorld (unmounted c) entropy drawn.

(** The world after the frames [past] have been rendered in that order with
    the same props and configuration; a render that throws leaves the world
    as it was. *)
Fixpoint replay (c : Composition N) (props : Props c) (cfg : VideoConfig)
    (past : list Z) (w : World (HooksOf c) N) : World (HooksOf c) N :=
  match past with
  | [] => w
  | frame :: rest =>
      replay c props cfg rest
        (match component c props frame cfg w with
         | Ok (_, w') => w'
         | Throw _ => w
         end)
  end.
End Compositions.

(* ================================================================== *)
(** ** Math.sin, Math.cos and Math.exp on binary64

    The engine's Math functions are no part of the repository.  For the
    binary64 instance they are taken as fdlibm computes them, the
    library behind the engine's ieee754::sin, ieee754::cos and
    ieee754::exp (k_sin.c, k_cos.c, e_rem_pio2.c, k_rem_pio2.c, s_sin.c,
    s_cos.c, e_exp.c), operation by operation and in the order of the C
    code.  The high and the low word of a number are the upper and the
    lower 32 of its 64 bits.  Each constant is written in hexadecimal,
    which is exact, with the decimal of the C code beside it. *)

Module Fdlibm.
Local Open Scope float_scope.

(** The 64 bits of a number. *)
Definition bits (x : float) : Z :=
  match Prim2SF x with
  | S754_zero s => if s then 2 ^ 63 else 0
  | S754_infinity s => (if s then 2 ^ 63 else 0) + 2047 * 2 ^ 52
  | S754_nan => 2047 * 2 ^ 52 + 2 ^ 51
  | S754_finite s m e =>
      (if s then 2 ^ 63 else 0)
      + (if Zpos m <? 2 ^ 52 then Zpos m
         else (e + 1075) * 2 ^ 52 + (Zpos m - 2 ^ 52))
  end%Z.

Definition of_bits (b : Z) : float :=
  let negative := (2 ^ 63 <=? b)%Z in
  let exponent := ((b mod 2 ^ 63) / 2 ^ 52)%Z in
  let fraction := (b mod 2 ^ 52)%Z in
  if (exponent =? 2047)%Z then
    if (fraction =? 0)%Z then (if negative then neg_infinity else infinity)
    else nan
  else if (exponent =? 0)%Z then
    match fraction with
    | Zpos m => SF2Prim (S754_finite negative m (-1074))
    | _ => SF2Prim (S754_zero negative)
    end
  else
    match (fraction + 2 ^ 52)%Z with
    | Zpos m => SF2Prim (S754_finite negative m (exponent - 1075))
    | _ => nan
    end.

(** GET_HIGH_WORD into an int32_t, GET_LOW_WORD, INSERT_WORDS. *)
Definition high_word (x : float) : Z :=
  let h := (bits x / 2 ^ 32)%Z in
  if (2 ^ 31 <=? h)%Z then (h - 2 ^ 32)%Z else h.

Definition low_word (x : float) : Z := (bits x mod 2 ^ 32)%Z.

Definition insert_words (high low : Z) : float :=
  of_bits ((high mod 2 ^ 32) * 2 ^ 32 + low mod 2 ^ 32)%Z.

(** The casts [(int) x] and [(double) n], [floor] and [scalbn]. *)
Definition to_int (x : float) : Z :=
  if x <? 0 then float_ceilZ x else float_floorZ x.

Definition to_double (n : Z) : float := float_ofZ n.

Definition floor (x : float) : float :=
  if abs x <? 0x1p+52 then to_double (float_floorZ x) else x.

Definition scalbn (x : float) (n : Z) : float := Z.ldexp x n.

Definition half : float := 0x1p-1.

(** *** k_sin.c *)

Definition S1 : float := -0x1.5555555555549p-3.  (* -1.66666666666666324348e-01 *)
Definition S2 : float := 0x1.111111110f8a6p-7.   (*  8.33333333332248946124e-03 *)
Definition S3 : float := -0x1.a01a019c161d5p-13. (* -1.98412698298579493134e-04 *)
Definition S4 : float := 0x1.71de357b1fe7dp-19.  (*  2.75573137070700676789e-06 *)
Definition S5 : float := -0x1.ae5e68a2b9cebp-26. (* -2.50507602534068634195e-08 *)
Definition S6 : float := 0x1.5d93a5acfd57cp-33.  (*  1.58969099521155010221e-10 *)

Definition kernel_sin (x y : float) (iy : Z) : float :=
  let ix := Z.land (high_word x) 0x7fffffff in
  if (ix <? 0x3e400000)%Z && (to_int x =? 0)%Z then x
  else
    let z := x * x in
    let v := z * x in
    let r := S2 + z * (S3 + z * (S4 + z * (S5 + z * S6))) in
    if (iy =? 0)%Z then x + v * (S1 + z * r)
    else x - ((z * (half * y - v * r) - y) - v * S1).

(** *** k_cos.c *)

Definition C1 : float := 0x1.555555555554cp-5.   (*  4.16666666666666019037e-02 *)
Definition C2 : float := -0x1.6c16c16c15177p-10. (* -1.38888888888741095749e-03 *)
Definition C3 : float := 0x1.a01a019cb1590p-16.  (*  2.48015872894767294178e-05 *)
Definition C4 : float := -0x1.27e4f809c52adp-22. (* -2.75573143513906633035e-07 *)
Definition C5 : float := 0x1.1ee9ebdb4b1c4p-29.  (*  2.08757232129817482790e-09 *)
Definition C6 : float := -0x1.8fae9be8838d4p-37. (* -1.13596475577881948265e-11 *)

Definition kernel_cos (x y : float) : float :=
  let ix := Z.land (high_word x) 0x7fffffff in
  if (ix <? 0x3e400000)%Z && (to_int x =? 0)%Z then 1
  else
    let z := x * x in
    let r := z * (C1 + z * (C2 + z * (C3 + z * (C4 + z * (C5 + z * C6))))) in
    if (ix <? 0x3fd33333)%Z then 1 - (half * z - (z * r - x * y))
    else
      let qx :=
        if (0x3fe90000 <? ix)%Z then 0x1.2p-2 (* 0.28125 *)
        else insert_words (ix - 0x00200000) 0 in
      let iz := half * z - qx in
      let a := 1 - qx in
      a - (iz - (z * r - x * y)).

(** *** k_rem_pio2.c: the remainder of a large argument *)

(** The bits of 2/pi after the binary point, 24 to a word. *)
Definition two_over_pi : list Z :=
  [0xA2F983; 0x6E4E44; 0x1529FC; 0x2757D1; 0xF534DD; 0xC0DB62;
   0x95993C; 0x439041; 0xFE5163; 0xABDEBB; 0xC561B7; 0x246E3A;
   0x424DD2; 0xE00649; 0x2EEA09; 0xD1921C; 0xFE1DEB; 0x1CB129;
   0xA73EE8; 0x8235F5; 0x2EBB44; 0x84E99C; 0x7026B4; 0x5F7E41;
   0x3991D6; 0x398353; 0x39F49C; 0x845F8B; 0xBDF928; 0x3B1FF8;
   0x97FFDE; 0x05980F; 0xEF2F11; 0x8B5A0A; 0x6D1F6D; 0x367ECF;
   0x27CB09; 0xB74F46; 0x3F669E; 0x5FEA2D; 0x7527BA; 0xC7EBE5;
   0xF17B3D; 0x0739F7; 0x8A5292; 0xEA6BFB; 0x5FB11F; 0x8D5D08;
   0x560330; 0x46FC7B; 0x6BABF0; 0xCFBC20; 0x9AF436; 0x1DA9E3;
   0x91615E; 0xE61B08; 0x659985; 0x5F14A0; 0x68408D; 0xFFD880;
   0x4D7327; 0x310606; 0x1556CA; 0x73A8C9; 0x60E27B; 0xC08C6B]%Z.

(** pi/2 in pieces of 24 bits. *)
Definition PIo2 : list float :=
  [0x1.921fb4p+0;    (* 1.57079625129699707031e+00 *)
   0x1.4442dp-24;    (* 7.54978941586159635335e-08 *)
   0x1.846988p-48;   (* 5.39030252995776476554e-15 *)
   0x1.8cc516p-72;   (* 3.28200341580791294123e-22 *)
   0x1.01b838p-96;   (* 1.27065575308067607349e-29 *)
   0x1.a25204p-120;  (* 1.22933308981111328932e-36 *)
   0x1.382228p-145;  (* 2.73370053816464559624e-44 *)
   0x1.9f31dp-169].  (* 2.16741683877804819444e-51 *)

Definition two24 : float := 0x1p+24.   (* 1.67772160000000000000e+07 *)
Definition twon24 : float := 0x1p-24.  (* 5.96046447753906250000e-08 *)

(** [jk] and [jp] for the precision [__ieee754_rem_pio2] asks for
    (prec = 2, 53 bits). *)
Definition jk : Z := 4.
Definition jp : Z := jk.

Section KernelRemPio2.
(** [x] holds the argument in pieces of 24 bits, [jx] is its last index,
    [jv] the index of the first word of 2/pi that matters. *)
Variables (x : list float) (jx jv : Z).

(** [f[jx + i - j]], the word of 2/pi that meets [x[j]] in [q[i]]: the
    array [f] holds the table from index [jv - jx] on, and zero where that
    index is negative. *)
Definition f (i j : Z) : float :=
  let index := (jv + i - j)%Z in
  if (index <? 0)%Z then 0 else to_double (nth (Z.to_nat index) two_over_pi 0%Z).

(** [q[i] = x[0]*f[jx+i] + ... + x[jx]*f[i]], summed in this order. *)
Definition q (i : Z) : float :=
  fold_left (fun fw j => fw + nth j x 0 * f i (Z.of_nat j))
            (seq 0 (Z.to_nat jx + 1)) 0.

(** Distill [q[j], ..., q[1]] into [iq[0], iq[1], ...], 24 bits each, from
    the running value [z]; what is left of [z] comes back. *)
Fixpoint distill (j : nat) (z : float) : list Z * float :=
  match j with
  | O => ([], z)
  | S j' =>
      let fw := to_double (to_int (twon24 * z)) in
      let '(rest, z') := distill j' (q (Z.of_nat j') + fw) in
      (to_int (z - two24 * fw) :: rest, z')
  end.
End KernelRemPio2.

(** [iq[last] := g iq[last]]. *)
Definition on_last (g : Z -> Z) (iq : list Z) : list Z :=
  match rev iq with
  | [] => []
  | top :: below => rev (g top :: below)
  end.

Definition last_of (iq : list Z) : Z := last iq 0%Z.

(** The 2's complement of [iq], with the carry it ends on. *)
Fixpoint complement (carry : bool) (iq : list Z) : list Z * bool :=
  match iq with
  | [] => ([], carry)
  | j :: rest =>
      if carry then
        let '(rest', c) := complement true rest in ((0xffffff - j)%Z :: rest', c)
      else if (j =? 0)%Z then
        let '(rest', c) := complement false rest in (j :: rest', c)
      else
        let '(rest', c) := complement true rest in ((0x1000000 - j)%Z :: rest', c)
  end.

(** One pass over [q[0..jz]]: the digits [iq[0..jz-1]], the fraction [z],
    the octant [n] and the flag [ih] (z >= 0.5). *)
Definition pass (x : list float) (jx jv q0 : Z) (jz : nat)
    : list Z * float * Z * Z :=
  let '(iq, z) := distill x jx jv jz (q x jx jv (Z.of_nat jz)) in
  let z := scalbn z q0 in
  let z := z - 8 * floor (z * 0x1p-3) in
  let n := to_int z in
  let z := z - to_double n in
  let '(iq, n, ih) :=
    if (0 <? q0)%Z then
      let i := Z.shiftr (last_of iq) (24 - q0) in
      let iq := on_last (fun top => top - Z.shiftl i (24 - q0))%Z iq in
      (iq, (n + i)%Z, Z.shiftr (last_of iq) (23 - q0))
    else if (q0 =? 0)%Z then (iq, n, Z.shiftr (last_of iq) 23)
    else if half <=? z then (iq, n, 2%Z)
    else (iq, n, 0%Z) in
  if (0 <? ih)%Z then
    let '(iq, carry) := complement false iq in
    let iq :=
      if (q0 =? 1)%Z then on_last (fun top => Z.land top 0x7fffff) iq
      else if (q0 =? 2)%Z then on_last (fun top => Z.land top 0x3fffff) iq
      else iq in
    let z :=
      if (ih =? 2)%Z then
        let z := 1 - z in
        if carry then z - scalbn 1 q0 else z
      else z in
    (iq, z, (n + 1)%Z, ih)
  else (iq, z, n, ih).

(** How many more terms a pass that lost every bit asks for: the least
    [k >= 1] with [iq[jk - k]] not zero. *)
Fixpoint more_terms (iq : list Z) (k : nat) (fuel : nat) : nat :=
  match fuel with
  | O => k
  | S fuel' =>
      if (nth (Z.to_nat jk - k) iq 0 =? 0)%Z then more_terms iq (S k) fuel'
      else k
  end.

(** The passes, with more terms as long as [z] and [iq[jk..jz-1]] are all
    zero.  The arrays of the C code hold 20 entries, which bounds the
    number of passes. *)
Fixpoint passes (x : list float) (jx jv q0 : Z) (jz : nat) (fuel : nat)
    : nat * (list Z * float * Z * Z) :=
  let '(iq, z, n, ih) := pass x jx jv q0 jz in
  match fuel with
  | O => (jz, (iq, z, n, ih))
  | S fuel' =>
      if (z =? 0) && forallb (Z.eqb 0) (skipn (Z.to_nat jk) iq) then
        passes x jx jv q0 (jz + more_terms iq 1 (Z.to_nat jk - 1)) fuel'
      else (jz, (iq, z, n, ih))
  end.

(** Drop the zero digits at the top, 24 binary places each. *)
Fixpoint chop (digits : list Z) (q0 : Z) : list Z * Z :=
  match digits with
  | top :: below =>
      if (top =? 0)%Z then chop below (q0 - 24)%Z else (digits, q0)
  | [] => ([], q0)
  end.

(** [q[i] = 2^q0 * 2^(-24 (jz - i)) * iq[i]], from [i = jz] down. *)
Fixpoint scale (digits : list Z) (fw : float) : list float :=
  match digits with
  | top :: below => scale below (fw * twon24) ++ [fw * to_double top]
  | [] => []
  end.

(** [fq[jz - i] = PIo2[0]*q[i] + PIo2[1]*q[i+1] + ...], up to [jp] and
    the end of [q]. *)
Definition fq_at (qs : list float) (i : nat) : float :=
  fold_left (fun fw k => fw + nth k PIo2 0 * nth (i + k) qs 0)
            (seq 0 (Nat.min (Z.to_nat jp) (List.length qs - 1 - i) + 1)) 0.

Definition kernel_rem_pio2 (x : list float) (e0 : Z) (nx : Z)
    : Z * (float * float) :=
  let jx := (nx - 1)%Z in
  let jv := Z.max 0 (Z.quot (e0 - 3) 24) in
  let q0 := (e0 - 24 * (jv + 1))%Z in
  let '(jz, (iq, z, n, ih)) := passes x jx jv q0 (Z.to_nat jk) 16 in
  let '(digits, q0) :=
    if z =? 0 then chop (rev iq) (q0 - 24)%Z
    else
      let z := scalbn z (- q0) in
      if two24 <=? z then
        let fw := to_double (to_int (twon24 * z)) in
        (to_int fw :: to_int (z - two24 * fw) :: rev iq, (q0 + 24)%Z)
      else (to_int z :: rev iq, q0) in
  let qs := scale digits (scalbn 1 q0) in
  (* fq[0], fq[1], ..., fq[jz] belong to i = jz, jz - 1, ..., 0 *)
  let fq := map (fq_at qs) (rev (seq 0 (List.length qs))) in
  let fw := fold_left (fun fw term => fw + term) (rev fq) 0 in
  let y0 := if (ih =? 0)%Z then fw else - fw in
  let fw := fold_left (fun fw term => fw + term) (tl fq) (hd 0 fq - fw) in
  let y1 := if (ih =? 0)%Z then fw else - fw in
  (Z.land n 7, (y0, y1)).

(** *** e_rem_pio2.c *)

Definition invpio2 : float := 0x1.45f306dc9c883p-1. (* 6.36619772367581382433e-01 *)
Definition pio2_1 : float := 0x1.921fb544p+0.       (* 1.57079632673412561417e+00 *)
Definition pio2_1t : float := 0x1.0b4611a626331p-34. (* 6.07710050650619224932e-11 *)
Definition pio2_2 : float := 0x1.0b4611a6p-34.      (* 6.07710050630396597660e-11 *)
Definition pio2_2t : float := 0x1.3198a2e037073p-69. (* 2.02226624879595063154e-21 *)
Definition pio2_3 : float := 0x1.3198a2ep-69.       (* 2.02226624871116645580e-21 *)
Definition pio2_3t : float := 0x1.b839a252049c1p-104. (* 8.47842766036889956997e-32 *)

Definition npio2_hw : list Z :=
  [0x3FF921FB; 0x400921FB; 0x4012D97C; 0x401921FB; 0x401F6A7A; 0x4022D97C;
   0x4025FDBB; 0x402921FB; 0x402C463A; 0x402F6A7A; 0x4031475C; 0x4032D97C;
   0x40346B9C; 0x4035FDBB; 0x40378FDB; 0x403921FB; 0x403AB41B; 0x403C463A;
   0x403DD85A; 0x403F6A7A; 0x40407E4C; 0x4041475C; 0x4042106C; 0x4042D97C;
   0x4043A28C; 0x40446B9C; 0x404534AC; 0x4045FDBB; 0x4046C6CB; 0x40478FDB;
   0x404858EB; 0x404921FB]%Z.

(** [(high >> 20) & 0x7ff], the exponent field. *)
Definition exponent_of (y : float) : Z :=
  Z.land (Z.shiftr (high_word y) 20) 0x7ff.

(** [n] and [y[0] + y[1]] with [x = n * pi/2 + y[0] + y[1]]. *)
Definition rem_pio2 (x : float) : Z * (float * float) :=
  let hx := high_word x in
  let ix := Z.land hx 0x7fffffff in
  if (ix <=? 0x3fe921fb)%Z then (0%Z, (x, 0))
  else if (ix <? 0x4002d97c)%Z then
    if (0 <? hx)%Z then
      let z := x - pio2_1 in
      if negb (ix =? 0x3ff921fb)%Z then
        let y0 := z - pio2_1t in (1%Z, (y0, (z - y0) - pio2_1t))
      else
        let z := z - pio2_2 in
        let y0 := z - pio2_2t in (1%Z, (y0, (z - y0) - pio2_2t))
    else
      let z := x + pio2_1 in
      if negb (ix =? 0x3ff921fb)%Z then
        let y0 := z + pio2_1t in ((-1)%Z, (y0, (z - y0) + pio2_1t))
      else
        let z := z + pio2_2 in
        let y0 := z + pio2_2t in ((-1)%Z, (y0, (z - y0) + pio2_2t))
  else if (ix <=? 0x413921fb)%Z then
    let t := abs x in
    let n := to_int (t * invpio2 + half) in
    let fn := to_double n in
    let r := t - fn * pio2_1 in
    let w := fn * pio2_1t in
    let '(r, w, y0) :=
      if (n <? 32)%Z && negb (ix =? nth (Z.to_nat (n - 1)) npio2_hw 0)%Z then
        (r, w, r - w)
      else
        let j := Z.shiftr ix 20 in
        let y0 := r - w in
        let i := (j - exponent_of y0)%Z in
        if (16 <? i)%Z then
          let t := r in
          let w := fn * pio2_2 in
          let r := t - w in
          let w := fn * pio2_2t - ((t - r) - w) in
          let y0 := r - w in
          let i := (j - exponent_of y0)%Z in
          if (49 <? i)%Z then
            let t := r in
            let w := fn * pio2_3 in
            let r := t - w in
            let w := fn * pio2_3t - ((t - r) - w) in
            (r, w, r - w)
          else (r, w, y0)
        else (r, w, y0) in
    let y1 := (r - y0) - w in
    if (hx <? 0)%Z then ((- n)%Z, (- y0, - y1)) else (n, (y0, y1))
  else if (0x7ff00000 <=? ix)%Z then (0%Z, (x - x, x - x))
  else
    let low := low_word x in
    let e0 := (Z.shiftr ix 20 - 1046)%Z in
    let z := insert_words (ix - Z.shiftl e0 20) low in
    let tx0 := to_double (to_int z) in
    let z := (z - tx0) * two24 in
    let tx1 := to_double (to_int z) in
    let z := (z - tx1) * two24 in
    let tx2 := z in
    let nx := if negb (tx2 =? 0) then 3%Z else if negb (tx1 =? 0) then 2%Z else 1%Z in
    let '(n, (y0, y1)) := kernel_rem_pio2 [tx0; tx1; tx2] e0 nx in
    if (hx <? 0)%Z then ((- n)%Z, (- y0, - y1)) else (n, (y0, y1)).

(** *** s_sin.c and s_cos.c *)

Definition sin (x : float) : float :=
  let ix := Z.land (high_word x) 0x7fffffff in
  if (ix <=? 0x3fe921fb)%Z then kernel_sin x 0 0
  else if (0x7ff00000 <=? ix)%Z then x - x
  else
    let '(n, (y0, y1)) := rem_pio2 x in
    match Z.land n 3 with
    | 0%Z => kernel_sin y0 y1 1
    | 1%Z => kernel_cos y0 y1
    | 2%Z => - kernel_sin y0 y1 1
    | _ => - kernel_cos y0 y1
    end.

Definition cos (x : float) : float :=
  let ix := Z.land (high_word x) 0x7fffffff in
  if (ix <=? 0x3fe921fb)%Z then kernel_cos x 0
  else if (0x7ff00000 <=? ix)%Z then x - x
  else
    let '(n, (y0, y1)) := rem_pio2 x in
    match Z.land n 3 with
    | 0%Z => kernel_cos y0 y1
    | 1%Z => - kernel_sin y0 y1 1
    | 2%Z => - kernel_cos y0 y1
    | _ => kernel_sin y0 y1 1
    end.

(** *** e_exp.c *)

Definition o_threshold : float := 0x1.62e42fefa39efp+9.  (*  7.09782712893383973096e+02 *)
Definition u_threshold : float := -0x1.74910d52d3051p+9. (* -7.45133219101941108420e+02 *)
Definition ln2HI : float := 0x1.62e42feep-1.             (*  6.93147180369123816490e-01 *)
Definition ln2LO : float := 0x1.a39ef35793c76p-33.       (*  1.90821492927058770002e-10 *)
Definition invln2 : float := 0x1.71547652b82fep+0.       (*  1.44269504088896338700e+00 *)
Definition P1 : float := 0x1.555555555553ep-3.           (*  1.66666666666666019037e-01 *)
Definition P2 : float := -0x1.6c16c16bebd93p-9.          (* -2.77777777770155933842e-03 *)
Definition P3 : float := 0x1.1566aaf25de2cp-14.          (*  6.61375632143793436117e-05 *)
Definition P4 : float := -0x1.bbd41c5d26bf1p-20.         (* -1.65339022054652515390e-06 *)
Definition P5 : float := 0x1.6376972bea4dp-25.           (*  4.13813679705723846039e-08 *)
Definition E : float := 0x1.5bf0a8b145769p+1.            (*  2.718281828459045 *)
Definition huge : float := 0x1.7e43c8800759cp+996.       (*  1.0e+300 *)
Definition twom1000 : float := 0x1p-1000.                (*  9.33263618503218878990e-302 *)
Definition two1023 : float := 0x1p+1023.                 (*  8.988465674311579539e307 *)

Definition exp (x : float) : float :=
  let hx := high_word x in
  let xsb := Z.land (Z.shiftr hx 31) 1 in
  let positive := (xsb =? 0)%Z in
  let hx := Z.land hx 0x7fffffff in
  if (0x7ff00000 <=? hx)%Z then
    if negb (Z.lor (Z.land hx 0xfffff) (low_word x) =? 0)%Z then x + x
    else if positive then x else 0
  else if (0x40862E42 <=? hx)%Z && (o_threshold <? x) then infinity
  else if (0x40862E42 <=? hx)%Z && (x <? u_threshold) then twom1000 * twom1000
  else if (0x3fd62e42 <? hx)%Z && (hx <? 0x3FF0A2B2)%Z && (x =? 1) then E
  else if negb (0x3fd62e42 <? hx)%Z && (hx <? 0x3e300000)%Z && (1 <? huge + x)
  then 1 + x
  else
    let '(x, k, hi, lo) :=
      if (0x3fd62e42 <? hx)%Z then
        let '(k, hi, lo) :=
          if (hx <? 0x3FF0A2B2)%Z then
            ((1 - xsb - xsb)%Z,
             x - (if positive then ln2HI else - ln2HI),
             (if positive then ln2LO else - ln2LO))
          else
            let k := to_int (invln2 * x + (if positive then half else - half)) in
            let t := to_double k in
            (k, x - t * ln2HI, t * ln2LO) in
        (hi - lo, k, hi, lo)
      else (x, 0%Z, 0, 0) in
    let t := x * x in
    let twopk :=
      if (-1021 <=? k)%Z then insert_words (0x3ff00000 + Z.shiftl k 20) 0
      else insert_words (0x3ff00000 + Z.shiftl (k + 1000) 20) 0 in
    let c := x - t * (P1 + t * (P2 + t * (P3 + t * (P4 + t * P5)))) in
    if (k =? 0)%Z then 1 - ((x * c) / (c - 2) - x)
    else
      let y := 1 - ((lo - (x * c) / (2 - c)) - hi) in
      if (-1021 <=? k)%Z then
        if (k =? 1024)%Z then y * 2 * two1023 else y * twopk
      else y * twopk * twom1000.

End Fdlibm.

#[export] Instance JsMath_float : JsMath float := {|
  Math_sin := Fdlibm.sin;
  Math_cos := Fdlibm.cos;
  Math_exp := Fdlibm.exp;
  Math_PI := 0x1.921fb54442d18p+1%float (* 3.141592653589793 *)
|}.

(* ================================================================== *)

(** ** Reading an element tree *)

Module Reading.
Section Reading.
Context {N : Type}.

(** [obj.name] of an object literal: a later binding of a name replaces
    an earlier one, as with spread properties that are then overridden. *)
Fixpoint lookup {A} (name : string) (fields : list (string * A)) : option A :=
  match fields with
  | [] => None
  | (k, v) :: rest =>
      match lookup name rest with
      | Some later => Some later
      | None => if String.eqb k name then Some v else None
      end
  end.

(** A prop of an element, and a property of its [style] prop. *)
Definition prop (name : string) (e : Element N) : option (Val N) :=
  match e with
  | Node _ props _ => lookup name props
  | _ => None
  end.

Definition style (name : string) (e : Element N) : option (Val N) :=
  match prop "style" e with
  | Some (VObj fields) => lookup name fields
  | _ => None
  end.

Definition children (e : Element N) : list (Element N) :=
  match e with
  | Node _ _ c => c
  | Items c => c
  | Text _ => []
  end.

(** The element reached by taking child [i], then child [j] of it, and so
    on along [path]. *)
Fixpoint descend (path : list nat) (e : Element N) : option (Element N) :=
  match path with
  | [] => Some e
  | i :: rest =>
      match nth_error (children e) i with
      | Some c => descend rest c
      | None => None
      end
  end.

Definition prop_at (path : list nat) (name : string) (e : Element N)
  : option (Val N) :=
  match descend path e with
  | Some c => prop name c
  | None => None
  end.

Definition style_at (path : list nat) (name : string) (e : Element N)
  : option (Val N) :=
  match descend path e with
  | Some c => style name c
  | None => None
  end.

Definition children_at (path : list nat) (e : Element N)
  : option (list (Element N)) :=
  option_map children (descend path e).
End Reading.
End Reading.

(* ================================================================== *)
(** * Verification *)

Unset Implicit Arguments.

(** ** Renders that cannot throw *)

Module Totality.
Section Generic.
Context {N : Type} {num : JsNum N}.

(** A computation that returns in every world. *)
Definition total {H A} (m : Render H N A) : Prop :=
  forall w, succeeded (m w) = true.

Lemma succeeded_bind {A B} (r : Result A) (k : A -> Result B) :
  succeeded r = true -> (forall a, succeeded (k a) = true) ->
  succeeded (Result_bind r k) = true.
Proof. intros Hr Hk. destruct r as [a | e]; [apply Hk | discriminate]. Qed.

Lemma succeeded_mapM {A B} (f : A -> Result B) (l : list A) :
  (forall a, succeeded (f a) = true) -> succeeded (mapM f l) = true.
Proof.
  intro Hf. induction l as [|a tl IH]; cbn [mapM]; [reflexivity|].
  apply succeeded_bind; [apply Hf | intro b].
  apply succeeded_bind; [exact IH | reflexivity].
Qed.

Lemma total_lift {H A} (r : Result A) :
  succeeded r = true -> total (H := H) (lift r).
Proof. intros Hr w. destruct r; [reflexivity | discriminate]. Qed.

Lemma total_ret {H A} (a : A) : total (H := H) (Render_ret a).
Proof. intro w. reflexivity. Qed.

Lemma total_bind {H A B} (m : Render H N A) (k : A -> Render H N B) :
  total m -> (forall a, total (k a)) -> total (Render_bind m k).
Proof.
  intros Hm Hk w. unfold Render_bind. specialize (Hm w).
  destruct (m w) as [[a w'] | e]; [apply Hk | discriminate].
Qed.

Lemma total_random {H} : total (H := H) Math_random.
Proof. intro w. reflexivity. Qed.

Lemma total_for_loop {H S} (fuel : nat) (step : Z) (cond : Z -> bool)
    (body : Z -> S -> Render H N (Step S)) :
  (forall i s, total (body i s)) ->
  forall i s, total (for_loop fuel i step cond body s).
Proof.
  intro Hbody. induction fuel as [|fuel IH]; intros i s; cbn [for_loop].
  - apply total_ret.
  - destruct (cond i); [|apply total_ret].
    apply total_bind; [apply Hbody|].
    intros [s' | s']; [apply IH | apply total_ret].
Qed.

(** A counting loop given the passes of [passes] stops because its
    condition fails, not because the fuel runs out: more fuel changes
    nothing. *)
Lemma for_loop_fuel_enough {H S} (step stop : Z) (cond : Z -> bool)
    (body : Z -> S -> Render H N (Step S)) :
  (0 < step)%Z -> (forall j, (stop <= j)%Z -> cond j = false) ->
  forall (fuel extra : nat) (i : Z) (s : S) (w : World H N),
    (stop <= i + step * Z.of_nat fuel)%Z ->
    for_loop (fuel + extra) i step cond body s w
    = for_loop fuel i step cond body s w.
Proof.
  intros Hstep Hstop. induction fuel as [|fuel IH]; intros extra i s w Hi.
  - cbn [for_loop Nat.add]. destruct extra as [|extra]; [reflexivity|].
    cbn [for_loop]. rewrite Hstop by lia. reflexivity.
  - cbn [for_loop Nat.add]. destruct (cond i); [|reflexivity].
    unfold Render_bind. destruct (body i s w) as [[[s' | s'] w'] | e];
      try reflexivity.
    apply IH. lia.
Qed.

Lemma passes_cover (start stop step : Z) :
  (0 < step)%Z -> (stop < start + step * Z.of_nat (passes start stop step))%Z.
Proof.
  intro Hstep. unfold passes.
  pose proof (Z.div_mod (stop - start) step ltac:(lia)) as Hdm.
  pose proof (Z.mod_pos_bound (stop - start) step Hstep) as Hmod.
  destruct (Z.le_gt_cases 0 ((stop - start) / step + 1)) as [Hq | Hq].
  - rewrite Z2Nat.id by exact Hq. nia.
  - replace (Z.to_nat ((stop - start) / step + 1)) with 0%nat by lia. nia.
Qed.

Lemma succeeded_mapM_in {A B} (f : A -> Result B) (l : list A) :
  (forall a, In a l -> succeeded (f a) = true) -> succeeded (mapM f l) = true.
Proof.
  induction l as [|a tl IH]; intro Hf; cbn [mapM]; [reflexivity|].
  apply succeeded_bind; [apply Hf; left; reflexivity | intro b].
  apply succeeded_bind; [|reflexivity].
  apply IH. intros a' Ha'. apply Hf. right. exact Ha'.
Qed.

(** A bind whose first computation is known to return. *)
Lemma succeeded_after {H A B} (m : Render H N A) (k : A -> Render H N B)
    (w : World H N) (a : A) (w' : World H N) :
  m w = Ok (a, w') -> succeeded (k a w') = true ->
  succeeded (Render_bind m k w) = true.
Proof. intros Hm Hk. unfold Render_bind. rewrite Hm. exact Hk. Qed.

Lemma succeeded_then {H A B} (m : Render H N A) (k : A -> Render H N B)
    (w : World H N) :
  succeeded (m w) = true -> (forall a, total (k a)) ->
  succeeded (Render_bind m k w) = true.
Proof.
  intros Hm Hk. unfold Render_bind.
  destruct (m w) as [[a w'] | e]; [apply Hk | discriminate].
Qed.

Lemma succeeded_child {H Hc A} (get : H -> Hc) (set : Hc -> H -> H)
    (m : Render Hc N A) (w : World H N) :
  succeeded (m (mkWorld (get (hooks w)) (entropy w) (drawn w))) = true ->
  succeeded (child get set m w) = true.
Proof.
  intro Hm. unfold child.
  destruct (m _) as [[a wc] | e]; [reflexivity | discriminate].
Qed.

(** A bind after a computation whose value is known. *)
Lemma total_known {H A B} (r : Result A) (a : A) (k : A -> Render H N B) :
  r = Ok a -> total (k a) -> total (Render_bind (lift r) k).
Proof. intros -> Hk w. apply Hk. Qed.

(** A composition renders in every world it can reach when its renders
    keep an invariant of the hooks under which they return. *)
Lemma safe_replay (c : Composition N) (p : Props c) (cfg : VideoConfig)
    (Inv : HooksOf c -> Prop) :
  Inv (unmounted c) ->
  (forall f w, Inv (hooks w) ->
     exists a w', component c p f cfg w = Ok (a, w') /\ Inv (hooks w')) ->
  forall (f : Z) (past : list Z) (e : nat -> N) (n : nat),
    succeeded (component c p f cfg (replay c p cfg past (mount c e n))) = true.
Proof.
  intros Hinit Hstep f past e n.
  assert (Hreach : forall hist w, Inv (hooks w) ->
                                  Inv (hooks (replay c p cfg hist w))).
  { intro hist. induction hist as [|g rest IH]; intros w Hw; cbn [replay];
      [exact Hw|].
    apply IH. destruct (Hstep g w Hw) as [a [w' [-> Hw']]]. exact Hw'. }
  destruct (Hstep f _ (Hreach past (mount c e n) Hinit)) as [a [w' [-> _]]].
  reflexivity.
Qed.

Lemma total_replay (c : Composition N) (p : Props c) (cfg : VideoConfig) :
  (forall f, total (component c p f cfg)) ->
  forall (f : Z) (past : list Z) (e : nat -> N) (n : nat),
    succeeded (component c p f cfg (replay c p cfg past (mount c e n))) = true.
Proof. intros Htotal f past e n. apply Htotal. Qed.

Lemma total_child {H Hc A} (get : H -> Hc) (set : Hc -> H -> H)
    (m : Render Hc N A) :
  total m -> total (child get set m).
Proof.
  intros Hm w. unfold child.
  specialize (Hm (mkWorld (get (hooks w)) (entropy w) (drawn w))).
  destruct (m _) as [[a wc] | e]; [reflexivity | discriminate].
Qed.

(** A memo hit cannot throw; a miss throws only if the factory does. *)
Lemma total_useMemo {H D V} (get : H -> Memo D V) (set : Memo D V -> H -> H)
    (same : D -> D -> bool) (factory : Render H N V) (deps : D) :
  total factory -> total (useMemo get set same factory deps).
Proof.
  intros Hf w. unfold useMemo. specialize (Hf w).
  destruct (get (hooks w)) as [[d v] |].
  - destruct (same d deps); [reflexivity|].
    destruct (factory w) as [[v1 w1] | e]; [reflexivity | discriminate].
  - destruct (factory w) as [[v1 w1] | e]; [reflexivity | discriminate].
Qed.

(** The segment found in an input range lies inside the range. *)
Lemma findRange_from_bounds (x : N) (rest : list N) (i : nat) :
  (i <= findRange_from i x rest <= i + Nat.pred (List.length rest))%nat.
Proof.
  revert i. induction rest as [|a tl IH]; intro i; cbn [findRange_from].
  - cbn. lia.
  - destruct tl as [|b tl']; [cbn; lia|].
    destruct (negb (ltb a x)).
    + cbn [List.length]. lia.
    + specialize (IH (S i)). cbn [List.length] in *. lia.
Qed.

(** interpolate returns whenever its ranges are well formed. *)
Lemma interpolate_total (x : N) (inputRange outputRange : list N)
    (options : InterpolateOptions N) :
  List.length inputRange = List.length outputRange ->
  (2 <= List.length inputRange)%nat ->
  strictly_increasing inputRange = true ->
  succeeded (interpolate x inputRange outputRange options) = true.
Proof.
  intros Hlen H2 Hinc. unfold interpolate.
  rewrite (proj2 (Nat.eqb_eq _ _) Hlen). cbn [negb].
  replace (Nat.ltb (List.length inputRange) 2) with false
    by (symmetry; apply Nat.ltb_ge; exact H2).
  rewrite Hinc. cbn [negb].
  assert (Hrange : (S (findRange x inputRange) < List.length inputRange)%nat).
  { unfold findRange.
    pose proof (findRange_from_bounds x (tl inputRange) 1) as Hb.
    destruct inputRange as [|a rest]; cbn [List.length List.tl] in *; [lia|].
    destruct rest as [|b rest']; cbn [List.length] in *; lia. }
  destruct (nth_error inputRange (findRange x inputRange)) eqn:E1;
    [|apply nth_error_None in E1; lia].
  destruct (nth_error inputRange (S (findRange x inputRange))) eqn:E2;
    [|apply nth_error_None in E2; lia].
  destruct (nth_error outputRange (findRange x inputRange)) eqn:E3;
    [|apply nth_error_None in E3; lia].
  destruct (nth_error outputRange (S (findRange x inputRange))) eqn:E4;
    [|apply nth_error_None in E4; lia].
  reflexivity.
Qed.
End Generic.
End Totality.

(** ** The framework functions on exact rationals *)

Module Exact.
Local Open Scope Q_scope.

Lemma ltb_true (a b : Q) : ltb a b = true <-> a < b.
Proof.
  cbn. destruct (Qlt_le_dec a b) as [Hlt | Hle]; split; intro Hx;
    try reflexivity; try discriminate; try assumption.
  exfalso. apply (Qlt_not_le _ _ Hx Hle).
Qed.

Lemma ltb_false (a b : Q) : ltb a b = false <-> b <= a.
Proof.
  cbn. destruct (Qlt_le_dec a b) as [Hlt | Hle]; split; intro Hx;
    try reflexivity; try discriminate; try assumption.
  exfalso. apply (Qlt_not_le _ _ Hlt Hx).
Qed.

Lemma eqb_true (a b : Q) : eqb a b = true <-> a == b.
Proof. cbn. apply Qeq_bool_iff. Qed.

Lemma eqb_false (a b : Q) : eqb a b = false <-> ~ a == b.
Proof.
  cbn. split.
  - intros Hf He. apply Qeq_bool_iff in He. congruence.
  - intro Hn. destruct (Qeq_bool a b) eqn:E; [|reflexivity].
    apply Qeq_bool_iff in E. contradiction.
Qed.

(** Case analysis on a comparison of the code. *)
Ltac cases_ltb a b :=
  let E := fresh "E" in
  destruct (ltb a b) eqn:E;
  [apply ltb_true in E | apply ltb_false in E].

Ltac cases_eqb a b :=
  let E := fresh "E" in
  destruct (eqb a b) eqn:E;
  [apply eqb_true in E | apply eqb_false in E].

(** With a two-point input range, interpolate is its single segment. *)
Lemma interpolate_segment (x a b c d : Q) (opts : InterpolateOptions Q) :
  a < b ->
  interpolate x [a; b] [c; d] opts = Ok (interpolateFunction x a b c d opts).
Proof.
  intro Hab. unfold interpolate. cbn [List.length Nat.eqb Nat.ltb Nat.leb negb].
  cbn [strictly_increasing].
  replace (ltb a b) with true by (symmetry; apply ltb_true; exact Hab).
  reflexivity.
Qed.

(** The specification's reading of a clamped linear interpolation: the
    input is first confined to the input range, then mapped linearly. *)
Definition confine (lo hi x : Z) : Z := Z.max lo (Z.min x hi).

Definition linear_map (x a b c d : Q) : Q := c + (x - a) / (b - a) * (d - c).

Lemma confine_bounds (lo hi x : Z) : (lo <= hi -> lo <= confine lo hi x <= hi)%Z.
Proof. unfold confine. lia. Qed.

Lemma confine_mono (lo hi x y : Z) : (x <= y -> confine lo hi x <= confine lo hi y)%Z.
Proof. unfold confine. lia. Qed.

Lemma inject_Z_lt (x y : Z) : (x < y)%Z <-> inject_Z x < inject_Z y.
Proof. rewrite Zlt_Qlt. reflexivity. Qed.

Lemma inject_Z_pos (D : Z) : (0 < D)%Z -> 0 < inject_Z D.
Proof. intro HD. apply (inject_Z_lt 0 D). exact HD. Qed.

Lemma inject_Z_nonneg (x : Z) : (0 <= x)%Z -> 0 <= inject_Z x.
Proof. intro Hx. rewrite (Zle_Qle 0 x) in Hx. exact Hx. Qed.

Lemma inject_Z_le (x y : Z) : (x <= y)%Z <-> inject_Z x <= inject_Z y.
Proof. rewrite Zle_Qle. reflexivity. Qed.

Lemma pos_nonzero (x : Q) : 0 < x -> ~ x == 0.
Proof. intros Hx Hz. rewrite Hz in Hx. apply (Qlt_irrefl 0 Hx). Qed.

Lemma Z_lt_Q (x y : Z) : (x < y)%Z -> inject_Z x < inject_Z y.
Proof. apply inject_Z_lt. Qed.

Lemma Z_le_Q (x y : Z) : (x <= y)%Z -> inject_Z x <= inject_Z y.
Proof. apply inject_Z_le. Qed.

Lemma clamped_segment (f D : Z) (c d : Q) :
  (0 < D)%Z ->
  interpolateFunction (inject_Z f) (inject_Z 0) (inject_Z D) c d clamped
  == linear_map (inject_Z (confine 0 D f)) 0 (inject_Z D) c d.
Proof.
  intro HD. assert (HDq : 0 < inject_Z D) by (apply inject_Z_pos; exact HD).
  unfold interpolateFunction, linear_map, clamped, confine.
  cbn [extrapolateLeft extrapolateRight easing Easing_linear].
  cases_ltb (inject_Z f) (inject_Z 0).
  - apply (inject_Z_lt f 0) in E.
    replace (Z.max 0 (Z.min f D)) with 0%Z by lia.
    cases_ltb (inject_Z D) (inject_Z 0).
    + exfalso. apply (inject_Z_lt D 0) in E0. lia.
    + cases_eqb c d.
      * rewrite E1. cbn. field. lra.
      * cbn. field. lra.
  - apply (inject_Z_le 0 f) in E.
    cases_ltb (inject_Z D) (inject_Z f).
    + apply (inject_Z_lt D f) in E0.
      replace (Z.max 0 (Z.min f D)) with D by lia.
      cases_eqb c d.
      * rewrite E1. cbn. field. lra.
      * cbn. field. lra.
    + apply (inject_Z_le f D) in E0.
      replace (Z.max 0 (Z.min f D)) with f by lia.
      cases_eqb c d.
      * rewrite E1. cbn. field. lra.
      * cbn. field. lra.
Qed.

Lemma Qceiling_of_Z (q : Q) (z : Z) : q == inject_Z z -> Qceiling q = z.
Proof. intro Hq. rewrite Hq. apply Qceiling_Z. Qed.

Lemma Qfloor_of_Z (q : Q) (z : Z) : q == inject_Z z -> Qfloor q = z.
Proof. intro Hq. rewrite Hq. apply Qfloor_Z. Qed.

Lemma ratio_bounds (x D : Q) : 0 < D -> 0 <= x <= D -> 0 <= x / D <= 1.
Proof.
  intros HD [H0 H1]. split.
  - apply Qle_shift_div_l; [exact HD | lra].
  - apply Qle_shift_div_r; [exact HD | lra].
Qed.

Lemma ratio_mono (x y D : Q) : 0 < D -> x <= y -> x / D <= y / D.
Proof.
  intros HD Hxy. unfold Qdiv. apply Qmult_le_compat_r; [exact Hxy|].
  apply Qlt_le_weak, Qinv_lt_0_compat, HD.
Qed.

(** A falling map (output range [hi] down to [lo]) of a confined frame. *)
Lemma falling_bounds (f D : Z) (lo hi : Q) :
  (0 < D)%Z -> lo <= hi ->
  lo <= linear_map (inject_Z (confine 0 D f)) 0 (inject_Z D) hi lo <= hi.
Proof.
  intros HD Hlh. unfold linear_map.
  pose proof (confine_bounds 0 D f (Z.lt_le_incl _ _ HD)) as [Hc0 Hc1].
  apply inject_Z_nonneg in Hc0. apply (inject_Z_le _ D) in Hc1.
  apply inject_Z_pos in HD.
  set (x := inject_Z (confine 0 D f)) in *. clearbody x.
  set (d := inject_Z D) in *. clearbody d.
  assert (Hr : 0 <= (x - 0) / (d - 0) <= 1).
  { apply ratio_bounds; lra. }
  set (t := (x - 0) / (d - 0)) in *. clearbody t. nra.
Qed.

Lemma falling_mono (f g D : Z) (lo hi : Q) :
  (0 < D)%Z -> lo <= hi -> (f <= g)%Z ->
  linear_map (inject_Z (confine 0 D g)) 0 (inject_Z D) hi lo
  <= linear_map (inject_Z (confine 0 D f)) 0 (inject_Z D) hi lo.
Proof.
  intros HD Hlh Hfg. unfold linear_map.
  pose proof (confine_mono 0 D f g Hfg) as Hc. apply inject_Z_le in Hc.
  apply inject_Z_pos in HD.
  assert (Hr : (inject_Z (confine 0 D f) - 0) / (inject_Z D - 0)
               <= (inject_Z (confine 0 D g) - 0) / (inject_Z D - 0)).
  { apply ratio_mono; lra. }
  set (s := (inject_Z (confine 0 D f) - 0) / (inject_Z D - 0)) in *.
  set (t := (inject_Z (confine 0 D g) - 0) / (inject_Z D - 0)) in *.
  clearbody s t. nra.
Qed.

Lemma linear_map_start (D : Q) (c d : Q) : 0 < D -> linear_map 0 0 D c d == c.
Proof. intro HD. unfold linear_map. field. lra. Qed.

Lemma linear_map_end (D : Q) (c d : Q) : 0 < D -> linear_map D 0 D c d == d.
Proof. intro HD. unfold linear_map. field. lra. Qed.
End Exact.

(** ** SegmentedCountdown *)

Module SegmentedCountdownFacts.
Import Exact SegmentedCountdown.
Local Open Scope Q_scope.

(** The value the specification describes: the ceiling of the clamped
    linear interpolation of the frame from [0, durationInFrames] to
    [30, 0]. *)
Definition shown (D f : Z) : Z :=
  Qceiling (linear_map (inject_Z (confine 0 D f)) 0 (inject_Z D) 30 0).

Lemma remainingSeconds_shown (cfg : VideoConfig) (f : Z) :
  (0 < durationInFrames cfg)%Z ->
  remainingSeconds f cfg = Ok (inject_Z (shown (durationInFrames cfg) f)).
Proof.
  intro HD. unfold remainingSeconds. cbn [ofZ JsNum_Q].
  rewrite interpolate_segment by (apply inject_Z_pos; exact HD).
  cbn [Result_bind]. unfold Math_ceil, shown. cbn [ofZ ceilZ JsNum_Q].
  do 2 f_equal. apply Qceiling_comp. apply clamped_segment. exact HD.
Qed.

(** C4.  In SegmentedCountdown the displayed remainingSeconds is, at every
    integer frame, the ceiling of the linear interpolation of the frame
    from [0, durationInFrames] to [30, 0] clamped on both sides; it lies
    in [0, 30], is 30 at frame 0, is 0 at frame durationInFrames, and
    never increases with the frame. *)
Theorem remainingSeconds_countdown (cfg : VideoConfig)
    (HD : (0 < durationInFrames cfg)%Z) :
  let D := durationInFrames cfg in
  (forall f, remainingSeconds f cfg = Ok (inject_Z (shown D f))) /\
  (forall f, (0 <= shown D f <= 30)%Z) /\
  remainingSeconds 0 cfg = Ok (inject_Z 30) /\
  remainingSeconds D cfg = Ok (inject_Z 0) /\
  (forall f g, (f <= g)%Z -> (shown D g <= shown D f)%Z).
Proof.
  intros D.
  assert (HDq : 0 < inject_Z D) by (apply inject_Z_pos; exact HD).
  assert (H030 : 0 <= 30) by (unfold Qle; simpl; lia).
  repeat split.
  - intro f. apply remainingSeconds_shown. exact HD.
  - unfold shown. rewrite <- (Qceiling_Z 0).
    apply Qceiling_resp_le. apply (falling_bounds f _ _ _ HD H030).
  - unfold shown. rewrite <- (Qceiling_Z 30) at 2.
    apply Qceiling_resp_le. apply (falling_bounds f _ _ _ HD H030).
  - rewrite remainingSeconds_shown by exact HD. do 2 f_equal.
    unfold shown. apply Qceiling_of_Z.
    replace (confine 0 (durationInFrames cfg) 0) with 0%Z
      by (unfold confine; lia).
    apply linear_map_start. exact HDq.
  - rewrite remainingSeconds_shown by exact HD. do 2 f_equal.
    unfold shown. apply Qceiling_of_Z.
    replace (confine 0 (durationInFrames cfg) D) with D
      by (unfold confine, D; lia).
    apply linear_map_end. exact HDq.
  - intros f g Hfg. unfold shown. apply Qceiling_resp_le.
    apply falling_mono; [exact HD | exact H030 | exact Hfg].
Qed.

Lemma remainingSeconds_countdown_witness :
  (0 < durationInFrames compositionConfig)%Z /\
  remainingSeconds (N := Q) 900 compositionConfig = Ok (inject_Z 0).
Proof.
  split; [reflexivity|].
  exact (proj1 (proj2 (proj2 (proj2
    (remainingSeconds_countdown compositionConfig eq_refl))))).
Defined.

Lemma countdown_progress_value (cfg : VideoConfig) (f : Z) :
  (0 < durationInFrames cfg)%Z ->
  exists p : Q,
    progress f cfg = Ok p /\
    p == linear_map (inject_Z (confine 0 (durationInFrames cfg) f)) 0
           (inject_Z (durationInFrames cfg)) 1 0.
Proof.
  intro HD. unfold progress. cbn [ofZ JsNum_Q].
  rewrite interpolate_segment by (apply inject_Z_pos; exact HD).
  eexists. split; [reflexivity|]. apply clamped_segment. exact HD.
Qed.

Lemma currentTickThreshold_value (props : CountdownProps) (cfg : VideoConfig)
    (f : Z) :
  (0 < durationInFrames cfg)%Z ->
  exists th : Q,
    currentTickThreshold props f cfg = Ok th /\
    th == linear_map (inject_Z (confine 0 (durationInFrames cfg) f)) 0
            (inject_Z (durationInFrames cfg)) 1 0
          * inject_Z (ticksCount props).
Proof.
  intro HD. unfold currentTickThreshold.
  destruct (countdown_progress_value cfg f HD) as [p [Hp Hv]]. rewrite Hp.
  cbn [Result_bind]. eexists. split; [reflexivity|].
  cbn [mul ofZ JsNum_Q]. rewrite Hv. reflexivity.
Qed.

Lemma tickOpacity_cases (th : Q) (i : Z) :
  let diff := th - inject_Z i in
  let opacity := tickOpacity th i in
  0 <= opacity <= 1 /\
  (1 < diff -> opacity = 1) /\
  (diff < 0 -> opacity = 0) /\
  (0 <= diff <= 1 -> opacity = diff).
Proof.
  intros diff opacity. subst opacity. unfold tickOpacity.
  cbn [sub ofZ JsNum_Q]. fold diff.
  cases_ltb (inject_Z 1) diff; [|cases_ltb diff (inject_Z 0)];
    change (inject_Z 1) with 1 in *; change (inject_Z 0) with 0 in *;
    repeat split; try reflexivity; try lra; intros; exfalso; lra.
Qed.

Lemma tickOpacity_mono (th1 th2 : Q) (i : Z) :
  th1 <= th2 -> tickOpacity th1 i <= tickOpacity th2 i.
Proof.
  intro Hle. unfold tickOpacity. cbn [sub ofZ JsNum_Q].
  cases_ltb (inject_Z 1) (th1 - inject_Z i);
    cases_ltb (inject_Z 1) (th2 - inject_Z i);
    try cases_ltb (th1 - inject_Z i) (inject_Z 0);
    try cases_ltb (th2 - inject_Z i) (inject_Z 0);
    change (inject_Z 1) with 1 in *; change (inject_Z 0) with 0 in *;
    lra.
Qed.

(** C5.  In SegmentedCountdown the opacity of an active tick [i] of
    [0, ticksCount) lies in [0, 1]: it is 1 when
    currentTickThreshold - i > 1, 0 when currentTickThreshold - i < 0 and
    currentTickThreshold - i otherwise; and for a fixed tick it never
    increases with the frame. *)
Theorem tickOpacity_fades (props : CountdownProps) (cfg : VideoConfig) (i : Z)
    (HD : (0 < durationInFrames cfg)%Z)
    (Hi : (0 <= i < ticksCount props)%Z) :
  (forall f, exists th : Q,
      currentTickThreshold props f cfg = Ok th /\
      0 <= tickOpacity th i <= 1 /\
      (1 < th - inject_Z i -> tickOpacity th i = 1) /\
      (th - inject_Z i < 0 -> tickOpacity th i = 0) /\
      (0 <= th - inject_Z i <= 1 -> tickOpacity th i = th - inject_Z i)) /\
  (forall f g, (f <= g)%Z -> exists th_f th_g : Q,
      currentTickThreshold props f cfg = Ok th_f /\
      currentTickThreshold props g cfg = Ok th_g /\
      tickOpacity th_g i <= tickOpacity th_f i).
Proof.
  split.
  - intro f. destruct (currentTickThreshold_value props cfg f HD) as [th [Hth _]].
    exists th. split; [exact Hth|]. apply tickOpacity_cases.
  - intros f g Hfg.
    destruct (currentTickThreshold_value props cfg f HD) as [th_f [Hf Vf]].
    destruct (currentTickThreshold_value props cfg g HD) as [th_g [Hg Vg]].
    exists th_f, th_g. repeat split; try assumption.
    apply tickOpacity_mono. rewrite Vf, Vg.
    apply Qmult_le_compat_r.
    + apply falling_mono; [exact HD | unfold Qle; simpl; lia | exact Hfg].
    + apply inject_Z_nonneg. lia.
Qed.

Lemma tickOpacity_fades_witness :
  exists th : Q,
    currentTickThreshold defaultProps 450 compositionConfig = Ok th /\
    tickOpacity th 60 = 0.
Proof.
  assert (HD : (0 < durationInFrames compositionConfig)%Z) by reflexivity.
  assert (Hi : (0 <= 60 < ticksCount defaultProps)%Z) by (cbn; lia).
  destruct (proj1 (tickOpacity_fades defaultProps compositionConfig 60 HD Hi)
              450%Z) as [th [Hth _]].
  exists th. split; [exact Hth|].
  vm_compute in Hth. injection Hth as <-. vm_compute. reflexivity.
Defined.
End SegmentedCountdownFacts.

Example remainingSeconds_450 :
  SegmentedCountdown.remainingSeconds (N := Q) 450
    SegmentedCountdown.compositionConfig = Ok (inject_Z 15).
Proof. vm_compute. reflexivity. Qed.

(** ** CleanProgressBar *)

Module CleanProgressBarFacts.
Import Exact CleanProgressBar.
Local Open Scope Q_scope.

(** Extension on the left, clamp on the right: only frames past the end
    of the input range are confined. *)
Lemma right_clamped_segment (f E : Z) :
  (0 < E)%Z ->
  interpolateFunction (inject_Z f) (inject_Z 0) (inject_Z E) (inject_Z 0)
    (inject_Z 1) (mkOptions Easing_linear extend clamp)
  == linear_map (inject_Z (Z.min f E)) 0 (inject_Z E) 0 1.
Proof.
  intro HE. assert (HEq : 0 < inject_Z E) by (apply inject_Z_pos; exact HE).
  unfold interpolateFunction, linear_map.
  cbn [extrapolateLeft extrapolateRight easing Easing_linear].
  assert (H01 : eqb (inject_Z 0) (inject_Z 1) = false) by reflexivity.
  rewrite H01.
  cases_ltb (inject_Z E) (inject_Z f).
  - apply (inject_Z_lt E f) in E0.
    replace (Z.min f E) with E by lia.
    destruct (ltb (inject_Z f) (inject_Z 0)); cbn; field; lra.
  - apply (inject_Z_le f E) in E0.
    replace (Z.min f E) with f by lia.
    destruct (ltb (inject_Z f) (inject_Z 0)); cbn; field; lra.
Qed.

Lemma last_frame_positive (cfg : VideoConfig) :
  (1 < durationInFrames cfg)%Z ->
  inject_Z 0 < inject_Z (durationInFrames cfg) - inject_Z 1.
Proof.
  intro HD. apply (inject_Z_lt 1 _) in HD.
  change (inject_Z 1) with 1 in *. change (inject_Z 0) with 0. lra.
Qed.

Lemma bar_progress_value (cfg : VideoConfig) (f : Z) :
  (1 < durationInFrames cfg)%Z ->
  exists p : Q,
    progress f cfg = Ok p /\
    p == linear_map (inject_Z (Z.min f (durationInFrames cfg - 1))) 0
           (inject_Z (durationInFrames cfg - 1)) 0 1.
Proof.
  intro HD. unfold progress. cbn [ofZ sub JsNum_Q].
  rewrite interpolate_segment by (apply last_frame_positive; exact HD).
  eexists. split; [reflexivity|].
  assert (Hend : inject_Z (durationInFrames cfg) - inject_Z 1
                 = inject_Z (durationInFrames cfg - 1)).
  { unfold inject_Z, Qminus, Qplus, Qopp. cbn. f_equal. lia. }
  rewrite Hend. apply right_clamped_segment. lia.
Qed.

Lemma rising_value (x E : Q) : 0 < E -> linear_map x 0 E 0 1 == x / E.
Proof. intro HE. unfold linear_map. field. lra. Qed.

(** C8.  In CleanProgressBar, for every frame of [0, durationInFrames - 1]
    progress is the linear interpolation of the frame from
    [0, durationInFrames - 1] to [0, 1], clamped on the right; it lies in
    [0, 1] and never decreases; the rendered tree shows it: the fill is
    progress * 100 percent wide and the text is floor(progress * 100)
    followed by a percent sign; at the last frame progress is exactly 1,
    the fill of the rendered tree is 100% wide and its text reads 100%. *)
Theorem progress_reaches_100 (cfg : VideoConfig)
    (HD : (1 < durationInFrames cfg)%Z) :
  let last := (durationInFrames cfg - 1)%Z in
  (forall f, exists p : Q,
      progress f cfg = Ok p /\
      p == linear_map (inject_Z (Z.min f last)) 0 (inject_Z last) 0 1 /\
      ((0 <= f <= last)%Z -> 0 <= p <= 1)) /\
  (forall f g, (0 <= f <= g)%Z -> (g <= last)%Z -> exists p q : Q,
      progress f cfg = Ok p /\ progress g cfg = Ok q /\ p <= q) /\
  (forall f, exists (p : Q) (tree : Element Q),
      progress f cfg = Ok p /\
      CleanProgressBar f cfg = Ok tree /\
      Reading.style_at [0; 1; 0]%nat "width" tree
      = Some (VStr [Num (p * inject_Z 100); Lit "%"]) /\
      Reading.children_at [0; 2]%nat tree
      = Some [Text [Num (percentage p); Lit "%"]]) /\
  (exists (p : Q) (tree : Element Q) (wide : Q),
      progress last cfg = Ok p /\ p == 1 /\
      CleanProgressBar last cfg = Ok tree /\
      Reading.style_at [0; 1; 0]%nat "width" tree
      = Some (VStr [Num wide; Lit "%"]) /\
      wide == inject_Z 100 /\
      Reading.children_at [0; 2]%nat tree
      = Some [Text [Num (inject_Z 100); Lit "%"]]).
Proof.
  intro last.
  assert (Hlast : 0 < inject_Z last) by (apply inject_Z_pos; unfold last; lia).
  split; [|split; [|split]].
  - intro f. destruct (bar_progress_value cfg f HD) as [p [Hp Hv]].
    exists p. split; [exact Hp|]. split; [exact Hv|].
    intros [Hf0 Hf1]. rewrite Hv, rising_value by exact Hlast.
    replace (Z.min f (durationInFrames cfg - 1)) with f by (unfold last in *; lia).
    apply ratio_bounds; [exact Hlast|]. split.
    + apply inject_Z_nonneg. exact Hf0.
    + apply Z_le_Q. exact Hf1.
  - intros f g [Hf0 Hfg] Hg.
    destruct (bar_progress_value cfg f HD) as [p [Hp Hvp]].
    destruct (bar_progress_value cfg g HD) as [q [Hq Hvq]].
    exists p, q. split; [exact Hp|]. split; [exact Hq|].
    rewrite Hvp, Hvq, !rising_value by exact Hlast.
    apply ratio_mono; [exact Hlast|].
    apply Z_le_Q. unfold last in *. lia.
  - intro f. destruct (bar_progress_value cfg f HD) as [p [Hp _]].
    exists p, (view p). split; [exact Hp|]. split.
    + unfold CleanProgressBar. rewrite Hp. reflexivity.
    + split; reflexivity.
  - destruct (bar_progress_value cfg last HD) as [p [Hp Hv]].
    assert (Hone : p == 1).
    { rewrite Hv, rising_value by exact Hlast.
      replace (Z.min last (durationInFrames cfg - 1)) with last
        by (unfold last; lia).
      unfold Qdiv. apply Qmult_inv_r. apply pos_nonzero. exact Hlast. }
    assert (Hfull : p * inject_Z 100 == inject_Z 100).
    { rewrite Hone. reflexivity. }
    assert (Hshown : percentage p = inject_Z 100).
    { unfold percentage, Math_floor. cbn [ofZ floorZ mul JsNum_Q].
      f_equal. apply Qfloor_of_Z. exact Hfull. }
    exists p, (view p), (p * inject_Z 100).
    split; [exact Hp|]. split; [exact Hone|]. split.
    + unfold CleanProgressBar. rewrite Hp. reflexivity.
    + split; [reflexivity|]. split; [exact Hfull|].
      rewrite <- Hshown. reflexivity.
Qed.

Lemma progress_reaches_100_witness :
  (1 < durationInFrames compositionConfig)%Z /\
  exists tree : Element Q,
    CleanProgressBar 299 compositionConfig = Ok tree /\
    Reading.children_at [0; 2]%nat tree
    = Some [Text [Num (inject_Z 100); Lit "%"]].
Proof.
  split; [reflexivity|].
  destruct (proj2 (proj2 (proj2
              (progress_reaches_100 compositionConfig eq_refl))))
    as [p [tree [wide [_ [_ [Htree [_ [_ Htext]]]]]]]].
  exists tree. split; [exact Htree | exact Htext].
Defined.
End CleanProgressBarFacts.

Example CleanProgressBar_first_frame :
  CleanProgressBar.progress (N := Q) 0 CleanProgressBar.compositionConfig
  = Ok (0 # 299).
Proof. vm_compute. reflexivity. Qed.

(** ** NeonSaberCountdown *)

Module NeonSaberCountdownFacts.
Import Exact NeonSaberCountdown.
Local Open Scope Q_scope.

Lemma eqb_fps (n : Z) : (0 < n)%Z -> eqb (inject_Z n) (inject_Z 0) = false.
Proof.
  intro Hn. apply eqb_false. apply pos_nonzero. apply inject_Z_pos. exact Hn.
Qed.

(** Math.floor(frame / fps) is the integer quotient. *)
Lemma floor_quotient (f n : Z) : Qfloor (inject_Z f / inject_Z n) = (f / n)%Z.
Proof. symmetry. apply Zdiv_Qdiv. Qed.

Lemma quotient_nonneg (f n : Z) :
  (0 <= f)%Z -> (0 < n)%Z -> ltb (inject_Z f / inject_Z n) (inject_Z 0) = false.
Proof.
  intros Hf Hn. apply ltb_false. change (inject_Z 0) with 0.
  apply Qle_shift_div_l; [apply inject_Z_pos; exact Hn|].
  rewrite Qmult_0_l. apply inject_Z_nonneg. exact Hf.
Qed.

Lemma sequencer_value (props : NeonSaberCountdownProps) (cfg : VideoConfig)
    (f : Z) :
  (0 <= f)%Z -> (0 < fps cfg)%Z ->
  sequencer props f cfg
  = Ok (inject_Z (startNumber props) - inject_Z (f / fps cfg),
        inject_Z f - inject_Z (fps cfg) * inject_Z (f / fps cfg)).
Proof.
  intros Hf Hn. unfold sequencer, div, rem. cbn [ofZ JsNum_Q quo].
  rewrite (eqb_fps _ Hn). cbn [Result_bind].
  unfold Math_floor, truncZ. cbn [ofZ floorZ ceilZ sub mul quo ltb JsNum_Q].
  pose proof (quotient_nonneg f (fps cfg) Hf Hn) as Hq. cbn [ltb JsNum_Q] in Hq.
  rewrite Hq, floor_quotient. reflexivity.
Qed.

Lemma inject_Z_minus_mult (a b c : Z) :
  inject_Z a - inject_Z b * inject_Z c == inject_Z (a - b * c).
Proof.
  unfold Z.sub. rewrite inject_Z_plus, inject_Z_opp, inject_Z_mult.
  unfold Qminus. reflexivity.
Qed.

(** SaberNumber renders whenever the frame rate is positive. *)
Lemma SaberNumber_renders {curve : SpringCurve Q} (number localFrame : Q)
    (config : NeonSaberCountdownProps) (n : Z) :
  (0 < n)%Z ->
  succeeded (SaberNumber number localFrame config (inject_Z n)) = true.
Proof.
  intro Hn. unfold SaberNumber, spring.
  cbn [spring_durationInFrames spring_fps negb].
  replace (ltb (ofZ 0) (ofZ 20)) with true by reflexivity. cbn [negb].
  replace (ltb (ofZ 0) (inject_Z n)) with true
    by (symmetry; apply ltb_true; apply (Z_lt_Q 0 n); exact Hn).
  cbn [negb Result_bind].
  repeat (apply Totality.succeeded_bind;
          [apply Totality.interpolate_total;
           [reflexivity | cbn [List.length]; lia | try reflexivity] | intro]);
    try reflexivity.
  cbn [strictly_increasing andb].
  replace (ltb _ _) with true; [reflexivity|].
  symmetry. apply ltb_true. cbn [ofZ sub JsNum_Q].
  assert (H8 : 0 < inject_Z 8) by reflexivity. lra.
Qed.

(** C9.  In NeonSaberCountdown, at every non-negative integer frame the
    displayed number is startNumber - floor(frame / fps) and the per-digit
    localFrame is frame mod fps, which lies in [0, fps); once
    startNumber - floor(frame / fps) is negative the component returns
    only a black AbsoluteFill, without any digit. *)
Theorem countdown_sequencer {curve : SpringCurve Q}
    (props : NeonSaberCountdownProps)
    (cfg : VideoConfig) (f : Z)
    (Hf : (0 <= f)%Z) (Hfps : (0 < fps cfg)%Z) :
  exists displayNumber localFrame : Q,
    sequencer props f cfg = Ok (displayNumber, localFrame) /\
    displayNumber == inject_Z (startNumber props - f / fps cfg) /\
    localFrame == inject_Z (f mod fps cfg) /\
    (0 <= f mod fps cfg < fps cfg)%Z /\
    ((startNumber props - f / fps cfg < 0)%Z ->
       NeonSaberCountdown (N := Q) props f cfg
       = Ok (Node "AbsoluteFill" black [])) /\
    ((0 <= startNumber props - f / fps cfg)%Z ->
       exists digit : Element Q,
         SaberNumber displayNumber localFrame props (inject_Z (fps cfg))
         = Ok digit /\
         NeonSaberCountdown props f cfg
         = Ok (Node "AbsoluteFill" black
                 [rendered_as "SaberNumber"
                    [("key", VNum displayNumber);
                     ("number", VNum displayNumber);
                     ("localFrame", VNum localFrame);
                     ("config", config_object props);
                     ("fps", VNum (inject_Z (fps cfg)))]
                    digit])).
Proof.
  pose proof (sequencer_value props cfg f Hf Hfps) as Hs.
  assert (Hd : inject_Z (startNumber props) - inject_Z (f / fps cfg)
               == inject_Z (startNumber props - f / fps cfg)).
  { unfold Z.sub. rewrite inject_Z_plus, inject_Z_opp. reflexivity. }
  eexists. eexists. split; [exact Hs|].
  split; [exact Hd|]. split.
  - rewrite inject_Z_minus_mult. rewrite Z.mod_eq by lia. reflexivity.
  - split; [apply Z.mod_pos_bound; exact Hfps|]. split.
    + intro Hneg. unfold NeonSaberCountdown. rewrite Hs. cbn [Result_bind].
      replace (ltb _ _) with true; [reflexivity|].
      symmetry. apply ltb_true. cbn [ofZ JsNum_Q]. rewrite Hd.
      apply (Z_lt_Q _ 0). exact Hneg.
    + intro Hpos.
      match goal with
      | |- exists digit, SaberNumber ?d ?l _ _ = _ /\ _ =>
          pose proof (SaberNumber_renders d l props (fps cfg) Hfps) as Hdigit;
          destruct (SaberNumber d l props (inject_Z (fps cfg)))
            as [digit | e] eqn:Edigit; [|discriminate Hdigit]
      end.
      exists digit. split; [reflexivity|].
      unfold NeonSaberCountdown. rewrite Hs. cbn [Result_bind].
      replace (ltb _ _) with false.
      * cbn [ofZ JsNum_Q] in *. rewrite Edigit. reflexivity.
      * symmetry. apply ltb_false. cbn [ofZ JsNum_Q]. rewrite Hd.
        apply (Z_le_Q 0 _). exact Hpos.
Qed.

(** A spring at rest at its target, to run the component with. *)
Definition resting_spring : SpringCurve Q :=
  {| springCalculation := fun _ => 1 |}.

Lemma countdown_sequencer_witness :
  NeonSaberCountdown (N := Q) (H0 := resting_spring) defaultProps 330
    compositionConfig
  = Ok (Node "AbsoluteFill" black []).
Proof.
  assert (Hf : (0 <= 330)%Z) by lia.
  assert (Hfps : (0 < fps compositionConfig)%Z) by reflexivity.
  destruct (countdown_sequencer (curve := resting_spring) defaultProps
              compositionConfig 330 Hf Hfps)
    as [d [l [_ [_ [_ [_ [Hblack _]]]]]]].
  apply Hblack. vm_compute. reflexivity.
Defined.
End NeonSaberCountdownFacts.

Example NeonSaberCountdown_frame_45 :
  NeonSaberCountdown.sequencer (N := Q) NeonSaberCountdown.defaultProps 45
    NeonSaberCountdown.compositionConfig = Ok (9 # 1, 15 # 1).
Proof. vm_compute. reflexivity. Qed.

(** ** The framework functions on the reals *)

Module Analytic.
Local Open Scope R_scope.

Lemma real_ltb_true (a b : R) : ltb a b = true <-> a < b.
Proof. cbn. destruct (Rlt_dec a b); split; intro; try easy. Qed.

Lemma real_ltb_false (a b : R) : ltb a b = false <-> b <= a.
Proof.
  cbn. destruct (Rlt_dec a b) as [Hlt | Hge]; split; intro Hx;
    try reflexivity; try discriminate; lra.
Qed.

Lemma real_eqb_true (a b : R) : eqb a b = true <-> a = b.
Proof. cbn. destruct (Req_dec_T a b); split; intro; try easy. Qed.

Lemma real_eqb_false (a b : R) : eqb a b = false <-> a <> b.
Proof. cbn. destruct (Req_dec_T a b); split; intro; try easy. Qed.

Ltac cases_ltb a b :=
  let E := fresh "E" in
  destruct (ltb a b) eqn:E;
  [apply real_ltb_true in E | apply real_ltb_false in E].

Ltac cases_eqb a b :=
  let E := fresh "E" in
  destruct (eqb a b) eqn:E;
  [apply real_eqb_true in E | apply real_eqb_false in E].

Lemma real_interpolate_segment (x a b c d : R) (opts : InterpolateOptions R) :
  a < b ->
  interpolate x [a; b] [c; d] opts = Ok (interpolateFunction x a b c d opts).
Proof.
  intro Hab. unfold interpolate. cbn [List.length Nat.eqb Nat.ltb Nat.leb negb].
  cbn [strictly_increasing].
  replace (ltb a b) with true by (symmetry; apply real_ltb_true; exact Hab).
  reflexivity.
Qed.

(** Without clamping and easing a segment is the plain linear map. *)
Lemma extended_segment (x a b c d : R) :
  c <> d ->
  interpolateFunction x a b c d default_options = (x - a) / (b - a) * (d - c) + c.
Proof.
  intro Hcd. unfold interpolateFunction, default_options.
  cbn [extrapolateLeft extrapolateRight easing Easing_linear].
  replace (eqb c d) with false by (symmetry; apply real_eqb_false; exact Hcd).
  destruct (ltb x a); destruct (ltb b x); reflexivity.
Qed.

Lemma div_ok (a b : R) : b <> 0 -> succeeded (div a b) = true.
Proof.
  intro Hb. unfold div. cbn [ofZ JsNum_R].
  replace (eqb b 0) with false by (symmetry; apply real_eqb_false; exact Hb).
  reflexivity.
Qed.

Lemma rem_ok (a b : R) : b <> 0 -> succeeded (rem a b) = true.
Proof.
  intro Hb. unfold rem. cbn [ofZ JsNum_R].
  replace (eqb b 0) with false by (symmetry; apply real_eqb_false; exact Hb).
  reflexivity.
Qed.

Lemma div_value (a b : R) : b <> 0 -> div a b = Ok (a / b).
Proof.
  intro Hb. unfold div. cbn [ofZ quo JsNum_R].
  replace (eqb b 0) with false by (symmetry; apply real_eqb_false; exact Hb).
  reflexivity.
Qed.

Lemma rem_value (a b : R) :
  b <> 0 -> rem a b = Ok (a - b * IZR (truncZ (a / b))).
Proof.
  intro Hb. unfold rem. cbn [ofZ quo sub mul JsNum_R].
  replace (eqb b 0) with false by (symmetry; apply real_eqb_false; exact Hb).
  reflexivity.
Qed.

Lemma returns {A} (r : Result A) : succeeded r = true -> exists a, r = Ok a.
Proof. destruct r as [a | e]; [exists a; reflexivity | discriminate]. Qed.

(** Closed integer expressions, such as a field of a default
    configuration, as literals. *)
Ltac settle :=
  repeat match goal with
         | |- context [IZR ?z] =>
             lazymatch z with
             | Z0 => fail
             | Zpos _ => fail
             | Zneg _ => fail
             | _ => let v := eval vm_compute in z in
                    progress change (IZR z) with (IZR v)
             end
         end.

(** Literals and configuration constants as real numbers. *)
Ltac literals :=
  unfold dec, neg; cbn [ofZ add sub mul quo JsNum_R]; settle.

(** A concrete input range is strictly increasing. *)
Ltac increasing :=
  literals; cbn [strictly_increasing];
  repeat match goal with
         | |- context [ltb ?a ?b] =>
             replace (ltb a b) with true by (symmetry; apply real_ltb_true; lra)
         end;
  reflexivity.

Ltac interpolates :=
  apply Totality.interpolate_total;
  [reflexivity | cbn [List.length]; lia | increasing].

(** spring accepts a positive frame rate and, when given, a positive
    duration. *)
Lemma spring_ok {curve : SpringCurve R} (args : SpringArgs R) :
  0 < spring_fps args ->
  (forall d, spring_durationInFrames args = Some d -> 0 < d) ->
  succeeded (spring args) = true.
Proof.
  intros Hfps Hd. unfold spring. cbn [ofZ JsNum_R].
  replace (ltb 0 (spring_fps args)) with true
    by (symmetry; apply real_ltb_true; exact Hfps).
  destruct (spring_durationInFrames args) as [d|].
  - replace (ltb 0 d) with true
      by (symmetry; apply real_ltb_true; apply Hd; reflexivity).
    reflexivity.
  - reflexivity.
Qed.

(** Easing.bezier accepts control abscissae inside [0, 1]. *)
Lemma bezier_ok {solver : BezierSolver R} (mX1 mY1 mX2 mY2 : R) :
  0 <= mX1 <= 1 -> 0 <= mX2 <= 1 ->
  exists ease, Easing_bezier mX1 mY1 mX2 mY2 = Ok ease.
Proof.
  intros [H1 H2] [H3 H4]. unfold Easing_bezier. cbn [ofZ JsNum_R].
  replace (ltb mX1 0) with false by (symmetry; apply real_ltb_false; lra).
  replace (ltb 1 mX1) with false by (symmetry; apply real_ltb_false; lra).
  replace (ltb mX2 0) with false by (symmetry; apply real_ltb_false; lra).
  replace (ltb 1 mX2) with false by (symmetry; apply real_ltb_false; lra).
  cbn [negb andb]. eexists. reflexivity.
Qed.

Lemma bezier_renders {solver : BezierSolver R} (mX1 mY1 mX2 mY2 : R) :
  0 <= mX1 <= 1 -> 0 <= mX2 <= 1 ->
  succeeded (Easing_bezier mX1 mY1 mX2 mY2) = true.
Proof.
  intros H1 H2. destruct (bezier_ok mX1 mY1 mX2 mY2 H1 H2) as [ease ->].
  reflexivity.
Qed.

(** The steps of a render that cannot throw. *)
Ltac renders :=
  repeat first
    [ match goal with
      | |- succeeded (Ok _) = true => reflexivity
      | |- succeeded (new_Array _) = true => reflexivity
      end
    | apply Totality.succeeded_bind; [|intro]
    | interpolates
    | apply div_ok; literals; lra
    | apply rem_ok; literals; lra
    | apply spring_ok;
      [ cbn [spring_fps]; literals; lra
      | cbn [spring_durationInFrames]; intros ? Hduration;
        first [ discriminate Hduration
              | injection Hduration as <-; literals; lra ] ]
    | apply bezier_renders; literals; lra
    | apply Totality.succeeded_mapM; intro
    | match goal with
      | |- succeeded (let '(_, _) := ?x in _) = true => destruct x
      | |- succeeded (if ?c then _ else _) = true => destruct c
      end ].
End Analytic.

(** ** NeonRecIndicator and NeonLiveIndicator *)

Module IndicatorFacts.
Import Analytic.
Local Open Scope R_scope.

(** The opacity both indicators compute, as the specification writes it. *)
Definition pulse (frame : Z) : R :=
  (sin (IZR frame / 60 * PI * 2) - (-1)) / (1 - (-1)) * (1 - 3 / 10) + 3 / 10.

Lemma pulse_bounds (frame : Z) : 3 / 10 <= pulse frame <= 1.
Proof.
  unfold pulse. pose proof (SIN_bound (IZR frame / 60 * PI * 2)) as [Hlo Hhi].
  set (s := sin _) in *. clearbody s. lra.
Qed.

Lemma rec_opacity_pulse (frame : Z) :
  NeonRecIndicator.opacity frame = Ok (pulse frame).
Proof.
  unfold NeonRecIndicator.opacity, NeonRecIndicator.cycleDurationFrames, div.
  cbn [ofZ quo mul JsNum_R Math_sin Math_PI JsMath_R].
  replace (eqb 60 0) with false by (symmetry; apply real_eqb_false; lra).
  cbn [Result_bind]. unfold dec. cbn [ofZ quo JsNum_R].
  rewrite real_interpolate_segment by lra.
  rewrite extended_segment by lra. reflexivity.
Qed.

Lemma live_opacity_pulse (frame : Z) :
  NeonLiveIndicator.opacity frame = Ok (pulse frame).
Proof.
  unfold NeonLiveIndicator.opacity, NeonLiveIndicator.cycleDurationFrames, div.
  cbn [ofZ quo mul JsNum_R Math_sin Math_PI JsMath_R].
  replace (eqb 60 0) with false by (symmetry; apply real_eqb_false; lra).
  cbn [Result_bind]. unfold dec. cbn [ofZ quo JsNum_R].
  rewrite real_interpolate_segment by lra.
  rewrite extended_segment by lra. reflexivity.
Qed.

(** The same code on binary64, at one frame: the opacity lies in
    [0.3, 1], and the opacity 60 frames later is within 2^-49 of it. *)
Definition steady (frame : Z) : bool :=
  match NeonRecIndicator.opacity (N := float) frame,
        NeonRecIndicator.opacity (N := float) (frame + 60) with
  | Ok o, Ok o' =>
      PrimFloat.leb (dec 3 10) o && PrimFloat.leb o 1
      && PrimFloat.leb (PrimFloat.abs (PrimFloat.sub o' o)) 0x1p-49%float
  | _, _ => false
  end.

Lemma in_indices (n : nat) (i : Z) :
  (0 <= i < Z.of_nat n)%Z -> In i (indices n).
Proof.
  intro Hi. unfold indices. apply in_map_iff. exists (Z.to_nat i). split.
  - apply Z2Nat.id. lia.
  - apply in_seq. lia.
Qed.

Lemma steady_frames : forallb steady (indices 300) = true.
Proof. vm_compute. reflexivity. Qed.

(** C7, the repeat as the claim states it, on the numbers of the program:
    at frame 30 the opacity is 0.65 (0x1.4cccccccccccdp-1), at frame 90 it
    is 0.6500000000000001 (0x1.4cccccccccccep-1), in both indicators. *)
Lemma opacity_not_periodic :
  NeonRecIndicator.opacity (N := float) 30 = Ok 0x1.4cccccccccccdp-1%float /\
  NeonRecIndicator.opacity (N := float) (30 + 60) = Ok 0x1.4cccccccccccep-1%float /\
  NeonLiveIndicator.opacity (N := float) 30 = Ok 0x1.4cccccccccccdp-1%float /\
  NeonLiveIndicator.opacity (N := float) (30 + 60) = Ok 0x1.4cccccccccccep-1%float /\
  NeonRecIndicator.opacity (N := float) (30 + 60)
    <> NeonRecIndicator.opacity (N := float) 30 /\
  NeonLiveIndicator.opacity (N := float) (30 + 60)
    <> NeonLiveIndicator.opacity (N := float) 30.
Proof.
  assert (Hrec30 : NeonRecIndicator.opacity (N := float) 30
                   = Ok 0x1.4cccccccccccdp-1%float) by (vm_compute; reflexivity).
  assert (Hrec90 : NeonRecIndicator.opacity (N := float) (30 + 60)
                   = Ok 0x1.4cccccccccccep-1%float) by (vm_compute; reflexivity).
  assert (Hlive30 : NeonLiveIndicator.opacity (N := float) 30
                    = Ok 0x1.4cccccccccccdp-1%float) by (vm_compute; reflexivity).
  assert (Hlive90 : NeonLiveIndicator.opacity (N := float) (30 + 60)
                    = Ok 0x1.4cccccccccccep-1%float) by (vm_compute; reflexivity).
  assert (Hdiffer : Ok 0x1.4cccccccccccep-1%float <> Ok 0x1.4cccccccccccdp-1%float).
  { intro Heq.
    apply (f_equal (fun r => match r with
                             | Ok o => Fdlibm.bits o
                             | Throw _ => 0%Z
                             end)) in Heq.
    vm_compute in Heq. discriminate Heq. }
  split; [exact Hrec30|]. split; [exact Hrec90|].
  split; [exact Hlive30|]. split; [exact Hlive90|]. split.
  - rewrite Hrec90, Hrec30. exact Hdiffer.
  - rewrite Hlive90, Hlive30. exact Hdiffer.
Qed.

(** C7, as amended.  The pill opacity of NeonRecIndicator and of
    NeonLiveIndicator, interpolate(sin((frame / 60) * 2 * pi), [-1, 1],
    [0.3, 1.0]), lies in [0.3, 1.0] at every integer frame.  On the
    binary64 numbers of the program, at each of the 300 frames of the
    composition, both indicators give one opacity, it lies in [0.3, 1.0],
    and the opacity 60 frames later is within 2^-49 of it: the pulse
    repeats every 60 frames up to rounding, not exactly. *)
Theorem opacity_pulses (frame : Z) :
  (exists o : R,
      NeonRecIndicator.opacity frame = Ok o /\
      NeonLiveIndicator.opacity frame = Ok o /\
      o = pulse frame /\ 3 / 10 <= o <= 1) /\
  ((0 <= frame < durationInFrames NeonRecIndicator.compositionConfig)%Z ->
   exists o o' : float,
      NeonRecIndicator.opacity frame = Ok o /\
      NeonLiveIndicator.opacity frame = Ok o /\
      NeonRecIndicator.opacity (frame + 60) = Ok o' /\
      NeonLiveIndicator.opacity (frame + 60) = Ok o' /\
      PrimFloat.leb (dec 3 10) o = true /\ PrimFloat.leb o 1 = true /\
      PrimFloat.leb (PrimFloat.abs (PrimFloat.sub o' o)) 0x1p-49%float = true).
Proof.
  split.
  - exists (pulse frame). rewrite rec_opacity_pulse, live_opacity_pulse.
    repeat split; try reflexivity; apply pulse_bounds.
  - intro Hframe.
    pose proof (proj1 (forallb_forall steady (indices 300)) steady_frames frame)
      as Hsteady.
    specialize (Hsteady (in_indices 300 frame Hframe)).
    unfold steady in Hsteady.
    change (NeonLiveIndicator.opacity (N := float) frame)
      with (NeonRecIndicator.opacity (N := float) frame).
    change (NeonLiveIndicator.opacity (N := float) (frame + 60))
      with (NeonRecIndicator.opacity (N := float) (frame + 60)).
    destruct (NeonRecIndicator.opacity (N := float) frame) as [o|]; [|discriminate].
    destruct (NeonRecIndicator.opacity (N := float) (frame + 60)) as [o'|];
      [|discriminate].
    apply andb_prop in Hsteady. destruct Hsteady as [Hrange Hclose].
    apply andb_prop in Hrange. destruct Hrange as [Hlow Hhigh].
    exists o, o'. repeat split; assumption.
Qed.

Lemma opacity_pulses_witness :
  (0 <= 30 < 300)%Z /\
  exists o o' : float,
      NeonRecIndicator.opacity 30 = Ok o /\
      NeonLiveIndicator.opacity 30 = Ok o /\
      NeonRecIndicator.opacity (30 + 60) = Ok o' /\
      NeonLiveIndicator.opacity (30 + 60) = Ok o' /\
      PrimFloat.leb (dec 3 10) o = true /\ PrimFloat.leb o 1 = true /\
      PrimFloat.leb (PrimFloat.abs (PrimFloat.sub o' o)) 0x1p-49%float = true.
Proof. split; [lia | apply (proj2 (opacity_pulses 30)); simpl; lia]. Defined.
End IndicatorFacts.

(** ** ZenProgressBar *)

Module ZenProgressBarFacts.
Import Analytic ZenProgressBar.
Local Open Scope R_scope.

Lemma getTForX_lub (mX1 mX2 aX : R) :
  is_lub (reaches mX1 mX2 aX) (getTForX mX1 mX2 aX).
Proof.
  cbn [getTForX BezierSolver_R]. unfold getTForX_R.
  destruct (completeness _ _ _) as [m Hm]. exact Hm.
Qed.

Lemma getTForX_range (mX1 mX2 aX : R) : 0 <= getTForX mX1 mX2 aX <= 1.
Proof.
  destruct (getTForX_lub mX1 mX2 aX) as [Hub Hleast]. split.
  - apply Hub. split; [lra | left; reflexivity].
  - apply Hleast. intros t [[_ Ht] _]. exact Ht.
Qed.

Lemma getTForX_mono (mX1 mX2 x y : R) :
  x <= y -> getTForX mX1 mX2 x <= getTForX mX1 mX2 y.
Proof.
  intro Hxy.
  destruct (getTForX_lub mX1 mX2 x) as [_ Hleast].
  destruct (getTForX_lub mX1 mX2 y) as [Hub _].
  apply Hleast. intros t [Ht [H0 | Hle]]; apply Hub; split; try exact Ht.
  - left. exact H0.
  - right. lra.
Qed.

(** The x coordinate of the curve with control abscissae 0.25 and 0.25. *)
Definition run (t : R) : R := calcBezier t (25 / 100) (25 / 100).

Lemma run_gap (t s : R) :
  0 <= t -> t <= s -> s <= 1 -> 0 <= run s - run t <= 3 * (s - t).
Proof.
  intros Ht Hts Hs. unfold run, calcBezier. cbn [ofZ add sub mul JsNum_R].
  assert (Hfactor : run s - run t
                    = (s - t) * (s * s + s * t + t * t
                                 - 3 / 4 * (s + t) + 3 / 4)).
  { unfold run, calcBezier. cbn [ofZ add sub mul JsNum_R]. field. }
  unfold run, calcBezier in Hfactor. cbn [ofZ add sub mul JsNum_R] in Hfactor.
  rewrite Hfactor.
  assert (Hlow : 0 <= s * s + s * t + t * t - 3 / 4 * (s + t) + 3 / 4) by nra.
  assert (Hhigh : s * s + s * t + t * t - 3 / 4 * (s + t) + 3 / 4 <= 3) by nra.
  split; [apply Rmult_le_pos; lra|].
  rewrite (Rmult_comm 3). apply Rmult_le_compat_l; lra.
Qed.

(** The solver of the model is the exact inverse of the curve's x
    coordinate on [0, 1]. *)
Lemma getTForX_solves (x : R) :
  0 <= x <= 1 -> run (getTForX (25 / 100) (25 / 100) x) = x.
Proof.
  intros [Hx0 Hx1].
  destruct (getTForX_lub (25 / 100) (25 / 100) x) as [Hub Hleast].
  pose proof (getTForX_range (25 / 100) (25 / 100) x) as [Ht0 Ht1].
  set (t := getTForX (25 / 100) (25 / 100) x) in *. clearbody t.
  assert (Hrun0 : run 0 = 0)
    by (unfold run, calcBezier; cbn [ofZ add sub mul JsNum_R]; ring).
  assert (Hrun1 : run 1 = 1)
    by (unfold run, calcBezier; cbn [ofZ add sub mul JsNum_R]; field).
  destruct (Rtotal_order (run t) x) as [Hlt | [Heq | Hgt]];
    [exfalso | exact Heq | exfalso].
  - assert (Ht : t < 1).
    { destruct (Rle_lt_dec 1 t) as [Hge | Hl]; [|exact Hl].
      assert (Hone : t = 1) by lra. rewrite Hone in Hlt. lra. }
    set (d := Rmin ((x - run t) / 3) (1 - t)).
    assert (Hd : 0 < d) by (unfold d; apply Rmin_glb_lt; lra).
    assert (Hd1 : d <= (x - run t) / 3) by apply Rmin_l.
    assert (Hd2 : d <= 1 - t) by apply Rmin_r.
    pose proof (run_gap t (t + d) Ht0 ltac:(lra) ltac:(lra)) as [_ Hstep].
    assert (Hin : reaches (25 / 100) (25 / 100) x (t + d)).
    { split; [lra|]. right. fold (run (t + d)). lra. }
    specialize (Hub (t + d) Hin). lra.
  - set (d := (run t - x) / 3).
    assert (Hd : 0 < d) by (unfold d; lra).
    assert (Hbound : is_upper_bound (reaches (25 / 100) (25 / 100) x) (t - d)).
    { intros u Hu. pose proof (Hub u Hu) as Hut.
      destruct Hu as [[Hu0 Hu1] Hcase].
      destruct (Rle_lt_dec u (t - d)) as [Hle | Hnear]; [exact Hle|].
      exfalso.
      assert (Hrun : run u <= x).
      { destruct Hcase as [-> | Hle]; [rewrite Hrun0; exact Hx0 | exact Hle]. }
      pose proof (run_gap u t Hu0 Hut Ht1) as [_ Hstep].
      unfold d in Hnear. lra. }
    specialize (Hleast (t - d) Hbound). lra.
Qed.

(** The y coordinate of the curve with control ordinates 0.1 and 1.0. *)
Definition rise (t : R) : R := calcBezier t (1 / 10) 1.

Lemma rise_mono (s t : R) : 0 <= s -> s <= t -> t <= 1 -> rise s <= rise t.
Proof.
  intros Hs Hst Ht. unfold rise, calcBezier. cbn [ofZ add sub mul JsNum_R].
  assert (Hgap : 0 <= (t - s)
                      * (27 / 10 * ((1 - s) + (1 - t))
                         - 17 / 10 * ((1 - s) * (1 - s) + (1 - s) * (1 - t)
                                      + (1 - t) * (1 - t)))).
  { apply Rmult_le_pos; [lra|]. nra. }
  nra.
Qed.

Lemma rise_range (t : R) : 0 <= t <= 1 -> 0 <= rise t <= 1.
Proof.
  intros [H0 H1].
  assert (Hstart : rise 0 = 0)
    by (unfold rise, calcBezier; cbn [ofZ add sub mul JsNum_R]; ring).
  assert (Hend : rise 1 = 1)
    by (unfold rise, calcBezier; cbn [ofZ add sub mul JsNum_R]; field).
  pose proof (rise_mono 0 t (Rle_refl 0) H0 H1).
  pose proof (rise_mono t 1 H0 H1 (Rle_refl 1)).
  lra.
Qed.

(** The easing of the component, as Easing.bezier(0.25, 0.1, 0.25, 1.0)
    builds it. *)
Definition ease (x : R) : R :=
  if eqb x 0 then 0
  else if eqb x 1 then 1
  else rise (getTForX (25 / 100) (25 / 100) x).

Lemma progressEase_value : progressEase = Ok ease.
Proof.
  unfold progressEase, Easing_bezier, dec. cbn [ofZ quo JsNum_R].
  replace (ltb (25 / 100) 0) with false by (symmetry; apply real_ltb_false; lra).
  replace (ltb 1 (25 / 100)) with false by (symmetry; apply real_ltb_false; lra).
  cbn [negb andb].
  replace (eqb (25 / 100) (1 / 10)) with false
    by (symmetry; apply real_eqb_false; lra).
  cbn [andb]. reflexivity.
Qed.

Lemma ease_range (x : R) : 0 <= ease x <= 1.
Proof.
  unfold ease. cases_eqb x 0; [lra|]. cases_eqb x 1; [lra|].
  apply rise_range. apply getTForX_range.
Qed.

Lemma ease_mono (x y : R) : x <= y -> y <= 1 -> 0 <= x -> ease x <= ease y.
Proof.
  intros Hxy Hy Hx. pose proof (ease_range x) as Rx. pose proof (ease_range y) as Ry.
  unfold ease in *.
  cases_eqb x 0; [lra|]. cases_eqb y 1; [cases_eqb y 0; lra|].
  cases_eqb x 1; [lra|]. cases_eqb y 0; [lra|].
  apply rise_mono.
  - apply getTForX_range.
  - apply getTForX_mono. exact Hxy.
  - apply getTForX_range.
Qed.

Lemma ease_end : ease 1 = 1.
Proof.
  unfold ease. cases_eqb 1 0; [lra|]. cases_eqb 1 1; [reflexivity | lra].
Qed.

(** The frame confined on the right, as a fraction of the duration. *)
Definition elapsed (D f : Z) : R := (IZR (Z.min f D) - 0) / (IZR D - 0).

Lemma elapsed_range (D f : Z) : (0 < D)%Z -> (0 <= f)%Z -> 0 <= elapsed D f <= 1.
Proof.
  intros HD Hf. unfold elapsed.
  assert (H0 : 0 <= IZR (Z.min f D)) by (apply IZR_le; lia).
  assert (H1 : IZR (Z.min f D) <= IZR D) by (apply IZR_le; lia).
  assert (HDr : 0 < IZR D) by (apply IZR_lt; exact HD).
  split.
  - apply Rmult_le_pos; [lra|]. left. apply Rinv_0_lt_compat. lra.
  - apply (Rmult_le_reg_r (IZR D - 0)); [lra|]. field_simplify; lra.
Qed.

Lemma elapsed_mono (D f g : Z) :
  (0 < D)%Z -> (f <= g)%Z -> elapsed D f <= elapsed D g.
Proof.
  intros HD Hfg. unfold elapsed.
  assert (H1 : IZR (Z.min f D) <= IZR (Z.min g D)) by (apply IZR_le; lia).
  assert (HDr : 0 < IZR D) by (apply IZR_lt; exact HD).
  apply Rmult_le_compat_r; [|lra]. left. apply Rinv_0_lt_compat. lra.
Qed.

Lemma progressPercent_value (cfg : VideoConfig) (f : Z) :
  (0 < durationInFrames cfg)%Z -> (0 <= f)%Z ->
  progressPercent f cfg
  = Ok (ease (elapsed (durationInFrames cfg) f) * (100 - 0) + 0).
Proof.
  intros HD Hf. unfold progressPercent. rewrite progressEase_value.
  cbn [Result_bind ofZ JsNum_R].
  assert (HDr : 0 < IZR (durationInFrames cfg)) by (apply IZR_lt; exact HD).
  rewrite real_interpolate_segment by exact HDr. f_equal.
  unfold interpolateFunction, elapsed.
  cbn [extrapolateLeft extrapolateRight easing ofZ sub mul add quo JsNum_R].
  replace (eqb 0 100) with false by (symmetry; apply real_eqb_false; lra).
  replace (ltb (IZR f) 0) with false
    by (symmetry; apply real_ltb_false; apply IZR_le; exact Hf).
  cases_ltb (IZR (durationInFrames cfg)) (IZR f).
  - apply lt_IZR in E. replace (Z.min f (durationInFrames cfg))
      with (durationInFrames cfg) by lia. reflexivity.
  - apply le_IZR in E. replace (Z.min f (durationInFrames cfg)) with f by lia.
    reflexivity.
Qed.

Lemma textOpacity_value (f : Z) :
  textOpacity f
  = Ok ((sin (IZR f / 30) - (-1)) / (1 - (-1)) * (1 - 7 / 10) + 7 / 10).
Proof.
  unfold textOpacity, breathWave, dec.
  cbn [ofZ quo JsNum_R Math_sin JsMath_R].
  rewrite real_interpolate_segment by lra.
  rewrite extended_segment by lra. reflexivity.
Qed.

(** C6.  In ZenProgressBar, at every non-negative integer frame
    progressPercent lies in [0, 100]; it is exactly 100 from frame
    durationInFrames on; it never decreases over [0, durationInFrames] under
    the Easing.bezier(0.25, 0.1, 0.25, 1.0) easing; and
    textOpacity = interpolate(sin(frame / 30), [-1, 1], [0.7, 1]) lies in
    [0.7, 1.0]. *)
Theorem zen_progress_and_breath (cfg : VideoConfig)
    (HD : (0 < durationInFrames cfg)%Z) :
  (forall f, (0 <= f)%Z -> exists p : R,
      progressPercent f cfg = Ok p /\ 0 <= p <= 100) /\
  (forall f, (durationInFrames cfg <= f)%Z -> progressPercent f cfg = Ok 100) /\
  (forall f g, (0 <= f)%Z -> (f <= g)%Z -> (g <= durationInFrames cfg)%Z ->
      exists p q : R,
        progressPercent f cfg = Ok p /\ progressPercent g cfg = Ok q /\ p <= q) /\
  (forall f, exists o : R, textOpacity f = Ok o /\ 7 / 10 <= o <= 1).
Proof.
  split; [|split; [|split]].
  - intros f Hf. eexists. split; [apply progressPercent_value; assumption|].
    pose proof (ease_range (elapsed (durationInFrames cfg) f)). lra.
  - intros f Hf. rewrite progressPercent_value by lia. f_equal.
    unfold elapsed. replace (Z.min f (durationInFrames cfg))
      with (durationInFrames cfg) by lia.
    assert (HDr : 0 < IZR (durationInFrames cfg)) by (apply IZR_lt; exact HD).
    replace ((IZR (durationInFrames cfg) - 0) / (IZR (durationInFrames cfg) - 0))
      with 1 by (field; lra).
    rewrite ease_end. ring.
  - intros f g Hf Hfg Hg. eexists. eexists.
    split; [apply progressPercent_value; lia|].
    split; [apply progressPercent_value; lia|].
    assert (He : ease (elapsed (durationInFrames cfg) f)
                 <= ease (elapsed (durationInFrames cfg) g)).
    { apply ease_mono.
      - apply elapsed_mono; assumption.
      - apply elapsed_range; lia.
      - apply elapsed_range; lia. }
    lra.
  - intro f. eexists. split; [apply textOpacity_value|].
    pose proof (SIN_bound (IZR f / 30)) as [Hlo Hhi].
    set (s := sin _) in *. clearbody s. lra.
Qed.

Lemma zen_progress_and_breath_witness :
  (0 < durationInFrames compositionConfig)%Z /\
  progressPercent 360 compositionConfig = Ok 100.
Proof.
  assert (HD : (0 < durationInFrames compositionConfig)%Z) by reflexivity.
  split; [exact HD|].
  apply (proj1 (proj2 (zen_progress_and_breath compositionConfig HD))).
  cbn. lia.
Defined.
End ZenProgressBarFacts.

(** ** NeonEqualizer *)

Module NeonEqualizerFacts.
Import Analytic NeonEqualizer.
Local Open Scope R_scope.





End NeonEqualizerFacts.

(** ** Renders as functions of their arguments *)

Module Purity.
Section Generic.
Context {N : Type}.

Lemma output_lift {H A} (r : Result A) (w : World H N) : output (lift r w) = r.
Proof. destruct r; reflexivity. Qed.

Lemma succeeded_output {H A} (r : Result (A * World H N)) :
  succeeded (output r) = succeeded r.
Proof. destruct r as [[a w] | e]; reflexivity. Qed.

(** A computation whose value does not depend on the world and that leaves
    the world as it found it. *)
Definition steady {H A} (m : Render H N A) : Prop :=
  (forall w1 w2, output (m w1) = output (m w2)) /\
  (forall w a w', m w = Ok (a, w') -> w' = w).

Lemma steady_lift {H A} (r : Result A) : steady (H := H) (lift r).
Proof.
  split.
  - intros w1 w2. rewrite !output_lift. reflexivity.
  - intros w a w' Hm. destruct r; cbn in Hm; congruence.
Qed.

Lemma steady_ret {H A} (a : A) : steady (H := H) (Render_ret a).
Proof.
  split.
  - reflexivity.
  - intros w b w' Hm. unfold Render_ret in Hm. congruence.
Qed.

Lemma steady_bind {H A B} (m : Render H N A) (k : A -> Render H N B) :
  steady m -> (forall a, steady (k a)) -> steady (Render_bind m k).
Proof.
  intros [Hout Hkeep] Hk. split.
  - intros w1 w2. unfold Render_bind.
    specialize (Hout w1 w2).
    destruct (m w1) as [[a1 w1'] | e1] eqn:E1;
      destruct (m w2) as [[a2 w2'] | e2] eqn:E2; cbn in Hout; try congruence.
    injection Hout as <-.
    apply Hkeep in E1. apply Hkeep in E2. subst.
    apply (proj1 (Hk a1)).
  - intros w b w' Hm. unfold Render_bind in Hm.
    destruct (m w) as [[a w1] | e] eqn:E; [|discriminate].
    apply Hkeep in E. subst w1. apply (proj2 (Hk a) _ _ _ Hm).
Qed.

Lemma steady_for_loop {H S} (fuel : nat) (step : Z) (cond : Z -> bool)
    (body : Z -> S -> Render H N (Step S)) :
  (forall i s, steady (body i s)) ->
  forall i s, steady (for_loop fuel i step cond body s).
Proof.
  intro Hbody. induction fuel as [|fuel IH]; intros i s; cbn [for_loop].
  - apply steady_ret.
  - destruct (cond i); [|apply steady_ret].
    apply steady_bind; [apply Hbody|].
    intros [s' | s']; [apply IH | apply steady_ret].
Qed.

(** A computation that leaves the hooks alone (it may draw from the
    generator). *)
Definition quiet {H A} (m : Render H N A) : Prop :=
  forall w a w', m w = Ok (a, w') -> hooks w' = hooks w.

Lemma quiet_steady {H A} (m : Render H N A) : steady m -> quiet m.
Proof. intros [_ Hkeep] w a w' Hm. apply Hkeep in Hm. subst. reflexivity. Qed.

Lemma quiet_random {H} : quiet (H := H) Math_random.
Proof. intros w a w' Hm. unfold Math_random in Hm. injection Hm as _ <-. reflexivity. Qed.

Lemma quiet_bind {H A B} (m : Render H N A) (k : A -> Render H N B) :
  quiet m -> (forall a, quiet (k a)) -> quiet (Render_bind m k).
Proof.
  intros Hm Hk w b w' Hrun. unfold Render_bind in Hrun.
  destruct (m w) as [[a w1] | e] eqn:E; [|discriminate].
  rewrite (Hk a _ _ _ Hrun). apply (Hm _ _ _ E).
Qed.

Lemma quiet_for_loop {H S} (fuel : nat) (step : Z) (cond : Z -> bool)
    (body : Z -> S -> Render H N (Step S)) :
  (forall i s, quiet (body i s)) ->
  forall i s, quiet (for_loop fuel i step cond body s).
Proof.
  intro Hbody. induction fuel as [|fuel IH]; intros i s; cbn [for_loop].
  - apply quiet_steady, steady_ret.
  - destruct (cond i); [|apply quiet_steady, steady_ret].
    apply quiet_bind; [apply Hbody|].
    intros [s' | s']; [apply IH | apply quiet_steady, steady_ret].
Qed.

(** A memo cell is valid when its value is what the factory of its
    dependencies returns. *)
Definition cell_valid {H D V} (get : H -> Memo D V)
    (factory_of : D -> Render H N V) (h : H) : Prop :=
  forall d v, get h = Some (d, v) -> forall w, output (factory_of d w) = Ok v.

(** With a valid cell, useMemo returns what its factory returns, touches
    nothing but its own cell, and leaves that cell valid. *)
Lemma useMemo_valid {H D V} (get : H -> Memo D V) (set : Memo D V -> H -> H)
    (same : D -> D -> bool) (factory_of : D -> Render H N V) (deps : D)
    (w : World H N) :
  (forall d, steady (factory_of d)) ->
  (forall d, same d deps = true ->
     forall w0, output (factory_of d w0) = output (factory_of deps w0)) ->
  cell_valid get factory_of (hooks w) ->
  output (useMemo get set same (factory_of deps) deps w)
  = output (factory_of deps w) /\
  forall v w', useMemo get set same (factory_of deps) deps w = Ok (v, w') ->
    entropy w' = entropy w /\ drawn w' = drawn w /\
    (hooks w' = hooks w \/ hooks w' = set (Some (deps, v)) (hooks w)) /\
    forall w0, output (factory_of deps w0) = Ok v.
Proof.
  intros Hsteady Hsame Hvalid. unfold useMemo.
  assert (Hfresh :
    output (match factory_of deps w with
            | Ok (v, w') =>
                Ok (v, mkWorld (set (Some (deps, v)) (hooks w')) (entropy w')
                         (drawn w'))
            | Throw e => Throw e
            end) = output (factory_of deps w) /\
    forall v w',
      match factory_of deps w with
      | Ok (v, w') =>
          Ok (v, mkWorld (set (Some (deps, v)) (hooks w')) (entropy w')
                   (drawn w'))
      | Throw e => Throw e
      end = Ok (v, w') ->
      entropy w' = entropy w /\ drawn w' = drawn w /\
      (hooks w' = hooks w \/ hooks w' = set (Some (deps, v)) (hooks w)) /\
      forall w0, output (factory_of deps w0) = Ok v).
  { destruct (factory_of deps w) as [[v1 w1] | e] eqn:E.
    - split; [reflexivity|]. intros v w' Hrun. injection Hrun as <- <-.
      pose proof (proj2 (Hsteady deps) _ _ _ E) as ->. cbn.
      repeat split; try (right; reflexivity).
      intro w0. rewrite (proj1 (Hsteady deps) w0 w), E. reflexivity.
    - split; [reflexivity|]. intros v w' Hrun. discriminate. }
  destruct (get (hooks w)) as [[d v0] |] eqn:Hcell; [|exact Hfresh].
  destruct (same d deps) eqn:Hd; [|exact Hfresh].
  pose proof (Hvalid d v0 Hcell) as Hv0.
  split.
  - rewrite <- (Hsame d Hd w), Hv0. reflexivity.
  - intros v w' Hrun. injection Hrun as <- <-.
    repeat split; try (left; reflexivity).
    intro w0. rewrite <- (Hsame d Hd w0). apply Hv0.
Qed.

(** A computation whose value is fixed as long as the hooks satisfy [I],
    and that keeps [I]. *)
Definition stable {H A} (I : H -> Prop) (m : Render H N A) : Prop :=
  (forall w1 w2, I (hooks w1) -> I (hooks w2) -> output (m w1) = output (m w2)) /\
  (forall w a w', I (hooks w) -> m w = Ok (a, w') -> I (hooks w')).

Lemma stable_steady {H A} (I : H -> Prop) (m : Render H N A) :
  steady m -> stable I m.
Proof.
  intros [Hout Hkeep]. split.
  - intros w1 w2 _ _. apply Hout.
  - intros w a w' HI Hm. apply Hkeep in Hm. subst. exact HI.
Qed.

Lemma stable_bind {H A B} (I : H -> Prop) (m : Render H N A)
    (k : A -> Render H N B) :
  stable I m -> (forall a, stable I (k a)) -> stable I (Render_bind m k).
Proof.
  intros [Hout Hkeep] Hk. split.
  - intros w1 w2 H1 H2. unfold Render_bind.
    specialize (Hout w1 w2 H1 H2).
    destruct (m w1) as [[a1 w1'] | e1] eqn:E1;
      destruct (m w2) as [[a2 w2'] | e2] eqn:E2; cbn in Hout; try congruence.
    injection Hout as <-.
    apply (proj1 (Hk a1)); [apply (Hkeep _ _ _ H1 E1) | apply (Hkeep _ _ _ H2 E2)].
  - intros w b w' HI Hm. unfold Render_bind in Hm.
    destruct (m w) as [[a w1] | e] eqn:E; [|discriminate].
    apply (proj2 (Hk a) _ _ _ (Hkeep _ _ _ HI E) Hm).
Qed.

Lemma stable_useMemo {H D V} (I : H -> Prop) (get : H -> Memo D V)
    (set : Memo D V -> H -> H) (same : D -> D -> bool)
    (factory_of : D -> Render H N V) (factory : Render H N V) (deps : D) :
  factory = factory_of deps ->
  (forall d, steady (factory_of d)) ->
  (forall d, same d deps = true ->
     forall w0, output (factory_of d w0) = output (factory_of deps w0)) ->
  (forall h, I h -> cell_valid get factory_of h) ->
  (forall h v, I h -> (forall w0, output (factory_of deps w0) = Ok v) ->
     I (set (Some (deps, v)) h)) ->
  stable I (useMemo get set same factory deps).
Proof.
  intros -> Hsteady Hsame Hvalid Hset. split.
  - intros w1 w2 H1 H2.
    destruct (useMemo_valid get set same factory_of deps w1 Hsteady Hsame
                (Hvalid _ H1)) as [-> _].
    destruct (useMemo_valid get set same factory_of deps w2 Hsteady Hsame
                (Hvalid _ H2)) as [-> _].
    apply (proj1 (Hsteady deps)).
  - intros w v w' HI Hm.
    destruct (useMemo_valid get set same factory_of deps w Hsteady Hsame
                (Hvalid _ HI)) as [_ Hafter].
    destruct (Hafter v w' Hm) as [_ [_ [[-> | ->] Hv]]].
    + exact HI.
    + apply Hset; assumption.
Qed.

(** useMemo with a factory that does not depend on what the cell holds. *)
Lemma stable_memo {H D V} (I : H -> Prop) (get : H -> Memo D V)
    (set : Memo D V -> H -> H) (same : D -> D -> bool)
    (factory : Render H N V) (deps : D) :
  steady factory ->
  (forall h, I h -> cell_valid get (fun _ => factory) h) ->
  (forall h v, I h -> (forall w0, output (factory w0) = Ok v) ->
     I (set (Some (deps, v)) h)) ->
  stable I (useMemo get set same factory deps).
Proof.
  intros Hsteady Hvalid Hset.
  apply (stable_useMemo I get set same (fun _ => factory) factory deps).
  - reflexivity.
  - intros _. exact Hsteady.
  - reflexivity.
  - exact Hvalid.
  - exact Hset.
Qed.

(** A child element is stable when the child is, on its part of the
    hooks. *)
Lemma stable_child {H Hc A} (I : H -> Prop) (Ic : Hc -> Prop)
    (get : H -> Hc) (set : Hc -> H -> H) (m : Render Hc N A) :
  stable Ic m ->
  (forall h, I h -> Ic (get h)) ->
  (forall h c, I h -> Ic c -> I (set c h)) ->
  stable I (child get set m).
Proof.
  intros [Hout Hkeep] Hget Hset. split.
  - intros w1 w2 H1 H2. unfold child.
    pose proof (Hout (mkWorld (get (hooks w1)) (entropy w1) (drawn w1))
                  (mkWorld (get (hooks w2)) (entropy w2) (drawn w2))
                  (Hget _ H1) (Hget _ H2)) as Heq.
    destruct (m (mkWorld (get (hooks w1)) (entropy w1) (drawn w1)))
      as [[a1 c1] | e1];
      destruct (m (mkWorld (get (hooks w2)) (entropy w2) (drawn w2)))
        as [[a2 c2] | e2]; cbn in Heq |- *; congruence.
  - intros w a w' HI Hm. unfold child in Hm.
    destruct (m (mkWorld (get (hooks w)) (entropy w) (drawn w)))
      as [[a1 c1] | e1] eqn:E; [|discriminate].
    injection Hm as _ <-. cbn [hooks].
    apply Hset; [exact HI|].
    exact (Hkeep (mkWorld (get (hooks w)) (entropy w) (drawn w)) a1 c1
             (Hget _ HI) E).
Qed.

(** A composition is pure when some invariant of its hooks, true before
    the first render and kept by every render, fixes what it returns. *)
Record Pure (c : Composition N) : Prop := mkPure {
  witnessed :
    exists Inv : Props c -> VideoConfig -> HooksOf c -> Prop,
      (forall p cfg, Inv p cfg (unmounted c)) /\
      (forall p cfg f, stable (Inv p cfg) (component c p f cfg))
}.

Lemma pure_stateless (c : Composition N) :
  (forall p f cfg, steady (component c p f cfg)) -> Pure c.
Proof.
  intro Hsteady. constructor. exists (fun _ _ _ => True). split.
  - intros; exact I.
  - intros p cfg f. apply stable_steady, Hsteady.
Qed.

(** Replaying any frames keeps an invariant every render keeps. *)
Lemma replay_keeps (c : Composition N) (p : Props c) (cfg : VideoConfig)
    (I : HooksOf c -> Prop) :
  (forall f, stable I (component c p f cfg)) ->
  forall (past : list Z) (w : World (HooksOf c) N),
    I (hooks w) -> I (hooks (replay c p cfg past w)).
Proof.
  intros Hstable past.
  induction past as [|g rest IH]; intros w Hw; cbn [replay]; [exact Hw|].
  apply IH.
  destruct (component c p g cfg w) as [[a w'] | e] eqn:E; [|exact Hw].
  apply (proj2 (Hstable g) _ _ _ Hw E).
Qed.

(** So the value returned at a frame is the same after any history and
    with any generator. *)
Lemma pure_output (c : Composition N) :
  Pure c ->
  forall (p : Props c) (cfg : VideoConfig) (f : Z) (past1 past2 : list Z)
         (e1 e2 : nat -> N) (n1 n2 : nat),
    output (component c p f cfg (replay c p cfg past1 (mount c e1 n1)))
    = output (component c p f cfg (replay c p cfg past2 (mount c e2 n2))).
Proof.
  intros [[Inv [Hinit Hstable]]] p cfg f past1 past2 e1 e2 n1 n2.
  apply (proj1 (Hstable p cfg f));
    apply (replay_keeps c p cfg (Inv p cfg) (Hstable p cfg)); apply Hinit.
Qed.

(** A pure composition returns in every world it can reach as soon as
    its first render returns. *)
Lemma pure_reaches (c : Composition N) :
  Pure c ->
  forall (p : Props c) (cfg : VideoConfig),
    (forall f e n, succeeded (component c p f cfg (mount c e n)) = true) ->
    forall (f : Z) (past : list Z) (e : nat -> N) (n : nat),
      succeeded (component c p f cfg (replay c p cfg past (mount c e n)))
      = true.
Proof.
  intros Hpure p cfg Hfirst f past e n.
  rewrite <- succeeded_output.
  rewrite (pure_output c Hpure p cfg f past [] e e n n).
  cbn [replay]. rewrite succeeded_output. apply Hfirst.
Qed.
End Generic.
End Purity.

(** ** The compositions whose memoized values are never mutated are pure *)

Module CompositionsPure.
Import Purity.
Section AnyNumbers.
Context {N : Type} {num : JsNum N} {math : JsMath N} {solver : BezierSolver N}
  {colors : ColorMix N} {seeded : SeededRandom N} {curve : SpringCurve N}.

Ltac steady_steps :=
  repeat first
    [ apply steady_lift
    | apply steady_ret
    | apply steady_bind; [|intro] ].

Lemma CleanProgressBar_pure : Pure (N := N) CleanProgressBar_composition.
Proof. apply pure_stateless. intros p f cfg. apply steady_lift. Qed.

Lemma NeonSaberCountdown_pure : Pure (N := N) NeonSaberCountdown_composition.
Proof. apply pure_stateless. intros p f cfg. apply steady_lift. Qed.

Lemma NeonRecIndicator_pure : Pure (N := N) NeonRecIndicator_composition.
Proof. apply pure_stateless. intros p f cfg. apply steady_lift. Qed.

Lemma NeonLiveIndicator_pure : Pure (N := N) NeonLiveIndicator_composition.
Proof. apply pure_stateless. intros p f cfg. apply steady_lift. Qed.

Lemma ZenProgressBar_pure : Pure (N := N) ZenProgressBar_composition.
Proof. apply pure_stateless. intros p f cfg. apply steady_lift. Qed.

(** The factory behind [ticks]. *)
Definition ticks_factory (props : SegmentedCountdown.CountdownProps)
  : Render (SegmentedCountdown.Hooks N) N (list N) :=
  Render_bind (lift (new_Array (SegmentedCountdown.ticksCount props)))
    (fun idx =>
       lift (mapM (fun i =>
                     Result_bind
                       (div (ofZ 360) (ofZ (SegmentedCountdown.ticksCount props)))
                       (fun step => Ok (mul step (ofZ i)))) idx)).

Lemma SegmentedCountdown_pure : Pure (N := N) SegmentedCountdown_composition.
Proof.
  constructor.
  exists (fun p _ h => cell_valid (fun h => h) (fun _ => ticks_factory p) h).
  split.
  - intros p cfg d v Hcell. discriminate.
  - intros p cfg f. cbn [component SegmentedCountdown_composition].
    unfold SegmentedCountdown.SegmentedCountdown.
    repeat (apply stable_bind; [apply stable_steady, steady_lift | intro]).
    apply stable_bind; [|intro; apply stable_steady, steady_ret].
    unfold SegmentedCountdown.ticks.
    apply (stable_useMemo _ _ _ _ (fun _ => ticks_factory p)).
    + reflexivity.
    + intro d. unfold ticks_factory. steady_steps.
    + reflexivity.
    + intros h Hh. exact Hh.
    + intros h v _ Hv d v' Hcell w. injection Hcell as _ <-. apply Hv.
Qed.

(** The factory behind [bars] and [reflectionBars] at frame [d]. *)
Definition bars_factory (cfg : VideoConfig) (opacityMultiplier : N) (d : Z)
  : Render (NeonEqualizer.Hooks N) N (list (Element N)) :=
  lift (NeonEqualizer.all_bars d cfg opacityMultiplier).

Definition hearts_factory (cfg : VideoConfig) (d : unit)
  : Render (FallingHeartsEmoji.Hooks N) N
      (list (FallingHeartsEmoji.HeartParticle N)) :=
  lift (FallingHeartsEmoji.generate cfg).

Lemma NeonEqualizer_pure : Pure (N := N) NeonEqualizer_composition.
Proof.
  constructor.
  exists (fun _ cfg h =>
            cell_valid (@NeonEqualizer.bars_memo N)
              (bars_factory cfg (ofZ 1)) h /\
            cell_valid (@NeonEqualizer.reflectionBars_memo N)
              (bars_factory cfg (dec 3 10)) h).
  split.
  - intros p cfg. split; intros d v Hcell; discriminate.
  - intros p cfg f. cbn [component NeonEqualizer_composition].
    unfold NeonEqualizer.NeonEqualizer.
    assert (Hsame : forall (F : Z -> Render (NeonEqualizer.Hooks N) N
                                     (list (Element N))) d,
               Z.eqb d f = true ->
               forall w0, output (F d w0) = output (F f w0)).
    { intros F d Hd w0. apply Z.eqb_eq in Hd. subst. reflexivity. }
    apply stable_bind; [|intro; apply stable_bind;
                          [|intro; apply stable_steady, steady_ret]].
    + unfold NeonEqualizer.bars.
      apply (stable_useMemo _ _ _ _ (bars_factory cfg (ofZ 1))).
      * reflexivity.
      * intro d. apply steady_lift.
      * apply Hsame.
      * intros h [Hb _]. exact Hb.
      * intros h v [Hb Hr] Hv. split.
        -- intros d v' Hcell w. cbn in Hcell. injection Hcell as <- <-. apply Hv.
        -- intros d v' Hcell w. cbn in Hcell. apply (Hr d v' Hcell w).
    + unfold NeonEqualizer.reflectionBars.
      apply (stable_useMemo _ _ _ _ (bars_factory cfg (dec 3 10))).
      * reflexivity.
      * intro d. apply steady_lift.
      * apply Hsame.
      * intros h [_ Hr]. exact Hr.
      * intros h v [Hb Hr] Hv. split.
        -- intros d v' Hcell w. cbn in Hcell. apply (Hb d v' Hcell w).
        -- intros d v' Hcell w. cbn in Hcell. injection Hcell as <- <-. apply Hv.
Qed.

(** The hook state of FallingHeartsEmoji holds nothing but the layout
    [generate] computes. *)
Definition hearts_invariant (cfg : VideoConfig)
    (h : FallingHeartsEmoji.Hooks N) : Prop :=
  cell_valid (fun h => h) (hearts_factory cfg) h.

Lemma hearts_stable (cfg : VideoConfig) :
  stable (hearts_invariant cfg) (FallingHeartsEmoji.hearts cfg).
Proof.
  unfold FallingHeartsEmoji.hearts.
  apply (stable_useMemo _ _ _ _ (hearts_factory cfg)).
  - reflexivity.
  - intro d. apply steady_lift.
  - reflexivity.
  - intros h Hh. exact Hh.
  - intros h v _ Hv d v' Hcell w. injection Hcell as _ <-. apply Hv.
Qed.

Lemma FallingHeartsEmoji_stable (cfg : VideoConfig) (f : Z) :
  stable (hearts_invariant cfg) (FallingHeartsEmoji.FallingHeartsEmoji f cfg).
Proof.
  unfold FallingHeartsEmoji.FallingHeartsEmoji.
  apply stable_bind; [apply hearts_stable|].
  intro hearts. apply stable_steady. steady_steps.
Qed.

Lemma FallingHeartsEmoji_pure : Pure (N := N) FallingHeartsEmoji_composition.
Proof.
  constructor. exists (fun _ cfg => hearts_invariant cfg). split.
  - intros p cfg d v Hcell. discriminate.
  - intros p cfg f. cbn [component FallingHeartsEmoji_composition].
    exact (FallingHeartsEmoji_stable cfg f).
Qed.

(** The particle layout is the same at every frame and after every
    history: what [hearts] returns is what [generate] computes from the
    seeds and the configured height. *)
Lemma hearts_layout_fixed (cfg : VideoConfig) (past : list Z)
    (e : nat -> N) (n : nat) :
  output (FallingHeartsEmoji.hearts cfg
            (replay FallingHeartsEmoji_composition tt cfg past
               (mount FallingHeartsEmoji_composition e n)))
  = FallingHeartsEmoji.generate cfg.
Proof.
  assert (Hreplay : forall hist w,
            hearts_invariant cfg (hooks w) ->
            hearts_invariant cfg
              (hooks (replay FallingHeartsEmoji_composition tt cfg hist w))).
  { intro hist. induction hist as [|g rest IH]; intros w Hw; cbn [replay];
      [exact Hw|].
    apply IH. cbn [component FallingHeartsEmoji_composition].
    destruct (FallingHeartsEmoji.FallingHeartsEmoji g cfg w) as [[a w'] | err] eqn:E;
      [|exact Hw].
    apply (proj2 (FallingHeartsEmoji_stable cfg g) _ _ _ Hw E). }
  assert (Hinv : hearts_invariant cfg
                   (hooks (replay FallingHeartsEmoji_composition tt cfg past
                             (mount FallingHeartsEmoji_composition e n)))).
  { apply Hreplay. intros d v Hcell. discriminate. }
  unfold FallingHeartsEmoji.hearts.
  destruct (useMemo_valid (fun h => h) (fun c _ => c) (fun _ _ => true)
              (hearts_factory cfg) tt _ (fun d => steady_lift _)
              (fun d _ w0 => eq_refl) Hinv) as [Hout _].
  etransitivity; [exact Hout|].
  unfold hearts_factory. apply output_lift.
Qed.

(** *** NeonEKG: the trail draws from Math.random, the picture does not *)

(** What a computation does, its value and final world set aside. *)
Definition blind {HT A} (r : Result (A * World HT N)) : Result unit :=
  Result_map (fun _ => tt) r.

(** Whether a loop pass continues or breaks. *)
Definition flow {HT S} (r : Result (Step S * World HT N)) : Result bool :=
  Result_map (fun sw => match fst sw with
                        | Continue _ => true
                        | Break _ => false
                        end) r.

Lemma for_loop_blind {HT S} (fuel : nat) (step : Z) (cond : Z -> bool)
    (body : Z -> S -> Render HT N (Step S)) :
  (forall i s1 s2 w1 w2, flow (body i s1 w1) = flow (body i s2 w2)) ->
  forall i s1 s2 w1 w2,
    blind (for_loop fuel i step cond body s1 w1)
    = blind (for_loop fuel i step cond body s2 w2).
Proof.
  intro Hbody. induction fuel as [|fuel IH]; intros i s1 s2 w1 w2;
    cbn [for_loop]; [reflexivity|].
  destruct (cond i); [|reflexivity].
  unfold Render_bind. specialize (Hbody i s1 s2 w1 w2).
  destruct (body i s1 w1) as [[[t1 | t1] v1] | e1];
    destruct (body i s2 w2) as [[[t2 | t2] v2] | e2];
    cbn in Hbody; try congruence; try reflexivity.
  apply IH.
Qed.

Lemma points_body_flow (props : NeonEKG.EKGProps) (frame : Z)
    (cfg : VideoConfig) (i : Z) (s1 s2 : list (NeonEKG.Point N))
    (w1 w2 : World (NeonEKG.Hooks N) N) :
  flow (NeonEKG.points_body props frame cfg i s1 w1)
  = flow (NeonEKG.points_body props frame cfg i s2 w2).
Proof.
  unfold NeonEKG.points_body.
  destruct (ltb _ _); [reflexivity|].
  unfold Render_bind at 1 3. unfold lift at 1 4.
  destruct (div _ _) as [tFrame | e]; [|reflexivity].
  unfold Render_bind at 1 3.
  destruct (ltb tFrame _).
  - unfold lift at 1 3.
    destruct (Result_bind _ _) as [amplitude | e]; [|reflexivity].
    unfold Render_bind, lift. destruct (rem _ _); reflexivity.
  - unfold Render_bind, Math_random, Render_ret, lift.
    destruct (rem _ _); reflexivity.
Qed.

Lemma points_body_quiet (props : NeonEKG.EKGProps) (frame : Z)
    (cfg : VideoConfig) (i : Z) (s : list (NeonEKG.Point N)) :
  quiet (NeonEKG.points_body props frame cfg i s).
Proof.
  unfold NeonEKG.points_body.
  destruct (ltb _ _); [apply quiet_steady, steady_ret|].
  apply quiet_bind; [apply quiet_steady, steady_lift | intro tFrame].
  apply quiet_bind.
  - destruct (ltb _ _); [apply quiet_steady, steady_lift|].
    apply quiet_bind; [apply quiet_random | intro].
    apply quiet_steady, steady_ret.
  - intro amplitude.
    apply quiet_bind; [apply quiet_steady, steady_lift | intro].
    apply quiet_steady, steady_ret.
Qed.

Definition points_factory (props : NeonEKG.EKGProps) (cfg : VideoConfig)
    (frame : Z) : Render (NeonEKG.Hooks N) N (list (NeonEKG.Point N)) :=
  for_loop (passes 0 2000 5) 0 5 (fun i => (i <? 2000)%Z)
    (NeonEKG.points_body props frame cfg) [].

Definition polyline_factory (props : NeonEKG.EKGProps) (cfg : VideoConfig)
    (d : Z * Z * Z * Z * Z) : Render (NeonEKG.Hooks N) N (Str N) :=
  let '(frame, _, _, _, _) := d in
  Render_bind
    (for_loop (passes 0 (width cfg) 10) 0 10 (fun x => (x <=? width cfg)%Z)
       (fun x p => lift (NeonEKG.polyline_body props frame cfg x p)) [])
    (fun p => Render_ret (join " " p)).

Definition EKG_invariant (props : NeonEKG.EKGProps) (cfg : VideoConfig)
    (h : NeonEKG.Hooks N) : Prop :=
  cell_valid (@NeonEKG.polylinePoints_memo N) (polyline_factory props cfg) h /\
  forall d v, NeonEKG.points_memo h = Some (d, v) ->
    forall w, blind (points_factory props cfg (fst (fst (fst d))) w) = Ok tt.

Lemma same4_eq (a b : Z * Z * Z * Z) : NeonEKG.same4 a b = true -> a = b.
Proof.
  destruct a as [[[a1 a2] a3] a4], b as [[[b1 b2] b3] b4]. cbn.
  rewrite !andb_true_iff, !Z.eqb_eq. intros [[[-> ->] ->] ->]. reflexivity.
Qed.

Lemma same5_eq (a b : Z * Z * Z * Z * Z) : NeonEKG.same5 a b = true -> a = b.
Proof.
  destruct a as [[[[a1 a2] a3] a4] a5], b as [[[[b1 b2] b3] b4] b5]. cbn.
  rewrite !andb_true_iff, !Z.eqb_eq. intros [[[[-> ->] ->] ->] ->]. reflexivity.
Qed.

(** Whether [points] returns, and the invariant after it, do not depend on
    the generator or on the trail it stored before. *)
Lemma points_tolerable (props : NeonEKG.EKGProps) (cfg : VideoConfig) (f : Z) :
  (forall w w0, EKG_invariant props cfg (hooks w) ->
     blind (NeonEKG.points props f cfg w)
     = blind (points_factory props cfg f w0)) /\
  (forall w a w', EKG_invariant props cfg (hooks w) ->
     NeonEKG.points props f cfg w = Ok (a, w') ->
     EKG_invariant props cfg (hooks w')).
Proof.
  assert (Hany : forall w1 w2,
            blind (points_factory props cfg f w1)
            = blind (points_factory props cfg f w2)).
  { intros w1 w2. apply for_loop_blind. intros. apply points_body_flow. }
  assert (Hmiss : forall w,
    EKG_invariant props cfg (hooks w) ->
    (forall w0,
       blind (match points_factory props cfg f w with
              | Ok (v, w') =>
                  Ok (v, mkWorld (NeonEKG.mkHooks (Some ((f, NeonEKG.beatFrequency props, NeonEKG.flatlineStart props, width cfg), v))
                                    (NeonEKG.polylinePoints_memo (hooks w')))
                           (entropy w') (drawn w'))
              | Throw e => Throw e
              end) = blind (points_factory props cfg f w0)) /\
    (forall a w',
       match points_factory props cfg f w with
       | Ok (v, w') =>
           Ok (v, mkWorld (NeonEKG.mkHooks (Some ((f, NeonEKG.beatFrequency props, NeonEKG.flatlineStart props, width cfg), v))
                             (NeonEKG.polylinePoints_memo (hooks w')))
                    (entropy w') (drawn w'))
       | Throw e => Throw e
       end = Ok (a, w') -> EKG_invariant props cfg (hooks w'))).
  { intros w [Hpoly Hpts]. split.
    - intro w0. rewrite <- (Hany w w0).
      destruct (points_factory props cfg f w) as [[v w1] | e]; reflexivity.
    - intros a w' Hrun.
      destruct (points_factory props cfg f w) as [[v w1] | e] eqn:E;
        [|discriminate].
      injection Hrun as <- <-. cbn [hooks].
      assert (Hq : hooks w1 = hooks w).
      { apply (quiet_for_loop _ _ _ _ (points_body_quiet props f cfg) _ _ _ _ _ E). }
      rewrite Hq. split.
      + intros d v' Hcell. cbn in Hcell. apply (Hpoly d v' Hcell).
      + intros d v' Hcell w0. cbn in Hcell. injection Hcell as <- <-. cbn [fst].
        rewrite (Hany w0 w), E. reflexivity. }
  unfold NeonEKG.points, useMemo. fold (points_factory props cfg f).
  split.
  - intros w w0 Hinv.
    destruct (NeonEKG.points_memo (hooks w)) as [[d v] |] eqn:Hcell;
      [|apply (Hmiss w Hinv)].
    destruct (NeonEKG.same4 d _) eqn:Hd; [|apply (Hmiss w Hinv)].
    apply same4_eq in Hd. subst d.
    pose proof (proj2 Hinv _ _ Hcell w0) as Hb. cbn [fst] in Hb.
    rewrite Hb. reflexivity.
  - intros w a w' Hinv.
    destruct (NeonEKG.points_memo (hooks w)) as [[d v] |] eqn:Hcell;
      [|apply (Hmiss w Hinv)].
    destruct (NeonEKG.same4 d _) eqn:Hd; [|apply (Hmiss w Hinv)].
    intro Hrun. injection Hrun as <- <-. exact Hinv.
Qed.

(** A computation of that kind may come first when its value is not
    used. *)
Lemma stable_after_ignored {HT A B} (I : HT -> Prop) (m : Render HT N A)
    (k : Render HT N B) :
  (forall w1 w2, I (hooks w1) -> I (hooks w2) -> blind (m w1) = blind (m w2)) ->
  (forall w a w', I (hooks w) -> m w = Ok (a, w') -> I (hooks w')) ->
  stable I k ->
  stable I (Render_bind m (fun _ => k)).
Proof.
  intros Hblind Hkeep [Hout Hk]. split.
  - intros w1 w2 H1 H2. unfold Render_bind.
    specialize (Hblind w1 w2 H1 H2).
    destruct (m w1) as [[a1 w1'] | e1] eqn:E1;
      destruct (m w2) as [[a2 w2'] | e2] eqn:E2; cbn in Hblind; try congruence.
    apply Hout; [apply (Hkeep _ _ _ H1 E1) | apply (Hkeep _ _ _ H2 E2)].
  - intros w b w' HI Hm. unfold Render_bind in Hm.
    destruct (m w) as [[a w1] | e] eqn:E; [|discriminate].
    apply (Hk _ _ _ (Hkeep _ _ _ HI E) Hm).
Qed.

Lemma NeonEKG_pure : Pure (N := N) NeonEKG_composition.
Proof.
  constructor. exists EKG_invariant. split.
  - intros p cfg. split; intros d v Hcell; discriminate.
  - intros p cfg f. cbn [component NeonEKG_composition].
    unfold NeonEKG.NeonEKG.
    destruct (points_tolerable p cfg f) as [Hblind Hkeep].
    apply stable_after_ignored.
    + intros w1 w2 Hw1 Hw2.
      exact (eq_trans (Hblind w1 w1 Hw1) (eq_sym (Hblind w2 w1 Hw2))).
    + exact Hkeep.
    + apply stable_bind; [|intro; apply stable_steady, steady_ret].
      unfold NeonEKG.polylinePoints.
      apply (stable_useMemo _ _ _ _ (polyline_factory p cfg)).
      * reflexivity.
      * intros [[[[d1 d2] d3] d4] d5]. unfold polyline_factory.
        apply steady_bind; [|intro; apply steady_ret].
        apply steady_for_loop. intros. apply steady_lift.
      * intros d Hd w0. apply same5_eq in Hd. subst d. reflexivity.
      * intros h [Hpoly _]. exact Hpoly.
      * intros h v [Hpoly Hpts] Hv. split.
        -- intros d v' Hcell w. cbn in Hcell. injection Hcell as <- <-. apply Hv.
        -- intros d v' Hcell w. cbn in Hcell. apply (Hpts d v' Hcell w).
Qed.

(** The components without hooks. *)
Lemma NeonRadioWaves_pure : Pure (N := N) NeonRadioWaves_composition.
Proof. apply pure_stateless. intros p f cfg. apply steady_lift. Qed.

Lemma NeonCircleFrame_pure : Pure (N := N) NeonCircleFrame_composition.
Proof. apply pure_stateless. intros p f cfg. apply steady_lift. Qed.

Lemma GyroscopeV2_pure : Pure (N := N) GyroscopeV2_composition.
Proof. apply pure_stateless. intros p f cfg. apply steady_lift. Qed.

Lemma FloatingSlider_pure : Pure (N := N) FloatingSlider_composition.
Proof. apply pure_stateless. intros p f cfg. apply steady_lift. Qed.

Lemma ShapeShifter_pure : Pure (N := N) ShapeShifter_composition.
Proof. apply pure_stateless. intros p f cfg. apply steady_lift. Qed.

Lemma SuccessCheckmark_pure : Pure (N := N) SuccessCheckmark_composition.
Proof. apply pure_stateless. intros p f cfg. apply steady_lift. Qed.

Lemma ErrorCross_pure : Pure (N := N) ErrorCross_composition.
Proof. apply pure_stateless. intros p f cfg. apply steady_lift. Qed.

Lemma NeonGrowth_pure : Pure (N := N) NeonGrowth_composition.
Proof. apply pure_stateless. intros p f cfg. apply steady_lift. Qed.

Lemma NeonYearLoad_pure : Pure (N := N) NeonYearLoad_composition.
Proof. apply pure_stateless. intros p f cfg. apply steady_lift. Qed.

Lemma BreakingNews_pure : Pure (N := N) BreakingNews_composition.
Proof. apply pure_stateless. intros p f cfg. apply steady_lift. Qed.

Lemma StreamGlitch_pure : Pure (N := N) StreamGlitch_composition.
Proof. apply pure_stateless. intros p f cfg. apply steady_lift. Qed.

(** A cell that holds, if anything, the value [v]. *)
Definition holds {D V} (v : V) (cell : Memo D V) : Prop :=
  forall d v', cell = Some (d, v') -> v' = v.

Lemma holds_valid {HT D V} (get : HT -> Memo D V) (v : V) (h : HT) :
  holds v (get h) -> cell_valid (N := N) get (fun _ => Render_ret v) h.
Proof. intros Hh d v' Hcell w. rewrite (Hh d v' Hcell). reflexivity. Qed.

Lemma holds_after {D V} (v v' : V) (deps : D) :
  (forall w0 : World unit N, output (Render_ret v w0) = Ok v') ->
  holds v (Some (deps, v')).
Proof.
  intros Hv d v0 Hcell. injection Hcell as _ <-.
  specialize (Hv (mkWorld tt (fun _ => ofZ 0) 0)). cbn in Hv. congruence.
Qed.

(** The glow filter of a RingLayer. *)
Definition glowFilter (color : string) : Str N :=
  [Lit "drop-shadow(0 0 15px "; Lit color; Lit ") drop-shadow(0 0 30px ";
   Lit color; Lit ")"].

Lemma RingLayer_stable (p : CyberpunkDataRing.RingLayerProps N) (f : Z)
    (cfg : VideoConfig) :
  stable (holds (glowFilter (CyberpunkDataRing.color p)))
    (CyberpunkDataRing.RingLayer p f cfg).
Proof.
  unfold CyberpunkDataRing.RingLayer.
  apply stable_bind; [apply stable_steady, steady_lift | intro].
  apply stable_bind; [|intro; apply stable_steady, steady_ret].
  apply stable_memo.
  - apply steady_ret.
  - intros h Hh. apply (holds_valid (fun h => h)). exact Hh.
  - intros h v _ Hv d v' Hcell. injection Hcell as _ <-.
    specialize (Hv (mkWorld h (fun _ => ofZ 0) 0)). cbn in Hv.
    injection Hv as <-. reflexivity.
Qed.

Lemma CyberpunkDataRing_pure : Pure (N := N) CyberpunkDataRing_composition.
Proof.
  constructor.
  exists (fun p _ h =>
            holds (glowFilter (CyberpunkDataRing.primaryColor p))
              (CyberpunkDataRing.outer_ring h) /\
            holds (glowFilter (CyberpunkDataRing.primaryColor p))
              (CyberpunkDataRing.inner_ring h)).
  split.
  - intros p cfg. split; intros d v Hcell; discriminate.
  - intros p cfg f. cbn [component CyberpunkDataRing_composition].
    unfold CyberpunkDataRing.CyberpunkDataRing,
      CyberpunkDataRing.RingLayer_element.
    apply stable_bind; [|intro outer; apply stable_bind;
                          [|intro; apply stable_steady, steady_ret]].
    + apply stable_bind; [|intro; apply stable_steady, steady_ret].
      eapply stable_child; [apply RingLayer_stable | |].
      * intros h [Ho _]. exact Ho.
      * intros h c [_ Hi] Hc. split; [exact Hc | exact Hi].
    + apply stable_bind; [|intro; apply stable_steady, steady_ret].
      eapply stable_child; [apply RingLayer_stable | |].
      * intros h [_ Hi]. exact Hi.
      * intros h c [Ho _] Hc. split; [exact Ho | exact Hc].
Qed.

Lemma GradientBackground_stable (colors0 : list string) (f : Z)
    (cfg : VideoConfig) :
  stable (holds [0; 1; 2]%Z)
    (ReededGlassPink.GradientBackground (N := N) colors0 f cfg).
Proof.
  unfold ReededGlassPink.GradientBackground.
  apply stable_bind; [|intro; apply stable_steady; steady_steps].
  apply stable_memo.
  - apply steady_ret.
  - intros h Hh. apply (holds_valid (fun h => h)). exact Hh.
  - intros h v _ Hv d v' Hcell. injection Hcell as _ <-.
    specialize (Hv (mkWorld h (fun _ => ofZ 0) 0)). cbn in Hv. congruence.
Qed.

Lemma ReededGlassPink_pure : Pure (N := N) ReededGlassPink_composition.
Proof.
  constructor.
  exists (fun p _ h =>
            cell_valid (N := N) ReededGlassPink.strips_memo
              (fun _ => lift (new_Array (ReededGlassPink.stripCount p))) h /\
            holds [0; 1; 2]%Z (ReededGlassPink.background h)).
  split.
  - intros p cfg. split; intros d v Hcell; discriminate.
  - intros p cfg f. cbn [component ReededGlassPink_composition].
    unfold ReededGlassPink.ReededGlassEffect.
    apply stable_bind; [apply stable_steady, steady_lift | intro].
    apply stable_bind; [|intro strips; apply stable_bind;
                          [|intro; apply stable_steady, steady_ret]].
    + apply stable_memo.
      * apply steady_lift.
      * intros h [Hs _]. exact Hs.
      * intros h v [_ Hb] Hv. split; [|exact Hb].
        intros d v' Hcell w. cbn in Hcell. injection Hcell as _ <-. apply Hv.
    + eapply stable_child; [apply GradientBackground_stable | |].
      * intros h [_ Hb]. exact Hb.
      * intros h c [Hs _] Hc. split; [|exact Hc].
        intros d v' Hcell w. cbn in Hcell. apply (Hs d v' Hcell w).
Qed.

(** A component whose only hook is one memo cell with a factory fixed by
    the props and the configuration. *)
Lemma single_memo_stable {D V A} (same : D -> D -> bool)
    (factory : Render (Memo D V) N V) (deps : D)
    (k : V -> Render (Memo D V) N A) :
  steady factory -> (forall v, steady (k v)) ->
  stable (cell_valid (fun h => h) (fun _ => factory))
    (Render_bind (useMemo (fun h => h) (fun c _ => c) same factory deps) k).
Proof.
  intros Hf Hk.
  apply stable_bind; [|intro; apply stable_steady, Hk].
  apply stable_memo.
  - exact Hf.
  - intros h Hh. exact Hh.
  - intros h v _ Hv d v' Hcell w. injection Hcell as _ <-. apply Hv.
Qed.

Lemma AuroraMeshGradient_pure : Pure (N := N) AuroraMeshGradient_composition.
Proof.
  constructor.
  exists (fun p cfg h =>
            cell_valid (fun h => h)
              (fun _ => AuroraMeshGradient.blobs_factory p cfg) h).
  split.
  - intros p cfg d v Hcell. discriminate.
  - intros p cfg f. cbn [component AuroraMeshGradient_composition].
    unfold AuroraMeshGradient.AuroraMeshGradient, AuroraMeshGradient.blobs.
    apply single_memo_stable; [apply steady_lift | intro; steady_steps].
Qed.

Lemma GlowingLightsString_pure : Pure (N := N) GlowingLightsString_composition.
Proof.
  constructor.
  exists (fun p cfg h =>
            cell_valid (fun h => h)
              (fun _ => GlowingLightsString.strings_factory p cfg) h).
  split.
  - intros p cfg d v Hcell. discriminate.
  - intros p cfg f. cbn [component GlowingLightsString_composition].
    unfold GlowingLightsString.GlowingLights, GlowingLightsString.strings.
    apply single_memo_stable; [apply steady_ret | intro; steady_steps].
Qed.

Lemma DualNeonChase_pure : Pure (N := N) DualNeonChase_composition.
Proof.
  constructor.
  exists (fun p cfg h =>
            cell_valid (@DualNeonChase.pathData_memo N)
              (fun _ => DualNeonChase.pathData_factory cfg) h /\
            cell_valid (@DualNeonChase.perimeter_memo N)
              (fun _ => DualNeonChase.perimeter_factory) h).
  split.
  - intros p cfg. split; intros d v Hcell; discriminate.
  - intros p cfg f. cbn [component DualNeonChase_composition].
    unfold DualNeonChase.DualNeonChase.
    apply stable_bind; [|intro pathData; apply stable_bind;
                          [|intro; apply stable_steady; steady_steps]].
    + unfold DualNeonChase.pathData. apply stable_memo.
      * apply steady_ret.
      * intros h [Hp _]. exact Hp.
      * intros h v [_ Hq] Hv. split.
        -- intros d v' Hcell w. cbn in Hcell. injection Hcell as _ <-. apply Hv.
        -- intros d v' Hcell w. cbn in Hcell. apply (Hq d v' Hcell w).
    + unfold DualNeonChase.perimeter. apply stable_memo.
      * apply steady_ret.
      * intros h [_ Hq]. exact Hq.
      * intros h v [Hp _] Hv. split.
        -- intros d v' Hcell w. cbn in Hcell. apply (Hp d v' Hcell w).
        -- intros d v' Hcell w. cbn in Hcell. injection Hcell as _ <-. apply Hv.
Qed.

(** A memo keyed by a number computed from the frame needs the numbers'
    [===] to be equality, as it is on the reals. *)
Section ExactEquality.
Hypothesis eqb_eq : forall a b : N, eqb a b = true -> a = b.

(** The points a LightString of the given kind computes for the swing in
    the dependency list [d]. *)
Definition LightString_factory (type : GlowingStringLights.StringType)
    (yPos : N) (cfg : VideoConfig) (d : GlowingStringLights.Deps N)
  : Render (GlowingStringLights.LightStringHooks N) N
      (list (GlowingStringLights.Point N)) :=
  let '(_, _, _, sway) := d in
  GlowingStringLights.points_factory type yPos sway cfg.

Lemma LightString_stable (type : GlowingStringLights.StringType) (yPos : N)
    (config : GlowingStringLights.LightProps) (swayOffset : N) (f : Z)
    (cfg : VideoConfig) :
  stable (cell_valid (fun h => h) (LightString_factory type yPos cfg))
    (GlowingStringLights.LightString type yPos config swayOffset f cfg).
Proof.
  unfold GlowingStringLights.LightString.
  apply stable_bind; [apply stable_steady, steady_lift | intro progress].
  apply stable_bind; [|intro; apply stable_steady; steady_steps].
  unfold GlowingStringLights.points.
  apply (stable_useMemo _ _ _ _ (LightString_factory type yPos cfg)).
  - reflexivity.
  - intros [[[w y0] t0] sway0]. apply steady_lift.
  - intros [[[w y0] t0] sway0] Hsame w0.
    unfold GlowingStringLights.same_deps in Hsame.
    apply andb_prop in Hsame. destruct Hsame as [_ Hsway].
    apply eqb_eq in Hsway. subst sway0. reflexivity.
  - intros h Hh. exact Hh.
  - intros h v _ Hv d v' Hcell w. injection Hcell as <- <-. apply Hv.
Qed.

Lemma GlowingStringLights_pure : Pure (N := N) GlowingStringLights_composition.
Proof.
  constructor.
  exists (fun _ cfg h =>
            cell_valid (fun h => h)
              (LightString_factory GlowingStringLights.curve
                 (mul (ofZ (height cfg)) (dec 1 10)) cfg)
              (GlowingStringLights.top_string h) /\
            cell_valid (fun h => h)
              (LightString_factory GlowingStringLights.straight
                 (mul (ofZ (height cfg)) (dec 5 10)) cfg)
              (GlowingStringLights.middle_string h) /\
            cell_valid (fun h => h)
              (LightString_factory GlowingStringLights.wave
                 (mul (ofZ (height cfg)) (dec 75 100)) cfg)
              (GlowingStringLights.bottom_string h)).
  split.
  - intros p cfg. repeat split; intros d v Hcell; discriminate.
  - intros p cfg f. cbn [component GlowingStringLights_composition].
    unfold GlowingStringLights.GlowingStringLights,
      GlowingStringLights.LightString_element.
    apply stable_bind; [|intro top; apply stable_bind;
      [|intro middle; apply stable_bind;
         [|intro; apply stable_steady, steady_ret]]].
    + apply stable_bind; [|intro; apply stable_steady, steady_ret].
      eapply stable_child; [apply LightString_stable | |].
      * intros h [Ht _]. exact Ht.
      * intros h c [_ [Hm Hb]] Hc. repeat split; assumption.
    + apply stable_bind; [|intro; apply stable_steady, steady_ret].
      eapply stable_child; [apply LightString_stable | |].
      * intros h [_ [Hm _]]. exact Hm.
      * intros h c [Ht [_ Hb]] Hc. repeat split; assumption.
    + apply stable_bind; [|intro; apply stable_steady, steady_ret].
      eapply stable_child; [apply LightString_stable | |].
      * intros h [_ [_ Hb]]. exact Hb.
      * intros h c [Ht [Hm _]] Hc. repeat split; assumption.
Qed.

(** Every composition but SpeedDemonSpinner is pure. *)
Lemma memoizing_compositions_pure (c : Composition N) :
  In c memoizing_compositions -> Pure c.
Proof.
  unfold memoizing_compositions. cbn [In]. intro Hc.
  repeat (destruct Hc as [<- | Hc];
          [first [ apply SegmentedCountdown_pure | apply CleanProgressBar_pure
                 | apply NeonSaberCountdown_pure | apply NeonRecIndicator_pure
                 | apply NeonLiveIndicator_pure | apply ZenProgressBar_pure
                 | apply NeonEqualizer_pure | apply FallingHeartsEmoji_pure
                 | apply NeonEKG_pure | apply NeonRadioWaves_pure
                 | apply NeonCircleFrame_pure | apply GyroscopeV2_pure
                 | apply CyberpunkDataRing_pure | apply ReededGlassPink_pure
                 | apply FloatingSlider_pure | apply ShapeShifter_pure
                 | apply AuroraMeshGradient_pure | apply SuccessCheckmark_pure
                 | apply ErrorCross_pure | apply NeonGrowth_pure
                 | apply DualNeonChase_pure | apply NeonYearLoad_pure
                 | apply GlowingLightsString_pure | apply BreakingNews_pure
                 | apply StreamGlitch_pure | apply GlowingStringLights_pure ]
          |]).
  contradiction.
Qed.
End ExactEquality.
End AnyNumbers.
End CompositionsPure.


(** ** NeonEKG and the global generator *)

Module NeonEKGFacts.
Import Analytic NeonEKG.
Local Open Scope R_scope.

Lemma eqb_nonzero (z : Z) : z <> 0%Z -> eqb (IZR z) 0 = false.
Proof. intro Hz. apply real_eqb_false. apply not_0_IZR. exact Hz. Qed.

(** The draws the trail loop makes from pass [i] on: one for each point at
    or past the flatline. *)
Fixpoint draws (flatline frame : Z) (fuel : nat) (i : Z) : nat :=
  match fuel with
  | O => 0
  | S fuel' =>
      if (i <? 2000)%Z then
        if (frame * 15 - i <? 0)%Z then 0
        else ((if (frame * 15 - i <? flatline * 15)%Z then 0 else 1)
              + draws flatline frame fuel' (i + 5))%nat
      else 0
  end.

Lemma head_position (frame i : Z) :
  IZR frame * 15 - IZR i = IZR (frame * 15 - i).
Proof. rewrite minus_IZR, mult_IZR. reflexivity. Qed.

Lemma world_same {H0 : Type} (w : World H0 R) :
  mkWorld (hooks w) (entropy w) (drawn w + 0) = w.
Proof. destruct w. cbn. rewrite Nat.add_0_r. reflexivity. Qed.

Lemma points_body_run (props : EKGProps) (frame : Z) (cfg : VideoConfig)
    (i : Z) (pts : list (Point R)) (w : World (Hooks R) R) :
  beatFrequency props <> 0%Z -> width cfg <> 0%Z ->
  ((frame * 15 - i < 0)%Z ->
     points_body props frame cfg i pts w = Ok (Break pts, w)) /\
  ((0 <= frame * 15 - i)%Z ->
     exists amplitude : R,
       points_body props frame cfg i pts w
       = Ok (Continue (pts ++ [mkPoint (IZR frame * 15 - IZR i) amplitude]),
             mkWorld (hooks w) (entropy w)
               (drawn w + (if (frame * 15 - i <? flatlineStart props * 15)%Z
                           then 0 else 1)))).
Proof.
  intros Hbf Hw. unfold points_body, div, rem. cbv zeta.
  cbn [ofZ sub mul quo JsNum_R].
  rewrite head_position. split.
  - intro Hneg.
    replace (ltb (IZR (frame * 15 - i)) 0) with true
      by (symmetry; apply real_ltb_true; apply IZR_lt; exact Hneg).
    reflexivity.
  - intro Hpos.
    replace (ltb (IZR (frame * 15 - i)) 0) with false
      by (symmetry; apply real_ltb_false; apply IZR_le; exact Hpos).
    rewrite (eqb_nonzero 15) by lia.
    rewrite (eqb_nonzero _ Hbf), (eqb_nonzero _ Hw).
    unfold Render_bind at 1. unfold lift at 1.
    destruct (Z.ltb_spec (frame * 15 - i) (flatlineStart props * 15)) as [Hlt | Hge].
    + replace (ltb (IZR (frame * 15 - i) / 15) (IZR (flatlineStart props)))
        with true.
      * cbn [Result_bind]. unfold Render_bind, lift, Render_ret.
        eexists. rewrite world_same. reflexivity.
      * symmetry. apply real_ltb_true. apply IZR_lt in Hlt.
        rewrite mult_IZR in Hlt. lra.
    + replace (ltb (IZR (frame * 15 - i) / 15) (IZR (flatlineStart props)))
        with false.
      * unfold Render_bind, Math_random, lift, Render_ret. cbn [hooks entropy drawn].
        eexists. rewrite Nat.add_1_r. reflexivity.
      * symmetry. apply real_ltb_false. apply IZR_le in Hge.
        rewrite mult_IZR in Hge. lra.
Qed.

Lemma world_plus {H0 : Type} (h : H0) (e : nat -> R) (n a b : nat) :
  mkWorld h e (n + a + b) = mkWorld h e (n + (a + b)).
Proof. rewrite Nat.add_assoc. reflexivity. Qed.

(** The trail loop returns, and advances the generator by [draws]. *)
Lemma points_loop_run (props : EKGProps) (frame : Z) (cfg : VideoConfig) :
  beatFrequency props <> 0%Z -> width cfg <> 0%Z ->
  forall (fuel : nat) (i : Z) (pts : list (Point R)) (w : World (Hooks R) R),
  exists pts' : list (Point R),
    for_loop fuel i 5 (fun i => (i <? 2000)%Z) (points_body props frame cfg) pts w
    = Ok (pts', mkWorld (hooks w) (entropy w)
                  (drawn w + draws (flatlineStart props) frame fuel i)).
Proof.
  intros Hbf Hw. induction fuel as [|fuel IH]; intros i pts w;
    cbn [for_loop draws].
  - exists pts. unfold Render_ret. rewrite world_same. reflexivity.
  - destruct (i <? 2000)%Z.
    + destruct (points_body_run props frame cfg i pts w Hbf Hw) as [Hbreak Hcont].
      unfold Render_bind.
      destruct (Z.ltb_spec (frame * 15 - i) 0) as [Hneg | Hpos].
      * rewrite (Hbreak Hneg). exists pts. unfold Render_ret.
        rewrite world_same. reflexivity.
      * destruct (Hcont Hpos) as [amplitude ->].
        destruct (IH (i + 5)%Z (pts ++ [mkPoint (IZR frame * 15 - IZR i) amplitude])
                    (mkWorld (hooks w) (entropy w)
                       (drawn w + (if (frame * 15 - i <? flatlineStart props * 15)%Z
                                   then 0 else 1))))
          as [pts' ->].
        exists pts'. cbn [hooks entropy drawn]. rewrite world_plus. reflexivity.
    + exists pts. unfold Render_ret. rewrite world_same. reflexivity.
Qed.

Lemma polyline_body_ok (props : EKGProps) (frame : Z) (cfg : VideoConfig)
    (x : Z) (p : list (Str R)) :
  beatFrequency props <> 0%Z ->
  exists p' : list (Str R),
    polyline_body props frame cfg x p = Ok (Continue p').
Proof.
  intro Hbf. unfold polyline_body, div, rem. cbv zeta.
  cbn [ofZ JsNum_R]. rewrite (eqb_nonzero 20) by lia.
  rewrite (eqb_nonzero _ Hbf). cbn [Result_bind].
  destruct (ltb _ 0); [eexists; reflexivity|].
  destruct (ltb _ (IZR (flatlineStart props))); cbn [Result_bind];
    eexists; reflexivity.
Qed.

Lemma polyline_loop_ok (props : EKGProps) (frame : Z) (cfg : VideoConfig) :
  beatFrequency props <> 0%Z ->
  forall (fuel : nat) (x : Z) (p : list (Str R)) (w : World (Hooks R) R),
  exists p' : list (Str R),
    for_loop fuel x 10 (fun x => (x <=? width cfg)%Z)
      (fun x p => lift (polyline_body props frame cfg x p)) p w
    = Ok (p', w).
Proof.
  intro Hbf. induction fuel as [|fuel IH]; intros x p w; cbn [for_loop].
  - exists p. reflexivity.
  - destruct (x <=? width cfg)%Z; [|exists p; reflexivity].
    destruct (polyline_body_ok props frame cfg x p Hbf) as [p1 Hp1].
    unfold Render_bind, lift. rewrite Hp1.
    destruct (IH (x + 10)%Z p1 w) as [p' Hp']. exists p'. exact Hp'.
Qed.

(** Each pass keeps the points gathered so far. *)
Lemma points_loop_extends (props : EKGProps) (frame : Z) (cfg : VideoConfig) :
  beatFrequency props <> 0%Z -> width cfg <> 0%Z ->
  forall (fuel : nat) (i : Z) (pts pts' : list (Point R))
         (w w' : World (Hooks R) R),
    for_loop fuel i 5 (fun i => (i <? 2000)%Z) (points_body props frame cfg) pts w
    = Ok (pts', w') ->
    exists rest, pts' = pts ++ rest.
Proof.
  intros Hbf Hw. induction fuel as [|fuel IH]; intros i pts pts' w w' Hrun;
    cbn [for_loop] in Hrun.
  - injection Hrun as <- _. exists []. symmetry. apply app_nil_r.
  - destruct (i <? 2000)%Z.
    + destruct (points_body_run props frame cfg i pts w Hbf Hw) as [Hbreak Hcont].
      unfold Render_bind in Hrun.
      destruct (Z.ltb_spec (frame * 15 - i) 0) as [Hneg | Hpos].
      * rewrite (Hbreak Hneg) in Hrun. injection Hrun as <- _.
        exists []. symmetry. apply app_nil_r.
      * destruct (Hcont Hpos) as [amplitude Hbody]. rewrite Hbody in Hrun.
        destruct (IH _ _ _ _ _ Hrun) as [rest ->].
        exists ([mkPoint (IZR frame * 15 - IZR i) amplitude] ++ rest).
        rewrite app_assoc. reflexivity.
    + injection Hrun as <- _. exists []. symmetry. apply app_nil_r.
Qed.

(** At or past the flatline a pass stores the generator's next value. *)
Lemma points_body_flatline (props : EKGProps) (frame : Z) (cfg : VideoConfig)
    (i : Z) (pts : list (Point R)) (w : World (Hooks R) R) :
  beatFrequency props <> 0%Z -> width cfg <> 0%Z ->
  (0 <= frame * 15 - i)%Z -> (flatlineStart props * 15 <= frame * 15 - i)%Z ->
  points_body props frame cfg i pts w
  = Ok (Continue (pts ++ [mkPoint (IZR frame * 15 - IZR i)
                            ((entropy w (drawn w) - 5 / 10) * 5)]),
        mkWorld (hooks w) (entropy w) (S (drawn w))).
Proof.
  intros Hbf Hw Hpos Hflat. unfold points_body, div, rem. cbv zeta.
  cbn [ofZ sub mul quo JsNum_R]. rewrite head_position.
  replace (ltb (IZR (frame * 15 - i)) 0) with false
    by (symmetry; apply real_ltb_false; apply IZR_le; exact Hpos).
  rewrite (eqb_nonzero 15) by lia. rewrite (eqb_nonzero _ Hw).
  unfold Render_bind at 1. unfold lift at 1.
  replace (ltb (IZR (frame * 15 - i) / 15) (IZR (flatlineStart props)))
    with false.
  - unfold Render_bind, Math_random, lift, Render_ret, dec.
    cbn [hooks entropy drawn ofZ quo JsNum_R]. reflexivity.
  - symmetry. apply real_ltb_false. apply IZR_le in Hflat.
    rewrite mult_IZR in Hflat. lra.
Qed.

(** The trail [points] holds does depend on the generator: with two
    generators the first render at frame 210 stores different trails. *)
Lemma trail_depends_on_generator :
  exists (v1 v2 : list (Point R)) (w1 w2 : World (Hooks R) R),
    points defaultProps 210 compositionConfig
      (mkWorld (mkHooks None None) (fun _ => 0) 0) = Ok (v1, w1) /\
    points defaultProps 210 compositionConfig
      (mkWorld (mkHooks None None) (fun _ => 1) 0) = Ok (v2, w2) /\
    v1 <> v2.
Proof.
  assert (Hbf : beatFrequency defaultProps <> 0%Z) by discriminate.
  assert (Hw : width compositionConfig <> 0%Z) by discriminate.
  assert (Hfirst : forall (e : nat -> R),
    exists rest w',
      points defaultProps 210 compositionConfig (mkWorld (mkHooks None None) e 0)
      = Ok (mkPoint (IZR 210 * 15 - IZR 0) ((e 0%nat - 5 / 10) * 5) :: rest, w')).
  { intro e. unfold points, useMemo. cbn [hooks points_memo].
    change (passes 0 2000 5) with (S (Nat.pred (passes 0 2000 5))).
    cbn [for_loop]. change (0 <? 2000)%Z with true. cbv iota.
    unfold Render_bind at 1.
    rewrite (points_body_flatline defaultProps 210 compositionConfig 0 []
               _ Hbf Hw) by (cbn; lia).
    cbn [hooks entropy drawn app].
    destruct (points_loop_run defaultProps 210 compositionConfig Hbf Hw
                (Nat.pred (passes 0 2000 5)) (0 + 5)
                [mkPoint (IZR 210 * 15 - IZR 0) ((e 0%nat - 5 / 10) * 5)]
                (mkWorld (mkHooks None None) e 1)) as [pts' Hloop].
    destruct (points_loop_extends defaultProps 210 compositionConfig Hbf Hw
                _ _ _ _ _ _ Hloop) as [rest ->].
    rewrite Hloop. cbn [app]. eexists. eexists. reflexivity. }
  destruct (Hfirst (fun _ => 0)) as [rest1 [w1 H1]].
  destruct (Hfirst (fun _ => 1)) as [rest2 [w2 H2]].
  eexists. eexists. exists w1, w2. split; [exact H1|]. split; [exact H2|].
  intro Heq. injection Heq as Hy _. lra.
Qed.

(** Both loops of NeonEKG have all the passes they can use. *)
Lemma points_fuel (props : EKGProps) (frame : Z) (cfg : VideoConfig)
    (extra : nat) (w : World (Hooks R) R) :
  for_loop (passes 0 2000 5 + extra) 0 5 (fun i => (i <? 2000)%Z)
    (points_body props frame cfg) [] w
  = for_loop (passes 0 2000 5) 0 5 (fun i => (i <? 2000)%Z)
      (points_body props frame cfg) [] w.
Proof.
  apply (Totality.for_loop_fuel_enough 5 2000); [lia | |].
  - intros j Hj. apply Z.ltb_ge. exact Hj.
  - pose proof (Totality.passes_cover 0 2000 5). lia.
Qed.

Lemma polyline_fuel (props : EKGProps) (frame : Z) (cfg : VideoConfig)
    (extra : nat) (w : World (Hooks R) R) :
  for_loop (passes 0 (width cfg) 10 + extra) 0 10 (fun x => (x <=? width cfg)%Z)
    (fun x p => lift (polyline_body props frame cfg x p)) [] w
  = for_loop (passes 0 (width cfg) 10) 0 10 (fun x => (x <=? width cfg)%Z)
      (fun x p => lift (polyline_body props frame cfg x p)) [] w.
Proof.
  apply (Totality.for_loop_fuel_enough 10 (width cfg + 1)); [lia | |].
  - intros j Hj. apply Z.leb_gt. lia.
  - pose proof (Totality.passes_cover 0 (width cfg) 10). lia.
Qed.

(** The first render of NeonEKG returns, and leaves the generator advanced
    by the draws of the trail. *)
Lemma first_render (props : EKGProps) (frame : Z) (cfg : VideoConfig)
    (e : nat -> R) (n : nat) :
  beatFrequency props <> 0%Z -> width cfg <> 0%Z ->
  exists (tree : Element R) (w' : World (Hooks R) R),
    NeonEKG props frame cfg (mkWorld (mkHooks None None) e n) = Ok (tree, w') /\
    entropy w' = e /\
    drawn w' = (n + draws (flatlineStart props) frame (passes 0 2000 5) 0)%nat.
Proof.
  intros Hbf Hw. unfold NeonEKG, points, polylinePoints.
  unfold Render_bind at 1. unfold useMemo at 1. cbn [hooks points_memo].
  destruct (points_loop_run props frame cfg Hbf Hw (passes 0 2000 5) 0 []
              (mkWorld (mkHooks None None) e n)) as [pts ->].
  cbn [hooks entropy drawn polylinePoints_memo].
  unfold Render_bind at 1. unfold useMemo at 1.
  cbn [hooks entropy drawn polylinePoints_memo].
  unfold Render_bind at 1.
  destruct (polyline_loop_ok props frame cfg Hbf (passes 0 (width cfg) 10) 0 []
              (mkWorld (mkHooks (Some ((frame, beatFrequency props,
                                        flatlineStart props, width cfg), pts))
                          None) e
                 (n + draws (flatlineStart props) frame (passes 0 2000 5) 0)))
    as [p ->].
  unfold Render_ret. cbn [hooks entropy drawn].
  eexists. eexists. split; [reflexivity|]. split; reflexivity.
Qed.

(** Rendering NeonEKG at frame 210 with the default props calls
    Math.random once: the state of the global generator after the render
    differs from the state before it. *)
Lemma NeonEKG_draws_once (e : nat -> R) (n : nat) :
  exists (tree : Element R) (w' : World (Hooks R) R),
    NeonEKG defaultProps 210 compositionConfig (mkWorld (mkHooks None None) e n)
    = Ok (tree, w') /\
    drawn w' = S n.
Proof.
  destruct (first_render defaultProps 210 compositionConfig e n)
    as [tree [w' [Hrun [_ Hdrawn]]]]; [discriminate | discriminate |].
  exists tree, w'. split; [exact Hrun|].
  rewrite Hdrawn.
  replace (draws (flatlineStart defaultProps) 210 (passes 0 2000 5) 0) with 1%nat
    by (vm_compute; reflexivity).
  apply Nat.add_1_r.
Qed.
End NeonEKGFacts.


(** ** SpeedDemonSpinner and its memoized array *)

Module SpeedDemonSpinnerFacts.
Import Analytic Totality SpeedDemonSpinner.
Local Open Scope R_scope.

(** The geometry of the default props. *)
Definition center0 : R := quo (ofZ (iconSize defaultProps)) (ofZ 2).
Definition radius0 : R :=
  sub (quo (ofZ (iconSize defaultProps)) (ofZ 2))
      (ofZ (strokeThickness defaultProps)).
Definition perimeter0 : R := mul (mul (ofZ 2) Math_PI) radius0.

(** The dependency list of [tailStack] when the rotation is [rot]. *)
Definition deps0 (rot : R) : Deps R :=
  (center0, radius0, strokeThickness defaultProps, cyanColor defaultProps,
   perimeter0, rot).

(** The key of an element. *)
Definition key_of (e : Element R) : option R :=
  match e with
  | Node _ ((_, VNum k) :: _) _ => Some k
  | _ => None
  end.

Lemma totalRotation_value (f : Z) :
  exists rot : R, totalRotation f compositionConfig = Ok rot.
Proof.
  apply returns. unfold totalRotation, heavyRushEasing.
  destruct (bezier_ok (dec 8 10) (ofZ 0) (dec 2 10) (ofZ 1)) as [ease ->];
    [literals; lra | literals; lra |].
  cbn [Result_bind].
  rewrite div_value by (literals; lra). cbn [Result_bind].
  rewrite div_value by (literals; lra). cbn [Result_bind].
  rewrite rem_value by (literals; lra). cbn [Result_bind].
  renders.
Qed.

Lemma tail_segment_value (c r p rot : R) (i : Z) :
  exists seg : Element R,
    tail_segment defaultProps c r p rot i = Ok seg /\
    key_of seg = Some (IZR i).
Proof.
  unfold tail_segment.
  destruct (returns (interpolate (ofZ i) [ofZ 0; sub (ofZ numTailSegments) (ofZ 1)]
                       [ofZ 1; ofZ 0] default_options)) as [opacity ->];
    [interpolates|].
  destruct (returns (interpolate (ofZ i) [ofZ 0; sub (ofZ numTailSegments) (ofZ 1)]
                       [ofZ 0; ofZ 20] default_options)) as [blur ->];
    [interpolates|].
  destruct (returns (interpolate (ofZ i) [ofZ 0; sub (ofZ numTailSegments) (ofZ 1)]
                       [dec 1 10; dec 35 100] default_options)) as [ratio ->];
    [interpolates|].
  cbn [Result_bind]. eexists. split; reflexivity.
Qed.

Lemma segments_value (c r p rot : R) (idx : list Z) :
  exists segs : list (Element R),
    mapM (tail_segment defaultProps c r p rot) idx = Ok segs /\
    List.map key_of segs = List.map (fun i => Some (IZR i)) idx.
Proof.
  induction idx as [|i rest [segs [Hsegs Hkeys]]]; cbn [mapM List.map].
  - exists []. split; reflexivity.
  - destruct (tail_segment_value c r p rot i) as [seg [-> Hkey]].
    rewrite Hsegs. cbn [Result_bind List.map].
    exists (seg :: segs). split; [reflexivity|].
    cbn [List.map]. rewrite Hkey, Hkeys. reflexivity.
Qed.

(** The segments of the stack at a given rotation, head first. *)
Definition stack_of (rot : R) (segs : list (Element R)) : Prop :=
  mapM (tail_segment defaultProps center0 radius0 perimeter0 rot)
    (Array_from numTailSegments) = Ok segs /\
  List.map key_of segs
  = List.map (fun i => Some (IZR i)) (Array_from numTailSegments).

Lemma same_deps_refl (d : Deps R) : same_deps d d = true.
Proof.
  destruct d as [[[[[a1 a2] a3] a4] a5] a6]. unfold same_deps.
  rewrite !(proj2 (real_eqb_true _ _) eq_refl), Z.eqb_refl, String.eqb_refl.
  reflexivity.
Qed.

(** Arrays in the heap. *)
Lemma dereference_allocated {A} (heap : Heap A) (arr : list A) :
  dereference (heap ++ [arr]) (List.length heap) = Some arr.
Proof.
  unfold dereference. rewrite nth_error_app2 by lia.
  rewrite Nat.sub_diag. reflexivity.
Qed.

Lemma assign_allocated {A} (heap : Heap A) (arr arr' : list A) :
  assign (List.length heap) arr' (heap ++ [arr]) = heap ++ [arr'].
Proof.
  induction heap as [|a rest IH]; cbn [List.length assign app]; [reflexivity|].
  rewrite IH. reflexivity.
Qed.

Lemma assign_length {A} (r : Ref) (arr : list A) (heap : Heap A) :
  List.length (assign r arr heap) = List.length heap.
Proof.
  revert r. induction heap as [|a rest IH]; intro r;
    [destruct r; reflexivity|].
  destruct r as [|r]; cbn [assign List.length]; [reflexivity|].
  rewrite IH. reflexivity.
Qed.

Lemma dereference_assigned {A} (r : Ref) (arr : list A) (heap : Heap A) :
  (r < List.length heap)%nat -> dereference (assign r arr heap) r = Some arr.
Proof.
  unfold dereference. revert r.
  induction heap as [|a rest IH]; intros r Hr; cbn [List.length] in Hr;
    [lia|].
  destruct r as [|r]; cbn [assign nth_error]; [reflexivity|].
  apply IH. lia.
Qed.

Lemma dereference_valid {A} (heap : Heap A) (r : Ref) :
  (r < List.length heap)%nat -> exists arr, dereference heap r = Some arr.
Proof.
  intro Hr. unfold dereference.
  destruct (nth_error heap r) as [arr|] eqn:E; [exists arr; reflexivity|].
  apply nth_error_None in E. lia.
Qed.

(** The factory builds the segments and puts them in a new array. *)
Lemma factory_run (rot : R) (segs : list (Element R))
    (w : World (Hooks R) R) :
  stack_of rot segs ->
  tailStack_factory defaultProps center0 radius0 perimeter0 rot w
  = Ok (List.length (arrays (hooks w)),
        mkWorld (mkHooks (tailStack_memo (hooks w))
                   (arrays (hooks w) ++ [segs]))
          (entropy w) (drawn w)).
Proof.
  intros [Hsegs _]. unfold tailStack_factory, Render_bind, lift.
  rewrite Hsegs. reflexivity.
Qed.

(** A miss: the new array is stored in the cell and then reversed. *)
Lemma tailStack_miss (rot : R) (segs : list (Element R))
    (w : World (Hooks R) R) :
  stack_of rot segs ->
  (forall d r, tailStack_memo (hooks w) = Some (d, r) ->
               same_deps d (deps0 rot) = false) ->
  tailStack defaultProps center0 radius0 perimeter0 rot w
  = Ok (List.length (arrays (hooks w)),
        mkWorld (mkHooks (Some (deps0 rot, List.length (arrays (hooks w))))
                   (arrays (hooks w) ++ [rev segs]))
          (entropy w) (drawn w)).
Proof.
  intros Hstack Hmiss. unfold tailStack, Render_bind, useMemo.
  rewrite (factory_run rot segs w Hstack).
  fold (deps0 rot).
  assert (Hrun :
    Array_reverse (List.length (arrays (hooks w)))
      (mkWorld (mkHooks (Some (deps0 rot, List.length (arrays (hooks w))))
                  (arrays (hooks w) ++ [segs]))
         (entropy w) (drawn w))
    = Ok (List.length (arrays (hooks w)),
          mkWorld (mkHooks (Some (deps0 rot, List.length (arrays (hooks w))))
                     (arrays (hooks w) ++ [rev segs]))
            (entropy w) (drawn w))).
  { unfold Array_reverse. cbn [hooks arrays tailStack_memo entropy drawn].
    rewrite dereference_allocated, assign_allocated. reflexivity. }
  destruct (tailStack_memo (hooks w)) as [[d r] |] eqn:Hcell.
  - rewrite (Hmiss d r eq_refl). cbn [hooks arrays tailStack_memo entropy drawn].
    exact Hrun.
  - cbn [hooks arrays tailStack_memo entropy drawn]. exact Hrun.
Qed.

(** A hit: the array of the cell is reversed once more. *)
Lemma tailStack_hit (rot : R) (d : Deps R) (r : Ref)
    (arr : list (Element R)) (w : World (Hooks R) R) :
  tailStack_memo (hooks w) = Some (d, r) ->
  same_deps d (deps0 rot) = true ->
  dereference (arrays (hooks w)) r = Some arr ->
  tailStack defaultProps center0 radius0 perimeter0 rot w
  = Ok (r, mkWorld (mkHooks (Some (d, r))
                      (assign r (rev arr) (arrays (hooks w))))
             (entropy w) (drawn w)).
Proof.
  intros Hcell Hsame Harr. unfold tailStack, Render_bind, useMemo.
  fold (deps0 rot). rewrite Hcell, Hsame.
  unfold Array_reverse. rewrite Harr, Hcell. reflexivity.
Qed.

(** What a render returns once its stack is known. *)
Lemma render_with (f : Z) (rot : R) (w w' : World (Hooks R) R) (r : Ref)
    (arr : list (Element R)) :
  totalRotation f compositionConfig = Ok rot ->
  tailStack defaultProps center0 radius0 perimeter0 rot w = Ok (r, w') ->
  dereference (arrays (hooks w')) r = Some arr ->
  SpeedDemonSpinner defaultProps f compositionConfig w
  = Ok (view defaultProps center0 radius0 arr, w').
Proof.
  intros Hrot Hstack Harr.
  change (SpeedDemonSpinner defaultProps f compositionConfig w)
    with (Render_bind (lift (totalRotation f compositionConfig))
            (fun rot' =>
               Render_bind
                 (tailStack defaultProps center0 radius0 perimeter0 rot')
                 (fun stack =>
                    Render_bind (elements_of stack)
                      (fun segments =>
                         Render_ret
                           (view defaultProps center0 radius0 segments))))
            w).
  unfold Render_bind, lift. rewrite Hrot, Hstack.
  unfold elements_of. rewrite Harr. reflexivity.
Qed.

(** The first render of a mounted component at frame [f] returns the
    stack head last; rendering the same frame again returns it head
    first. *)
Lemma two_renders (f : Z) (e : nat -> R) (n : nat) :
  exists (rot : R) (segs : list (Element R)) (w1 w2 : World (Hooks R) R),
    stack_of rot segs /\
    SpeedDemonSpinner defaultProps f compositionConfig
      (mkWorld (mkHooks None []) e n)
    = Ok (view defaultProps center0 radius0 (rev segs), w1) /\
    SpeedDemonSpinner defaultProps f compositionConfig w1
    = Ok (view defaultProps center0 radius0 segs, w2).
Proof.
  destruct (totalRotation_value f) as [rot Hrot].
  destruct (segments_value center0 radius0 perimeter0 rot
              (Array_from numTailSegments)) as [segs [Hsegs Hkeys]].
  assert (Hstack : stack_of rot segs) by (split; assumption).
  exists rot, segs.
  eexists. eexists. split; [exact Hstack|]. split.
  - eapply render_with; [exact Hrot | |].
    + apply (tailStack_miss rot segs _ Hstack).
      intros d r Hcell. discriminate.
    + cbn [hooks arrays List.length app]. reflexivity.
  - eapply render_with; [exact Hrot | |].
    + eapply tailStack_hit.
      * cbn [hooks tailStack_memo]. reflexivity.
      * apply same_deps_refl.
      * cbn [hooks arrays List.length app]. reflexivity.
    + cbn [hooks arrays List.length app assign]. rewrite rev_involutive.
      reflexivity.
Qed.

(** The stack is not a palindrome: its head has key 0 and its last
    segment key 19. *)
Lemma stack_not_symmetric (rot : R) (segs : list (Element R)) :
  stack_of rot segs -> rev segs <> segs.
Proof.
  intros [_ Hkeys] Hrev.
  assert (Hmap : List.map key_of (rev segs) = List.map key_of segs)
    by (rewrite Hrev; reflexivity).
  rewrite map_rev, Hkeys in Hmap.
  assert (Hidx : Array_from numTailSegments
                 = [0; 1; 2; 3; 4; 5; 6; 7; 8; 9; 10; 11; 12; 13; 14; 15; 16;
                    17; 18; 19]%Z) by reflexivity.
  rewrite Hidx in Hmap. cbn [List.map rev app] in Hmap.
  injection Hmap as Hhead _. apply eq_IZR in Hhead. discriminate.
Qed.

Lemma view_injective (c r : R) (a b : list (Element R)) :
  view defaultProps c r a = view defaultProps c r b -> a = b.
Proof. unfold view. intro Hview. injection Hview as Hitems. exact Hitems. Qed.

(** Every render keeps the reference of the cell inside the heap, and
    under that invariant returns. *)
Definition reference_valid (h : Hooks R) : Prop :=
  forall d r, tailStack_memo h = Some (d, r) ->
              (r < List.length (arrays h))%nat.

Lemma render_keeps_reference (f : Z) (w : World (Hooks R) R) :
  reference_valid (hooks w) ->
  exists (tree : Element R) (w' : World (Hooks R) R),
    SpeedDemonSpinner defaultProps f compositionConfig w = Ok (tree, w') /\
    reference_valid (hooks w').
Proof.
  intro Hvalid.
  destruct (totalRotation_value f) as [rot Hrot].
  destruct (segments_value center0 radius0 perimeter0 rot
              (Array_from numTailSegments)) as [segs [Hsegs Hkeys]].
  assert (Hstack : stack_of rot segs) by (split; assumption).
  assert (Hmiss :
    (forall d r, tailStack_memo (hooks w) = Some (d, r) ->
                 same_deps d (deps0 rot) = false) ->
    exists (tree : Element R) (w' : World (Hooks R) R),
      SpeedDemonSpinner defaultProps f compositionConfig w = Ok (tree, w') /\
      reference_valid (hooks w')).
  { intro Hcold. eexists. eexists. split.
    - eapply render_with; [exact Hrot | |].
      + apply (tailStack_miss rot segs w Hstack Hcold).
      + cbn [hooks arrays]. apply dereference_allocated.
    - intros d r Hcell. cbn [hooks tailStack_memo arrays] in *.
      injection Hcell as _ <-. rewrite length_app. cbn [List.length]. lia. }
  destruct (tailStack_memo (hooks w)) as [[d r] |] eqn:Hcell.
  - destruct (same_deps d (deps0 rot)) eqn:Hsame.
    + destruct (dereference_valid (arrays (hooks w)) r (Hvalid d r Hcell))
        as [arr Harr].
      eexists. eexists. split.
      * eapply render_with; [exact Hrot | |].
        -- apply (tailStack_hit rot d r arr w Hcell Hsame Harr).
        -- cbn [hooks arrays]. apply dereference_assigned.
           apply (Hvalid d r Hcell).
      * intros d' r' Hcell'. cbn [hooks tailStack_memo arrays] in *.
        rewrite assign_length.
        injection Hcell' as _ <-. apply (Hvalid d r Hcell).
    + apply Hmiss. intros d' r' Hcell'. injection Hcell' as <- _. exact Hsame.
  - apply Hmiss. intros d' r' Hcell'. discriminate.
Qed.
End SpeedDemonSpinnerFacts.

(** ** Two renders of one frame *)

Module Rerenders.
Import Analytic Purity CompositionsPure SpeedDemonSpinnerFacts.

Section Renders.
Context {colors : ColorMix R} {seeded : SeededRandom R}
  {curve : SpringCurve R}.

Lemma real_eqb_eq (a b : R) : eqb a b = true -> a = b.
Proof. apply real_eqb_true. Qed.

(** The two renders of SpeedDemonSpinner at one frame, the second in the
    world the first leaves, return different trees. *)
Lemma second_render (f : Z) (e : nat -> R) (n : nat) :
  exists (first second : Element R)
         (w1 w2 : World (SpeedDemonSpinner.Hooks R) R),
    SpeedDemonSpinner.SpeedDemonSpinner SpeedDemonSpinner.defaultProps f
      SpeedDemonSpinner.compositionConfig
      (mkWorld (SpeedDemonSpinner.mkHooks None []) e n)
    = Ok (first, w1) /\
    SpeedDemonSpinner.SpeedDemonSpinner SpeedDemonSpinner.defaultProps f
      SpeedDemonSpinner.compositionConfig w1
    = Ok (second, w2) /\
    first <> second.
Proof.
  destruct (two_renders f e n) as [rot [segs [w1 [w2 [Hstack [H1 H2]]]]]].
  do 4 eexists. split; [exact H1|]. split; [exact H2|].
  intro Hview. apply view_injective in Hview.
  exact (stack_not_symmetric rot segs Hstack Hview).
Qed.

(** C1 (what the code does).  Two evaluations of a component at the same
    frame with the same props return the same tree for every composition
    but one: in particular for NeonEKG, whatever Math.random returns.  The
    exception is SpeedDemonSpinner: with the default props, at every
    frame, the first render of a mounted component and the render of the
    same frame that follows it both return, and return different trees. *)
Theorem same_frame_renders_agree_but_for_SpeedDemonSpinner :
  Forall (fun c : Composition R =>
            forall (p : Props c) (cfg : VideoConfig) (f : Z) (past : list Z)
                   (e1 e2 : nat -> R) (n1 n2 : nat),
              output (component c p f cfg (replay c p cfg past (mount c e1 n1)))
              = output (component c p f cfg (replay c p cfg past (mount c e2 n2))))
         memoizing_compositions /\
  (forall (props : NeonEKG.EKGProps) (cfg : VideoConfig) (f : Z)
          (past : list Z) (e1 e2 : nat -> R) (n1 n2 : nat),
      output (NeonEKG.NeonEKG props f cfg
                (replay NeonEKG_composition props cfg past
                   (mount NeonEKG_composition e1 n1)))
      = output (NeonEKG.NeonEKG props f cfg
                  (replay NeonEKG_composition props cfg past
                     (mount NeonEKG_composition e2 n2)))) /\
  forall (f : Z) (e : nat -> R) (n : nat),
    exists (first second : Element R)
           (w1 w2 : World (SpeedDemonSpinner.Hooks R) R),
      SpeedDemonSpinner.SpeedDemonSpinner SpeedDemonSpinner.defaultProps f
        SpeedDemonSpinner.compositionConfig
        (mount SpeedDemonSpinner_composition e n)
      = Ok (first, w1) /\
      SpeedDemonSpinner.SpeedDemonSpinner SpeedDemonSpinner.defaultProps f
        SpeedDemonSpinner.compositionConfig w1
      = Ok (second, w2) /\
      first <> second.
Proof.
  split; [|split].
  - apply Forall_forall. intros c Hc p cfg f past e1 e2 n1 n2.
    apply pure_output. apply (memoizing_compositions_pure real_eqb_eq c Hc).
  - intros props cfg f past e1 e2 n1 n2.
    apply (pure_output NeonEKG_composition NeonEKG_pure).
  - exact second_render.
Qed.

(** C2 (what the code does).  For every composition but SpeedDemonSpinner
    the tree returned at a frame is the same whichever frames were
    rendered before, and the layout of FallingHeartsEmoji is the one
    computed from the seeds after any history.  Two components do touch
    state outside their arguments: the first render of NeonEKG at frame
    210 draws once from the global generator, and SpeedDemonSpinner
    returns at a frame it has just rendered a tree different from the one
    it returns there when freshly mounted. *)
Theorem renders_are_stateless_but_for_two :
  Forall (fun c : Composition R =>
            forall (p : Props c) (cfg : VideoConfig) (f : Z)
                   (past1 past2 : list Z) (e : nat -> R) (n : nat),
              output (component c p f cfg (replay c p cfg past1 (mount c e n)))
              = output (component c p f cfg (replay c p cfg past2 (mount c e n))))
         memoizing_compositions /\
  (forall (cfg : VideoConfig) (past : list Z) (e : nat -> R) (n : nat),
      output (FallingHeartsEmoji.hearts cfg
                (replay FallingHeartsEmoji_composition tt cfg past
                   (mount FallingHeartsEmoji_composition e n)))
      = FallingHeartsEmoji.generate cfg) /\
  (forall (e : nat -> R) (n : nat),
      exists (tree : Element R) (w' : World (NeonEKG.Hooks R) R),
        NeonEKG.NeonEKG NeonEKG.defaultProps 210 NeonEKG.compositionConfig
          (mount NeonEKG_composition e n)
        = Ok (tree, w') /\
        drawn w' = S n) /\
  forall (f : Z) (e : nat -> R) (n : nat),
    let c := SpeedDemonSpinner_composition in
    output (component c (defaultProps c) f (config c)
              (replay c (defaultProps c) (config c) [f] (mount c e n)))
    <> output (component c (defaultProps c) f (config c)
                 (replay c (defaultProps c) (config c) [] (mount c e n))).
Proof.
  split; [|split; [|split]].
  - apply Forall_forall. intros c Hc p cfg f past1 past2 e n.
    apply pure_output. apply (memoizing_compositions_pure real_eqb_eq c Hc).
  - intros cfg past e n. apply hearts_layout_fixed.
  - exact NeonEKGFacts.NeonEKG_draws_once.
  - intros f e n c.
    destruct (second_render f e n) as [first [second [w1 [w2 [H1 [H2 Hne]]]]]].
    subst c.
    change (output
              (SpeedDemonSpinner.SpeedDemonSpinner
                 SpeedDemonSpinner.defaultProps f
                 SpeedDemonSpinner.compositionConfig
                 match SpeedDemonSpinner.SpeedDemonSpinner
                         SpeedDemonSpinner.defaultProps f
                         SpeedDemonSpinner.compositionConfig
                         (mkWorld (SpeedDemonSpinner.mkHooks None []) e n) with
                 | Ok (_, w') => w'
                 | Throw _ => mkWorld (SpeedDemonSpinner.mkHooks None []) e n
                 end)
            <> output
                 (SpeedDemonSpinner.SpeedDemonSpinner
                    SpeedDemonSpinner.defaultProps f
                    SpeedDemonSpinner.compositionConfig
                    (mkWorld (SpeedDemonSpinner.mkHooks None []) e n))).
    rewrite H1, H2. unfold output. cbn [Result_map fst].
    intro Heq. injection Heq as Heq. exact (Hne (eq_sym Heq)).
Qed.
End Renders.
End Rerenders.


(** ** The default compositions never throw *)

Module DefaultRenders.
Import Analytic Totality.
Local Open Scope R_scope.

Section Defaults.
Context {colors : ColorMix R} {seeded : SeededRandom R} {curve : SpringCurve R}.
Hypothesis random_range : forall seed : R, 0 <= random seed < 1.

Lemma SegmentedCountdown_total (f : Z) :
  total (SegmentedCountdown.SegmentedCountdown (N := R)
           SegmentedCountdown.defaultProps f
           SegmentedCountdown.compositionConfig).
Proof.
  unfold SegmentedCountdown.SegmentedCountdown.
  change (durationInFrames SegmentedCountdown.compositionConfig) with 900%Z.
  apply total_bind; [apply total_lift | intro].
  { unfold SegmentedCountdown.remainingSeconds.
    change (durationInFrames SegmentedCountdown.compositionConfig) with 900%Z.
    apply succeeded_bind; [interpolates | reflexivity]. }
  apply total_bind; [apply total_lift | intro].
  { unfold SegmentedCountdown.textScale.
    change (fps SegmentedCountdown.compositionConfig) with 30%Z.
    apply succeeded_bind; [apply rem_ok; cbn; lra | intro].
    apply succeeded_bind; [apply div_ok; cbn; lra | intro].
    interpolates. }
  apply total_bind; [apply total_lift | intro].
  { unfold SegmentedCountdown.currentTickThreshold, SegmentedCountdown.progress.
    change (durationInFrames SegmentedCountdown.compositionConfig) with 900%Z.
    apply succeeded_bind; [interpolates | reflexivity]. }
  apply total_bind; [|intro; apply total_ret].
  unfold SegmentedCountdown.ticks. apply total_useMemo.
  apply total_bind; [apply total_lift; reflexivity | intro idx].
  apply total_lift. apply succeeded_mapM. intro i.
  apply succeeded_bind; [apply div_ok; cbn; lra | reflexivity].
Qed.

Lemma CleanProgressBar_total (f : Z) :
  succeeded (CleanProgressBar.CleanProgressBar (N := R) f
               CleanProgressBar.compositionConfig) = true.
Proof.
  unfold CleanProgressBar.CleanProgressBar, CleanProgressBar.progress.
  change (durationInFrames CleanProgressBar.compositionConfig) with 300%Z.
  apply succeeded_bind; [interpolates | reflexivity].
Qed.

Lemma NeonSaberCountdown_total (f : Z) :
  succeeded (NeonSaberCountdown.NeonSaberCountdown (N := R)
               NeonSaberCountdown.defaultProps f
               NeonSaberCountdown.compositionConfig) = true.
Proof.
  unfold NeonSaberCountdown.NeonSaberCountdown, NeonSaberCountdown.sequencer.
  change (fps NeonSaberCountdown.compositionConfig) with 30%Z.
  apply succeeded_bind.
  - apply succeeded_bind; [apply div_ok; cbn; lra | intro].
    apply succeeded_bind; [apply rem_ok; cbn; lra | reflexivity].
  - intros [displayNumber localFrame].
    destruct (ltb displayNumber _); [reflexivity|].
    unfold NeonSaberCountdown.SaberNumber. renders.
Qed.

Lemma NeonRecIndicator_total (f : Z) :
  succeeded (NeonRecIndicator.NeonRecIndicator (N := R) f) = true.
Proof.
  unfold NeonRecIndicator.NeonRecIndicator.
  rewrite IndicatorFacts.rec_opacity_pulse. reflexivity.
Qed.

Lemma NeonLiveIndicator_total (f : Z) :
  succeeded (NeonLiveIndicator.NeonLiveIndicator (N := R) f) = true.
Proof.
  unfold NeonLiveIndicator.NeonLiveIndicator.
  rewrite IndicatorFacts.live_opacity_pulse. reflexivity.
Qed.

Lemma ZenProgressBar_total (f : Z) :
  succeeded (ZenProgressBar.ZenProgressBar (N := R)
               ZenProgressBar.defaultProps f
               ZenProgressBar.compositionConfig) = true.
Proof.
  unfold ZenProgressBar.ZenProgressBar, ZenProgressBar.progressPercent.
  rewrite ZenProgressBarFacts.progressEase_value. cbn [Result_bind].
  change (durationInFrames ZenProgressBar.compositionConfig) with 360%Z.
  apply succeeded_bind; [interpolates | intro].
  rewrite ZenProgressBarFacts.textOpacity_value. reflexivity.
Qed.

Lemma all_bars_total (f : Z) (opacityMultiplier : R) :
  succeeded (NeonEqualizer.all_bars f NeonEqualizer.compositionConfig
               opacityMultiplier) = true.
Proof.
  unfold NeonEqualizer.all_bars.
  apply succeeded_bind; [reflexivity | intro idx].
  apply succeeded_mapM. intro i. unfold NeonEqualizer.renderBar.
  apply succeeded_bind; [|reflexivity].
  unfold NeonEqualizer.getBarHeight.
  change (durationInFrames NeonEqualizer.compositionConfig) with 300%Z.
  apply succeeded_bind; [apply div_ok; cbn; lra | intro].
  interpolates.
Qed.

Lemma NeonEqualizer_total (f : Z) :
  total (NeonEqualizer.NeonEqualizer (N := R) f NeonEqualizer.compositionConfig).
Proof.
  unfold NeonEqualizer.NeonEqualizer.
  apply total_bind; [|intro; apply total_bind; [|intro; apply total_ret]].
  - apply total_useMemo, total_lift, all_bars_total.
  - apply total_useMemo, total_lift, all_bars_total.
Qed.

(** The colour index of a particle is 0, 1 or 2, inside COLORS. *)
Lemma color_index (seed : R) :
  let k := floorZ (mul (random (add seed (ofZ 2)))
                     (ofZ (Z.of_nat (List.length FallingHeartsEmoji.COLORS)))) in
  (0 <= k <= 2)%Z /\
  succeeded (at_index FallingHeartsEmoji.COLORS k) = true.
Proof.
  cbn [floorZ mul add ofZ JsNum_R List.length FallingHeartsEmoji.COLORS Z.of_nat
         Pos.of_succ_nat Pos.succ].
  pose proof (random_range (seed + 2)) as [Hlo Hhi].
  pose proof (Zfloor_bound (random (seed + 2) * 3)) as [Hf0 Hf1].
  pose proof (Zfloor_lub 0 (random (seed + 2) * 3)) as Hnonneg.
  set (k := Zfloor (random (seed + 2) * 3)) in *.
  assert (Hk : (0 <= k <= 2)%Z).
  { split.
    - apply Hnonneg. lra.
    - apply Z.lt_succ_r. apply lt_IZR. change (Z.succ 2) with 3%Z. lra. }
  split; [exact Hk|].
  assert (Hcases : k = 0%Z \/ k = 1%Z \/ k = 2%Z) by lia.
  clearbody k. destruct Hcases as [-> | [-> | ->]]; reflexivity.
Qed.

Lemma FallingHeartsEmoji_total (f : Z) :
  total (FallingHeartsEmoji.FallingHeartsEmoji (N := R) f
           FallingHeartsEmoji.compositionConfig).
Proof.
  unfold FallingHeartsEmoji.FallingHeartsEmoji.
  change (durationInFrames FallingHeartsEmoji.compositionConfig) with 300%Z.
  apply total_bind; [|intro hearts].
  { unfold FallingHeartsEmoji.hearts. apply total_useMemo, total_lift.
    unfold FallingHeartsEmoji.generate.
    apply succeeded_bind; [reflexivity | intro idx].
    apply succeeded_mapM. intro i. unfold FallingHeartsEmoji.particle.
    apply succeeded_bind; [apply color_index | reflexivity]. }
  apply total_bind; [apply total_lift; apply div_ok; cbn; lra | intro progress].
  apply total_bind; [|intro; apply total_ret].
  apply total_lift. apply succeeded_mapM. intro heart.
  unfold FallingHeartsEmoji.heart_element.
  apply succeeded_bind; [|reflexivity].
  apply rem_ok. unfold FallingHeartsEmoji.LOOP_HEIGHT. cbn. lra.
Qed.

Lemma NeonEKG_total (f : Z) :
  total (NeonEKG.NeonEKG (N := R) NeonEKG.defaultProps f
           NeonEKG.compositionConfig).
Proof.
  unfold NeonEKG.NeonEKG.
  apply total_bind; [|intro; apply total_bind; [|intro; apply total_ret]].
  - unfold NeonEKG.points. apply total_useMemo. apply total_for_loop.
    intros i pts w.
    destruct (NeonEKGFacts.points_body_run NeonEKG.defaultProps f
                NeonEKG.compositionConfig i pts w) as [Hbreak Hcont];
      [discriminate | discriminate |].
    destruct (Z.ltb_spec (f * 15 - i) 0) as [Hneg | Hpos].
    + rewrite (Hbreak Hneg). reflexivity.
    + destruct (Hcont Hpos) as [amplitude ->]. reflexivity.
  - unfold NeonEKG.polylinePoints. apply total_useMemo.
    apply total_bind; [|intro; apply total_ret].
    apply total_for_loop. intros x p. apply total_lift.
    destruct (NeonEKGFacts.polyline_body_ok NeonEKG.defaultProps f
                NeonEKG.compositionConfig x p) as [p' ->];
      [discriminate | reflexivity].
Qed.

Lemma NeonRadioWaves_total (f : Z) :
  succeeded (NeonRadioWaves.NeonRadioWaves (N := R)
               NeonRadioWaves.defaultProps f) = true.
Proof.
  unfold NeonRadioWaves.NeonRadioWaves, NeonRadioWaves.wave. renders.
Qed.

Lemma NeonCircleFrame_total (f : Z) :
  succeeded (NeonCircleFrame.NeonCircleFrame (N := R)
               NeonCircleFrame.defaultProps f
               NeonCircleFrame.compositionConfig) = true.
Proof.
  unfold NeonCircleFrame.NeonCircleFrame, NeonCircleFrame.rotation. renders.
Qed.

Lemma GyroscopeV2_total (f : Z) :
  succeeded (GyroscopeV2.GyroscopeV2 (N := R) GyroscopeV2.defaultProps f
               GyroscopeV2.compositionConfig) = true.
Proof. unfold GyroscopeV2.GyroscopeV2. renders. Qed.

Lemma FloatingSlider_total (f : Z) :
  succeeded (FloatingSlider.FloatingSlider (N := R)
               FloatingSlider.defaultProps f
               FloatingSlider.compositionConfig) = true.
Proof.
  unfold FloatingSlider.FloatingSlider, FloatingSlider.progress. renders.
Qed.

Lemma ShapeShifter_total (f : Z) :
  succeeded (ShapeShifter.ShapeShifter (N := R) ShapeShifter.defaultProps f
               ShapeShifter.compositionConfig) = true.
Proof.
  unfold ShapeShifter.ShapeShifter, ShapeShifter.borderRadius,
    ShapeShifter.rotation, Easing_ease.
  renders.
Qed.

Lemma SuccessCheckmark_total (f : Z) :
  succeeded (SuccessCheckmark.SuccessCheckmark (N := R)
               SuccessCheckmark.defaultProps f
               SuccessCheckmark.compositionConfig) = true.
Proof. unfold SuccessCheckmark.SuccessCheckmark. renders. Qed.

Lemma ErrorCross_total (f : Z) :
  succeeded (ErrorCross.ErrorCross (N := R) ErrorCross.defaultProps f
               ErrorCross.compositionConfig) = true.
Proof. unfold ErrorCross.ErrorCross. renders. Qed.

Lemma NeonGrowth_total (f : Z) :
  succeeded (NeonGrowth.NeonGrowth (N := R) NeonGrowth.defaultProps f
               NeonGrowth.compositionConfig) = true.
Proof.
  unfold NeonGrowth.NeonGrowth, NeonGrowth.getFloat, NeonGrowth.glowPulse.
  renders.
Qed.

Lemma NeonYearLoad_total (f : Z) :
  succeeded (NeonYearLoad.NeonYearLoad (N := R) NeonYearLoad.defaultProps f
               NeonYearLoad.compositionConfig) = true.
Proof.
  unfold NeonYearLoad.NeonYearLoad, NeonYearLoad.progress,
    NeonYearLoad.pulseOpacity.
  renders.
Qed.

Lemma BreakingNews_total (f : Z) :
  succeeded (BreakingNews.BreakingNews (N := R) BreakingNews.defaultProps f
               BreakingNews.newsConfig) = true.
Proof.
  unfold BreakingNews.BreakingNews, BreakingNews.LiveIndicator,
    BreakingNews.RotatingGlobe.
  renders.
Qed.

Lemma StreamGlitch_total (f : Z) :
  succeeded (StreamGlitch.StreamGlitch (N := R) StreamGlitch.defaultProps f
               StreamGlitch.compositionConfig) = true.
Proof.
  unfold StreamGlitch.StreamGlitch, StreamGlitch.GlitchChar_element,
    StreamGlitch.GlitchChar, StreamGlitch.Scanlines.
  renders.
Qed.

Ltac totals :=
  repeat first
    [ apply total_ret
    | apply total_bind; [|intro]
    | apply total_useMemo
    | apply total_child
    | apply total_lift ].

Lemma CyberpunkDataRing_total (f : Z) :
  total (CyberpunkDataRing.CyberpunkDataRing (N := R)
           CyberpunkDataRing.defaultProps f
           CyberpunkDataRing.compositionConfig).
Proof.
  unfold CyberpunkDataRing.CyberpunkDataRing,
    CyberpunkDataRing.RingLayer_element, CyberpunkDataRing.RingLayer.
  totals; renders.
Qed.

Lemma AuroraMeshGradient_total (f : Z) :
  total (AuroraMeshGradient.AuroraMeshGradient (N := R)
           AuroraMeshGradient.defaultProps f
           AuroraMeshGradient.compositionConfig).
Proof.
  unfold AuroraMeshGradient.AuroraMeshGradient, AuroraMeshGradient.blobs,
    AuroraMeshGradient.blobs_factory.
  totals;
    first [ reflexivity
          | unfold AuroraMeshGradient.OrganicBlob_element,
              AuroraMeshGradient.OrganicBlob;
            renders ].
Qed.

Lemma DualNeonChase_total (f : Z) :
  total (DualNeonChase.DualNeonChase (N := R) DualNeonChase.defaultProps f
           DualNeonChase.compositionConfig).
Proof.
  unfold DualNeonChase.DualNeonChase, DualNeonChase.pathData,
    DualNeonChase.perimeter, DualNeonChase.pathData_factory,
    DualNeonChase.perimeter_factory.
  totals; renders.
Qed.

Lemma GlowingLightsString_total (f : Z) :
  total (GlowingLightsString.GlowingLights (N := R)
           GlowingLightsString.defaultProps f
           GlowingLightsString.compositionConfig).
Proof.
  unfold GlowingLightsString.GlowingLights, GlowingLightsString.strings,
    GlowingLightsString.strings_factory.
  totals.
  apply succeeded_mapM. intros [wire index].
  unfold GlowingLightsString.light_string, GlowingLightsString.place_bulbs.
  apply succeeded_bind.
  - apply succeeded_bind; [apply rem_ok; literals; lra | intro parity].
    destruct (eqb parity _);
      (apply succeeded_bind; [reflexivity | intro slots];
       apply succeeded_mapM; intro i;
       apply succeeded_bind; [apply div_ok; literals; lra | intro; reflexivity]).
  - intro bulbs. apply succeeded_bind; [|intro; reflexivity].
    apply succeeded_mapM. intro b.
    unfold GlowingLightsString.Bulb_element, GlowingLightsString.Bulb.
    cbn [GlowingLightsString.bulb_durationInFrames
           GlowingLightsString.currentFrame].
    renders.
Qed.

Lemma LightString_total (type : GlowingStringLights.StringType)
    (yPos swayOffset : R) (f : Z) :
  total (GlowingStringLights.LightString type yPos
           GlowingStringLights.defaultProps swayOffset f
           GlowingStringLights.compositionConfig).
Proof.
  unfold GlowingStringLights.LightString.
  apply total_bind; [apply total_lift; apply div_ok; literals; lra | intro].
  apply total_bind.
  - unfold GlowingStringLights.points, GlowingStringLights.points_factory.
    apply total_useMemo, total_lift. apply succeeded_mapM. intro i.
    unfold GlowingStringLights.point_at.
    apply succeeded_bind; [apply div_ok | intro fraction].
    + unfold Math_ceil. cbn [ceilZ quo ofZ JsNum_R].
      change (width GlowingStringLights.compositionConfig) with 3840%Z.
      rewrite (Zceil_eq 192) by lra. lra.
    + apply succeeded_bind; [apply div_ok; literals; lra | intro].
      destruct type; reflexivity.
  - intro points.
    eapply total_known; [apply div_value; literals; lra|].
    apply total_bind; [|intro; apply total_ret].
    apply total_lift. apply succeeded_mapM. intro i.
    unfold GlowingStringLights.place_bulb.
    apply succeeded_bind; [apply div_ok | intro fraction].
    + unfold Math_floor. cbn [floorZ quo ofZ JsNum_R].
      change (width GlowingStringLights.compositionConfig) with 3840%Z.
      change (GlowingStringLights.bulbSpacing GlowingStringLights.defaultProps)
        with 80%Z.
      rewrite (Zfloor_eq 48) by lra. lra.
    + match goal with
      | |- succeeded (match ?x with Some _ => _ | None => _ end) = true =>
          destruct x as [pos|]; [|reflexivity]
      end.
      unfold GlowingStringLights.GlowingBulb_element,
        GlowingStringLights.GlowingBulb.
      renders.
Qed.

Lemma GlowingStringLights_total (f : Z) :
  total (GlowingStringLights.GlowingStringLights (N := R)
           GlowingStringLights.defaultProps f
           GlowingStringLights.compositionConfig).
Proof.
  unfold GlowingStringLights.GlowingStringLights,
    GlowingStringLights.LightString_element.
  repeat (apply total_bind;
          [apply total_bind;
           [apply total_child, LightString_total | intro; apply total_ret]
          | intro]).
  apply total_ret.
Qed.

(** An index below the number of colours wraps to itself. *)
Lemma wrapped_index (i : Z) :
  (0 <= i < 4)%Z -> exists k : R, rem (IZR i) (IZR 4) = Ok k /\ k = IZR i.
Proof.
  intros [Hlo Hhi]. rewrite rem_value by lra.
  eexists. split; [reflexivity|].
  apply IZR_le in Hlo. apply IZR_lt in Hhi.
  assert (Htrunc : truncZ (IZR i / IZR 4) = 0%Z).
  { unfold truncZ. cbn [ofZ ltb floorZ ceilZ JsNum_R].
    destruct (Rlt_dec (IZR i / 4) 0) as [Hneg | _]; [lra|].
    apply Zfloor_eq. lra. }
  rewrite Htrunc. lra.
Qed.

Lemma blob_renders (f : Z) (i : Z) :
  In i [0; 1; 2]%Z ->
  succeeded (ReededGlassPink.blob (N := R)
               (ReededGlassPink.colors ReededGlassPink.defaultProps) f
               ReededGlassPink.compositionConfig [0; 1; 2]%Z i) = true.
Proof.
  intro Hi. unfold ReededGlassPink.blob.
  apply succeeded_bind; [apply div_ok; literals; lra | intro progress].
  apply succeeded_bind; [apply div_ok; literals; lra | intro share].
  apply succeeded_bind; [interpolates | intro scale].
  destruct (wrapped_index i) as [k [Hk ->]]; [cbn [In] in Hi; lia|].
  literals. rewrite Hk. cbn [Result_bind].
  apply succeeded_bind; [|intro; reflexivity].
  unfold at_number. cbn [ofZ floorZ eqb JsNum_R]. rewrite ZfloorZ.
  destruct (Req_dec_T (IZR i) (IZR i)) as [_ | Hne]; [|contradiction].
  cbn [In] in Hi. destruct Hi as [<- | [<- | [<- | []]]]; reflexivity.
Qed.

(** The first render of ReededGlassPink: [blobs] is [0, 1, 2], and every
    blob finds its colour. *)
Lemma ReededGlassPink_first_render (f : Z) (e : nat -> R) (n : nat) :
  succeeded (ReededGlassPink.ReededGlassEffect (N := R)
               ReededGlassPink.defaultProps f
               ReededGlassPink.compositionConfig
               (mkWorld (ReededGlassPink.mkHooks None None) e n)) = true.
Proof.
  unfold ReededGlassPink.ReededGlassEffect.
  eapply succeeded_after.
  { unfold lift. rewrite div_value by (literals; lra). reflexivity. }
  eapply succeeded_after; [reflexivity|].
  apply succeeded_then; [|intro; apply total_ret].
  apply succeeded_child. cbn [hooks ReededGlassPink.background entropy drawn].
  unfold ReededGlassPink.GradientBackground.
  eapply succeeded_after; [reflexivity|].
  apply total_bind; [|intro; apply total_ret].
  apply total_lift. apply succeeded_mapM_in. apply blob_renders.
Qed.

(** C3.  With the default props and configuration, every composition
    renders every integer frame without throwing, whatever frames it has
    rendered before: no zero divisor, no index outside an array, no
    rejected interpolation range, no rejected spring.  In
    FallingHeartsEmoji the colour index
    Math.floor(random(seed + 2) * COLORS.length) is 0, 1 or 2, and the
    divisors fps, durationInFrames, ticksCount and COLORS.length are
    nonzero. *)
Theorem default_renders_never_throw :
  Forall (fun c : Composition R =>
            forall (f : Z) (past : list Z) (e : nat -> R) (n : nat),
              succeeded
                (component c (defaultProps c) f (config c)
                   (replay c (defaultProps c) (config c) past (mount c e n)))
              = true)
         compositions /\
  (forall seed : R,
      let k := floorZ (mul (random (add seed (ofZ 2)))
                         (ofZ (Z.of_nat (List.length FallingHeartsEmoji.COLORS)))) in
      (0 <= k <= 2)%Z /\
      succeeded (at_index FallingHeartsEmoji.COLORS k) = true) /\
  Forall (fun c : Composition R =>
            fps (config c) <> 0%Z /\ durationInFrames (config c) <> 0%Z)
         compositions /\
  SegmentedCountdown.ticksCount SegmentedCountdown.defaultProps <> 0%Z /\
  List.length FallingHeartsEmoji.COLORS <> 0%nat.
Proof.
  split; [|split; [exact color_index | split; [|split; discriminate]]].
  - unfold compositions, memoizing_compositions. cbn [app].
    repeat apply Forall_cons; try apply Forall_nil;
      try (apply total_replay; intro f;
           cbn [component defaultProps config SegmentedCountdown_composition
                  CleanProgressBar_composition NeonSaberCountdown_composition
                  NeonRecIndicator_composition NeonLiveIndicator_composition
                  ZenProgressBar_composition NeonEqualizer_composition
                  FallingHeartsEmoji_composition NeonEKG_composition
                  NeonRadioWaves_composition NeonCircleFrame_composition
                  GyroscopeV2_composition CyberpunkDataRing_composition
                  FloatingSlider_composition ShapeShifter_composition
                  AuroraMeshGradient_composition SuccessCheckmark_composition
                  ErrorCross_composition NeonGrowth_composition
                  DualNeonChase_composition NeonYearLoad_composition
                  GlowingLightsString_composition BreakingNews_composition
                  StreamGlitch_composition GlowingStringLights_composition];
           first [ apply SegmentedCountdown_total
                 | apply total_lift, CleanProgressBar_total
                 | apply total_lift, NeonSaberCountdown_total
                 | apply total_lift, NeonRecIndicator_total
                 | apply total_lift, NeonLiveIndicator_total
                 | apply total_lift, ZenProgressBar_total
                 | apply NeonEqualizer_total
                 | apply FallingHeartsEmoji_total
                 | apply NeonEKG_total
                 | apply total_lift, NeonRadioWaves_total
                 | apply total_lift, NeonCircleFrame_total
                 | apply total_lift, GyroscopeV2_total
                 | apply CyberpunkDataRing_total
                 | apply total_lift, FloatingSlider_total
                 | apply total_lift, ShapeShifter_total
                 | apply AuroraMeshGradient_total
                 | apply total_lift, SuccessCheckmark_total
                 | apply total_lift, ErrorCross_total
                 | apply total_lift, NeonGrowth_total
                 | apply DualNeonChase_total
                 | apply total_lift, NeonYearLoad_total
                 | apply GlowingLightsString_total
                 | apply total_lift, BreakingNews_total
                 | apply total_lift, StreamGlitch_total
                 | apply GlowingStringLights_total ]).
    + apply (Purity.pure_reaches ReededGlassPink_composition
               CompositionsPure.ReededGlassPink_pure).
      intros f e n. apply ReededGlassPink_first_render.
    + apply (safe_replay SpeedDemonSpinner_composition
               SpeedDemonSpinner.defaultProps
               SpeedDemonSpinner.compositionConfig
               SpeedDemonSpinnerFacts.reference_valid).
      * intros d r Hcell. discriminate.
      * intros f w. apply SpeedDemonSpinnerFacts.render_keeps_reference.
  - unfold compositions, memoizing_compositions. cbn [app].
    repeat apply Forall_cons; try apply Forall_nil; split; discriminate.
Qed.
End Defaults.

(** A seeded generator, a colour mixer and a spring to run the
    compositions with. *)
Definition sample_random : SeededRandom R :=
  {| random := fun seed => frac_part (sin seed * 43758) |}.

Definition sample_colors : ColorMix R :=
  {| interpolateColors := fun _ _ outputRange => hd EmptyString outputRange |}.

Definition sample_spring : SpringCurve R :=
  {| springCalculation := fun _ => 1 |}.

Lemma sample_random_range (seed : R) :
  0 <= @random R sample_random seed < 1.
Proof.
  cbn [random sample_random].
  destruct (base_fp (sin seed * 43758)) as [Hlo Hhi]. lra.
Qed.

Lemma default_renders_never_throw_witness :
  (forall seed : R, 0 <= @random R sample_random seed < 1) /\
  forall (f : Z) (e : nat -> R) (n : nat),
    succeeded
      (@FallingHeartsEmoji.FallingHeartsEmoji R _ _ sample_random f
         FallingHeartsEmoji.compositionConfig (mkWorld None e n)) = true.
Proof.
  split; [exact sample_random_range|].
  intros f e n.
  pose proof (proj1 (@default_renders_never_throw sample_colors sample_random
                       sample_spring sample_random_range)) as Hall.
  rewrite Forall_forall in Hall.
  apply (Hall (@FallingHeartsEmoji_composition R _ _ sample_random) ltac:(
    unfold compositions, memoizing_compositions; cbn [In app]; tauto)
    f [] e n).
Defined.
End DefaultRenders.

(** ** Agreement with IEEE 754 arithmetic on the default compositions

    The exact models idealise JavaScript's binary64 numbers.  For the
    components whose arithmetic is rational, running the same code on
    floats gives, at every frame of the default composition, the integers
    and the comparisons the exact model gives. *)

Module IEEE.

(** The frames [0 .. last]. *)
Definition frames (last : Z) : list Z := indices (S (Z.to_nat last)).

Definition same_integer (a : Result float) (b : Result Q) : bool :=
  match a, b with
  | Ok x, Ok y => (float_floorZ x =? Qfloor y)%Z && (float_ceilZ x =? Qceiling y)%Z
  | _, _ => false
  end.

(** SegmentedCountdown: the displayed seconds. *)
Lemma remainingSeconds_ieee :
  forallb (fun f =>
             same_integer
               (SegmentedCountdown.remainingSeconds f
                  SegmentedCountdown.compositionConfig)
               (SegmentedCountdown.remainingSeconds f
                  SegmentedCountdown.compositionConfig))
    (frames 900) = true.
Proof. vm_compute. reflexivity. Qed.

(** CleanProgressBar: the displayed percentage. *)
Lemma percentage_ieee :
  forallb (fun f =>
             same_integer
               (Result_map CleanProgressBar.percentage
                  (CleanProgressBar.progress f CleanProgressBar.compositionConfig))
               (Result_map CleanProgressBar.percentage
                  (CleanProgressBar.progress f CleanProgressBar.compositionConfig)))
    (frames 299) = true.
Proof. vm_compute. reflexivity. Qed.

Lemma last_frame_ieee :
  CleanProgressBar.progress (N := float) 299 CleanProgressBar.compositionConfig
  = Ok PrimFloat.one.
Proof. vm_compute. reflexivity. Qed.

(** NeonSaberCountdown: the number on screen and the local frame. *)
Lemma sequencer_ieee :
  forallb (fun f =>
             match NeonSaberCountdown.sequencer (N := float)
                     NeonSaberCountdown.defaultProps f
                     NeonSaberCountdown.compositionConfig,
                   NeonSaberCountdown.sequencer (N := Q)
                     NeonSaberCountdown.defaultProps f
                     NeonSaberCountdown.compositionConfig with
             | Ok (n1, l1), Ok (n2, l2) =>
                 same_integer (Ok n1) (Ok n2) && same_integer (Ok l1) (Ok l2)
             | _, _ => false
             end)
    (frames 400) = true.
Proof. vm_compute. reflexivity. Qed.

(** SegmentedCountdown: every active tick's opacity stays in [0, 1] and
    never rises from one frame to the next. *)
Definition tick_opacity_at (f i : Z) : float :=
  match SegmentedCountdown.currentTickThreshold (N := float)
          SegmentedCountdown.defaultProps f
          SegmentedCountdown.compositionConfig with
  | Ok th => SegmentedCountdown.tickOpacity th i
  | Throw _ => PrimFloat.nan
  end.

Lemma tickOpacity_ieee :
  forallb (fun f =>
             forallb (fun i =>
                        PrimFloat.leb PrimFloat.zero (tick_opacity_at f i)
                        && PrimFloat.leb (tick_opacity_at f i) PrimFloat.one
                        && PrimFloat.leb (tick_opacity_at (f + 1) i)
                             (tick_opacity_at f i))
               (indices 100))
    (frames 900) = true.
Proof. vm_compute. reflexivity. Qed.
End IEEE.

(* ================================================================== *)
(** * Loops, ranges and geometry of the components

    Properties of the components beyond their default renders: what
    repeats and with which period, the ranges animated values stay in,
    and how the parts of a tree are placed.  They are stated over the
    real numbers. *)

(** ** Whole turns and whole periods *)

Module Periodic.
Import Analytic.
Local Open Scope R_scope.

(** Rounding towards zero is the floor on the non-negative numbers. *)
Lemma truncZ_nonneg (x : R) : 0 <= x -> truncZ x = Zfloor x.
Proof.
  intro Hx. unfold truncZ. cbn [ofZ ltb floorZ ceilZ JsNum_R].
  destruct (Rlt_dec x 0) as [Hneg | _]; [lra | reflexivity].
Qed.

Lemma ratio_nonneg (a b : R) : 0 <= a -> 0 < b -> 0 <= a / b.
Proof.
  intros Ha Hb. apply Rmult_le_pos; [exact Ha|].
  left. apply Rinv_0_lt_compat. exact Hb.
Qed.

(** [a % b] for a non-negative [a] and a positive [b]. *)
Lemma rem_nonneg (a b : R) :
  0 <= a -> 0 < b ->
  rem a b = Ok (a - b * IZR (Zfloor (a / b))) /\
  0 <= a - b * IZR (Zfloor (a / b)) < b.
Proof.
  intros Ha Hb. split.
  - rewrite rem_value by lra.
    rewrite (truncZ_nonneg _ (ratio_nonneg a b Ha Hb)). reflexivity.
  - destruct (Zfloor_bound (a / b)) as [Hlo Hhi].
    assert (Hq : a = b * (a / b)) by (field; lra).
    set (q := a / b) in *. clearbody q. subst a. nra.
Qed.

(** Adding the divisor to a non-negative dividend keeps the remainder. *)
Lemma rem_shift (a b : R) : 0 <= a -> 0 < b -> rem (a + b) b = rem a b.
Proof.
  intros Ha Hb.
  rewrite (proj1 (rem_nonneg (a + b) b ltac:(lra) Hb)).
  rewrite (proj1 (rem_nonneg a b Ha Hb)).
  replace ((a + b) / b) with (a / b + IZR 1) by (field; lra).
  rewrite Zfloor_addz, plus_IZR. f_equal. ring.
Qed.

(** The floor of a quotient of integers is their integer quotient. *)
Lemma floor_of_ratio (a b : Z) :
  (0 < b)%Z -> Zfloor (IZR a / IZR b) = (a / b)%Z.
Proof.
  intro Hb. apply Zfloor_eq.
  pose proof (Z.div_mod a b ltac:(lia)) as Hdm.
  pose proof (Z.mod_pos_bound a b Hb) as Hmod.
  assert (Hb' : 0 < IZR b) by (apply IZR_lt; exact Hb).
  assert (Ha : IZR a = IZR b * IZR (a / b) + IZR (a mod b))
    by (rewrite <- mult_IZR, <- plus_IZR; f_equal; exact Hdm).
  assert (Hm0 : 0 <= IZR (a mod b)) by (apply IZR_le; lia).
  assert (Hm1 : IZR (a mod b) < IZR b) by (apply IZR_lt; lia).
  split.
  - apply (Rmult_le_reg_r (IZR b)); [exact Hb'|].
    replace (IZR a / IZR b * IZR b) with (IZR a) by (field; lra). nra.
  - apply (Rmult_lt_reg_r (IZR b)); [exact Hb'|].
    replace (IZR a / IZR b * IZR b) with (IZR a) by (field; lra). nra.
Qed.

(** [a % b] on a non-negative integer and a positive one is the integer
    remainder. *)
Lemma rem_integers (a b : Z) :
  (0 <= a)%Z -> (0 < b)%Z -> rem (IZR a) (IZR b) = Ok (IZR (a mod b)).
Proof.
  intros Ha Hb.
  rewrite (proj1 (rem_nonneg (IZR a) (IZR b) (IZR_le _ _ Ha) (IZR_lt _ _ Hb))).
  rewrite floor_of_ratio by exact Hb. f_equal.
  rewrite <- mult_IZR, <- minus_IZR. f_equal.
  pose proof (Z.div_mod a b ltac:(lia)). lia.
Qed.




(** mapping a function that agrees with another on every element. *)
Lemma mapM_ext {A B} (f g : A -> Result B) (l : list A) :
  (forall a, f a = g a) -> mapM f l = mapM g l.
Proof.
  intro Hfg. induction l as [|a l IH]; cbn [mapM]; [reflexivity|].
  rewrite Hfg, IH. reflexivity.
Qed.


Lemma replay_app (c : Composition R) (p : Props c) (cfg : VideoConfig)
    (past later : list Z) (w : World (HooksOf c) R) :
  replay c p cfg (past ++ later) w
  = replay c p cfg later (replay c p cfg past w).
Proof.
  revert w. induction past as [|g rest IH]; intro w; cbn [replay app];
    [reflexivity|]. apply IH.
Qed.
(** Maps that may throw. *)
Lemma mapM_Forall {A B} (f : A -> Result B) (P : B -> Prop) (l : list A)
    (bs : list B) :
  (forall a b, f a = Ok b -> P b) -> mapM f l = Ok bs -> Forall P bs.
Proof.
  intro Hf. revert bs. induction l as [|a l IH]; intros bs Hrun;
    cbn [mapM] in Hrun.
  - injection Hrun as <-. constructor.
  - destruct (f a) as [b | e] eqn:Ea; [|discriminate].
    cbn [Result_bind] in Hrun.
    destruct (mapM f l) as [bs' | e]; [|discriminate].
    cbn [Result_bind] in Hrun. injection Hrun as <-.
    constructor; [apply (Hf a b Ea) | apply IH; reflexivity].
Qed.

Lemma mapM_length {A B} (f : A -> Result B) (l : list A) (bs : list B) :
  mapM f l = Ok bs -> List.length bs = List.length l.
Proof.
  revert bs. induction l as [|a l IH]; intros bs Hrun; cbn [mapM] in Hrun.
  - injection Hrun as <-. reflexivity.
  - destruct (f a) as [b | e]; [|discriminate]. cbn [Result_bind] in Hrun.
    destruct (mapM f l) as [bs' | e]; [|discriminate].
    cbn [Result_bind] in Hrun. injection Hrun as <-.
    cbn [List.length]. rewrite (IH bs' eq_refl). reflexivity.
Qed.

Lemma mapM_agree {A B} (f g : A -> Result B) (P : A -> Prop) (l : list A) :
  Forall P l -> (forall a, P a -> f a = g a) -> mapM f l = mapM g l.
Proof.
  intros Hl Hfg. induction Hl as [|a l Ha Hl IH]; cbn [mapM]; [reflexivity|].
  rewrite (Hfg a Ha), IH. reflexivity.
Qed.

(** A map whose every call returns has a result for every element. *)
Lemma mapM_all {A B} (f : A -> Result B) (P : A -> Prop) (Q : B -> Prop)
    (l : list A) :
  Forall P l -> (forall a, P a -> exists b, f a = Ok b /\ Q b) ->
  exists bs, mapM f l = Ok bs /\ List.length bs = List.length l /\
             Forall Q bs.
Proof.
  intros Hl Hf. induction Hl as [|a l Ha Hl IH].
  - exists []. repeat split. constructor.
  - destruct (Hf a Ha) as [b [Hb Hq]]. destruct IH as [bs [Hbs [Hlen Hall]]].
    exists (b :: bs). cbn [mapM]. rewrite Hb, Hbs. cbn [Result_bind].
    repeat split; [cbn [List.length]; congruence | constructor; assumption].
Qed.

Lemma range_bounds (start stop : Z) :
  Forall (fun i => (start <= i < stop)%Z) (range start stop).
Proof.
  unfold range. apply Forall_forall. intros i Hi.
  apply in_map_iff in Hi. destruct Hi as [k [<- Hk]].
  apply in_seq in Hk. lia.
Qed.

Lemma range_length (start stop : Z) :
  List.length (range start stop) = Z.to_nat (stop - start).
Proof. unfold range. rewrite length_map, length_seq. reflexivity. Qed.

Lemma singletons_length {A} (ls : list (list A)) :
  Forall (fun l => List.length l = 1%nat) ls ->
  List.length (List.concat ls) = List.length ls.
Proof.
  intro Hall. induction Hall as [|l ls Hl Hall IH]; [reflexivity|].
  cbn [List.concat List.length]. rewrite length_app, Hl, IH. reflexivity.
Qed.

(** The remainder of two integers is an integer. *)
Lemma rem_whole (a b : Z) :
  b <> 0%Z -> exists k : Z, rem (IZR a) (IZR b) = Ok (IZR k).
Proof.
  intro Hb. exists (a - b * truncZ (IZR a / IZR b)%R)%Z.
  rewrite rem_value by (apply not_0_IZR; exact Hb).
  rewrite minus_IZR, mult_IZR. reflexivity.
Qed.

End Periodic.

(** ** NeonEqualizer: the loop *)

Module NeonEqualizerLoop.
Import Analytic Periodic NeonEqualizer.
Local Open Scope R_scope.

Section Loop.
Context {colors : ColorMix R} {seeded : SeededRandom R}
  {curve : SpringCurve R}.



End Loop.
End NeonEqualizerLoop.

(** ** FallingHeartsEmoji: the particles and the fall *)

Module FallingHeartsFacts.
Import Analytic Periodic FallingHeartsEmoji.
Local Open Scope R_scope.

(** What the comments of the particle generator promise of a particle. *)
Definition in_range (cfg : VideoConfig) (h : HeartParticle R) : Prop :=
  - (1 / 10) <= x h < 11 / 10 /\
  40 <= size h < 120 /\
  In (color h) COLORS /\
  speedMultiplier h = 1 /\
  50 <= swayAmplitude h < 150 /\
  0 <= swayPhase h < 2 * PI /\
  -30 <= rotationSpeed h < 30 /\
  0 <= rotationPhase h < 2 * PI /\
  0 <= startYOffset h < IZR (height cfg) + 400.

Section Seeded.
Context {seeded : SeededRandom R}.
Hypothesis random_range : forall seed : R, 0 <= random seed < 1.

Lemma particle_in_range (cfg : VideoConfig) (i : Z) :
  (-400 < height cfg)%Z ->
  exists h : HeartParticle R,
    particle cfg i = Ok h /\ id h = i /\ in_range cfg h.
Proof.
  intro Hheight. apply IZR_lt in Hheight.
  unfold particle. cbv zeta.
  cbn [ofZ add sub mul JsNum_R floorZ List.length COLORS Z.of_nat
         Pos.of_succ_nat Pos.succ].
  pose proof (random_range (IZR i + 2)) as [Hlo Hhi].
  pose proof (Zfloor_bound (random (IZR i + 2) * 3)) as [Hf0 Hf1].
  pose proof (Zfloor_lub 0 (random (IZR i + 2) * 3)) as Hnonneg.
  set (k := Zfloor (random (IZR i + 2) * 3)) in *.
  assert (Hk : (0 <= k <= 2)%Z).
  { split.
    - apply Hnonneg. lra.
    - apply Z.lt_succ_r. apply lt_IZR. change (Z.succ 2) with 3%Z. lra. }
  assert (Hcolor : exists c, at_index COLORS k = Ok c /\ In c COLORS).
  { assert (Hcases : k = 0%Z \/ k = 1%Z \/ k = 2%Z) by lia.
    clearbody k. unfold COLORS.
    destruct Hcases as [-> | [-> | ->]]; eexists; (split; [reflexivity|]);
      cbn [In]; tauto. }
  destruct Hcolor as [c [-> Hc]]. cbn [Result_bind].
  eexists. split; [reflexivity|]. split; [reflexivity|].
  unfold in_range, LOOP_HEIGHT, dec.
  cbn [x size color speedMultiplier swayAmplitude swayPhase rotationSpeed
         rotationPhase startYOffset ofZ add sub mul quo JsNum_R Math_PI JsMath_R].
  pose proof (random_range (IZR i)) as H0.
  pose proof (random_range (IZR i + 1)) as H1.
  pose proof (random_range (IZR i + 3)) as H3.
  pose proof (random_range (IZR i + 4)) as H4.
  pose proof (random_range (IZR i + 5)) as H5.
  pose proof (random_range (IZR i + 6)) as H6.
  pose proof (random_range (IZR i + 7)) as H7.
  pose proof PI_RGT_0 as Hpi.
  repeat split; try lra; try exact Hc; try nra.
Qed.

(** X2.  The layout FallingHeartsEmoji generates is what its comments
    promise: 50 particles, each with its horizontal start in
    [-0.1, 1.1), a size in [40, 120), a colour of COLORS, speed
    multiplier 1, a sway amplitude in [50, 150), a rotation speed in
    [-30, 30), phases in [0, 2 pi) and a start offset in
    [0, LOOP_HEIGHT). *)
Theorem particles_in_range (cfg : VideoConfig) :
  (-400 < height cfg)%Z ->
  exists hearts : list (HeartParticle R),
    generate cfg = Ok hearts /\
    List.length hearts = 50%nat /\
    Forall (in_range cfg) hearts.
Proof.
  intro Hheight. unfold generate.
  change (new_Array HEART_COUNT) with (Ok (indices 50) : Result (list Z)).
  cbn [Result_bind].
  assert (Hall : forall l, exists hs, mapM (particle cfg) l = Ok hs).
  { induction l as [|i l [hs IH]]; cbn [mapM]; [eexists; reflexivity|].
    destruct (particle_in_range cfg i Hheight) as [h [-> _]].
    rewrite IH. eexists. reflexivity. }
  destruct (Hall (indices 50)) as [hs Hrun]. exists hs.
  split; [exact Hrun|]. split.
  - rewrite (mapM_length _ _ _ Hrun). reflexivity.
  - apply (mapM_Forall (particle cfg) (in_range cfg) _ _) in Hrun; [exact Hrun|].
    intros i h Hi.
    destruct (particle_in_range cfg i Hheight) as [h' [Hh' [_ Hr]]].
    rewrite Hh' in Hi. injection Hi as <-. exact Hr.
Qed.

(** X4.  A particle in range stays in the loop: at every non-negative
    progress its vertical position lies in [-200, height + 200), its
    horizontal position within its sway amplitude of its start, and its
    rotation within its rotation speed. *)
Theorem heart_stays_in_the_loop (cfg : VideoConfig) (progress : R)
    (h : HeartParticle R) :
  (-400 < height cfg)%Z -> 0 <= progress -> in_range cfg h ->
  exists finalX finalY rot : R,
    heart_element cfg progress h
    = Ok (Node "div"
            [("key", VNum (IZR (id h)));
             ("style",
               VObj [("position", str "absolute");
                     ("left", VNum 0);
                     ("top", VNum 0);
                     ("transform",
                       VStr [Lit "translate("; Num finalX; Lit "px, ";
                             Num finalY; Lit "px) rotate("; Num rot;
                             Lit "deg)"]);
                     ("color", str (color h));
                     ("fontSize", VStr [Num (size h); Lit "px"]);
                     ("opacity", VNum (dec 85 100))])]
            [Node "FaHeart" [] []]) /\
    -200 <= finalY < IZR (height cfg) + 200 /\
    Rabs (finalX - x h * IZR (width cfg)) <= swayAmplitude h /\
    Rabs rot <= Rabs (rotationSpeed h).
Proof.
  intros Hheight Hp Hr. apply IZR_lt in Hheight.
  destruct Hr as [_ [_ [_ [Hspeed [Hsway [_ [_ [_ Hstart]]]]]]]].
  unfold heart_element, LOOP_HEIGHT. cbv zeta.
  cbn [ofZ add sub mul JsNum_R Math_sin Math_PI JsMath_R].
  rewrite Hspeed, !Rmult_1_r.
  destruct (rem_nonneg (startYOffset h + progress * (IZR (height cfg) + 400))
              (IZR (height cfg) + 400)) as [-> Hwrap]; [nra | lra |].
  cbn [Result_bind]. do 3 eexists. split; [reflexivity|].
  split; [lra|]. split.
  - match goal with
    | |- Rabs (?a + sin ?u * ?b - ?a) <= _ =>
        replace (a + sin u * b - a) with (sin u * b) by ring;
        pose proof (SIN_bound u) as [Hs0 Hs1]
    end.
    rewrite Rabs_mult, (Rabs_pos_eq (swayAmplitude h)) by lra.
    rewrite <- (Rmult_1_l (swayAmplitude h)) at 2.
    apply Rmult_le_compat_r; [lra|]. apply Rabs_le. lra.
  - match goal with
    | |- Rabs (sin ?u * _) <= _ => pose proof (SIN_bound u) as [Hs0 Hs1]
    end.
    rewrite Rabs_mult.
    rewrite <- (Rmult_1_l (Rabs (rotationSpeed h))) at 2.
    apply Rmult_le_compat_r; [apply Rabs_pos|]. apply Rabs_le. lra.
Qed.

End Seeded.

(** A particle to run the lemmas on. *)
Definition still_heart : HeartParticle R :=
  mkHeart 0 0 40 "#FF2400" 1 50 0 0 0 0.

Lemma still_heart_in_range :
  in_range FallingHeartsEmoji.compositionConfig still_heart.
Proof.
  unfold in_range, still_heart, COLORS.
  cbn [x size color speedMultiplier swayAmplitude swayPhase rotationSpeed
         rotationPhase startYOffset height compositionConfig In].
  pose proof PI_RGT_0 as Hpi.
  repeat split; try lra. left. reflexivity.
Qed.

Lemma particles_in_range_witness :
  exists hearts : list (HeartParticle R),
    generate (H1 := DefaultRenders.sample_random)
      FallingHeartsEmoji.compositionConfig = Ok hearts /\
    List.length hearts = 50%nat /\
    Forall (in_range FallingHeartsEmoji.compositionConfig) hearts.
Proof.
  apply (particles_in_range (seeded := DefaultRenders.sample_random)
           DefaultRenders.sample_random_range
           FallingHeartsEmoji.compositionConfig).
  reflexivity.
Defined.

Lemma heart_stays_in_the_loop_witness :
  exists finalX finalY rot : R,
    heart_element FallingHeartsEmoji.compositionConfig (1 / 2) still_heart
    = Ok (Node "div"
            [("key", VNum 0);
             ("style",
               VObj [("position", str "absolute");
                     ("left", VNum 0);
                     ("top", VNum 0);
                     ("transform",
                       VStr [Lit "translate("; Num finalX; Lit "px, ";
                             Num finalY; Lit "px) rotate("; Num rot;
                             Lit "deg)"]);
                     ("color", str "#FF2400");
                     ("fontSize", VStr [Num 40; Lit "px"]);
                     ("opacity", VNum (dec 85 100))])]
            [Node "FaHeart" [] []]) /\
    -200 <= finalY < 2160 + 200 /\
    Rabs (finalX - 0 * 3840) <= 50 /\
    Rabs rot <= Rabs 0.
Proof.
  apply (heart_stays_in_the_loop FallingHeartsEmoji.compositionConfig (1 / 2)
           still_heart).
  - reflexivity.
  - lra.
  - exact still_heart_in_range.
Defined.

End FallingHeartsFacts.

(** ** NeonEKG: the generator and the trace *)

Module NeonEKGTrace.
Import Analytic NeonEKG NeonEKGFacts.
Local Open Scope R_scope.

(** At most one draw for each of the 400 trail points. *)
Lemma draws_bound (flatline frame : Z) (fuel : nat) (i : Z) :
  (5 * Z.of_nat (draws flatline frame fuel i) <= Z.max 0 (2004 - i))%Z.
Proof.
  revert i. induction fuel as [|fuel IH]; intro i; cbn [draws]; [lia|].
  destruct (i <? 2000)%Z eqn:Hi; [|lia]. apply Z.ltb_lt in Hi.
  destruct (frame * 15 - i <? 0)%Z; [lia|].
  specialize (IH (i + 5)%Z).
  destruct (frame * 15 - i <? flatline * 15)%Z; lia.
Qed.

(** No draw while the head has not reached the flatline. *)
Lemma draws_before (flatline frame : Z) (fuel : nat) (i : Z) :
  (frame < flatline)%Z -> (0 <= i)%Z -> draws flatline frame fuel i = 0%nat.
Proof.
  intro Hf. revert i. induction fuel as [|fuel IH]; intros i Hi; cbn [draws];
    [reflexivity|].
  destruct (i <? 2000)%Z; [|reflexivity].
  destruct (frame * 15 - i <? 0)%Z; [reflexivity|].
  replace (frame * 15 - i <? flatline * 15)%Z with true
    by (symmetry; apply Z.ltb_lt; lia).
  rewrite IH by lia. reflexivity.
Qed.

(** The head itself draws once it is at or past the flatline. *)
Lemma draws_after (flatline frame : Z) (fuel : nat) :
  (0 <= frame)%Z -> (flatline <= frame)%Z ->
  (1 <= draws flatline frame (S fuel) 0)%nat.
Proof.
  intros Hf Hflat. cbn [draws]. cbn [Z.ltb Z.compare].
  replace (frame * 15 - 0 <? 0)%Z with false
    by (symmetry; apply Z.ltb_ge; lia).
  replace (frame * 15 - 0 <? flatline * 15)%Z with false
    by (symmetry; apply Z.ltb_ge; lia).
  lia.
Qed.

(** X5.  The first render of NeonEKG reads the global generator only
    for the trail points at or past the flatline: it returns, draws
    nothing when the frame is before flatlineStart, draws at least once
    when the frame is non-negative and at or past flatlineStart, and
    never draws more than 400 values. *)
Theorem random_only_past_the_flatline (props : EKGProps) (frame : Z)
    (cfg : VideoConfig) (e : nat -> R) (n : nat) :
  beatFrequency props <> 0%Z -> width cfg <> 0%Z ->
  exists (tree : Element R) (w' : World (Hooks R) R),
    NeonEKG props frame cfg (mkWorld (mkHooks None None) e n) = Ok (tree, w') /\
    (n <= drawn w' <= n + 400)%nat /\
    ((frame < flatlineStart props)%Z -> drawn w' = n) /\
    ((0 <= frame)%Z -> (flatlineStart props <= frame)%Z -> (n < drawn w')%nat).
Proof.
  intros Hbf Hw.
  destruct (first_render props frame cfg e n Hbf Hw)
    as [tree [w' [Hrun [_ Hdrawn]]]].
  exists tree, w'. split; [exact Hrun|]. rewrite Hdrawn.
  split; [|split].
  - pose proof (draws_bound (flatlineStart props) frame (passes 0 2000 5) 0).
    lia.
  - intro Hbefore. rewrite draws_before by lia. lia.
  - intros Hf Hflat.
    change (passes 0 2000 5) with (S 400).
    pose proof (draws_after (flatlineStart props) frame 400 Hf Hflat). lia.
Qed.

Lemma random_only_past_the_flatline_witness :
  exists (tree : Element R) (w' : World (Hooks R) R),
    NeonEKG defaultProps 100 compositionConfig
      (mkWorld (mkHooks None None) (fun _ => 0) 7) = Ok (tree, w') /\
    (7 <= drawn w' <= 7 + 400)%nat /\
    ((100 < flatlineStart defaultProps)%Z -> drawn w' = 7%nat) /\
    ((0 <= 100)%Z -> (flatlineStart defaultProps <= 100)%Z ->
     (7 < drawn w')%nat).
Proof.
  apply (random_only_past_the_flatline defaultProps 100 compositionConfig
           (fun _ => 0) 7%nat); discriminate.
Defined.

(** The deflection of the scrolling trace. *)
Lemma scroll_wave_bounds (beatProgress : R) :
  -400 <= scroll_wave beatProgress <= 80.
Proof.
  unfold scroll_wave.
  cbn [ofZ sub mul JsNum_R Math_sin Math_PI JsMath_R].
  repeat match goal with
         | |- context [if ?c then _ else _] => destruct c
         end;
    repeat match goal with
           | |- context [sin ?u] =>
               lazymatch goal with
               | _ : -1 <= sin u |- _ => fail
               | _ => pose proof (SIN_bound u) as [? ?]
               end
           end;
    lra.
Qed.

(** A point of the trace: its pixel column and its height around the
    middle of the screen. *)
Definition plotted (cfg : VideoConfig) (s : Str R) : Prop :=
  exists (x : Z) (y : R),
    s = [Num (IZR x); Lit ","; Num (IZR (height cfg) / 2 + y)] /\
    (0 <= x <= width cfg)%Z /\ (x mod 10 = 0)%Z /\ -400 <= y <= 80.

Lemma polyline_body_plots (props : EKGProps) (frame : Z) (cfg : VideoConfig)
    (x : Z) (p : list (Str R)) :
  beatFrequency props <> 0%Z ->
  (0 <= x <= width cfg)%Z -> (x mod 10 = 0)%Z ->
  Forall (plotted cfg) p ->
  exists p' : list (Str R),
    polyline_body props frame cfg x p = Ok (Continue p') /\
    Forall (plotted cfg) p' /\
    (List.length p' <= S (List.length p))%nat.
Proof.
  intros Hbf Hx Hmod Hp. unfold polyline_body, div, rem. cbv zeta.
  cbn [ofZ JsNum_R]. rewrite (eqb_nonzero 20) by lia.
  rewrite (eqb_nonzero _ Hbf). cbn [Result_bind].
  destruct (ltb _ 0).
  - exists p. split; [reflexivity|]. split; [exact Hp | lia].
  - assert (Hpush : forall y, -400 <= y <= 80 ->
              Forall (plotted cfg)
                (p ++ [[Num (IZR x); Lit ",";
                        Num (quo (IZR (height cfg)) 2 + y)]])).
    { intros y Hy. apply Forall_app. split; [exact Hp|].
      constructor; [|constructor]. exists x, y.
      split; [reflexivity|]. split; [exact Hx|]. split; [exact Hmod | exact Hy]. }
    destruct (ltb _ (IZR (flatlineStart props))); cbn [Result_bind];
      eexists; (split; [reflexivity|]); (split; [|rewrite length_app; cbn; lia]).
    + apply Hpush. apply scroll_wave_bounds.
    + apply Hpush. cbn [Math_sin JsMath_R mul JsNum_R].
      match goal with
      | |- _ <= sin ?u * 2 <= _ => pose proof (SIN_bound u) as [? ?]
      end. lra.
Qed.

Lemma polyline_loop_plots (props : EKGProps) (frame : Z) (cfg : VideoConfig) :
  beatFrequency props <> 0%Z ->
  forall (fuel : nat) (x : Z) (p : list (Str R)) (w : World (Hooks R) R),
    (0 <= x)%Z -> (x mod 10 = 0)%Z -> Forall (plotted cfg) p ->
    exists p' : list (Str R),
      for_loop fuel x 10 (fun x => (x <=? width cfg)%Z)
        (fun x p => lift (polyline_body props frame cfg x p)) p w
      = Ok (p', w) /\
      Forall (plotted cfg) p' /\
      (List.length p' <= List.length p + fuel)%nat.
Proof.
  intro Hbf. induction fuel as [|fuel IH]; intros x p w Hx Hmod Hp;
    cbn [for_loop].
  - exists p. split; [reflexivity|]. split; [exact Hp | lia].
  - destruct (x <=? width cfg)%Z eqn:Hle.
    + apply Z.leb_le in Hle.
      destruct (polyline_body_plots props frame cfg x p Hbf
                  (conj Hx Hle) Hmod Hp) as [p1 [Hbody [Hp1 Hlen]]].
      unfold Render_bind, lift. rewrite Hbody.
      destruct (IH (x + 10)%Z p1 w) as [p2 [Hrun [Hp2 Hlen2]]];
        [lia | | exact Hp1 |].
      { rewrite Z.add_mod, Hmod by lia. reflexivity. }
      exists p2. split; [exact Hrun|]. split; [exact Hp2 | lia].
    + exists p. split; [reflexivity|]. split; [exact Hp | lia].
Qed.

(** X6.  The trace NeonEKG draws stays in its band: the loop that builds
    polylinePoints returns, leaves the world alone, and every point it
    plots is a pixel column of [0, width] that is a multiple of 10, with a
    height between 400 above and 80 below the middle of the screen; it
    plots at most one point for each such column. *)
Theorem trace_stays_in_its_band (props : EKGProps) (frame : Z)
    (cfg : VideoConfig) (w : World (Hooks R) R) :
  beatFrequency props <> 0%Z ->
  exists p : list (Str R),
    for_loop (passes 0 (width cfg) 10) 0 10 (fun x => (x <=? width cfg)%Z)
      (fun x p => lift (polyline_body props frame cfg x p)) [] w
    = Ok (p, w) /\
    Forall (plotted cfg) p /\
    (List.length p <= passes 0 (width cfg) 10)%nat.
Proof.
  intro Hbf.
  destruct (polyline_loop_plots props frame cfg Hbf
              (passes 0 (width cfg) 10) 0 [] w) as [p [Hrun [Hp Hlen]]];
    [lia | reflexivity | constructor |].
  exists p. split; [exact Hrun|]. split; [exact Hp | exact Hlen].
Qed.

Lemma trace_stays_in_its_band_witness :
  exists p : list (Str R),
    for_loop (passes 0 3840 10) 0 10 (fun x => (x <=? 3840)%Z)
      (fun x p => lift (polyline_body defaultProps 100 compositionConfig x p))
      [] (mkWorld (@mkHooks R None None) (fun _ => 0) 0)
    = Ok (p, mkWorld (@mkHooks R None None) (fun _ => 0) 0) /\
    Forall (plotted compositionConfig) p /\
    (List.length p <= passes 0 3840 10)%nat.
Proof.
  apply (trace_stays_in_its_band defaultProps 100 compositionConfig
           (mkWorld (@mkHooks R None None) (fun _ => 0) 0)).
  discriminate.
Defined.
End NeonEKGTrace.

(** ** GlowingLights: the wires and the bulbs *)

Module GlowingLightsFacts.
Import Analytic Periodic Reading GlowingLightsString.
Local Open Scope R_scope.

(** The flicker of a bulb stays inside the range it is interpolated
    from. *)
Lemma flicker_range (a b : R) :
  85 / 100 <= sin a * (1 / 10) + sin b * (5 / 100) + 1 <= 115 / 100.
Proof.
  pose proof (SIN_bound a) as [? ?]. pose proof (SIN_bound b) as [? ?]. lra.
Qed.

(** X7.  A bulb of GlowingLights never leaves its glow range: whenever
    durationInFrames is not 0 the bulb renders, with an opacity in
    [0.7, 1] and a brightness in [1, 1.8], for every frame, seed and
    scale. *)
Theorem bulb_glow_in_range (p : BulbProps R) :
  bulb_durationInFrames p <> 0 ->
  exists (tree : Element R) (opacity boost : R),
    Bulb p = Ok tree /\
    style "opacity" tree = Some (VNum opacity) /\
    7 / 10 <= opacity <= 1 /\
    style "filter" tree
    = Some (VStr [Lit "brightness("; Num boost; Lit ") contrast(1.2)"]) /\
    1 <= boost <= 18 / 10.
Proof.
  intro Hd. unfold Bulb. rewrite div_value by exact Hd. cbn [Result_bind].
  cbv zeta. unfold dec.
  cbn [ofZ add mul quo JsNum_R Math_sin Math_PI JsMath_R].
  set (u := currentFrame p / bulb_durationInFrames p * PI * 2 * 15
            + bulb_seed p * 10).
  set (v := currentFrame p / bulb_durationInFrames p * PI * 2 * 7
            + bulb_seed p * 20).
  pose proof (flicker_range u v) as Hflicker.
  set (flicker := sin u * (1 / 10) + sin v * (5 / 100) + 1) in *.
  clearbody flicker.
  rewrite !real_interpolate_segment by lra. cbn [Result_bind].
  rewrite !extended_segment by lra.
  do 3 eexists. split; [reflexivity|].
  split; [reflexivity|]. split.
  - split.
    + assert (0 <= (flicker - 85 / 100) / (115 / 100 - 85 / 100) * (1 - 7 / 10))
        by (apply Rmult_le_pos; [apply Rmult_le_pos|]; try lra;
            left; apply Rinv_0_lt_compat; lra).
      lra.
    + replace ((flicker - 85 / 100) / (115 / 100 - 85 / 100) * (1 - 7 / 10))
        with (flicker - 85 / 100) by field. lra.
  - split; [reflexivity|].
    replace ((flicker - 85 / 100) / (115 / 100 - 85 / 100) * (18 / 10 - 1) + 1)
      with ((flicker - 85 / 100) * (8 / 3) + 1) by field. lra.
Qed.

Lemma bulb_glow_in_range_witness :
  exists (tree : Element R) (opacity boost : R),
    Bulb (mkBulb 0 0 1 0 "#ffaa00" "#ffdd55" 300 12) = Ok tree /\
    style "opacity" tree = Some (VNum opacity) /\
    7 / 10 <= opacity <= 1 /\
    style "filter" tree
    = Some (VStr [Lit "brightness("; Num boost; Lit ") contrast(1.2)"]) /\
    1 <= boost <= 18 / 10.
Proof.
  apply (bulb_glow_in_range (mkBulb 0 0 1 0 "#ffaa00" "#ffdd55" 300 12)).
  cbn [bulb_durationInFrames]. lra.
Defined.

Section Seeded.
Context {seeded : SeededRandom R}.

(** The bulbs placed on string [index]: 5 more on the even strings. *)
Definition bulbs_on (props : GlowingLightsProps) (index : Z) : Z :=
  (bulbCount props + (if Z.even index then 5 else 0))%Z.

Lemma parity (index : Z) :
  (0 <= index)%Z ->
  rem (IZR index) (IZR 2) = Ok (IZR (index mod 2)) /\
  eqb (IZR (index mod 2)) (IZR 0) = Z.even index.
Proof.
  intro Hi. split; [apply rem_integers; lia|].
  rewrite Zeven_mod.
  destruct (Z.eqb_spec (index mod 2) 0) as [-> | Hne].
  - apply real_eqb_true. reflexivity.
  - apply real_eqb_false. intro H0. apply eq_IZR in H0. contradiction.
Qed.

(** Where the code puts a bulb of a string, and how it seeds it: the
    point of the wire's curve at t = (id + 1) / (count + 1), with the
    control point the wire is drawn with. *)
Definition placed_on_the_wire (wire : LightString R) (index count : Z)
    (b : Placed R) : Prop :=
  let midX := (x (start wire) + x (finish wire)) / 2 in
  let midY := (y (start wire) + y (finish wire)) / 2 + sag wire in
  pos b = getPointOnCurve (start wire) (mkPoint midX (midY + sag wire))
            (finish wire) ((IZR (id b) + 1) / (IZR count + 1)) /\
  seed b = random (IZR index * 100 + IZR (id b)).

(** X9.  The bulbs of a GlowingLights string: string [index] carries
    bulbCount bulbs, 5 more when [index] is even, numbered from 0 in
    order; bulb [i] of [n] is the point of the wire's own curve at
    t = (i + 1) / (n + 1), and its seed is random(index * 100 + i). *)
Theorem bulbs_sit_on_the_wire (props : GlowingLightsProps) (wire : LightString R)
    (index : Z) :
  (0 <= index)%Z -> (0 <= bulbCount props)%Z ->
  (bulbCount props + 5 < 2 ^ 32)%Z ->
  let midX := (x (start wire) + x (finish wire)) / 2 in
  let midY := (y (start wire) + y (finish wire)) / 2 + sag wire in
  exists bulbs : list (Placed R),
    place_bulbs props wire index midX midY = Ok bulbs /\
    List.length bulbs = Z.to_nat (bulbs_on props index) /\
    List.map (@id R) bulbs = indices (Z.to_nat (bulbs_on props index)) /\
    Forall (placed_on_the_wire wire index (bulbs_on props index)) bulbs.
Proof.
  intros Hi Hcount Hmax midX midY. unfold place_bulbs.
  destruct (parity index Hi) as [Hrem Heven].
  cbn [ofZ JsNum_R]. rewrite Hrem. cbn [Result_bind].
  cbn [eqb ofZ JsNum_R] in *. rewrite Heven.
  fold (bulbs_on props index).
  assert (Hn : (0 <= bulbs_on props index < 2 ^ 32)%Z)
    by (unfold bulbs_on; destruct (Z.even index); lia).
  set (n := bulbs_on props index) in *. clearbody n.
  unfold new_Array.
  replace ((n <? 0)%Z || (2 ^ 32 <=? n)%Z) with false
    by (symmetry; apply orb_false_iff; split;
        [apply Z.ltb_ge | apply Z.leb_gt]; lia).
  cbn [Result_bind]. unfold indices.
  assert (Hall : forall (k : nat) (from : nat),
            exists bulbs : list (Placed R),
              mapM (fun i : Z =>
                      Result_bind (div (IZR i + IZR 1) (IZR n + IZR 1))
                        (fun t =>
                           Ok (mkPlaced
                                 (getPointOnCurve (start wire)
                                    (mkPoint midX (midY + sag wire))
                                    (finish wire) t)
                                 i (random (IZR index * IZR 100 + IZR i)))))
                (List.map Z.of_nat (seq from k)) = Ok bulbs /\
              List.map (@id R) bulbs = List.map Z.of_nat (seq from k) /\
              Forall (placed_on_the_wire wire index n) bulbs).
  { induction k as [|k IH]; intro from; cbn [seq List.map mapM].
    - exists []. repeat split. constructor.
    - destruct (IH (S from)) as [rest [Hrun [Hids Hrest]]].
      rewrite div_value by (pose proof (IZR_le _ _ (proj1 Hn)); lra).
      cbn [Result_bind]. rewrite Hrun. cbn [Result_bind].
      eexists. split; [reflexivity|]. split.
      + cbn [List.map id]. rewrite Hids. reflexivity.
      + constructor; [|exact Hrest].
        unfold placed_on_the_wire. cbn [id pos seed].
        split; reflexivity. }
  destruct (Hall (Z.to_nat n) 0%nat) as [bulbs [Hrun [Hids Hplaced]]].
  exists bulbs. split; [exact Hrun|]. split; [|split; assumption].
  rewrite <- (length_map (@id R) bulbs), Hids, length_map, length_seq.
  reflexivity.
Qed.
End Seeded.

Lemma bulbs_sit_on_the_wire_witness :
  exists bulbs : list (Placed R),
    place_bulbs (H1 := DefaultRenders.sample_random) defaultProps
      (mkString (mkPoint (-100) 100) (mkPoint 1536 300) 240) 0
      ((-100 + 1536) / 2) ((100 + 300) / 2 + 240) = Ok bulbs /\
    List.length bulbs = 20%nat /\
    List.map (@id R) bulbs = indices 20 /\
    Forall (placed_on_the_wire (seeded := DefaultRenders.sample_random)
              (mkString (mkPoint (-100) 100) (mkPoint 1536 300) 240) 0 20)
           bulbs.
Proof.
  apply (bulbs_sit_on_the_wire (seeded := DefaultRenders.sample_random)
           defaultProps
           (mkString (mkPoint (-100) 100) (mkPoint 1536 300) 240) 0);
    cbn [bulbCount defaultProps]; lia.
Defined.
End GlowingLightsFacts.

(** ** ErrorCross: the rejection shake *)

Module ErrorCrossFacts.
Import Analytic ErrorCross.
Local Open Scope R_scope.

Lemma exp_6 : 60 < exp 6.
Proof.
  pose proof (exp_ineq1_le 1) as H1.
  replace 6 with (1 + (1 + (1 + (1 + (1 + 1))))) by ring.
  rewrite !exp_plus. pose proof (exp_pos 1) as Hpos.
  set (e := exp 1) in *. clearbody e.
  assert (H2 : 4 <= e * e) by nra.
  assert (H3 : 8 <= e * (e * e)) by nra.
  assert (H4 : 16 <= e * (e * (e * e))) by nra.
  assert (H5 : 32 <= e * (e * (e * (e * e)))) by nra.
  nra.
Qed.

(** The shake past its start: a sine under the decaying envelope. *)
Lemma translateX_value (frame : Z) :
  (25 < frame)%Z ->
  translateX frame
  = sin ((IZR frame - 25) * (9 / 10)) * 60
    * exp (- (18 / 100 * (IZR frame - 25))).
Proof.
  intro Hf. apply IZR_lt in Hf. unfold translateX, Math_max, neg, dec.
  change scaleStartFrame with 20%Z.
  cbn [ofZ add sub mul quo ltb JsNum_R Math_sin Math_exp JsMath_R].
  replace (20 + 5) with 25 by ring.
  destruct (Rlt_dec 25 (IZR frame)) as [_ | Hn]; [|lra].
  destruct (Rlt_dec 0 (IZR frame - 25)) as [_ | Hn]; [|lra].
  f_equal. f_equal. ring.
Qed.

(** X10.  The rejection shake of ErrorCross: there is none up to frame
    25; after it the horizontal offset is bounded by the envelope
    60 exp(-0.18 (frame - 25)), so it never reaches 60 pixels and is
    below one pixel from frame 59 on. *)
Theorem shake_dies_out (frame : Z) :
  ((frame <= 25)%Z -> translateX frame = 0) /\
  ((25 < frame)%Z ->
     Rabs (translateX frame) <= 60 * exp (- (18 / 100 * (IZR frame - 25)))) /\
  Rabs (translateX frame) < 60 /\
  ((59 <= frame)%Z -> Rabs (translateX frame) < 1).
Proof.
  assert (Hzero : (frame <= 25)%Z -> translateX (N := R) frame = 0).
  { intro Hf. apply IZR_le in Hf. unfold translateX.
    change scaleStartFrame with 20%Z.
    cbn [ofZ add ltb JsNum_R]. replace (20 + 5) with 25 by ring.
    destruct (Rlt_dec 25 (IZR frame)) as [Hlt | _]; [lra | reflexivity]. }
  assert (Henvelope : (25 < frame)%Z ->
            Rabs (translateX frame)
            <= 60 * exp (- (18 / 100 * (IZR frame - 25)))).
  { intro Hf. rewrite (translateX_value frame Hf).
    pose proof (SIN_bound ((IZR frame - 25) * (9 / 10))) as [Hs0 Hs1].
    pose proof (exp_pos (- (18 / 100 * (IZR frame - 25)))) as Hpos.
    rewrite !Rabs_mult, (Rabs_pos_eq 60), (Rabs_pos_eq (exp _)) by lra.
    assert (Hsin : Rabs (sin ((IZR frame - 25) * (9 / 10))) <= 1)
      by (apply Rabs_le; lra).
    pose proof (Rabs_pos (sin ((IZR frame - 25) * (9 / 10)))) as Habs.
    set (s := Rabs _) in *. clearbody s.
    set (d := exp _) in *. clearbody d. nra. }
  split; [exact Hzero|]. split; [exact Henvelope|]. split.
  - destruct (Z_le_gt_dec frame 25) as [Hle | Hgt].
    + rewrite (Hzero Hle), Rabs_R0. lra.
    + assert (Hf : (25 < frame)%Z) by lia.
      pose proof (Henvelope Hf) as Hb. apply IZR_lt in Hf.
      assert (Hdecay : exp (- (18 / 100 * (IZR frame - 25))) < exp 0)
        by (apply exp_increasing; lra).
      rewrite exp_0 in Hdecay. lra.
  - intro Hf. pose proof (Henvelope ltac:(lia)) as Hb. apply IZR_le in Hf.
    rewrite exp_Ropp in Hb.
    assert (Hbig : exp 6 <= exp (18 / 100 * (IZR frame - 25))).
    { destruct (Req_dec 6 (18 / 100 * (IZR frame - 25))) as [<- | Hne];
        [lra|]. left. apply exp_increasing. lra. }
    pose proof exp_6 as H6.
    assert (Hinv : / exp (18 / 100 * (IZR frame - 25)) < / 60)
      by (apply Rinv_lt_contravar; [apply Rmult_lt_0_compat|]; lra).
    lra.
Qed.
End ErrorCrossFacts.

(** ** NeonGrowth: the bobbing arrows *)

Module NeonGrowthFacts.
Import Analytic Periodic NeonGrowth.
Local Open Scope R_scope.

(** X11.  The arrows of NeonGrowth bob within 80 pixels of their rest
    position, whatever their offset, and an arrow without offset starts
    at rest (float 0 at frame 0).  The glow breathes between 10 and 25
    pixels. *)
Theorem arrows_bob_in_range (cfg : VideoConfig) (frame : Z) (offset : R) :
  durationInFrames cfg <> 0%Z ->
  exists v g : R,
    getFloat frame cfg offset = Ok v /\
    -80 <= v <= 80 /\
    getFloat 0 cfg 0 = Ok 0 /\
    glowPulse frame = Ok g /\
    10 <= g <= 25.
Proof.
  intro Hd. assert (Hd' : IZR (durationInFrames cfg) <> 0)
    by (apply not_0_IZR; exact Hd).
  unfold getFloat, glowPulse. cbn [ofZ add JsNum_R].
  rewrite !div_value by exact Hd'. cbn [Result_bind].
  cbn [mul quo JsNum_R Math_sin Math_PI JsMath_R].
  rewrite real_interpolate_segment by lra.
  rewrite extended_segment by lra.
  do 2 eexists. split; [reflexivity|]. split; [|split; [|split]].
  - match goal with
    | |- _ <= sin ?u * 80 <= _ => pose proof (SIN_bound u) as [? ?]
    end. lra.
  - f_equal.
    replace ((0 + 0) / IZR (durationInFrames cfg) * PI * 4) with 0
      by (field; exact Hd').
    rewrite sin_0. ring.
  - reflexivity.
  - pose proof (SIN_bound (IZR frame / 10)) as [? ?]. lra.
Qed.

Lemma arrows_bob_in_range_witness :
  exists v g : R,
    getFloat 45 compositionConfig 20 = Ok v /\
    -80 <= v <= 80 /\
    getFloat 0 compositionConfig 0 = Ok 0 /\
    glowPulse 45 = Ok g /\
    10 <= g <= 25.
Proof.
  apply (arrows_bob_in_range compositionConfig 45 20). discriminate.
Defined.
End NeonGrowthFacts.

(** ** FloatingSlider: the knob *)

Module FloatingSliderFacts.
Import Analytic Reading ZenProgressBarFacts FloatingSlider.
Local Open Scope R_scope.

(** The eased progress at a non-negative frame. *)
Lemma slider_progress_value (cfg : VideoConfig) (f : Z) :
  (30 < durationInFrames cfg)%Z -> (0 <= f)%Z ->
  progress f cfg
  = Ok (ease (elapsed (durationInFrames cfg - 30) f) * (100 - 0) + 0).
Proof.
  intros HD Hf. unfold progress.
  change (Easing_bezier (dec 25 100) (dec 1 10) (dec 25 100) (ofZ 1))
    with (ZenProgressBar.progressEase (N := R)).
  rewrite progressEase_value. cbn [Result_bind ofZ sub JsNum_R].
  assert (HDr : 0 < IZR (durationInFrames cfg) - 30)
    by (apply IZR_lt in HD; lra).
  rewrite real_interpolate_segment by exact HDr. f_equal.
  unfold interpolateFunction, elapsed. rewrite (minus_IZR (durationInFrames cfg)).
  cbn [extrapolateLeft extrapolateRight easing ofZ sub mul add quo JsNum_R].
  replace (eqb 0 100) with false by (symmetry; apply real_eqb_false; lra).
  replace (ltb (IZR f) 0) with false
    by (symmetry; apply real_ltb_false; apply IZR_le; exact Hf).
  cases_ltb (IZR (durationInFrames cfg) - 30) (IZR f).
  - rewrite <- minus_IZR in E. apply lt_IZR in E.
    replace (Z.min f (durationInFrames cfg - 30))
      with (durationInFrames cfg - 30)%Z by lia.
    rewrite minus_IZR. reflexivity.
  - rewrite <- minus_IZR in E. apply le_IZR in E.
    replace (Z.min f (durationInFrames cfg - 30)) with f by lia.
    reflexivity.
Qed.

(** X12.  The knob of FloatingSlider stays on its track: at every
    non-negative frame the slider renders, the fill is as wide as the
    knob is far along, between 0 and barWidth, and the label shows a
    whole percentage between 0 and 100; from 30 frames before the end
    the knob rests at barWidth and the label shows 100. *)
Theorem knob_stays_on_the_track (props : SliderProps) (cfg : VideoConfig)
    (f : Z) :
  (30 < durationInFrames cfg)%Z -> (0 <= f)%Z -> (0 <= barWidth props)%Z ->
  exists (tree : Element R) (x : R) (percent : Z),
    FloatingSlider props f cfg = Ok tree /\
    style_at [0; 1]%nat "width" tree = Some (VNum x) /\
    style_at [0; 2]%nat "transform" tree
    = Some (VStr [Lit "translate("; Num x; Lit "px, -50%)"]) /\
    children_at [0; 2; 0]%nat tree = Some [Text [Num (IZR percent); Lit "%"]] /\
    0 <= x <= IZR (barWidth props) /\
    (0 <= percent <= 100)%Z /\
    ((durationInFrames cfg - 30 <= f)%Z ->
       x = IZR (barWidth props) /\ percent = 100%Z).
Proof.
  intros HD Hf Hbar. unfold FloatingSlider.
  rewrite (slider_progress_value cfg f HD Hf). cbn [Result_bind]. cbv zeta.
  pose proof (ease_range (elapsed (durationInFrames cfg - 30) f)) as He.
  assert (Hend : (durationInFrames cfg - 30 <= f)%Z ->
                 ease (elapsed (durationInFrames cfg - 30) f) = 1).
  { intro Hlate. unfold elapsed.
    replace (Z.min f (durationInFrames cfg - 30))
      with (durationInFrames cfg - 30)%Z by lia.
    assert (HDr : 0 < IZR (durationInFrames cfg - 30))
      by (apply IZR_lt; lia).
    replace ((IZR (durationInFrames cfg - 30) - 0)
             / (IZR (durationInFrames cfg - 30) - 0)) with 1 by (field; lra).
    apply ease_end. }
  set (p := ease (elapsed (durationInFrames cfg - 30) f)) in *. clearbody p.
  apply IZR_le in Hbar.
  eexists. exists ((p * (100 - 0) + 0) / 100 * IZR (barWidth props)).
  exists (Zfloor (p * (100 - 0) + 0)).
  split; [reflexivity|]. split; [reflexivity|]. split; [reflexivity|].
  split; [reflexivity|]. split; [|split].
  - split; [|nra].
    apply Rmult_le_pos; [lra | exact Hbar].
  - split.
    + apply Zfloor_lub. lra.
    + apply le_IZR. pose proof (Zfloor_bound (p * (100 - 0) + 0)) as [Hlo _]. lra.
  - intro Hlate. rewrite (Hend Hlate). split; [field|].
    apply Zfloor_eq. lra.
Qed.

Lemma knob_stays_on_the_track_witness :
  exists (tree : Element R) (x : R) (percent : Z),
    FloatingSlider defaultProps 280 compositionConfig = Ok tree /\
    style_at [0; 1]%nat "width" tree = Some (VNum x) /\
    style_at [0; 2]%nat "transform" tree
    = Some (VStr [Lit "translate("; Num x; Lit "px, -50%)"]) /\
    children_at [0; 2; 0]%nat tree = Some [Text [Num (IZR percent); Lit "%"]] /\
    0 <= x <= IZR (barWidth defaultProps) /\
    (0 <= percent <= 100)%Z /\
    ((durationInFrames compositionConfig - 30 <= 280)%Z ->
       x = IZR (barWidth defaultProps) /\ percent = 100%Z).
Proof.
  apply (knob_stays_on_the_track defaultProps compositionConfig 280).
  - reflexivity.
  - lia.
  - discriminate.
Defined.
End FloatingSliderFacts.

(** ** NeonYearLoad: the loading bar *)

Module NeonYearLoadFacts.
Import Analytic Periodic Reading NeonYearLoad.
Local Open Scope R_scope.

(** The progress at a non-negative frame, as interpolate computes it:
    the fraction of the way first, then the percentage. *)
Lemma year_progress_value (cfg : VideoConfig) (f : Z) :
  (20 < durationInFrames cfg)%Z -> (0 <= f)%Z ->
  progress (N := R) f cfg
  = Ok (IZR (Z.min f (durationInFrames cfg - 20))
        / IZR (durationInFrames cfg - 20) * 100).
Proof.
  intros HD Hf. unfold progress. cbn [ofZ sub JsNum_R].
  assert (HDr : 0 < IZR (durationInFrames cfg) - 30 + 10)
    by (apply IZR_lt in HD; lra).
  rewrite real_interpolate_segment by lra. f_equal.
  unfold interpolateFunction, Easing_linear.
  cbn [extrapolateLeft extrapolateRight easing ofZ sub mul add quo JsNum_R].
  replace (eqb 0 100) with false by (symmetry; apply real_eqb_false; lra).
  replace (ltb (IZR f) 0) with false
    by (symmetry; apply real_ltb_false; apply IZR_le; exact Hf).
  rewrite (minus_IZR (durationInFrames cfg)).
  cases_ltb (IZR (durationInFrames cfg) - 20) (IZR f).
  - rewrite <- minus_IZR in E. apply lt_IZR in E.
    replace (Z.min f (durationInFrames cfg - 20))
      with (durationInFrames cfg - 20)%Z by lia.
    rewrite minus_IZR. field. lra.
  - rewrite <- minus_IZR in E. apply le_IZR in E.
    replace (Z.min f (durationInFrames cfg - 20)) with f by lia.
    field. lra.
Qed.

Section Seeded.
Context {seeded : SeededRandom R}.
Hypothesis random_range : forall seed : R, 0 <= random seed < 1.

(** X13.  The loading bar of NeonYearLoad: at every non-negative frame
    the fill is (min(frame, D) / D) * 100 percent wide, where
    D = durationInFrames - 20, between 0 and 100, and the label shows its
    floor; from frame D on the bar is full and the label reads 100.  The
    glow flickers by a factor in [0.9, 1.1) and the arrows between the
    labels pulse between opacity 0.5 and 1. *)
Theorem loading_bar_fills (props : NeonProps) (cfg : VideoConfig) (f : Z) :
  (20 < durationInFrames cfg)%Z -> (0 <= f)%Z ->
  exists (tree : Element R) (fill flick pulse : R),
    NeonYearLoad props f cfg = Ok tree /\
    style_at [1; 1; 0]%nat "width" tree = Some (VStr [Num fill; Lit "%"]) /\
    fill = IZR (Z.min f (durationInFrames cfg - 20))
           / IZR (durationInFrames cfg - 20) * 100 /\
    0 <= fill <= 100 /\
    children_at [1; 0; 1]%nat tree
    = Some [Text [Num (IZR (Zfloor fill)); Lit "%"]] /\
    ((durationInFrames cfg - 20 <= f)%Z -> fill = 100 /\ Zfloor fill = 100%Z) /\
    style_at [1; 1]%nat "boxShadow" tree
    = Some (VStr [Lit "0 0 "; Num (IZR (glowIntensity props) * flick);
                  Lit "px "; Lit (primaryColor props);
                  Lit ", inset 0 0 "; Num (10 * flick);
                  Lit "px "; Lit (primaryColor props)]) /\
    9 / 10 <= flick < 11 / 10 /\
    style_at [1; 2; 1]%nat "opacity" tree = Some (VNum pulse) /\
    1 / 2 <= pulse <= 1.
Proof.
  intros HD Hf. unfold NeonYearLoad.
  rewrite (year_progress_value cfg f HD Hf). cbn [Result_bind]. cbv zeta.
  unfold pulseOpacity, dec. cbn [ofZ quo JsNum_R Math_sin JsMath_R].
  rewrite real_interpolate_segment by lra. cbn [Result_bind].
  rewrite extended_segment by lra.
  unfold Math_floor. cbn [ofZ floorZ JsNum_R].
  set (D := (durationInFrames cfg - 20)%Z).
  assert (HDpos : 0 < IZR D) by (apply IZR_lt; unfold D; lia).
  assert (Hlow : 0 <= IZR (Z.min f D)) by (apply IZR_le; lia).
  assert (Hhigh : IZR (Z.min f D) <= IZR D) by (apply IZR_le; lia).
  assert (Hfraction : 0 <= IZR (Z.min f D) / IZR D <= 1).
  { split.
    - apply ratio_nonneg; assumption.
    - apply (Rmult_le_reg_r (IZR D)); [exact HDpos|].
      unfold Rdiv. rewrite Rmult_assoc, Rinv_l by lra. lra. }
  eexists. eexists. exists (flicker f). eexists.
  split; [reflexivity|]. split; [reflexivity|]. split; [reflexivity|].
  split; [lra|]. split; [reflexivity|]. split; [|split; [reflexivity|split; [|split]]].
  - intro Hfull. replace (Z.min f D) with D by lia.
    assert (Hhundred : IZR D / IZR D * 100 = 100) by (field; lra).
    rewrite Hhundred. split; [reflexivity|].
    apply Zfloor_eq. simpl. lra.
  - unfold flicker, dec. cbn [ofZ add mul quo JsNum_R].
    pose proof (random_range (IZR f)). lra.
  - reflexivity.
  - pose proof (SIN_bound (IZR f / 10)) as [? ?]. lra.
Qed.
End Seeded.

Lemma loading_bar_fills_witness :
  exists (tree : Element R) (fill flick pulse : R),
    NeonYearLoad (H1 := DefaultRenders.sample_random) defaultProps 65
      compositionConfig = Ok tree /\
    style_at [1; 1; 0]%nat "width" tree = Some (VStr [Num fill; Lit "%"]) /\
    fill = IZR (Z.min 65 (durationInFrames compositionConfig - 20))
           / IZR (durationInFrames compositionConfig - 20) * 100 /\
    0 <= fill <= 100 /\
    children_at [1; 0; 1]%nat tree
    = Some [Text [Num (IZR (Zfloor fill)); Lit "%"]] /\
    ((durationInFrames compositionConfig - 20 <= 65)%Z ->
     fill = 100 /\ Zfloor fill = 100%Z) /\
    style_at [1; 1]%nat "boxShadow" tree
    = Some (VStr [Lit "0 0 "; Num (IZR (glowIntensity defaultProps) * flick);
                  Lit "px "; Lit (primaryColor defaultProps);
                  Lit ", inset 0 0 "; Num (10 * flick);
                  Lit "px "; Lit (primaryColor defaultProps)]) /\
    9 / 10 <= flick < 11 / 10 /\
    style_at [1; 2; 1]%nat "opacity" tree = Some (VNum pulse) /\
    1 / 2 <= pulse <= 1.
Proof.
  apply (loading_bar_fills (seeded := DefaultRenders.sample_random)
           DefaultRenders.sample_random_range defaultProps compositionConfig 65).
  - reflexivity.
  - lia.
Defined.
End NeonYearLoadFacts.

(** ** ShapeShifter: the breathing morph *)

Module ShapeShifterFacts.
Import Analytic ZenProgressBarFacts ShapeShifter.
Local Open Scope R_scope.

(** Easing.ease on the reals. *)
Definition ease42 (x : R) : R :=
  if eqb x 0 then 0
  else if eqb x 1 then 1
  else calcBezier (getTForX (42 / 100) 1 x) 0 1.

Lemma Easing_ease_value : Easing_ease = Ok ease42.
Proof.
  unfold Easing_ease, Easing_bezier, dec. cbn [ofZ quo JsNum_R].
  replace (ltb (42 / 100) 0) with false by (symmetry; apply real_ltb_false; lra).
  replace (ltb 1 (42 / 100)) with false by (symmetry; apply real_ltb_false; lra).
  replace (ltb 1 0) with false by (symmetry; apply real_ltb_false; lra).
  replace (ltb 1 1) with false by (symmetry; apply real_ltb_false; lra).
  cbn [negb andb].
  replace (eqb (42 / 100) 0) with false
    by (symmetry; apply real_eqb_false; lra).
  cbn [andb]. reflexivity.
Qed.

Lemma ease42_range (x : R) : 0 <= ease42 x <= 1.
Proof.
  unfold ease42. cases_eqb x 0; [lra|]. cases_eqb x 1; [lra|].
  pose proof (getTForX_range (42 / 100) 1 x) as [Ht0 Ht1].
  set (t := getTForX (42 / 100) 1 x) in *. clearbody t.
  unfold calcBezier. cbn [ofZ add sub mul JsNum_R].
  assert (Hpoly : ((1 - 3 * 1 + 3 * 0) * t + (3 * 1 - 6 * 0)) * t + 3 * 0
                  = t * (3 - 2 * t)) by ring.
  rewrite Hpoly. split; [nra|].
  assert (0 <= (1 - t) * (1 - t) * (1 + 2 * t)) by (apply Rmult_le_pos; nra).
  nra.
Qed.

Lemma ease42_0 : ease42 0 = 0.
Proof. unfold ease42. cases_eqb 0 0; [reflexivity | lra]. Qed.

Lemma ease42_1 : ease42 1 = 1.
Proof.
  unfold ease42. cases_eqb 1 0; [lra|]. cases_eqb 1 1; [reflexivity | lra].
Qed.

(** Easing.inOut(Easing.ease): run forwards, then backwards. *)
Definition breathe : R -> R := Easing_inOut ease42.

Lemma breathe_range (t : R) : 0 <= breathe t <= 1.
Proof.
  unfold breathe, Easing_inOut, dec. cbn [ofZ sub mul quo JsNum_R].
  destruct (ltb t (5 / 10)).
  - pose proof (ease42_range (t * 2)). lra.
  - pose proof (ease42_range ((1 - t) * 2)). lra.
Qed.

(** The second half of the easing mirrors the first. *)
Lemma breathe_mirror (t : R) : breathe t + breathe (1 - t) = 1.
Proof.
  unfold breathe, Easing_inOut, dec. cbn [ofZ sub mul quo JsNum_R].
  cases_ltb t (5 / 10); cases_ltb (1 - t) (5 / 10); try lra.
  - replace ((1 - (1 - t)) * 2) with (t * 2) by ring. lra.
  - assert (Ht : t = 5 / 10) by lra. subst t.
    replace ((1 - (1 - 5 / 10)) * 2) with 1 by field.
    replace ((1 - 5 / 10) * 2) with 1 by field.
    rewrite ease42_1. lra.
Qed.

Lemma breathe_0 : breathe 0 = 0.
Proof.
  unfold breathe, Easing_inOut, dec. cbn [ofZ sub mul quo JsNum_R].
  cases_ltb 0 (5 / 10); [|lra]. rewrite Rmult_0_l, ease42_0. field.
Qed.

Lemma breathe_1 : breathe 1 = 1.
Proof. pose proof (breathe_mirror 0) as H. rewrite breathe_0 in H.
  replace (1 - 0) with 1 in H by ring. lra. Qed.

(** The radius the morph gives a frame: up on the first half of the
    composition, down on the second, nothing outside. *)
Definition radius_at (d x : R) : R :=
  if Rle_dec x 0 then 0
  else if Rle_dec x (d / 2) then breathe (x / (d / 2)) * 50
  else if Rle_dec x d then 50 - breathe ((x - d / 2) / (d / 2)) * 50
  else 0.

Lemma borderRadius_value (cfg : VideoConfig) (f : Z) :
  (0 < durationInFrames cfg)%Z ->
  borderRadius f cfg
  = Ok (radius_at (IZR (durationInFrames cfg)) (IZR f)).
Proof.
  intro HD. apply IZR_lt in HD. unfold borderRadius. cbv zeta.
  rewrite Easing_ease_value. cbn [Result_bind ofZ quo JsNum_R].
  change (Easing_inOut ease42) with breathe.
  set (d := IZR (durationInFrames cfg)) in *. set (x := IZR f).
  clearbody d x.
  unfold interpolate.
  cbn [List.length Nat.eqb Nat.ltb Nat.leb negb strictly_increasing].
  replace (ltb 0 (d / 2)) with true by (symmetry; apply real_ltb_true; lra).
  replace (ltb (d / 2) d) with true by (symmetry; apply real_ltb_true; lra).
  cbn [andb negb]. unfold findRange. cbn [tl findRange_from].
  assert (Hup : eqb 0 50 = false) by (apply real_eqb_false; lra).
  assert (Hdown : eqb 50 0 = false) by (apply real_eqb_false; lra).
  assert (H0 : breathe ((0 - 0) / (d / 2 - 0)) = 0)
    by (replace ((0 - 0) / (d / 2 - 0)) with 0 by (field; lra);
        apply breathe_0).
  assert (H1 : breathe ((d - d / 2) / (d - d / 2)) = 1)
    by (replace ((d - d / 2) / (d - d / 2)) with 1 by (field; lra);
        apply breathe_1).
  assert (H2 : breathe ((d / 2 - 0) / (d / 2 - 0)) = 1)
    by (replace ((d / 2 - 0) / (d / 2 - 0)) with 1 by (field; lra);
        apply breathe_1).
  assert (H3 : breathe ((d / 2 - d / 2) / (d - d / 2)) = 0)
    by (replace ((d / 2 - d / 2) / (d - d / 2)) with 0 by (field; lra);
        apply breathe_0).
  assert (H4 : breathe ((x - d / 2) / (d - d / 2))
               = breathe ((x - d / 2) / (d / 2)))
    by (f_equal; field; lra).
  assert (H5 : breathe ((x - 0) / (d / 2 - 0)) = breathe (x / (d / 2)))
    by (f_equal; field; lra).
  cases_ltb (d / 2) x; cbn [negb Nat.pred nth_error]; f_equal;
    unfold radius_at, interpolateFunction;
    cbn [extrapolateLeft extrapolateRight easing ofZ sub mul add quo JsNum_R];
    rewrite ?Hup, ?Hdown;
    repeat match goal with
           | |- context [ltb ?a ?b] => cases_ltb a b
           end;
    repeat match goal with
           | |- context [Rle_dec ?a ?b] => destruct (Rle_dec a b)
           end;
    try lra;
    rewrite ?H0, ?H1, ?H2, ?H3, ?H4, ?H5; try lra.
  assert (Hx : x = 0) by lra. subst x.
  replace (0 / (d / 2)) with 0 by (field; lra). rewrite breathe_0. ring.
Qed.

(** X14.  The morph of ShapeShifter breathes between a square and a
    circle: for a positive duration the border radius is a percentage in
    [0, 50] at every frame, 0 (a square) at frame 0, at the last frame and
    outside the composition, and 50 (a circle) half way when the duration
    is even. *)
Theorem morph_breathes (cfg : VideoConfig) :
  (0 < durationInFrames cfg)%Z ->
  (forall f : Z, exists r : R,
      borderRadius f cfg = Ok r /\ 0 <= r <= 50) /\
  (forall f : Z, (f <= 0)%Z \/ (durationInFrames cfg <= f)%Z ->
      borderRadius f cfg = Ok 0) /\
  (forall half : Z, (2 * half = durationInFrames cfg)%Z ->
      borderRadius half cfg = Ok 50).
Proof.
  intro HD. pose proof (IZR_lt _ _ HD) as HDr.
  split; [|split].
  - intro f. eexists. split; [apply borderRadius_value; exact HD|].
    unfold radius_at.
    destruct (Rle_dec _ 0); [lra|].
    destruct (Rle_dec _ _).
    + pose proof (breathe_range (IZR f / (IZR (durationInFrames cfg) / 2))). lra.
    + destruct (Rle_dec _ _); [|lra].
      pose proof (breathe_range ((IZR f - IZR (durationInFrames cfg) / 2)
                                 / (IZR (durationInFrames cfg) / 2))). lra.
  - intros f Hf. rewrite borderRadius_value by exact HD. f_equal.
    unfold radius_at. destruct Hf as [Hf | Hf]; apply IZR_le in Hf.
    + destruct (Rle_dec (IZR f) 0); [reflexivity | lra].
    + destruct (Rle_dec (IZR f) 0); [reflexivity|].
      destruct (Rle_dec (IZR f) (IZR (durationInFrames cfg) / 2)); [lra|].
      destruct (Rle_dec (IZR f) (IZR (durationInFrames cfg))); [|reflexivity].
      assert (Hf' : IZR f = IZR (durationInFrames cfg)) by lra. rewrite Hf'.
      replace ((IZR (durationInFrames cfg) - IZR (durationInFrames cfg) / 2)
               / (IZR (durationInFrames cfg) / 2)) with 1 by (field; lra).
      rewrite breathe_1. ring.
  - intros half Hhalf. rewrite borderRadius_value by exact HD. f_equal.
    assert (Hh : IZR (durationInFrames cfg) = 2 * IZR half)
      by (rewrite <- Hhalf, mult_IZR; reflexivity).
    unfold radius_at. rewrite Hh in *.
    destruct (Rle_dec (IZR half) 0); [lra|].
    destruct (Rle_dec (IZR half) (2 * IZR half / 2)); [|lra].
    replace (IZR half / (2 * IZR half / 2)) with 1 by (field; lra).
    rewrite breathe_1. ring.
Qed.

Lemma morph_breathes_witness :
  (0 < durationInFrames compositionConfig)%Z /\
  borderRadius 0 compositionConfig = Ok 0 /\
  borderRadius 150 compositionConfig = Ok 50 /\
  borderRadius 300 compositionConfig = Ok 0.
Proof.
  pose proof (morph_breathes compositionConfig eq_refl) as [_ [Hends Hhalf]].
  split; [reflexivity|]. split; [|split].
  - apply Hends. left. lia.
  - apply Hhalf. reflexivity.
  - apply Hends. right. simpl. lia.
Defined.
End ShapeShifterFacts.

(** ** SpeedDemonSpinner: the rotation *)

Module SpeedDemonRotation.
Import Analytic Periodic ZenProgressBarFacts SpeedDemonSpinner.
Local Open Scope R_scope.

(** The heavy rush easing on the reals. *)
Definition rush (x : R) : R :=
  if eqb x 0 then 0
  else if eqb x 1 then 1
  else calcBezier (getTForX (8 / 10) (2 / 10) x) 0 1.

Lemma heavyRushEasing_value : heavyRushEasing = Ok rush.
Proof.
  unfold heavyRushEasing, Easing_bezier, dec. cbn [ofZ quo JsNum_R].
  replace (ltb (8 / 10) 0) with false by (symmetry; apply real_ltb_false; lra).
  replace (ltb 1 (8 / 10)) with false by (symmetry; apply real_ltb_false; lra).
  replace (ltb (2 / 10) 0) with false by (symmetry; apply real_ltb_false; lra).
  replace (ltb 1 (2 / 10)) with false by (symmetry; apply real_ltb_false; lra).
  cbn [negb andb].
  replace (eqb (8 / 10) 0) with false
    by (symmetry; apply real_eqb_false; lra).
  cbn [andb]. reflexivity.
Qed.

Lemma rush_range (x : R) : 0 <= rush x <= 1.
Proof.
  unfold rush. cases_eqb x 0; [lra|]. cases_eqb x 1; [lra|].
  pose proof (getTForX_range (8 / 10) (2 / 10) x) as [Ht0 Ht1].
  set (t := getTForX (8 / 10) (2 / 10) x) in *. clearbody t.
  unfold calcBezier. cbn [ofZ add sub mul JsNum_R].
  assert (Hpoly : ((1 - 3 * 1 + 3 * 0) * t + (3 * 1 - 6 * 0)) * t + 3 * 0
                  = t * (3 - 2 * t)) by ring.
  rewrite Hpoly. split; [nra|].
  assert (0 <= (1 - t) * (1 - t) * (1 + 2 * t)) by (apply Rmult_le_pos; nra).
  nra.
Qed.

(** The cycle a frame falls in, and the rotation at the frame. *)
Definition cycle_of (d f : Z) : Z := Zfloor (IZR f / (IZR d / 2)).

Definition rotation_at (d f : Z) : R :=
  IZR (cycle_of d f) * 360
  + rush ((IZR f - IZR d / 2 * IZR (cycle_of d f)) / (IZR d / 2)) * 360.

Lemma totalRotation_at (cfg : VideoConfig) (f : Z) :
  (0 < durationInFrames cfg)%Z -> (0 <= f)%Z ->
  totalRotation f cfg = Ok (rotation_at (durationInFrames cfg) f).
Proof.
  intros HD Hf. apply IZR_lt in HD. apply IZR_le in Hf.
  unfold totalRotation. rewrite heavyRushEasing_value.
  cbn [Result_bind ofZ JsNum_R]. change (IZR cycles) with 2.
  rewrite div_value by lra. cbn [Result_bind].
  rewrite div_value by lra. cbn [Result_bind].
  destruct (rem_nonneg (IZR f) (IZR (durationInFrames cfg) / 2))
    as [-> [Hr0 Hr1]]; [lra | lra |].
  cbn [Result_bind].
  rewrite real_interpolate_segment by lra. cbn [Result_bind]. f_equal.
  unfold rotation_at, cycle_of, Math_floor. cbn [ofZ floorZ add mul JsNum_R].
  f_equal.
  unfold interpolateFunction.
  cbn [extrapolateLeft extrapolateRight easing ofZ sub mul add quo JsNum_R].
  replace (eqb 0 360) with false by (symmetry; apply real_eqb_false; lra).
  set (r := IZR f - IZR (durationInFrames cfg) / 2
                    * IZR (Zfloor (IZR f / (IZR (durationInFrames cfg) / 2))))
    in *.
  replace (ltb r 0) with false by (symmetry; apply real_ltb_false; lra).
  replace (ltb (IZR (durationInFrames cfg) / 2) r) with false
    by (symmetry; apply real_ltb_false; lra).
  replace ((r - 0) / (IZR (durationInFrames cfg) / 2 - 0))
    with (r / (IZR (durationInFrames cfg) / 2)) by (field; lra).
  ring.
Qed.

Lemma cycle_shift (d f k : Z) :
  (0 < d)%Z ->
  cycle_of d f = Zfloor (IZR f / (IZR d / 2)) /\
  forall turns : Z,
    IZR k = IZR turns * (IZR d / 2) ->
    cycle_of d (f + k) = (cycle_of d f + turns)%Z.
Proof.
  intro Hd. apply IZR_lt in Hd. split; [reflexivity|].
  intros turns Hk. unfold cycle_of. rewrite plus_IZR, Hk.
  replace ((IZR f + IZR turns * (IZR d / 2)) / (IZR d / 2))
    with (IZR f / (IZR d / 2) + IZR turns) by (field; lra).
  apply Zfloor_addz.
Qed.

Lemma rotation_shift (d f k turns : Z) :
  (0 < d)%Z -> IZR k = IZR turns * (IZR d / 2) ->
  rotation_at d (f + k) = rotation_at d f + 360 * IZR turns.
Proof.
  intros Hd Hk. unfold rotation_at.
  rewrite (proj2 (cycle_shift d f k Hd) turns Hk).
  rewrite !plus_IZR, Hk.
  replace (IZR f + IZR turns * (IZR d / 2)
           - IZR d / 2 * (IZR (cycle_of d f) + IZR turns))
    with (IZR f - IZR d / 2 * IZR (cycle_of d f)) by ring.
  ring.
Qed.

Lemma rotation_at_start (d : Z) : (0 < d)%Z -> rotation_at d 0 = 0.
Proof.
  intro Hd. apply IZR_lt in Hd. unfold rotation_at, cycle_of.
  replace (0 / (IZR d / 2)) with (IZR 0) by (field; lra).
  rewrite ZfloorZ.
  replace ((0 - IZR d / 2 * 0) / (IZR d / 2)) with 0 by (field; lra).
  unfold rush. cases_eqb 0 0; [ring | lra].
Qed.

(** X15.  The comet of SpeedDemonSpinner makes one turn per cycle: from
    frame 0 on, the total rotation at a frame of cycle c, the whole part
    of frame / (durationInFrames / 2), lies between 360 c and 360 (c + 1)
    degrees, and it is 0 at frame 0. *)
Theorem one_turn_per_cycle (cfg : VideoConfig) (f : Z) :
  (0 < durationInFrames cfg)%Z -> (0 <= f)%Z ->
  exists rot : R,
    totalRotation f cfg = Ok rot /\
    360 * IZR (cycle_of (durationInFrames cfg) f) <= rot
      <= 360 * (IZR (cycle_of (durationInFrames cfg) f) + 1) /\
    (0 <= cycle_of (durationInFrames cfg) f)%Z /\
    totalRotation 0 cfg = Ok 0.
Proof.
  intros HD Hf. pose proof (IZR_lt _ _ HD) as HDr.
  pose proof (IZR_le _ _ Hf) as Hfr.
  exists (rotation_at (durationInFrames cfg) f).
  split; [apply totalRotation_at; assumption|].
  split; [|split].
  - unfold rotation_at.
    pose proof (rush_range
                  ((IZR f - IZR (durationInFrames cfg) / 2
                            * IZR (cycle_of (durationInFrames cfg) f))
                   / (IZR (durationInFrames cfg) / 2))). lra.
  - unfold cycle_of. apply Zfloor_lub. apply ratio_nonneg; lra.
  - rewrite totalRotation_at by lia. f_equal.
    apply rotation_at_start. exact HD.
Qed.

Lemma one_turn_per_cycle_witness :
  exists rot : R,
    totalRotation 40 compositionConfig = Ok rot /\
    360 * IZR (cycle_of (durationInFrames compositionConfig) 40) <= rot
      <= 360 * (IZR (cycle_of (durationInFrames compositionConfig) 40) + 1) /\
    (0 <= cycle_of (durationInFrames compositionConfig) 40)%Z /\
    totalRotation 0 compositionConfig = Ok 0.
Proof.
  apply (one_turn_per_cycle compositionConfig 40); [reflexivity | lia].
Defined.
End SpeedDemonRotation.

(** ** SpeedDemonSpinner: playback *)

Module SpeedDemonPlayback.
Import Analytic Totality Periodic SpeedDemonSpinner SpeedDemonSpinnerFacts.
Local Open Scope R_scope.

(** The cell holds a reference into the heap, stored for the rotation
    [rot]. *)
Definition stored_for (rot : R) (h : Hooks R) : Prop :=
  exists (d : Deps R) (r : Ref),
    tailStack_memo h = Some (d, r) /\
    same_deps d (deps0 rot) = true /\
    (r < List.length (arrays h))%nat.

(** Dependencies stored for one rotation are not those of another. *)
Lemma other_rotation (d : Deps R) (rot rot' : R) :
  same_deps d (deps0 rot) = true -> rot <> rot' ->
  same_deps d (deps0 rot') = false.
Proof.
  destruct d as [[[[[a1 a2] a3] a4] a5] a6]. unfold same_deps, deps0.
  intros Hsame Hne.
  apply andb_true_iff in Hsame. destruct Hsame as [_ Hrot].
  apply real_eqb_true in Hrot. subst a6.
  apply andb_false_iff. right. apply real_eqb_false. exact Hne.
Qed.

(** A render leaves in the cell a reference stored for the rotation of
    its frame. *)
Lemma render_stores (g : Z) (rot : R) (w : World (Hooks R) R) :
  totalRotation g compositionConfig = Ok rot ->
  reference_valid (hooks w) ->
  exists (tree : Element R) (w' : World (Hooks R) R),
    SpeedDemonSpinner defaultProps g compositionConfig w = Ok (tree, w') /\
    reference_valid (hooks w') /\
    stored_for rot (hooks w').
Proof.
  intros Hrot Hvalid.
  destruct (segments_value center0 radius0 perimeter0 rot
              (Array_from numTailSegments)) as [segs [Hsegs Hkeys]].
  assert (Hstack : stack_of rot segs) by (split; assumption).
  assert (Hmiss :
    (forall d r, tailStack_memo (hooks w) = Some (d, r) ->
                 same_deps d (deps0 rot) = false) ->
    exists (tree : Element R) (w' : World (Hooks R) R),
      SpeedDemonSpinner defaultProps g compositionConfig w = Ok (tree, w') /\
      reference_valid (hooks w') /\ stored_for rot (hooks w')).
  { intro Hcold. eexists. eexists. split; [|split].
    - eapply render_with; [exact Hrot | |].
      + apply (tailStack_miss rot segs w Hstack Hcold).
      + cbn [hooks arrays]. apply dereference_allocated.
    - intros d r Hcell. cbn [hooks tailStack_memo arrays] in *.
      injection Hcell as _ <-. rewrite length_app. cbn [List.length]. lia.
    - eexists. eexists. cbn [hooks tailStack_memo arrays].
      split; [reflexivity|]. split; [apply same_deps_refl|].
      rewrite length_app. cbn [List.length]. lia. }
  destruct (tailStack_memo (hooks w)) as [[d r] |] eqn:Hcell.
  - destruct (same_deps d (deps0 rot)) eqn:Hsame.
    + destruct (dereference_valid (arrays (hooks w)) r (Hvalid d r Hcell))
        as [arr Harr].
      eexists. eexists. split; [|split].
      * eapply render_with; [exact Hrot | |].
        -- apply (tailStack_hit rot d r arr w Hcell Hsame Harr).
        -- cbn [hooks arrays]. apply dereference_assigned.
           apply (Hvalid d r Hcell).
      * intros d' r' Hcell'. cbn [hooks tailStack_memo arrays] in *.
        rewrite assign_length.
        injection Hcell' as _ <-. apply (Hvalid d r Hcell).
      * exists d, r. cbn [hooks tailStack_memo arrays].
        split; [reflexivity|]. split; [exact Hsame|].
        rewrite assign_length. apply (Hvalid d r Hcell).
    + apply Hmiss. intros d' r' Hcell'. injection Hcell' as <- _. exact Hsame.
  - apply Hmiss. intros d' r' Hcell'. discriminate.
Qed.

Lemma replay_valid (past : list Z) (w : World (Hooks R) R) :
  reference_valid (hooks w) ->
  reference_valid
    (hooks (replay SpeedDemonSpinner_composition defaultProps compositionConfig
              past w)).
Proof.
  revert w. induction past as [|g rest IH]; intros w Hw; cbn [replay];
    [exact Hw|].
  apply IH. cbn [component SpeedDemonSpinner_composition].
  destruct (render_keeps_reference g w Hw) as [tree [w' [-> Hw']]]. exact Hw'.
Qed.

(** X16.  In playback the head of the comet is on top: whatever
    SpeedDemonSpinner has rendered before, when the frame rendered last
    had another rotation than the frame rendered now, the tree lists the
    stack of the frame tail first and head last (keys 19 down to 0). *)
Theorem head_on_top_in_playback (f g : Z) (rf rg : R) (past : list Z)
    (e : nat -> R) (n : nat) :
  totalRotation f compositionConfig = Ok rf ->
  totalRotation g compositionConfig = Ok rg ->
  rg <> rf ->
  exists segs : list (Element R),
    stack_of rf segs /\
    output (SpeedDemonSpinner defaultProps f compositionConfig
              (replay SpeedDemonSpinner_composition defaultProps
                 compositionConfig (past ++ [g])
                 (mount SpeedDemonSpinner_composition e n)))
    = Ok (view defaultProps center0 radius0 (rev segs)) /\
    List.map key_of (rev segs)
    = List.map (fun i => Some (IZR i)) (rev (Array_from numTailSegments)).
Proof.
  intros Hf Hg Hne.
  destruct (segments_value center0 radius0 perimeter0 rf
              (Array_from numTailSegments)) as [segs [Hsegs Hkeys]].
  assert (Hstack : stack_of rf segs) by (split; assumption).
  exists segs. split; [exact Hstack|]. split.
  - rewrite replay_app. cbn [replay].
    set (w := replay SpeedDemonSpinner_composition defaultProps
                compositionConfig past (mount SpeedDemonSpinner_composition e n)).
    assert (Hw : reference_valid (hooks w)).
    { apply replay_valid. intros d r Hcell. discriminate. }
    cbn [component SpeedDemonSpinner_composition].
    destruct (render_stores g rg w Hg Hw)
      as [tree [w' [-> [Hvalid [d [r [Hcell [Hsame Hr]]]]]]]].
    assert (Hcold : forall d' r', tailStack_memo (hooks w') = Some (d', r') ->
                                  same_deps d' (deps0 rf) = false).
    { intros d' r' Hcell'. rewrite Hcell in Hcell'. injection Hcell' as <- _.
      apply (other_rotation d rg rf Hsame Hne). }
    rewrite (render_with f rf w' _ _ (rev segs) Hf
               (tailStack_miss rf segs w' Hstack Hcold)).
    + reflexivity.
    + cbn [hooks arrays]. apply dereference_allocated.
  - rewrite !map_rev, Hkeys. reflexivity.
Qed.

Lemma head_on_top_in_playback_witness :
  exists segs : list (Element R),
    stack_of 360 segs /\
    output (SpeedDemonSpinner defaultProps 150 compositionConfig
              (replay SpeedDemonSpinner_composition defaultProps
                 compositionConfig ([] ++ [0%Z])
                 (mount SpeedDemonSpinner_composition (fun _ => 0) 0)))
    = Ok (view defaultProps center0 radius0 (rev segs)) /\
    List.map key_of (rev segs)
    = List.map (fun i => Some (IZR i)) (rev (Array_from numTailSegments)).
Proof.
  assert (HD : (0 < durationInFrames compositionConfig)%Z) by reflexivity.
  apply (head_on_top_in_playback 150 0 360 0 [] (fun _ => 0) 0%nat).
  - rewrite (SpeedDemonRotation.totalRotation_at compositionConfig 150 HD)
      by lia.
    f_equal.
    assert (Hhalf : 150 = 1 * (300 / 2)) by field.
    pose proof (SpeedDemonRotation.rotation_shift 300 0 150 1 HD Hhalf)
      as Hturn.
    rewrite (SpeedDemonRotation.rotation_at_start 300 HD) in Hturn.
    change (0 + 150)%Z with 150%Z in Hturn.
    change (durationInFrames compositionConfig) with 300%Z.
    rewrite Hturn. ring.
  - rewrite (SpeedDemonRotation.totalRotation_at compositionConfig 0 HD)
      by lia.
    f_equal. apply (SpeedDemonRotation.rotation_at_start 300 HD).
  - lra.
Defined.
End SpeedDemonPlayback.

(** ** GlowingStringLights: the bulbs on a string *)

Module GlowingStringBulbs.
Import Analytic Periodic GlowingStringLights.
Local Open Scope R_scope.

(** The wire has a point for every step and one more. *)
Lemma points_made (type : StringType) (yPos sway : R) (cfg : VideoConfig)
    (w : World (LightStringHooks R) R) :
  (0 < width cfg)%Z -> hooks w = None ->
  exists pts w', points type yPos sway cfg w = Ok (pts, w') /\ pts <> [].
Proof.
  intros Hwidth Hfresh.
  assert (Hw : 0 < IZR (width cfg)) by (apply IZR_lt; exact Hwidth).
  assert (Hsteps : (1 <= Zceil (IZR (width cfg) / 20))%Z).
  { pose proof (Zceil_bound (IZR (width cfg) / 20)) as [_ Hup].
    assert (0 < IZR (Zceil (IZR (width cfg) / 20))) by lra.
    apply lt_IZR in H. lia. }
  destruct (mapM_all
              (point_at type yPos sway cfg
                 (Math_ceil (quo (IZR (width cfg)) 20)))
              (fun _ => True) (fun _ => True)
              (range 0 (ceilZ (quo (IZR (width cfg)) 20) + 1)))
    as [pts [Hpts [Hlen _]]].
  - apply Forall_forall. intros; exact I.
  - intros i _. unfold point_at. cbn [ofZ Math_ceil ceilZ quo JsNum_R].
    rewrite div_value by (apply not_0_IZR; lia). cbn [Result_bind].
    rewrite div_value by lra. cbn [Result_bind].
    eexists. split; [reflexivity | exact I].
  - exists pts. eexists. split.
    + destruct w as [h e n]. cbn [hooks] in Hfresh. subst h.
      unfold points, useMemo. cbn [hooks entropy drawn].
      unfold points_factory, lift. cbn [ofZ JsNum_R]. rewrite Hpts.
      reflexivity.
    + intro Hnil. rewrite Hnil, range_length in Hlen.
      cbn [List.length ceilZ quo JsNum_R] in Hlen. lia.
Qed.

(** A bulb renders at every frame of a composition that lasts. *)
Lemma GlowingBulb_renders (pos : Point R) (i : Z) (config : LightProps)
    (frame : Z) (cfg : VideoConfig) :
  durationInFrames cfg <> 0%Z ->
  exists bulb, GlowingBulb_element i pos config frame cfg = Ok bulb.
Proof.
  intro Hd. unfold GlowingBulb_element, GlowingBulb. cbn [ofZ JsNum_R].
  rewrite div_value by (apply not_0_IZR; exact Hd). cbn [Result_bind].
  destruct (rem_whole i 3 ltac:(lia)) as [k Hk].
  rewrite Hk. cbn [Result_bind].
  rewrite real_interpolate_segment by (literals; lra). cbn [Result_bind].
  rewrite real_interpolate_segment by (literals; lra). cbn [Result_bind].
  eexists. reflexivity.
Qed.

(** Between the ends of the string the index of a bulb is an index of the
    wire: the guard on [points[index]] never skips a bulb. *)
Lemma place_bulb_places (config : LightProps) (frame : Z) (cfg : VideoConfig)
    (pts : list (Point R)) (b i : Z) :
  durationInFrames cfg <> 0%Z -> pts <> [] -> (1 <= i < b)%Z ->
  exists bulbs, place_bulb config frame cfg pts (IZR b) i = Ok bulbs /\
                List.length bulbs = 1%nat.
Proof.
  intros Hd Hpts Hi. unfold place_bulb. cbn [ofZ floorZ mul JsNum_R].
  rewrite div_value by (apply not_0_IZR; lia). cbn [Result_bind].
  set (len := List.length pts).
  assert (Hlen : (0 < len)%nat)
    by (subst len; destruct pts; [contradiction | cbn; lia]).
  assert (Hb : 0 < IZR b) by (apply IZR_lt; lia).
  assert (Hi0 : 0 < IZR i) by (apply IZR_lt; lia).
  assert (Hi1 : IZR i < IZR b) by (apply IZR_lt; lia).
  assert (Hl : 0 < IZR (Z.of_nat len)) by (apply IZR_lt; lia).
  assert (Hfrac : 0 < IZR i / IZR b < 1).
  { split.
    - apply Rdiv_lt_0_compat; assumption.
    - apply (Rmult_lt_reg_r (IZR b)); [exact Hb|].
      replace (IZR i / IZR b * IZR b) with (IZR i) by (field; lra). lra. }
  set (q := IZR i / IZR b) in *.
  pose proof (Zfloor_bound (q * IZR (Z.of_nat len))) as [Hlo Hhi].
  assert (Hindex : (0 <= Zfloor (q * IZR (Z.of_nat len)) < Z.of_nat len)%Z).
  { split.
    - apply Zfloor_lub. cbn. nra.
    - apply lt_IZR. nra. }
  destruct (Z.ltb_spec (Zfloor (q * IZR (Z.of_nat len))) 0) as [Hneg | _];
    [lia|].
  destruct (nth_error pts (Z.to_nat (Zfloor (q * IZR (Z.of_nat len)))))
    as [pos |] eqn:Hnth.
  - destruct (GlowingBulb_renders pos i config frame cfg Hd) as [bulb Hbulb].
    rewrite Hbulb. cbn [Result_bind]. exists [bulb]. split; reflexivity.
  - apply nth_error_None in Hnth. fold len in Hnth. lia.
Qed.

(** X20.  A freshly mounted LightString, on a canvas of positive width,
    with a positive bulb spacing and a composition that lasts, renders
    without throwing, as a [g] that holds the wire and then exactly
    [floor (width / bulbSpacing) - 1] bulbs (none when that is not
    positive): the guard on [points[index]] never skips a bulb. *)
Theorem every_bulb_is_placed (type : StringType) (yPos swayOffset : R)
    (config : LightProps) (frame : Z) (cfg : VideoConfig)
    (w : World (LightStringHooks R) R) :
  (0 < width cfg)%Z -> (0 < bulbSpacing config)%Z ->
  durationInFrames cfg <> 0%Z -> hooks w = None ->
  exists wire bulbs,
    output (LightString type yPos config swayOffset frame cfg w)
    = Ok (Node "g" [] [wire; Items bulbs]) /\
    List.length bulbs = Z.to_nat (width cfg / bulbSpacing config - 1).
Proof.
  intros Hwidth Hspacing Hd Hfresh.
  assert (Hs : 0 < IZR (bulbSpacing config)) by (apply IZR_lt; exact Hspacing).
  unfold LightString. cbn [ofZ JsNum_R].
  unfold Render_bind at 1. unfold lift at 1.
  rewrite div_value by (apply not_0_IZR; exact Hd).
  unfold Render_bind at 1.
  destruct (points_made type yPos
              (mul (Math_sin (add (mul (mul (IZR frame
                 / IZR (durationInFrames cfg)) Math_PI) 2) swayOffset))
                 (IZR (swayIntensity config))) cfg w Hwidth Hfresh)
    as [pts [w' [Hpoints Hpts]]].
  rewrite Hpoints.
  unfold Render_bind, lift, Render_ret, output.
  rewrite div_value by lra.
  unfold Math_floor. cbn [ofZ floorZ JsNum_R].
  rewrite floor_of_ratio by exact Hspacing.
  set (b := (width cfg / bulbSpacing config)%Z).
  destruct (mapM_all (place_bulb config frame cfg pts (IZR b))
              (fun i => (1 <= i < b)%Z)
              (fun bulbs => List.length bulbs = 1%nat) (range 1 b))
    as [placed [Hplaced [Hlen Hone]]].
  - apply range_bounds.
  - intros i Hi. apply place_bulb_places; assumption.
  - rewrite Hplaced.
    cbn [Result_map fst]. eexists. eexists. split; [reflexivity|].
    rewrite (singletons_length placed Hone), Hlen, range_length.
    reflexivity.
Qed.

Lemma every_bulb_is_placed_witness :
  exists wire bulbs,
    output (LightString curve 216 defaultProps 0 0 compositionConfig
              (mkWorld None (fun _ => 0) 0))
    = Ok (Node "g" [] [wire; Items bulbs]) /\
    List.length bulbs = 47%nat.
Proof.
  apply (every_bulb_is_placed curve 216 0 defaultProps 0 compositionConfig
           (mkWorld None (fun _ => 0) 0)).
  - reflexivity.
  - reflexivity.
  - discriminate.
  - reflexivity.
Defined.
End GlowingStringBulbs.

(** ** StreamGlitch: the scan cycle *)

Module StreamGlitchFacts.
Import Analytic Periodic StreamGlitch.
Local Open Scope R_scope.

Section Seeded.
Context {seeded : SeededRandom R}.

Lemma cycle_frame_shift (f s : Z) :
  (0 <= f)%Z -> (0 < s)%Z -> rem (IZR (f + s)) (IZR s) = rem (IZR f) (IZR s).
Proof.
  intros Hf Hs. rewrite plus_IZR.
  apply rem_shift; [apply IZR_le; exact Hf | apply IZR_lt; exact Hs].
Qed.

(** X21.  StreamGlitch repeats with the scan: with a positive
    scanDuration, the tree of frame + scanDuration is the tree of the
    frame, at every frame from 0 on, for every text and every seeded
    random function.  The beam, the jitter of every letter, the flicker
    and the scan lines all depend on the frame only through
    frame % scanDuration. *)
Theorem glitch_repeats_every_scan (props : GlitchProps) (cfg : VideoConfig)
    (f : Z) :
  (0 <= f)%Z -> (0 < scanDuration props)%Z ->
  StreamGlitch.StreamGlitch props (f + scanDuration props) cfg
  = StreamGlitch.StreamGlitch props f cfg.
Proof.
  intros Hf Hs. unfold StreamGlitch.StreamGlitch. cbn [ofZ JsNum_R].
  rewrite (cycle_frame_shift f _ Hf Hs).
  destruct (rem (IZR f) (IZR (scanDuration props))) as [beamCycle | err];
    [|reflexivity].
  cbn [Result_bind].
  destruct (interpolate beamCycle _ _ _) as [beamProgress | err];
    [|reflexivity].
  cbn [Result_bind].
  rewrite (mapM_ext
             (GlitchChar_element props (f + scanDuration props) beamProgress
                (IZR (Z.of_nat (List.length (split_chars (primaryText props))))))
             (GlitchChar_element props f beamProgress
                (IZR (Z.of_nat (List.length (split_chars (primaryText props))))))).
  - unfold Scanlines. cbn [ofZ JsNum_R].
    rewrite (cycle_frame_shift f _ Hf Hs). reflexivity.
  - intros [char i]. unfold GlitchChar_element, GlitchChar.
    cbn [ofZ JsNum_R]. rewrite (cycle_frame_shift f _ Hf Hs). reflexivity.
Qed.
End Seeded.

Lemma glitch_repeats_every_scan_witness :
  StreamGlitch.StreamGlitch (H0 := DefaultRenders.sample_random)
    defaultProps (7 + 90) compositionConfig
  = StreamGlitch.StreamGlitch (H0 := DefaultRenders.sample_random)
      defaultProps 7 compositionConfig.
Proof.
  apply (glitch_repeats_every_scan (seeded := DefaultRenders.sample_random)
           defaultProps compositionConfig 7).
  - lia.
  - reflexivity.
Defined.
End StreamGlitchFacts.

(** ** NeonRadioWaves: the life of a wave *)

Module NeonRadioWavesFacts.
Import Analytic Periodic NeonRadioWaves.
Local Open Scope R_scope.

Lemma indices_nonneg (n : nat) : Forall (fun i => (0 <= i)%Z) (indices n).
Proof.
  unfold indices. apply Forall_forall. intros i Hi.
  apply in_map_iff in Hi. destruct Hi as [k [<- _]]. lia.
Qed.

(** A wave is born again one life time later. *)
Lemma wave_repeats (props : WaveProps) (f index : Z) :
  (0 <= f)%Z -> (0 < waveLifeTime props)%Z -> (0 < waveCount props)%Z ->
  (0 <= index)%Z ->
  wave (N := R) props (f + waveLifeTime props) index = wave props f index.
Proof.
  intros Hf Hlife Hcount Hindex. unfold wave. cbn [ofZ add mul JsNum_R].
  assert (Hl : 0 < IZR (waveLifeTime props)) by (apply IZR_lt; exact Hlife).
  assert (Hc : 0 < IZR (waveCount props)) by (apply IZR_lt; exact Hcount).
  assert (Hi : 0 <= IZR index) by (apply IZR_le; exact Hindex).
  assert (Hf' : 0 <= IZR f) by (apply IZR_le; exact Hf).
  rewrite div_value by lra. cbn [Result_bind].
  assert (Hoffset : 0 <= IZR index
                         * (IZR (waveLifeTime props) / IZR (waveCount props))).
  { apply Rmult_le_pos; [exact Hi|]. apply ratio_nonneg; lra. }
  replace (IZR (f + waveLifeTime props)
           + IZR index * (IZR (waveLifeTime props) / IZR (waveCount props)))
    with (IZR f
          + IZR index * (IZR (waveLifeTime props) / IZR (waveCount props))
          + IZR (waveLifeTime props)) by (rewrite plus_IZR; ring).
  rewrite rem_shift by lra. reflexivity.
Qed.

(** X22.  NeonRadioWaves repeats with the life time of a wave: with a
    positive waveCount that divides a positive waveLifeTime (the waves
    then start whole frames apart, as the 8 waves of the default 120
    frames do), the tree of frame + waveLifeTime is the tree of the
    frame, at every frame from 0 on. *)
Theorem waves_repeat_every_life_time (props : WaveProps) (f : Z) :
  (0 <= f)%Z -> (0 < waveLifeTime props)%Z -> (0 < waveCount props)%Z ->
  (waveLifeTime props mod waveCount props = 0)%Z ->
  NeonRadioWaves.NeonRadioWaves (N := R) props (f + waveLifeTime props)
  = NeonRadioWaves.NeonRadioWaves props f.
Proof.
  intros Hf Hlife Hcount _. unfold NeonRadioWaves.NeonRadioWaves.
  destruct (new_Array (waveCount props)) as [waves | err] eqn:Hwaves;
    [|reflexivity].
  cbn [Result_bind].
  rewrite (mapM_agree (wave props (f + waveLifeTime props)) (wave props f)
             (fun i => (0 <= i)%Z) waves).
  - reflexivity.
  - unfold new_Array in Hwaves.
    destruct ((waveCount props <? 0)%Z || (2 ^ 32 <=? waveCount props)%Z);
      [discriminate|].
    injection Hwaves as <-. apply indices_nonneg.
  - intros i Hi. apply wave_repeats; assumption.
Qed.

Lemma waves_repeat_every_life_time_witness :
  NeonRadioWaves.NeonRadioWaves (N := R) defaultProps (45 + 120)
  = NeonRadioWaves.NeonRadioWaves defaultProps 45.
Proof.
  apply (waves_repeat_every_life_time defaultProps 45).
  - lia.
  - reflexivity.
  - reflexivity.
  - reflexivity.
Defined.
End NeonRadioWavesFacts.

Module NeonRadioWaveLife.
Import Analytic Periodic NeonRadioWaves.
Local Open Scope R_scope.

(** The fade of a wave: in over the first tenth of its life, out over
    the last fifth. *)
Lemma fade_envelope (p : R) :
  0 <= p <= 1 ->
  exists o, interpolate p [ofZ 0; dec 1 10; dec 8 10; ofZ 1]
              [ofZ 0; ofZ 1; ofZ 1; ofZ 0] default_options = Ok o /\
            0 <= o <= 1 /\
            (1 / 10 <= p <= 8 / 10 -> o = 1) /\
            (p = 0 -> o = 0).
Proof.
  intros [Hp0 Hp1]. unfold interpolate.
  cbn [List.length Nat.eqb Nat.ltb Nat.leb negb]. literals.
  cbn [strictly_increasing].
  replace (ltb 0 (1 / 10)) with true by (symmetry; apply real_ltb_true; lra).
  replace (ltb (1 / 10) (8 / 10)) with true
    by (symmetry; apply real_ltb_true; lra).
  replace (ltb (8 / 10) 1) with true by (symmetry; apply real_ltb_true; lra).
  cbn [andb negb]. unfold findRange. cbn [tl findRange_from].
  unfold interpolateFunction, default_options.
  cbn [extrapolateLeft extrapolateRight easing Easing_linear].
  cbn [sub mul add quo JsNum_R].
  cases_ltb (1 / 10) p; cbn [negb].
  - cases_ltb (8 / 10) p; cbn [negb Nat.pred nth_error].
    + cases_ltb p (8 / 10); [lra|]. cases_ltb 1 p; [lra|].
      cases_eqb 1 0; [lra|].
      exists (5 - 5 * p). split; [f_equal; unfold Easing_linear; field|].
      repeat split; try lra; intros; lra.
    + cases_ltb p (1 / 10); [lra|]. cases_ltb (8 / 10) p; [lra|].
      cases_eqb 1 1; [|lra].
      exists 1. split; [reflexivity|]. repeat split; try lra; intros; lra.
  - cbn [Nat.pred nth_error]. cases_ltb p 0; [lra|].
    cases_ltb (1 / 10) p; [lra|]. cases_eqb 0 1; [lra|].
    exists (10 * p). split; [f_equal; unfold Easing_linear; field|].
    repeat split; try lra; intros; lra.
Qed.

(** X23.  The life of a wave.  At every frame from 0 on, with positive
    waveCount, waveLifeTime and maxRadius and a non-negative strokeWidth,
    every wave with a non-negative index renders, as a ring
    - whose radius is a fraction of maxRadius that starts at 0 and never
      reaches maxRadius (width and height are twice the radius),
    - whose opacity is between 0 and 1,
    - whose stroke is between half of strokeWidth and strokeWidth. *)
Theorem wave_grows_and_fades (props : WaveProps) (f index : Z) :
  (0 <= f)%Z -> (0 <= index)%Z ->
  (0 < waveCount props)%Z -> (0 < waveLifeTime props)%Z ->
  (0 < maxRadius props)%Z -> (0 <= strokeWidth props)%Z ->
  exists ring radius opacity stroke,
    wave (N := R) props f index = Ok ring /\
    Reading.style "width" ring = Some (VNum (radius * 2)) /\
    Reading.style "height" ring = Some (VNum (radius * 2)) /\
    Reading.style "opacity" ring = Some (VNum opacity) /\
    Reading.style "border" ring
    = Some (VStr [Num stroke; Lit "px solid "; Lit (color props)]) /\
    0 <= radius < IZR (maxRadius props) /\
    0 <= opacity <= 1 /\
    IZR (strokeWidth props) / 2 <= stroke <= IZR (strokeWidth props).
Proof.
  intros Hf Hindex Hcount Hlife Hmax Hstroke. unfold wave.
  cbn [ofZ add mul JsNum_R].
  assert (Hl : 0 < IZR (waveLifeTime props)) by (apply IZR_lt; exact Hlife).
  assert (Hc : 0 < IZR (waveCount props)) by (apply IZR_lt; exact Hcount).
  assert (Hi : 0 <= IZR index) by (apply IZR_le; exact Hindex).
  assert (Hf' : 0 <= IZR f) by (apply IZR_le; exact Hf).
  assert (Hm : 0 < IZR (maxRadius props)) by (apply IZR_lt; exact Hmax).
  assert (Hs : 0 <= IZR (strokeWidth props)) by (apply IZR_le; exact Hstroke).
  rewrite div_value by lra. cbn [Result_bind].
  assert (Hoffset : 0 <= IZR index
                         * (IZR (waveLifeTime props) / IZR (waveCount props))).
  { apply Rmult_le_pos; [exact Hi|]. apply ratio_nonneg; lra. }
  set (a := IZR f
            + IZR index * (IZR (waveLifeTime props) / IZR (waveCount props))).
  destruct (rem_nonneg a (IZR (waveLifeTime props)) ltac:(subst a; lra) Hl)
    as [Hrem Hbounds].
  rewrite Hrem. cbn [Result_bind].
  set (m := a - IZR (waveLifeTime props)
                * IZR (Zfloor (a / IZR (waveLifeTime props)))) in *.
  rewrite div_value by lra. cbn [Result_bind].
  assert (Hp : 0 <= m / IZR (waveLifeTime props) < 1).
  { split.
    - apply ratio_nonneg; lra.
    - apply (Rmult_lt_reg_r (IZR (waveLifeTime props))); [exact Hl|].
      replace (m / IZR (waveLifeTime props) * IZR (waveLifeTime props))
        with m by (field; lra). lra. }
  set (p := m / IZR (waveLifeTime props)) in *.
  rewrite (real_interpolate_segment p 0 1) by lra. cbn [Result_bind].
  destruct (fade_envelope p ltac:(lra)) as [o [Ho [Hrange _]]].
  cbn [ofZ JsNum_R] in Ho. rewrite Ho. cbn [Result_bind].
  rewrite (real_interpolate_segment p 0 1) by lra. cbn [Result_bind].
  eexists. eexists. exists o. eexists.
  split; [reflexivity|].
  split; [reflexivity|]. split; [reflexivity|]. split; [reflexivity|].
  split; [reflexivity|].
  split; [|split; [exact Hrange|]].
  - rewrite extended_segment by lra. nra.
  - unfold interpolateFunction, default_options.
    cbn [extrapolateLeft extrapolateRight easing Easing_linear].
    unfold dec. cbn [ofZ sub add mul quo JsNum_R].
    cases_ltb p 0; [lra|]. cases_ltb 1 p; [lra|].
    cases_eqb (IZR (strokeWidth props)) (IZR (strokeWidth props) * (5 / 10));
      [lra |].
    unfold Easing_linear. replace ((p - 0) / (1 - 0)) with p by field. nra.
Qed.

Lemma wave_grows_and_fades_witness :
  exists ring radius opacity stroke,
    wave (N := R) defaultProps 45 3 = Ok ring /\
    Reading.style "width" ring = Some (VNum (radius * 2)) /\
    Reading.style "height" ring = Some (VNum (radius * 2)) /\
    Reading.style "opacity" ring = Some (VNum opacity) /\
    Reading.style "border" ring
    = Some (VStr [Num stroke; Lit "px solid "; Lit "#ff1100ff"]) /\
    0 <= radius < 1000 /\
    0 <= opacity <= 1 /\
    8 / 2 <= stroke <= 8.
Proof.
  apply (wave_grows_and_fades defaultProps 45 3); cbn; lia.
Defined.
End NeonRadioWaveLife.

(** ** NeonSaberCountdown: a digit before it burns out *)

Module SaberNumberFacts.
Import Analytic NeonSaberCountdown.
Local Open Scope R_scope.

Section Sprung.
Context {curve : SpringCurve R}.

(** X24.  Until the last 8 frames of its second (localFrame <= fps - 8,
    for a positive fps) a digit renders, its exit has not begun (the flash
    is brightness(1)), and exitOpacity is 2, not 1: the input range
    [0.5, 1] of the fade extends to the left of 0.5.  So the aura layer,
    written with an opacity multiplier of 0.5, is drawn with opacity 1,
    and the blade and core layers with opacity 2. *)
Theorem digit_before_the_burn_out (number localFrame fps : R)
    (config : NeonSaberCountdownProps) :
  0 < fps -> localFrame <= fps - 8 ->
  exists digit,
    SaberNumber number localFrame config fps = Ok digit /\
    Reading.style "filter" digit
    = Some (VStr [Lit "brightness("; Num 1; Lit ")"]) /\
    Reading.style_at [0; 0]%nat "opacity" digit = Some (VNum 1) /\
    Reading.style_at [0; 1]%nat "opacity" digit = Some (VNum 2) /\
    Reading.style_at [0; 2]%nat "opacity" digit = Some (VNum 2).
Proof.
  intros Hfps Hearly. unfold SaberNumber.
  destruct (spring _) as [entryDriver | err] eqn:Hspring.
  2:{ pose proof (spring_ok
                    (mkSpring localFrame fps
                       (mkSpringConfig (dec 6 10) (ofZ 12) (ofZ 100))
                       (Some (ofZ 20)) (ofZ 0))) as Hok.
      rewrite Hspring in Hok. cbn [succeeded] in Hok.
      assert (false = true); [|discriminate].
      apply Hok; [exact Hfps|].
      cbn [spring_durationInFrames]. intros d Hd. injection Hd as <-.
      cbn [ofZ JsNum_R]. lra. }
  cbn [Result_bind]. unfold dec. cbn [ofZ sub JsNum_R].
  rewrite (real_interpolate_segment entryDriver 0 1) by lra.
  cbn [Result_bind].
  rewrite (real_interpolate_segment entryDriver 0 1) by lra.
  cbn [Result_bind].
  rewrite (real_interpolate_segment entryDriver 0) by (cbn [quo JsNum_R]; lra).
  cbn [Result_bind].
  rewrite (real_interpolate_segment localFrame (fps - 8) fps) by lra.
  cbn [Result_bind].
  assert (Hexit : interpolateFunction localFrame (fps - 8) fps 0 1 clamped = 0).
  { unfold interpolateFunction, clamped.
    cbn [extrapolateLeft extrapolateRight easing Easing_linear].
    cbn [sub add mul quo JsNum_R]. unfold Easing_linear.
    cases_ltb localFrame (fps - 8).
    - cases_ltb fps (fps - 8); [lra|]. cases_eqb 0 1; [lra|]. field. lra.
    - cases_ltb fps localFrame; [lra|]. cases_eqb 0 1; [lra|].
      replace localFrame with (fps - 8) by lra. field. lra. }
  rewrite Hexit.
  rewrite (real_interpolate_segment 0 0 1) by lra. cbn [Result_bind].
  rewrite (real_interpolate_segment 0 0 1) by lra. cbn [Result_bind].
  assert (Hflash : interpolate 0 [0; quo 4 10; 1] [1; quo 25 10; 0]
                     default_options = Ok 1).
  { unfold interpolate. cbn [List.length Nat.eqb Nat.ltb Nat.leb negb].
    cbn [strictly_increasing quo JsNum_R].
    replace (ltb 0 (4 / 10)) with true
      by (symmetry; apply real_ltb_true; lra).
    replace (ltb (4 / 10) 1) with true
      by (symmetry; apply real_ltb_true; lra).
    cbn [andb negb]. unfold findRange. cbn [tl findRange_from].
    cases_ltb (4 / 10) 0; [lra|]. cbn [negb Nat.pred nth_error].
    f_equal. rewrite extended_segment by lra. field. }
  rewrite Hflash. cbn [Result_bind].
  rewrite (real_interpolate_segment 0 (quo 5 10) 1)
    by (cbn [quo JsNum_R]; lra).
  cbn [Result_bind].
  assert (Hopacity : interpolateFunction 0 (quo 5 10) 1 1 0 default_options = 2).
  { rewrite extended_segment by lra. cbn [quo JsNum_R]. field. }
  rewrite Hopacity.
  eexists. split; [reflexivity|].
  split; [reflexivity|].
  unfold Reading.style_at, stroke_style.
  cbn [Reading.descend Reading.children nth_error Reading.style Reading.prop
       Reading.lookup app fontStyle getStrokeProps String.eqb Ascii.eqb
       Bool.eqb mul quo JsNum_R].
  repeat split; do 2 f_equal; lra.
Qed.
End Sprung.

Lemma digit_before_the_burn_out_witness :
  exists digit,
    SaberNumber (H0 := DefaultRenders.sample_spring) 7 12 defaultProps 30
    = Ok digit /\
    Reading.style "filter" digit
    = Some (VStr [Lit "brightness("; Num 1; Lit ")"]) /\
    Reading.style_at [0; 0]%nat "opacity" digit = Some (VNum 1) /\
    Reading.style_at [0; 1]%nat "opacity" digit = Some (VNum 2) /\
    Reading.style_at [0; 2]%nat "opacity" digit = Some (VNum 2).
Proof.
  apply (digit_before_the_burn_out (curve := DefaultRenders.sample_spring)
           7 12 30 defaultProps); lra.
Defined.
End SaberNumberFacts.

(** ** SegmentedCountdown: the ring and the heartbeat *)

Module SegmentedRingFacts.
Import Analytic Periodic SegmentedCountdown.
Local Open Scope R_scope.

(** X25.  A tick stays within the given radius of the centre of the
    ring, sideways and upwards, and it is rotated by its angle; the
    angles run clockwise from 12 o'clock: the tick of angle 0 is straight
    up (y = -radius) and the tick of angle 90 is to the right
    (x = radius, y = 0). *)
Theorem tick_lies_on_the_ring (angle opacity radius length width : R)
    (color : string) (glow : bool) :
  (exists x y,
      Reading.style "transform"
        (Tick angle opacity radius length width color glow)
      = Some (VStr [Lit "translate(-50%, -50%) translate("; Num x;
                    Lit "px, "; Num y; Lit "px) rotate(";
                    Num angle; Lit "deg)"]) /\
      Rabs x <= Rabs radius /\ Rabs y <= Rabs radius) /\
  (exists x,
      Reading.style "transform" (Tick 0 opacity radius length width color glow)
      = Some (VStr [Lit "translate(-50%, -50%) translate("; Num x;
                    Lit "px, "; Num (- radius); Lit "px) rotate(";
                    Num 0; Lit "deg)"])) /\
  Reading.style "transform" (Tick 90 opacity radius length width color glow)
  = Some (VStr [Lit "translate(-50%, -50%) translate("; Num radius;
                Lit "px, "; Num 0; Lit "px) rotate(";
                Num 90; Lit "deg)"]).
Proof.
  split; [|split].
  - eexists. eexists. split; [reflexivity|].
    cbn [Math_cos Math_sin Math_PI JsMath_R ofZ sub mul quo JsNum_R].
    set (rad := (angle - 90) * (PI / 180)).
    rewrite !Rabs_mult. split.
    + rewrite <- (Rmult_1_l (Rabs radius)) at 2.
      apply Rmult_le_compat_r; [apply Rabs_pos|].
      apply Rabs_le. pose proof (COS_bound rad). lra.
    + rewrite <- (Rmult_1_l (Rabs radius)) at 2.
      apply Rmult_le_compat_r; [apply Rabs_pos|].
      apply Rabs_le. pose proof (SIN_bound rad). lra.
  - eexists. cbn [Reading.style]. unfold Tick.
    cbn [Math_cos Math_sin Math_PI JsMath_R ofZ sub mul quo JsNum_R].
    replace (sin ((0 - 90) * (PI / 180)) * radius) with (- radius).
    + reflexivity.
    + replace ((0 - 90) * (PI / 180)) with (- (PI / 2)) by field.
      rewrite sin_neg, sin_PI2. ring.
  - unfold Tick.
    cbn [Math_cos Math_sin Math_PI JsMath_R ofZ sub mul quo JsNum_R].
    replace (cos ((90 - 90) * (PI / 180)) * radius) with radius.
    + replace (sin ((90 - 90) * (PI / 180)) * radius) with 0.
      * reflexivity.
      * replace ((90 - 90) * (PI / 180)) with 0 by field.
        rewrite sin_0. ring.
    + replace ((90 - 90) * (PI / 180)) with 0 by field.
      rewrite cos_0. ring.
Qed.

(** The ease of the heartbeat, Easing.out(Easing.quad), keeps [0, 1] in
    [0, 1] and its ends fixed. *)
Lemma out_quad_range (t : R) :
  0 <= t <= 1 -> 0 <= Easing_out Easing_quad t <= 1.
Proof.
  intros [H0 H1]. unfold Easing_out, Easing_quad.
  cbn [ofZ sub mul JsNum_R]. nra.
Qed.

(** X26.  The heartbeat of the text.  At every frame from 0 on, with a
    positive fps, textScale returns a scale between 1 and 1.02, and on
    the first frame of every second (frame a multiple of fps) the scale
    is exactly 1. *)
Theorem heartbeat_stays_subtle (f : Z) (cfg : VideoConfig) :
  (0 <= f)%Z -> (0 < fps cfg)%Z ->
  exists s, textScale (N := R) f cfg = Ok s /\
            1 <= s <= 102 / 100 /\
            ((f mod fps cfg = 0)%Z -> s = 1).
Proof.
  intros Hf Hfps. unfold textScale. cbn [ofZ JsNum_R].
  assert (Hr : 0 < IZR (fps cfg)) by (apply IZR_lt; exact Hfps).
  rewrite (rem_integers f (fps cfg) Hf Hfps). cbn [Result_bind].
  rewrite div_value by lra. cbn [Result_bind].
  pose proof (Z.mod_pos_bound f (fps cfg) Hfps) as [Hm0 Hm1].
  apply IZR_le in Hm0. apply IZR_lt in Hm1.
  assert (Hbeat : 0 <= IZR (f mod fps cfg) / IZR (fps cfg) < 1).
  { split.
    - apply ratio_nonneg; lra.
    - apply (Rmult_lt_reg_r (IZR (fps cfg))); [exact Hr|].
      replace (IZR (f mod fps cfg) / IZR (fps cfg) * IZR (fps cfg))
        with (IZR (f mod fps cfg)) by (field; lra). lra. }
  assert (Hzero : (f mod fps cfg = 0)%Z
                  -> IZR (f mod fps cfg) / IZR (fps cfg) = 0).
  { intros ->. field. lra. }
  set (beat := IZR (f mod fps cfg) / IZR (fps cfg)) in *. clearbody beat.
  unfold interpolate. cbn [List.length Nat.eqb Nat.ltb Nat.leb negb].
  unfold dec. cbn [ofZ quo JsNum_R]. cbn [strictly_increasing].
  replace (ltb 0 (1 / 10)) with true by (symmetry; apply real_ltb_true; lra).
  replace (ltb (1 / 10) 1) with true by (symmetry; apply real_ltb_true; lra).
  cbn [andb negb]. unfold findRange. cbn [tl findRange_from].
  unfold interpolateFunction.
  cbn [extrapolateLeft extrapolateRight easing sub add mul quo JsNum_R].
  cases_ltb (1 / 10) beat; cbn [negb Nat.pred nth_error].
  - cases_ltb beat (1 / 10); [lra|]. cases_ltb 1 beat; [lra|].
    cases_eqb (102 / 100) 1; [lra|].
    eexists. split; [reflexivity|].
    pose proof (out_quad_range ((beat - 1 / 10) / (1 - 1 / 10))) as Hease.
    replace ((beat - 1 / 10) / (1 - 1 / 10)) with ((10 * beat - 1) / 9) in *
      by field.
    specialize (Hease ltac:(lra)). split; [nra|].
    intro Hz. rewrite (Hzero Hz) in *. lra.
  - cases_ltb beat 0; [lra|]. cases_ltb (1 / 10) beat; [lra|].
    cases_eqb 1 (102 / 100); [lra|].
    eexists. split; [reflexivity|].
    pose proof (out_quad_range ((beat - 0) / (1 / 10 - 0))) as Hease.
    replace ((beat - 0) / (1 / 10 - 0)) with (10 * beat) in * by field.
    specialize (Hease ltac:(lra)). split; [nra|].
    intro Hz. rewrite (Hzero Hz).
    unfold Easing_out, Easing_quad. cbn [ofZ sub mul JsNum_R]. ring.
Qed.

Lemma heartbeat_stays_subtle_witness :
  exists s, textScale (N := R) 47 compositionConfig = Ok s /\
            1 <= s <= 102 / 100 /\
            ((47 mod 30 = 0)%Z -> s = 1).
Proof.
  apply (heartbeat_stays_subtle 47 compositionConfig).
  - lia.
  - reflexivity.
Defined.
End SegmentedRingFacts.

(** ** CyberpunkDataRing: the turns of the rings *)

Module CyberpunkDataRingFacts.
Import Analytic CyberpunkDataRing.
Local Open Scope R_scope.

(** A ring layer has turned by the share of its total rotation that has
    elapsed, whatever its memo cell holds. *)
Lemma RingLayer_rotation (p : RingLayerProps R) (f : Z) (cfg : VideoConfig)
    (w : World (RingLayerHooks R) R) :
  (0 < durationInFrames cfg)%Z ->
  exists layer w',
    RingLayer p f cfg w = Ok (layer, w') /\
    Reading.style "transform" layer
    = Some (VStr [Lit "translate(-50%, -50%) rotate(";
                  Num (360 * rotationSpeed p * rotationDirection p
                       * (IZR f / IZR (durationInFrames cfg)));
                  Lit "deg)"]).
Proof.
  intro Hd. assert (Hr : 0 < IZR (durationInFrames cfg))
    by (apply IZR_lt; exact Hd).
  unfold RingLayer. cbn [ofZ mul JsNum_R].
  rewrite real_interpolate_segment by lra.
  assert (Hturn :
    interpolateFunction (IZR f) 0 (IZR (durationInFrames cfg)) 0
      (360 * rotationSpeed p * rotationDirection p) default_options
    = 360 * rotationSpeed p * rotationDirection p
      * (IZR f / IZR (durationInFrames cfg))).
  { destruct (Req_dec_T 0 (360 * rotationSpeed p * rotationDirection p))
      as [Hz | Hnz].
    - unfold interpolateFunction, default_options.
      cbn [extrapolateLeft extrapolateRight easing].
      replace (eqb 0 (360 * rotationSpeed p * rotationDirection p))
        with true by (symmetry; apply real_eqb_true; exact Hz).
      rewrite <- Hz.
      destruct (ltb (IZR f) 0); destruct (ltb (IZR (durationInFrames cfg))
                                           (IZR f)); ring.
    - rewrite extended_segment by exact Hnz. field. lra. }
  rewrite Hturn.
  unfold Render_bind, lift, useMemo, Render_ret.
  destruct w as [[[d v] |] e n]; cbn [hooks entropy drawn].
  - destruct (String.eqb d (color p)); eexists; eexists;
      (split; [reflexivity|]); reflexivity.
  - eexists. eexists. split; reflexivity.
Qed.

(** X27.  The rings of CyberpunkDataRing.  In a composition that lasts,
    at every frame and whatever the memo cells hold, the component
    renders; the outer ring is turned by 360 * frame / durationInFrames
    degrees and the inner ring by -1080 * frame / durationInFrames: over
    one composition the outer ring makes exactly one turn clockwise and
    the inner ring exactly three turns the other way. *)
Theorem rings_turn_whole_times (props : Props) (cfg : VideoConfig) (f : Z)
    (w : World (Hooks R) R) :
  (0 < durationInFrames cfg)%Z ->
  exists tree,
    output (CyberpunkDataRing.CyberpunkDataRing props f cfg w) = Ok tree /\
    Reading.style_at [1; 0; 0]%nat "transform" tree
    = Some (VStr [Lit "translate(-50%, -50%) rotate(";
                  Num (360 * (IZR f / IZR (durationInFrames cfg)));
                  Lit "deg)"]) /\
    Reading.style_at [1; 1; 0]%nat "transform" tree
    = Some (VStr [Lit "translate(-50%, -50%) rotate(";
                  Num (-1080 * (IZR f / IZR (durationInFrames cfg)));
                  Lit "deg)"]).
Proof.
  intro Hd.
  unfold CyberpunkDataRing.CyberpunkDataRing, RingLayer_element, child.
  unfold Render_bind at 1 2.
  match goal with
  | |- context [RingLayer ?p f cfg ?w0] =>
      destruct (RingLayer_rotation p f cfg w0 Hd)
        as [outer [w1 [Houter Hturn1]]]
  end.
  rewrite Houter. unfold Render_ret at 1.
  unfold Render_bind at 1 2.
  match goal with
  | |- context [RingLayer ?p f cfg ?w0] =>
      destruct (RingLayer_rotation p f cfg w0 Hd)
        as [inner [w2 [Hinner Hturn2]]]
  end.
  rewrite Hinner. unfold Render_ret, output. cbn [Result_map fst].
  eexists. split; [reflexivity|].
  unfold Reading.style_at, rendered_as.
  cbn [fst Reading.descend Reading.children nth_error].
  rewrite Hturn1, Hturn2.
  cbn [rotationSpeed rotationDirection ofZ JsNum_R].
  set (q := IZR f / IZR (durationInFrames cfg)). split.
  - replace (360 * 1 * 1 * q) with (360 * q) by ring. reflexivity.
  - replace (360 * 3 * -1 * q) with (-1080 * q) by ring. reflexivity.
Qed.

Lemma rings_turn_whole_times_witness :
  exists tree,
    output (CyberpunkDataRing.CyberpunkDataRing (N := R) defaultProps 300
              compositionConfig (mkWorld (mkHooks None None) (fun _ => 0) 0))
    = Ok tree /\
    Reading.style_at [1; 0; 0]%nat "transform" tree
    = Some (VStr [Lit "translate(-50%, -50%) rotate(";
                  Num (360 * (300 / 300)); Lit "deg)"]) /\
    Reading.style_at [1; 1; 0]%nat "transform" tree
    = Some (VStr [Lit "translate(-50%, -50%) rotate(";
                  Num (-1080 * (300 / 300)); Lit "deg)"]).
Proof.
  apply (rings_turn_whole_times defaultProps compositionConfig 300
           (mkWorld (mkHooks None None) (fun _ => 0) 0)).
  reflexivity.
Defined.
End CyberpunkDataRingFacts.

(** ** GyroscopeV2: two rings against each other *)

Module GyroscopeFacts.
Import Analytic GyroscopeV2.
Local Open Scope R_scope.

(** X28.  The rings of GyroscopeV2.  In a composition that lasts, at every
    frame the component renders; the inner ring is turned by
    360 * frame / durationInFrames degrees and the outer ring by what is
    left of a full turn, so that their rotations always add up to 360; one
    wobble of at most 15 degrees tilts both rings, the inner ring around
    (60, 10) degrees and the outer ring, the opposite way, around
    (-20, 45). *)
Theorem rings_counter_rotate (props : Props) (cfg : VideoConfig) (f : Z) :
  (0 < durationInFrames cfg)%Z ->
  exists tree inner outer wobble,
    GyroscopeV2.GyroscopeV2 props f cfg = Ok tree /\
    Reading.style_at [1; 0; 0]%nat "transform" tree
    = Some (VStr [Lit "rotateX("; Num (60 + wobble); Lit "deg) rotateY(";
                  Num (10 - wobble); Lit "deg) rotateZ("; Num inner;
                  Lit "deg)"]) /\
    Reading.style_at [1; 1; 0]%nat "transform" tree
    = Some (VStr [Lit "rotateX("; Num (-20 - wobble); Lit "deg) rotateY(";
                  Num (45 + wobble); Lit "deg) rotateZ("; Num outer;
                  Lit "deg)"]) /\
    inner = 360 * (IZR f / IZR (durationInFrames cfg)) /\
    inner + outer = 360 /\
    -15 <= wobble <= 15.
Proof.
  intro Hd. assert (Hr : 0 < IZR (durationInFrames cfg))
    by (apply IZR_lt; exact Hd).
  unfold GyroscopeV2.GyroscopeV2. cbn [ofZ JsNum_R].
  rewrite !real_interpolate_segment by lra. cbn [Result_bind].
  rewrite !extended_segment by lra.
  unfold dec. cbn [ofZ quo mul add sub Math_sin JsMath_R JsNum_R].
  eexists. eexists. eexists. exists (sin (IZR f * (2 / 100)) * 15).
  split; [reflexivity|].
  split; [reflexivity|]. split; [reflexivity|].
  cbn [rotation]. split; [field; lra|]. split; [field; lra|].
  pose proof (SIN_bound (IZR f * (2 / 100))) as [Hlo Hhi]. lra.
Qed.

Lemma rings_counter_rotate_witness :
  exists tree inner outer wobble,
    GyroscopeV2.GyroscopeV2 (N := R) defaultProps 75 compositionConfig
    = Ok tree /\
    Reading.style_at [1; 0; 0]%nat "transform" tree
    = Some (VStr [Lit "rotateX("; Num (60 + wobble); Lit "deg) rotateY(";
                  Num (10 - wobble); Lit "deg) rotateZ("; Num inner;
                  Lit "deg)"]) /\
    Reading.style_at [1; 1; 0]%nat "transform" tree
    = Some (VStr [Lit "rotateX("; Num (-20 - wobble); Lit "deg) rotateY(";
                  Num (45 + wobble); Lit "deg) rotateZ("; Num outer;
                  Lit "deg)"]) /\
    inner = 360 * (75 / 300) /\
    inner + outer = 360 /\
    -15 <= wobble <= 15.
Proof.
  apply (rings_counter_rotate defaultProps compositionConfig 75).
  reflexivity.
Defined.
End GyroscopeFacts.

(** ** SuccessCheckmark: the pulse of the check mark *)

Module SuccessCheckmarkFacts.
Import Analytic SuccessCheckmark.
Local Open Scope R_scope.

Section Sprung.
Context {curve : SpringCurve R}.

(** X29.  The check mark of SuccessCheckmark.  With a positive fps the
    component renders at every frame, and the check mark is scaled by the
    value of its spring times a pulse; the pulse is exactly 1 up to frame
    50 (pulseStartFrame) and stays between 1 and 1.05 afterwards. *)
Theorem check_mark_pulses_gently (props : Props) (cfg : VideoConfig) (f : Z) :
  (0 < fps cfg)%Z ->
  exists tree sprung pulse,
    SuccessCheckmark.SuccessCheckmark props f cfg = Ok tree /\
    Reading.prop_at [0; 1]%nat "transform" tree
    = Some (VStr [Lit "scale("; Num (sprung * pulse); Lit ")"]) /\
    spring (mkSpring (IZR f) (IZR (fps cfg)) springConfig None 20)
    = Ok sprung /\
    1 <= pulse <= 105 / 100 /\
    ((f <= 50)%Z -> pulse = 1).
Proof.
  intro Hfps. assert (Hr : 0 < IZR (fps cfg)) by (apply IZR_lt; exact Hfps).
  unfold SuccessCheckmark.SuccessCheckmark. cbn [ofZ JsNum_R].
  destruct (spring (mkSpring (IZR f) (IZR (fps cfg)) _ (Some 30) 0))
    as [drawn | err] eqn:Hdraw.
  2:{ pose proof (spring_ok
                    (mkSpring (IZR f) (IZR (fps cfg))
                       (mkSpringConfig (mass springConfig) dampingDrawing
                          (stiffness springConfig)) (Some 30) 0)) as Hok.
      cbn [ofZ JsNum_R] in Hok. rewrite Hdraw in Hok.
      assert (false = true); [|discriminate].
      apply Hok; [exact Hr|].
      cbn [spring_durationInFrames]. intros d Hd. injection Hd as <-.
      cbn [ofZ JsNum_R]. lra. }
  cbn [Result_bind].
  rewrite (real_interpolate_segment drawn 0 1) by lra. cbn [Result_bind].
  destruct (spring (mkSpring (IZR f) (IZR (fps cfg)) springConfig None 20))
    as [sprung | err] eqn:Hscale.
  2:{ pose proof (spring_ok
                    (mkSpring (IZR f) (IZR (fps cfg)) springConfig None 20))
        as Hok.
      rewrite Hscale in Hok.
      assert (false = true); [|discriminate].
      apply Hok; [exact Hr|].
      cbn [spring_durationInFrames]. intros d Hd. discriminate Hd. }
  cbn [Result_bind].
  rewrite div_value by lra. cbn [Result_bind].
  rewrite real_interpolate_segment by lra. cbn [Result_bind].
  rewrite (extended_segment _ (-1) 1 1 (dec 105 100))
    by (unfold dec; cbn [ofZ quo JsNum_R]; lra).
  unfold dec, pulseStartFrame.
  cbn [ofZ quo mul add sub Math_sin Math_PI JsMath_R JsNum_R].
  set (turn := sin (Math_max 0 (IZR f - 50) / IZR (fps cfg) * PI * 2)).
  assert (Hturn : -1 <= turn <= 1) by (subst turn; apply SIN_bound).
  clearbody turn.
  eexists. exists sprung.
  exists (if ltb 50 (IZR f)
          then (turn - -1) / (1 - -1) * (105 / 100 - 1) + 1 else 1).
  split; [reflexivity|]. split; [reflexivity|]. split; [reflexivity|].
  cases_ltb 50 (IZR f).
  - split; [lra|]. intro Hearly. apply IZR_le in Hearly. lra.
  - split; [lra|]. reflexivity.
Qed.
End Sprung.

Lemma check_mark_pulses_gently_witness :
  exists tree sprung pulse,
    SuccessCheckmark.SuccessCheckmark (H1 := DefaultRenders.sample_spring)
      defaultProps 80 compositionConfig = Ok tree /\
    Reading.prop_at [0; 1]%nat "transform" tree
    = Some (VStr [Lit "scale("; Num (sprung * pulse); Lit ")"]) /\
    spring (H0 := DefaultRenders.sample_spring)
      (mkSpring 80 30 springConfig None 20) = Ok sprung /\
    1 <= pulse <= 105 / 100 /\
    ((80 <= 50)%Z -> pulse = 1).
Proof.
  apply (check_mark_pulses_gently (curve := DefaultRenders.sample_spring)
           defaultProps compositionConfig 80).
  reflexivity.
Defined.
End SuccessCheckmarkFacts.

(** ** DualNeonChase: two beams, one lap *)

Module DualNeonChaseFacts.
Import Analytic DualNeonChase.
Local Open Scope R_scope.

(** The length of the track, as [perimeter] computes it. *)
Lemma track_positive :
  0 < (3400 - 2 * 60) * 2 + (1900 - 2 * 60) * 2 + 2 * PI * 60.
Proof. pose proof PI_RGT_0. lra. Qed.

(** X30.  The beams of DualNeonChase.  In a composition that lasts, at
    every frame and whatever was rendered before, the component renders;
    with P the perimeter of the track, (3400 - 2*60)*2 + (1900 - 2*60)*2
    + 2*PI*60,
    - the dash of a beam and its gap add up to P, so each path shows one
      beam;
    - the first beam is offset by -P * frame / durationInFrames, one lap
      per composition;
    - the second beam is offset by half a lap more: the beams stay opposite
      each other. *)
Theorem beams_stay_opposite (props : Props) (cfg : VideoConfig) (f : Z)
    (past : list Z) (e : nat -> R) (n : nat) :
  (0 < durationInFrames cfg)%Z ->
  exists tree P beam gap first second,
    output (DualNeonChase.DualNeonChase props f cfg
              (replay DualNeonChase_composition props cfg past
                 (mount DualNeonChase_composition e n))) = Ok tree /\
    P = (3400 - 2 * 60) * 2 + (1900 - 2 * 60) * 2 + 2 * PI * 60 /\
    Reading.prop_at [0; 0; 0]%nat "strokeDasharray" tree
    = Some (VStr [Num beam; Lit " "; Num gap]) /\
    Reading.prop_at [0; 1; 0]%nat "strokeDasharray" tree
    = Some (VStr [Num beam; Lit " "; Num gap]) /\
    beam + gap = P /\
    Reading.prop_at [0; 0; 0]%nat "strokeDashoffset" tree
    = Some (VNum first) /\
    Reading.prop_at [0; 1; 0]%nat "strokeDashoffset" tree
    = Some (VNum second) /\
    first = - P * (IZR f / IZR (durationInFrames cfg)) /\
    second = first - P / 2.
Proof.
  intro Hd. assert (Hr : 0 < IZR (durationInFrames cfg))
    by (apply IZR_lt; exact Hd).
  pose proof track_positive as Htrack.
  eexists. eexists. eexists. eexists. eexists. eexists.
  split.
  { etransitivity;
      [exact (Purity.pure_output DualNeonChase_composition
                CompositionsPure.DualNeonChase_pure props cfg f past []
                e e n n)|].
    cbn [replay component DualNeonChase_composition].
    unfold DualNeonChase.DualNeonChase, pathData, perimeter,
      perimeter_factory, pathData_factory, mount, useMemo, Render_bind,
      Render_ret, lift.
    cbn [hooks entropy drawn unmounted DualNeonChase_composition
         pathData_memo perimeter_memo].
    unfold rectW, rectH, cornerRadius, neg.
    cbn [ofZ add sub mul quo Math_PI JsMath_R JsNum_R].
    rewrite real_interpolate_segment by lra.
    rewrite extended_segment by lra.
    unfold output. cbn [Result_map fst]. reflexivity. }
  split; [reflexivity|].
  split; [reflexivity|]. split; [reflexivity|].
  split; [unfold dec; cbn [ofZ add sub mul quo JsNum_R]; lra|].
  split; [reflexivity|]. split; [reflexivity|].
  split; cbn [ofZ add sub mul quo JsNum_R]; field; lra.
Qed.

Lemma beams_stay_opposite_witness :
  exists tree P beam gap first second,
    output (DualNeonChase.DualNeonChase defaultProps 150 compositionConfig
              (replay DualNeonChase_composition defaultProps
                 compositionConfig [0; 299]%Z
                 (mount DualNeonChase_composition (fun _ => 0) 0)))
    = Ok tree /\
    P = (3400 - 2 * 60) * 2 + (1900 - 2 * 60) * 2 + 2 * PI * 60 /\
    Reading.prop_at [0; 0; 0]%nat "strokeDasharray" tree
    = Some (VStr [Num beam; Lit " "; Num gap]) /\
    Reading.prop_at [0; 1; 0]%nat "strokeDasharray" tree
    = Some (VStr [Num beam; Lit " "; Num gap]) /\
    beam + gap = P /\
    Reading.prop_at [0; 0; 0]%nat "strokeDashoffset" tree
    = Some (VNum first) /\
    Reading.prop_at [0; 1; 0]%nat "strokeDashoffset" tree
    = Some (VNum second) /\
    first = - P * (150 / 300) /\
    second = first - P / 2.
Proof.
  apply (beams_stay_opposite defaultProps compositionConfig 150 [0; 299]%Z
           (fun _ => 0) 0).
  reflexivity.
Defined.
End DualNeonChaseFacts.

(** ** The same code on binary64

    What the theorems above say of NeonGrowth, NeonYearLoad,
    NeonRadioWaves and the ticks of SegmentedCountdown, evaluated on the
    numbers of the program, with Math.sin and Math.cos of [Fdlibm]. *)

Module Binary64.
Local Open Scope Z_scope.

Definition between (low x high : float) : bool :=
  PrimFloat.leb low x && PrimFloat.leb x high.

(** NeonGrowth: the three arrows (offsets 0, 20 and 40) and the glow. *)
Definition arrow_in_range (offset frame : Z) : bool :=
  match NeonGrowth.getFloat (N := float) frame NeonGrowth.compositionConfig
          (float_ofZ offset),
        NeonGrowth.glowPulse (N := float) frame with
  | Ok v, Ok g =>
      between (float_ofZ (-80)) v (float_ofZ 80)
      && between (float_ofZ 10) g (float_ofZ 25)
  | _, _ => false
  end.

Lemma arrows_bob_in_range_binary64 :
  forallb (fun offset => forallb (arrow_in_range offset) (indices 300))
    [0; 20; 40] = true
  /\ NeonGrowth.getFloat (N := float) 0 NeonGrowth.compositionConfig
       (float_ofZ 0) = Ok PrimFloat.zero.
Proof. split; vm_compute; reflexivity. Qed.

(** NeonYearLoad: the fill is (min(frame, D) / D) * 100, within [0, 100],
    and 100 from frame D on; with durationInFrames 120 the fill at frame
    29 is 28.999999999999996 and the label shows 28. *)
Definition fill_as_computed (duration frame : Z) : bool :=
  let D := duration - 20 in
  match NeonYearLoad.progress (N := float) frame
          (mkVideoConfig 30 duration 3840 2160) with
  | Ok fill =>
      PrimFloat.eqb fill
        (PrimFloat.mul (PrimFloat.div (float_ofZ (Z.min frame D)) (float_ofZ D))
           (float_ofZ 100))
      && between PrimFloat.zero fill (float_ofZ 100)
      && (if D <=? frame then PrimFloat.eqb fill (float_ofZ 100) else true)
  | Throw _ => false
  end.

Lemma loading_bar_fills_binary64 :
  forallb (fun duration => forallb (fill_as_computed duration) (indices 400))
    [21; 100; 120; 150; 299] = true
  /\ Result_map float_floorZ
       (NeonYearLoad.progress (N := float) 29 (mkVideoConfig 30 120 3840 2160))
     = Ok 28.
Proof. split; vm_compute; reflexivity. Qed.

(** NeonRadioWaves: width, opacity and stroke of every wave one life time
    later, for 8 and for 6 waves of 120 frames. *)
Definition wave_shown (props : NeonRadioWaves.WaveProps) (frame index : Z)
    : option (Z * Z * Z) :=
  match NeonRadioWaves.wave (N := float) props frame index with
  | Ok ring =>
      match Reading.style "width" ring, Reading.style "opacity" ring,
            Reading.style "border" ring with
      | Some (VNum w), Some (VNum o), Some (VStr (Num b :: _)) =>
          Some (Fdlibm.bits w, Fdlibm.bits o, Fdlibm.bits b)
      | _, _, _ => None
      end
  | Throw _ => None
  end.

Definition wave_comes_back (props : NeonRadioWaves.WaveProps) (frame index : Z)
    : bool :=
  match wave_shown props frame index,
        wave_shown props (frame + NeonRadioWaves.waveLifeTime props) index with
  | Some (w, o, b), Some (w', o', b') => (w =? w') && (o =? o') && (b =? b')
  | _, _ => false
  end.

Lemma waves_repeat_binary64 :
  forallb (fun props =>
             forallb (fun frame =>
                        forallb (wave_comes_back props frame)
                          (indices (Z.to_nat (NeonRadioWaves.waveCount props))))
               (indices 240))
    [NeonRadioWaves.defaultProps; NeonRadioWaves.mkProps 6 120 1000 "#ff1100ff" 10]
  = true.
Proof. vm_compute. reflexivity. Qed.

(** SegmentedCountdown: the ticks of the whole degrees on a ring of radius
    450; the tick of angle 0 is at y = -450 (x is 2.7554552980815446e-14
    there, not 0) and the tick of angle 90 at (450, 0). *)
Definition tick_at (angle : Z) : option (float * float) :=
  match Reading.style "transform"
          (SegmentedCountdown.Tick (N := float) (float_ofZ angle) PrimFloat.one
             (float_ofZ 450) (float_ofZ 40) (float_ofZ 10) "#00FFFF" true) with
  | Some (VStr [_; Num x; _; Num y; _; _; _]) => Some (x, y)
  | _ => None
  end.

Definition tick_within (angle : Z) : bool :=
  match tick_at angle with
  | Some (x, y) =>
      PrimFloat.leb (PrimFloat.abs x) (float_ofZ 450)
      && PrimFloat.leb (PrimFloat.abs y) (float_ofZ 450)
  | None => false
  end.

Lemma ticks_within_the_ring_binary64 :
  forallb tick_within (indices 360) = true
  /\ tick_at 0 = Some (0x1.f060f25c9c9c4p-46%float, float_ofZ (-450))
  /\ tick_at 90 = Some (float_ofZ 450, PrimFloat.zero).
Proof. repeat split; vm_compute; reflexivity. Qed.
End Binary64.
